(* ===== verification/_CoqProject ===== *)
-Q . S2P
Prelude.v
GoTime.v
Text.v
Constant.v
Packet.v
Codec.v
CodecWire.v
Framing.v
FramingSpec.v
Stream.v
Payload.v
Realtime.v
Json.v
Messages.v
Aes.v
Crypto.v
Registry.v
World.v
Options.v
Connection.v
Memory.v
Server.v
Effects.v
Sessions.v
Start.v
Interleave.v
Writers.v
Forward.v
Mqtt.v
Traffic.v
Idle.v
Shutdown.v
Deadlines.v
Refine.v
Telemetry.v
Simclient.v
Stresstest.v
Workers.v
Report.v
Example.v
