(* ===== verification/Prelude.v ===== *)
(** * A GB/T 32960 server: verification of the Go SDK

    The SDK under [src/] receives the telemetry of electric vehicles: it accepts
    TCP connections, cuts the byte stream into frames, decodes their bodies,
    calls the user's handler, answers, forwards what it decoded to Kafka or MQTT
    and, once a login has handed out a token, speaks AES-128 with the vehicle.
    This library translates that program to Rocq functions and proves what makes
    it correct, and the places where it is not.

    ** How the code is modelled

    Numbers are [Z], conversions to a machine width written out ([to_byte],
    [to_uint16]); slices and strings are lists.  Code that can fail returns an
    [outcome]: a value, an error, a panic (an index or a slice out of range) or
    the model's fuel running out.  Every slice, index and store of the source
    is a call of [slice], [index], [store], [copy_into] with the source's
    positions, so that "does not panic" is a theorem and not an assumption.  A
    loop that consumes its input takes a fuel of one more than the bytes it has
    left; each iteration takes at least one, and [decode_refines],
    [messages_total] and [read_terminates] show the fuel never runs out.
    Counted loops recurse on the count.

    Connections live in a heap of [World] (World.v), together with the fields of
    [Server] that change, the clock, the results of future writes and a trace
    of what left the process.  An operation of [conn.go] or [server.go] is one
    step of a state monad over [World].  The user's code is any program over
    the exported methods of the SDK ([prog]): a callback can send on, close or
    look up connections, and nothing else.  A running server is the relation
    [Server.step]: an accept, one read of a connection, one half of an idle
    check, a stop, a call by user code, a tick of the clock or a change of the
    network, in any order.

    Where the order inside an operation matters, goroutines are program counters
    over the same [World].  Interleave.v cuts [Close], the assignments of a login and
    the accept loop into statements; Writers.v [Send], with its lock and a network that
    takes a write piece by piece; Deadlines.v has the read loop with the deadline of
    each read, on a clock that advances beside it; Shutdown.v the accept loop, the read
    loops, the idle check, the wait group and [Stop]; Idle.v the loop of the idle check;
    Forward.v the goroutines that hand messages to forwarders, and Mqtt.v the calls of
    the MQTT forwarder inside one another (both over libraries that deliver at least
    once); Workers.v the clients of the load generator
    and Report.v its monitor.  Memory.v replaces lists by slices of shared arrays for
    the code where sharing could show: the pooled read buffers and the padding.

    Code outside [src/] is a parameter: the Kafka and MQTT clients are the classes
    [Sarama] and [Paho] over the state outside, with their contracts as [SaramaLaws]
    and [PahoLaws] and an instance that keeps each; AES-128 is the class [BlockCipher]
    with the cipher of FIPS 197 as its instance.  Of the standard library the model
    has what the source uses of [time], [encoding/hex], [encoding/base64],
    [encoding/json] and [fmt].

    ** Files

    - Prelude.v (this file): Go values, [outcome], reading and writing byte
      slices, words as bytes, the Hoare-style [post] and the automation.
    - GoTime.v: the six-byte times of [decoder.go] and the part of package [time]
      they use.
    - Text.v, Json.v: numbers, hexadecimal, base64 and RFC 3339 times as text; JSON
      values, the text [encoding/json] writes for them and a reader for it.
    - Constant.v, Packet.v: [constant/command.go], [packet.go].
    - Codec.v, CodecWire.v: package [codec], one decoder per data field; the
      wire formats and the class [Wire] the message layer is proved against.
    - Framing.v, FramingSpec.v, Stream.v: [Decoder], [Feed], [Decode],
      [EncodeResponse], [VerifyVIN] of [decoder.go]; the reference decoder [scan];
      frames in a stream.
    - Payload.v: login, logout, platform and parameter bodies ([decoder.go],
      [conn.go]).
    - Realtime.v: realtime and reissue messages ([message.go]).
    - Messages.v: the forwarded messages as JSON ([packet.go]).
    - Aes.v, Crypto.v: AES-128 as a [BlockCipher]; CBC, padding and the session
      key of [crypto.go].
    - Registry.v: [vin_registry.go] and [auth/auth.go].
    - World.v: the state, the monad, the user's interfaces ([events.go],
      [interfaces.go]).
    - Options.v: [options.go] and [NewServer].
    - Connection.v, Server.v: [conn.go], [server.go], and the invariant.
    - Effects.v: the class [Effect], through which a relation of worlds is shown once
      for every operation; it says which events the relation allows.
    - Memory.v: [buffer.go], and [Feed], [Decode], the padding over shared arrays.
    - Sessions.v, Traffic.v: what a connection's user relies on; packets,
      idle check and stop.
    - Start.v: the accept loop and the identifiers of connections.
    - Interleave.v, Writers.v, Idle.v, Shutdown.v, Deadlines.v: the goroutines of the
      server and what they do to a connection.
    - Forward.v, Mqtt.v: package [forward] and [Server.forward]; delivery to Kafka and to
      an MQTT broker, both at least once.
    - Refine.v: the read loop against the specification that handles the packets
      of the reference decoder one by one until the connection is closed.
    - Telemetry.v: a vehicle's trip from its layout to the user's handler, through all
      of the above.
    - Simclient.v, Stresstest.v, Workers.v, Report.v, Example.v: [cmd/]: the simulated
      vehicle, the load generator's clients, its workers, what it prints, the example
      server and the life of a vehicle's connection with it.

    ** What the theorems show

    - The whole way: [trip_delivered] (login, encrypted reports and logout reach the
      handler and the forwarders with the values the vehicle laid out under their names,
      alarms apart, however the network cut the stream).
    - Framing: [decode_refines] (the decoder is the reference decoder, panics
      included), [decode_sound], [encode_decode_roundtrip], [stream_reads]
      (independence of how the stream was cut), [bcc_detects_single_byte], and
      the cuts that break it: [decode_panics_before_bcc],
      [decode_loses_split_marker], [stray_marker_stalls].
    - Bodies: round trips of every field, message and body against reference
      layouts and, for messages, a relation field by named field ([carries]; a
      temperature field is not carried, an alarm never read): [field_roundtrip],
      [realtime_roundtrip], [reissue_roundtrip], [login_roundtrip],
      [plat_login_roundtrip], [param_roundtrip], [time_roundtrip]; totality and typing on any bytes ([field_total],
      [messages_total], [login_total], [bodies_decided_by_length]);
      [alarm_hides_rest].
    - Encryption: [encrypt_decrypt_roundtrip], [crypto_errors],
      [encrypted_session] (for any decoder at the other end), [encrypt_writes_behind].
    - Connections and the server: [server_invariant] over all reachable states,
      [read_terminates], [reads_refine_stream] (the read loop is [handleReads], closed
      connections and panics included), [reads_refine_packets], [send_spec],
      [close_spec], [login_accepted], [login_refused], [reports_handled],
      [clock_answered], [bad_packets_dropped], [registry_refines],
      [codec_options_ignored], [unnamed_ignored], [new_server_options];
      [closed_connection_revived] and [stale_registration] are the two ways the
      indexes go wrong on one goroutine.
    - Starting and stopping: [start_serves], [conn_id_fresh], [idle_check],
      [idle_is_server], [sweep_closes_idle], [stop_closes_all], [stop_completes];
      [accept_after_stop] and [example_exits_early] are the two races of stopping.
    - Goroutines inside one another: [closes_interleave], [limit_kept],
      [statements_are_operations]; [double_close], [login_leak];
      [read_buffers_isolated].
    - Several senders on a connection: [senders_take_turns] (whole frames while no write
      fails half-way; the lock is given back after boundedly many steps of its holder);
      [send_alone] (the operation [Send] is its statements without anyone in
      between); [torn_frame] and [key_race], what a failed write and a logout can do
      to them.
    - Time: [silence_closed] (a silent connection is closed by its read deadline),
      [sweep_closes_idle] (how long a walk of the idle check takes, given how long a
      heartbeat takes to be sent) and [idle_check_shadowed] (with the default timeouts
      the idle check never acts).
    - Forwarding: [marshal_faithful], [readJson_print]; [step_broadcast] and
      [forwarded_once] (every forwarder gets, once, what the handler was told of);
      [kafka_delivers] and [mqtt_delivers] (to the topic, at least once), [mqtt_alone],
      [forwarders_configured]; [forward_after_close], [forward_reorders], [vins_merged].
    - Clients: [sim_frame_read], [sim_realtime_read], [sim_main_writes],
      [stress_client_read], [load_runs], [report_adds_up], [no_workers];
      [example_serves] (the life of any vehicle's connection at the example server), with
      [example_session] as a test of the definitions.

    ** What is not modelled

    Keep-alive, [RemoteAddr] and logging; the floating-point rates of the load
    generator's output; the waits of the simulator.  Outside of Writers.v a write is
    all or nothing, and the lock of [Send] is free; outside of Deadlines.v and Idle.v
    (where it is a parameter) an operation takes no time; outside of Interleave.v,
    Writers.v and Shutdown.v an operation is one step; a handler of the user runs
    inside it.  The user does not keep the response it
    returned (its login time is filled in later), nor change a message before the
    goroutines of [forward] have written it as JSON.  Durations beyond 292 years.
    [make] with a negative number of workers, which panics.

    ** Still to do

    User code between the statements of a handler. *)
From stdpp Require Export base list numbers strings.
From Stdlib Require Export ZArith Lia.
#[global] Open Scope Z_scope.

(** ** Go values *)

(** A [byte], [uint16], [uint32] or [int] is a [Z]; the conversions that wrap
    are written out ([to_byte], [to_uint16]).  [int] is Go's 64-bit [int].
    A [[]byte] and a Go [string] (an immutable byte sequence) are lists. *)
Abbreviation byte := Z (only parsing).
Abbreviation uint16 := Z (only parsing).
Abbreviation uint32 := Z (only parsing).
Abbreviation int := Z (only parsing).
Abbreviation bytes := (list Z) (only parsing).
Abbreviation gostring := (list Z) (only parsing).

(** Errors: the package's sentinel errors, [net.ErrClosed] and [fmt.Errorf] with its format
    string and integer operands. *)
Inductive goerr :=
  | ErrInvalidStart
  | ErrInvalidVIN
  | ErrInvalidLength
  | ErrInvalidChecksum
  | ErrBufferTooSmall
  | ErrKeyTooShort
  | ErrDecrypt
  | ErrClosed
  | Errorf (format : string) (args : list int).

#[export] Instance goerr_eq_dec : EqDecision goerr.
Proof. solve_decision. Defined.

(** What a call does: it returns a value, returns an error, panics (index or
    slice bounds out of range), or the model's fuel ran out. *)
Inductive outcome (A : Type) :=
  | Ok (a : A)
  | Err (e : goerr)
  | Panic
  | OutOfFuel.
Arguments Ok {A} a.
Arguments Err {A} e.
Arguments Panic {A}.
Arguments OutOfFuel {A}.

Definition bind {A B} (m : outcome A) (k : A -> outcome B) : outcome B :=
  match m with
  | Ok a => k a
  | Err e => Err e
  | Panic => Panic
  | OutOfFuel => OutOfFuel
  end.

Declare Scope go_scope.
Delimit Scope go_scope with go.
Notation "'let!' x := m 'in' k" := (bind m (fun x => k))
  (at level 10, x binder, m at level 100, k at level 200) : go_scope.
Notation "'let!' ' p := m 'in' k" := (bind m (fun p => k))
  (at level 10, p pattern, m at level 100, k at level 200) : go_scope.
#[global] Open Scope go_scope.

Lemma Ok_inj {A} (a b : A) : Ok a = Ok b -> a = b.
Proof. by intros [= ->]. Qed.

(** A call that neither panics nor runs out of fuel. *)
Definition returns {A} (m : outcome A) : Prop :=
  match m with Ok _ | Err _ => True | Panic | OutOfFuel => False end.

(** ** Slices *)

Definition len {A} (l : list A) : int := Z.of_nat (length l).

(** [l[i]] *)
Definition index (l : bytes) (i : int) : outcome byte :=
  if (0 <=? i) && (i <? len l) then Ok (nth (Z.to_nat i) l 0) else Panic.

Definition sub {A} (l : list A) (i j : int) : list A :=
  take (Z.to_nat (j - i)) (drop (Z.to_nat i) l).

(** [l[i:j]]; the slices of this program are cut within their length. *)
Definition slice (l : bytes) (i j : int) : outcome bytes :=
  if (0 <=? i) && (i <=? j) && (j <=? len l) then Ok (sub l i j) else Panic.

(** [l[i] = b] *)
Definition store (l : bytes) (i : int) (b : byte) : outcome bytes :=
  if (0 <=? i) && (i <? len l) then Ok (<[Z.to_nat i := b]> l) else Panic.

(** [copy(dst, src)]: as many bytes as the shorter of the two holds. *)
Definition copy (dst src : bytes) : bytes :=
  take (length dst) src ++ drop (length src) dst.

(** [copy(l[i:j], src)] *)
Definition copy_into (l : bytes) (i j : int) (src : bytes) : outcome bytes :=
  let! d := slice l i j in
  Ok (take (Z.to_nat i) l ++ copy d src ++ drop (Z.to_nat j) l).

(** [make([]byte, n)] *)
Definition make (n : int) : outcome bytes :=
  if 0 <=? n then Ok (replicate (Z.to_nat n) 0) else Panic.

(** ** Integers *)

Definition to_byte (z : int) : byte := z mod 256.
Definition to_uint16 (z : int) : uint16 := z mod 65536.

Definition is_byte (b : Z) : Prop := 0 <= b < 256.
Definition is_uint16 (v : Z) : Prop := 0 <= v < 65536.
Definition is_uint32 (v : Z) : Prop := 0 <= v < 4294967296.
Abbreviation all_bytes := (Forall is_byte).

Definition be16 (b0 b1 : byte) : uint16 := Z.lor b1 (Z.shiftl b0 8).
Definition be32 (b0 b1 b2 b3 : byte) : uint32 :=
  Z.lor (Z.lor (Z.lor b3 (Z.shiftl b2 8)) (Z.shiftl b1 16)) (Z.shiftl b0 24).

(** [encoding/binary.BigEndian] *)
Definition Uint16 (b : bytes) : outcome uint16 :=
  let! b1 := index b 1 in
  let! b0 := index b 0 in
  Ok (be16 b0 b1).

Definition Uint32 (b : bytes) : outcome uint32 :=
  let! b3 := index b 3 in
  let! b2 := index b 2 in
  let! b1 := index b 1 in
  let! b0 := index b 0 in
  Ok (be32 b0 b1 b2 b3).

(** The bytes [PutUint16] and [PutUint32] write. *)
Definition put16 (v : uint16) : bytes :=
  [to_byte (Z.shiftr v 8); to_byte v].
Definition put32 (v : uint32) : bytes :=
  [to_byte (Z.shiftr v 24); to_byte (Z.shiftr v 16);
   to_byte (Z.shiftr v 8); to_byte v].

(** [binary.BigEndian.UintN(l[i:i+n])] *)
Definition read16 (l : bytes) (i : int) : outcome uint16 :=
  let! s := slice l i (i + 2) in Uint16 s.
Definition read32 (l : bytes) (i : int) : outcome uint32 :=
  let! s := slice l i (i + 4) in Uint32 s.

#[global] Arguments to_byte : simpl never.
#[global] Arguments to_uint16 : simpl never.
#[global] Arguments be16 : simpl never.
#[global] Arguments be32 : simpl never.
#[global] Arguments put16 : simpl never.
#[global] Arguments put32 : simpl never.
#[global] Arguments len : simpl never.
#[global] Arguments index : simpl never.
#[global] Arguments slice : simpl never.
#[global] Arguments store : simpl never.
#[global] Arguments read16 : simpl never.
#[global] Arguments read32 : simpl never.
#[global] Arguments sub : simpl never.

(** ** Lengths *)

Create Rewrite HintDb go_length.
#[export] Hint Rewrite @length_app @length_take @length_drop @length_replicate
  @length_insert @length_cons @length_nil @length_fmap : go_length.

(** [llia] decides linear arithmetic over the lengths of lists. *)
Ltac llia :=
  unfold len in *; autorewrite with go_length in *; cbn [length] in *; lia.

Section lengths.
Context {A : Type}.
Implicit Types l : list A.

Lemma len_nonneg l : 0 <= len l.
Proof. llia. Qed.
Lemma len_nil : len (@nil A) = 0.
Proof. done. Qed.
Lemma len_cons x l : len (x :: l) = 1 + len l.
Proof. llia. Qed.
Lemma len_app l1 l2 : len (l1 ++ l2) = len l1 + len l2.
Proof. llia. Qed.
Lemma len_sub l i j : 0 <= i <= j -> j <= len l -> len (sub l i j) = j - i.
Proof. intros. unfold sub. llia. Qed.
Lemma len_replicate n (x : A) : 0 <= n -> len (replicate (Z.to_nat n) x) = n.
Proof. intros. llia. Qed.

Lemma to_nat_len l : Z.to_nat (len l) = length l.
Proof. unfold len. lia. Qed.

Lemma take_len_app l1 l2 : take (Z.to_nat (len l1)) (l1 ++ l2) = l1.
Proof. rewrite to_nat_len. apply take_app_length. Qed.
Lemma drop_len_app l1 l2 : drop (Z.to_nat (len l1)) (l1 ++ l2) = l2.
Proof. rewrite to_nat_len. apply drop_app_length. Qed.

Lemma sub_app l1 l2 l3 i j :
  i = len l1 -> j = i + len l2 -> sub (l1 ++ l2 ++ l3) i j = l2.
Proof.
  intros -> ->. unfold sub. rewrite drop_len_app.
  replace (len l1 + len l2 - len l1) with (len l2) by lia. apply take_len_app.
Qed.

Lemma sub_tail l1 l2 i j : i = len l1 -> j = i + len l2 -> sub (l1 ++ l2) i j = l2.
Proof. intros Hi Hj. rewrite <- (app_nil_r l2) at 1. by apply sub_app. Qed.

Lemma sub_all l : sub l 0 (len l) = l.
Proof.
  unfold sub. rewrite Z.sub_0_r, to_nat_len. cbn. rewrite drop_0.
  apply firstn_all.
Qed.

(** A list is cut in three at two positions. *)
Lemma split_at l i j :
  0 <= i <= j -> j <= len l ->
  l = take (Z.to_nat i) l ++ sub l i j ++ drop (Z.to_nat j) l.
Proof.
  intros Hij Hj. unfold sub.
  rewrite <- (take_drop (Z.to_nat i) l) at 1. f_equal.
  rewrite <- (take_drop (Z.to_nat (j - i)) (drop (Z.to_nat i) l)) at 1.
  rewrite drop_drop. do 2 f_equal. lia.
Qed.

Lemma len_take l i : 0 <= i <= len l -> len (take (Z.to_nat i) l) = i.
Proof. llia. Qed.
Lemma len_drop l i : 0 <= i <= len l -> len (drop (Z.to_nat i) l) = len l - i.
Proof. llia. Qed.

Lemma len_0_nil l : len l = 0 -> l = [].
Proof. destruct l; [done | unfold len; cbn; lia]. Qed.
End lengths.

Create Rewrite HintDb go_len.
#[export] Hint Rewrite @len_nil @len_cons @len_app : go_len.

(** ** Reading *)

(** [at_pos l i s]: from position [i] on, [l] reads [s]. *)
Definition at_pos (l : bytes) (i : int) (s : bytes) : Prop :=
  exists p, l = p ++ s /\ i = len p.

Section reading.
Implicit Types l s p : bytes.

Lemma at_pos_0 l : at_pos l 0 l.
Proof. by exists []. Qed.

Lemma at_pos_app p s : at_pos (p ++ s) (len p) s.
Proof. by exists p. Qed.

Lemma at_pos_step l i a s j :
  at_pos l i (a ++ s) -> j = i + len a -> at_pos l j s.
Proof.
  intros (p & -> & ->) ->. exists (p ++ a). rewrite app_assoc. split; [done | llia].
Qed.

Lemma at_pos_cons l i b s : at_pos l i (b :: s) -> at_pos l (i + 1) s.
Proof. intros H. apply (at_pos_step l i [b] s); [done | llia]. Qed.

Lemma at_pos_bound l i s : at_pos l i s -> 0 <= i /\ len l = i + len s.
Proof. intros (p & -> & ->). split; llia. Qed.

Lemma at_pos_drop l i : 0 <= i <= len l -> at_pos l i (drop (Z.to_nat i) l).
Proof.
  intros Hi. exists (take (Z.to_nat i) l). rewrite take_drop. split; [done | llia].
Qed.

Lemma index_ok l i : 0 <= i < len l -> index l i = Ok (nth (Z.to_nat i) l 0).
Proof. intros Hi. unfold index. destruct (Z.leb_spec 0 i), (Z.ltb_spec i (len l)); first [done | lia]. Qed.

Lemma index_panic l i : len l <= i -> index l i = Panic.
Proof. intros Hi. unfold index. destruct (Z.ltb_spec i (len l)); [lia|]. by rewrite andb_false_r. Qed.

Lemma slice_ok l i j : 0 <= i <= j -> j <= len l -> slice l i j = Ok (sub l i j).
Proof.
  intros. unfold slice.
  destruct (Z.leb_spec 0 i), (Z.leb_spec i j), (Z.leb_spec j (len l)); first [done | lia].
Qed.

Lemma index_at l i b s : at_pos l i (b :: s) -> index l i = Ok b.
Proof.
  intros (p & -> & ->). rewrite index_ok by llia. f_equal.
  rewrite to_nat_len, app_nth2 by lia. by rewrite Nat.sub_diag.
Qed.

Lemma slice_at l i j a s :
  at_pos l i (a ++ s) -> j = i + len a -> slice l i j = Ok a.
Proof.
  intros (p & -> & ->) ->. rewrite slice_ok by llia. f_equal. by apply sub_app.
Qed.

Lemma slice_2_at l i a b s :
  at_pos l i (a :: b :: s) -> slice l i (i + 2) = Ok [a; b].
Proof. intros H. by apply (slice_at l i _ [a; b] s). Qed.

Lemma read16_at l i a b s :
  at_pos l i (a :: b :: s) -> read16 l i = Ok (be16 a b).
Proof. intros H. unfold read16. rewrite (slice_at l i _ [a; b] s) by done. done. Qed.

Lemma read32_at l i a b c d s :
  at_pos l i (a :: b :: c :: d :: s) -> read32 l i = Ok (be32 a b c d).
Proof. intros H. unfold read32. rewrite (slice_at l i _ [a; b; c; d] s) by done. done. Qed.

Lemma store_app l1 x l2 b i :
  i = len l1 -> store (l1 ++ x :: l2) i b = Ok (l1 ++ b :: l2).
Proof.
  intros ->. unfold store.
  destruct (Z.leb_spec 0 (len l1)); [|llia].
  destruct (Z.ltb_spec (len l1) (len (l1 ++ x :: l2))); [|llia]. cbn. f_equal.
  rewrite to_nat_len. rewrite insert_app_r_alt by lia. by rewrite Nat.sub_diag.
Qed.

Lemma store_cut l l1 x l2 b i :
  l = l1 ++ x :: l2 -> i = len l1 -> store l i b = Ok (l1 ++ b :: l2).
Proof. intros ->. apply store_app. Qed.

Lemma copy_same l s : length l = length s -> copy l s = s.
Proof. intros H. unfold copy. rewrite H, firstn_all, drop_ge by lia. apply app_nil_r. Qed.

Lemma copy_into_app l1 m l2 s i j :
  i = len l1 -> j = i + len m -> length m = length s ->
  copy_into (l1 ++ m ++ l2) i j s = Ok (l1 ++ s ++ l2).
Proof.
  intros -> -> Hs. unfold copy_into.
  rewrite slice_ok by llia. rewrite sub_app by done. cbn. do 2 f_equal.
  - apply take_len_app.
  - rewrite copy_same by done. f_equal. rewrite app_assoc, <- len_app. apply drop_len_app.
Qed.

Lemma copy_into_cut l l1 m l2 s i j :
  l = l1 ++ m ++ l2 -> i = len l1 -> j = i + len m -> length m = length s ->
  copy_into l i j s = Ok (l1 ++ s ++ l2).
Proof. intros ->. apply copy_into_app. Qed.

Lemma make_ok n : 0 <= n -> make n = Ok (replicate (Z.to_nat n) 0).
Proof. intros. unfold make. by destruct (Z.leb_spec 0 n); [|lia]. Qed.
End reading.

Ltac zdm := Z.div_mod_to_equations.

(** ** Words as bytes *)

Section words.
Lemma is_byte_to_byte z : is_byte (to_byte z).
Proof. apply Z.mod_pos_bound. lia. Qed.

Lemma to_byte_small b : is_byte b -> to_byte b = b.
Proof. apply Z.mod_small. Qed.

Lemma lor_shiftl lo hi k :
  0 <= k -> 0 <= lo < 2 ^ k -> Z.lor lo (Z.shiftl hi k) = lo + hi * 2 ^ k.
Proof.
  intros Hk Hlo. rewrite <- Z.shiftl_mul_pow2 by lia.
  rewrite Z.add_nocarry_lxor, Z.lxor_lor; [done| |]; apply Z.bits_inj'; intros n Hn;
    rewrite Z.land_spec, Z.bits_0; destruct (Z.lt_ge_cases n k) as [Hnk|Hnk].
  1,3: rewrite (Z.shiftl_spec_low hi) by lia; apply andb_false_r.
  all: rewrite <- (Z.mod_small lo (2 ^ k)) by lia; by rewrite Z.mod_pow2_bits_high.
Qed.

Lemma be16_eq b0 b1 : is_byte b1 -> be16 b0 b1 = b0 * 256 + b1.
Proof. intros []. unfold be16. rewrite lor_shiftl by lia. lia. Qed.

Lemma be32_eq b0 b1 b2 b3 :
  is_byte b1 -> is_byte b2 -> is_byte b3 ->
  be32 b0 b1 b2 b3 = b0 * 16777216 + b1 * 65536 + b2 * 256 + b3.
Proof.
  intros [] [] []. unfold be32.
  rewrite (lor_shiftl b3) by lia. rewrite (lor_shiftl (b3 + _)) by lia.
  rewrite lor_shiftl by lia. lia.
Qed.

Lemma put16_eq v : put16 v = [v / 256 mod 256; v mod 256].
Proof. unfold put16, to_byte. by rewrite Z.shiftr_div_pow2. Qed.

Lemma put32_eq v :
  put32 v = [v / 16777216 mod 256; v / 65536 mod 256; v / 256 mod 256; v mod 256].
Proof. unfold put32, to_byte. by rewrite !Z.shiftr_div_pow2. Qed.

Lemma be16_bound b0 b1 : is_byte b0 -> is_byte b1 -> is_uint16 (be16 b0 b1).
Proof. intros [] Hb. rewrite be16_eq by done. destruct Hb. unfold is_uint16. lia. Qed.

Lemma be32_bound b0 b1 b2 b3 :
  is_byte b0 -> is_byte b1 -> is_byte b2 -> is_byte b3 -> is_uint32 (be32 b0 b1 b2 b3).
Proof. intros [] [] [] []. rewrite be32_eq by done. unfold is_uint32. lia. Qed.

Lemma be16_put v : is_uint16 v -> be16 (to_byte (Z.shiftr v 8)) (to_byte v) = v.
Proof.
  intros []. rewrite be16_eq by apply is_byte_to_byte. unfold to_byte.
  rewrite Z.shiftr_div_pow2 by lia. change (2 ^ 8) with 256.
  Z.div_mod_to_equations. lia.
Qed.

Lemma be32_put v :
  is_uint32 v ->
  be32 (to_byte (Z.shiftr v 24)) (to_byte (Z.shiftr v 16)) (to_byte (Z.shiftr v 8)) (to_byte v) = v.
Proof.
  intros []. rewrite be32_eq by apply is_byte_to_byte. unfold to_byte.
  rewrite !Z.shiftr_div_pow2 by lia.
  change (2 ^ 24) with 16777216. change (2 ^ 16) with 65536. change (2 ^ 8) with 256.
  Z.div_mod_to_equations. lia.
Qed.

Lemma put16_be b0 b1 : is_byte b0 -> is_byte b1 -> put16 (be16 b0 b1) = [b0; b1].
Proof.
  intros [] []. rewrite put16_eq, be16_eq by done.
  f_equal; [|f_equal]; Z.div_mod_to_equations; lia.
Qed.

Lemma put32_be b0 b1 b2 b3 :
  is_byte b0 -> is_byte b1 -> is_byte b2 -> is_byte b3 ->
  put32 (be32 b0 b1 b2 b3) = [b0; b1; b2; b3].
Proof.
  intros [] [] [] []. rewrite put32_eq, be32_eq by done.
  repeat f_equal; Z.div_mod_to_equations; lia.
Qed.

Lemma put16_bytes v : all_bytes (put16 v).
Proof. repeat constructor; apply Z.mod_pos_bound; lia. Qed.
Lemma put32_bytes v : all_bytes (put32 v).
Proof. repeat constructor; apply Z.mod_pos_bound; lia. Qed.

Lemma len_put16 v : len (put16 v) = 2.
Proof. done. Qed.
Lemma len_put32 v : len (put32 v) = 4.
Proof. done. Qed.

Lemma read16_put l i v s :
  at_pos l i (put16 v ++ s) -> is_uint16 v -> read16 l i = Ok v.
Proof. intros H Hv. erewrite read16_at by exact H. by rewrite be16_put. Qed.

Lemma read32_put l i v s :
  at_pos l i (put32 v ++ s) -> is_uint32 v -> read32 l i = Ok v.
Proof. intros H Hv. erewrite read32_at by exact H. by rewrite be32_put. Qed.

Lemma at_pos_skip16 l i v s : at_pos l i (put16 v ++ s) -> at_pos l (i + 2) s.
Proof. intros H. by apply (at_pos_step l i (put16 v) s). Qed.

Lemma at_pos_skip32 l i v s : at_pos l i (put32 v ++ s) -> at_pos l (i + 4) s.
Proof. intros H. by apply (at_pos_step l i (put32 v) s). Qed.

Lemma Uint16_put v : is_uint16 v -> Uint16 (put16 v) = Ok v.
Proof.
  intros Hv. transitivity (Ok (be16 (to_byte (Z.shiftr v 8)) (to_byte v))); [done|].
  by rewrite be16_put.
Qed.

Lemma read16_returns l i : 0 <= i -> i + 2 <= len l -> exists v, read16 l i = Ok v.
Proof.
  intros. unfold read16. rewrite slice_ok by lia. cbn. unfold Uint16.
  assert (len (sub l i (i + 2)) = 2) as Hs by (rewrite len_sub; lia).
  rewrite !index_ok by lia. cbn. eauto.
Qed.
End words.
#[export] Hint Rewrite len_put16 len_put32 : go_len.

(** Deciding widths on concrete inputs. *)
Definition is_byteb (b : Z) : bool := (0 <=? b) && (b <? 256).

Lemma is_byteb_spec b : is_byteb b = true <-> is_byte b.
Proof. unfold is_byteb, is_byte. rewrite andb_true_iff, Z.leb_le, Z.ltb_lt. done. Qed.

Lemma all_bytes_check l : forallb is_byteb l = true -> all_bytes l.
Proof.
  rewrite forallb_forall, Forall_forall. intros H b Hb. apply is_byteb_spec, H.
  by apply list_elem_of_In.
Qed.

(** [check_bytes] proves [all_bytes l] for a closed [l]. *)
Ltac check_bytes := apply all_bytes_check; vm_compute; reflexivity.

(** ** What a call ensures *)

(** [post m P E]: [m] does not panic or run out of fuel, the value it returns
    satisfies [P] and the error it returns satisfies [E].  [ensures m P] says
    nothing of errors and [yields m P] that there is none. *)
Definition post {A} (m : outcome A) (P : A -> Prop) (E : goerr -> Prop) : Prop :=
  match m with Ok a => P a | Err e => E e | Panic | OutOfFuel => False end.
Abbreviation ensures m P := (post m P (fun _ => True)).
Abbreviation yields m P := (post m P (fun _ => False)).

Section ensures.
Context {A B : Type}.
Implicit Types (m : outcome A) (P : A -> Prop) (E : goerr -> Prop).

Lemma post_returns m P E : post m P E -> returns m.
Proof. by destruct m. Qed.

Lemma post_ok m P E a : post m P E -> m = Ok a -> P a.
Proof. by intros H ->. Qed.

Lemma yields_ok m P : yields m P -> exists a, m = Ok a /\ P a.
Proof. destruct m as [a| | |]; [by exists a|done..]. Qed.

Lemma post_mono m P (Q : A -> Prop) E :
  (forall a, P a -> Q a) -> post m P E -> post m Q E.
Proof. destruct m; cbn; auto. Qed.

Lemma post_err m P E (F : goerr -> Prop) :
  (forall e, E e -> F e) -> post m P E -> post m P F.
Proof. destruct m; cbn; auto. Qed.

Lemma yields_post m P E : yields m P -> post m P E.
Proof. by apply post_err. Qed.

Lemma post_bind (m : outcome B) (k : B -> outcome A) P E :
  post m (fun b => post (k b) P E) E -> post (bind m k) P E.
Proof. by destruct m. Qed.

Lemma post_if (b : bool) m1 m2 P E :
  (b = true -> post m1 P E) -> (b = false -> post m2 P E) ->
  post (if b then m1 else m2) P E.
Proof. destruct b; auto. Qed.
End ensures.

Section post_read.
Context (E : goerr -> Prop).
Implicit Types l : bytes.

Lemma all_bytes_nth l i : all_bytes l -> 0 <= i < len l -> is_byte (nth (Z.to_nat i) l 0).
Proof.
  intros Hl Hi. rewrite Forall_forall in Hl. apply Hl.
  apply list_elem_of_In, nth_In. unfold len in Hi. lia.
Qed.

Lemma all_bytes_sub l i j : all_bytes l -> all_bytes (sub l i j).
Proof. intros. unfold sub. by apply Forall_take, Forall_drop. Qed.

Lemma post_index l i (P : Z -> Prop) :
  all_bytes l -> 0 <= i < len l -> (forall b, index l i = Ok b -> is_byte b -> P b) ->
  post (index l i) P E.
Proof.
  intros Hl Hi HP. rewrite index_ok in * by done. apply HP; [done|]. by apply all_bytes_nth.
Qed.

Lemma post_slice l i j (P : bytes -> Prop) :
  all_bytes l -> 0 <= i <= j -> j <= len l ->
  (forall s, s = sub l i j -> all_bytes s -> len s = j - i -> P s) -> post (slice l i j) P E.
Proof.
  intros Hl Hi Hj HP. rewrite slice_ok by done. apply HP;
    [done | by apply all_bytes_sub | by apply len_sub].
Qed.

Lemma post_read16 l i (P : Z -> Prop) :
  all_bytes l -> 0 <= i -> i + 2 <= len l ->
  (forall v, is_uint16 v -> P v) -> post (read16 l i) P E.
Proof.
  intros Hl Hi Hj HP. unfold read16. rewrite slice_ok by lia. cbn. unfold Uint16.
  assert (len (sub l i (i + 2)) = 2) as Hs by (rewrite len_sub; lia).
  rewrite !index_ok by lia. cbn. apply HP.
  apply be16_bound; apply all_bytes_nth; auto using all_bytes_sub; lia.
Qed.

Lemma post_read32 l i (P : Z -> Prop) :
  all_bytes l -> 0 <= i -> i + 4 <= len l ->
  (forall v, is_uint32 v -> P v) -> post (read32 l i) P E.
Proof.
  intros Hl Hi Hj HP. unfold read32. rewrite slice_ok by lia. cbn. unfold Uint32.
  assert (len (sub l i (i + 4)) = 4) as Hs by (rewrite len_sub; lia).
  rewrite !index_ok by lia. cbn. apply HP.
  apply be32_bound; apply all_bytes_nth; auto using all_bytes_sub; lia.
Qed.

Lemma post_make n (P : bytes -> Prop) :
  0 <= n -> (forall s, all_bytes s -> len s = n -> P s) -> post (make n) P E.
Proof.
  intros Hn HP. rewrite make_ok by done. apply HP; [|by apply len_replicate].
  apply Forall_replicate. unfold is_byte. lia.
Qed.
End post_read.

Lemma concat_bytes {A} (f : A -> bytes) (P : A -> Prop) l :
  (forall a, P a -> all_bytes (f a)) -> Forall P l -> all_bytes (concat (f <$> l)).
Proof.
  intros Hf. induction 1; [constructor|]. rewrite fmap_cons, concat_cons.
  apply Forall_app_2; auto.
Qed.

(** [width_lia] is [lia] with the widths of the numbers unfolded. *)
Ltac width_lia := unfold is_byte, is_uint16, is_uint32 in *; lia.

(** [go_step] takes one read of a straight-line decoder; [go_safe] all of them,
    leaving the postcondition. *)
Ltac go_step :=
  lazymatch goal with
  | |- post (bind _ _) _ _ => apply post_bind
  | |- post (Ok _) _ _ => cbn [post]
  | |- post (Err _) _ _ => cbn [post]; try exact I
  | |- post (index _ _) _ _ => apply post_index; [done | width_lia | intros ? ? ?]
  | |- post (slice _ _ _) _ _ => apply post_slice; [done | width_lia | width_lia | intros ? ? ? ?]
  | |- post (read16 _ _) _ _ => apply post_read16; [done | width_lia | width_lia | intros ? ?]
  | |- post (read32 _ _) _ _ => apply post_read32; [done | width_lia | width_lia | intros ? ?]
  | |- post (make _) _ _ => apply post_make; [width_lia | intros ? ? ?]
  | |- post (if _ then _ else _) _ _ =>
      apply post_if; [intros ?%Z.ltb_lt | intros ?%Z.ltb_ge]
  end.
Ltac go_safe := cbv zeta; repeat go_step.

(** [widths] proves that closed values have their widths. *)
Ltac widths :=
  repeat first [apply Forall_nil_2 | apply Forall_cons_2 | split]; cbn; unfold len; cbn; width_lia.

(** [read_*] take one read of a decoder whose input is known from the current
    position on ([H : at_pos data pos s]). *)
Ltac read_byte H := rewrite (index_at _ _ _ _ H); apply at_pos_cons in H; cbn [bind].
Ltac read_u16 H :=
  rewrite (read16_put _ _ _ _ H) by assumption; apply at_pos_skip16 in H; cbn [bind].
Ltac read_u32 H :=
  rewrite (read32_put _ _ _ _ H) by assumption; apply at_pos_skip32 in H; cbn [bind].

(** Read a straight-line layout: [H] says what follows the current position. *)
Ltac wire_step H :=
  cbn [bind];
  lazymatch type of H with
  | at_pos _ _ ((_ :: _) ++ _) => cbn [app] in H
  | at_pos _ _ ((_ ++ _) ++ _) => rewrite <- app_assoc in H
  | _ => lazymatch goal with
         | |- bind (index _ _) _ = _ => read_byte H
         | |- bind (read16 _ _) _ = _ => read_u16 H
         | |- bind (read32 _ _) _ = _ => read_u32 H
         end
  end.

Ltac not_short :=
  lazymatch goal with
  | |- (if ?a <? ?b then _ else _) = _ => destruct (Z.ltb_spec a b) as [?|_]; [exfalso|]
  end.

(** Lengths of concatenations, for [lia]. *)
Ltac len_simpl := autorewrite with go_len in *.
