(* ===== verification/GoTime.v ===== *)
(** * [time.Time] and the six-byte wire times of [decoder.go]

    A [Time] is an instant with the UTC offset of its location.  [Date],
    [Year] ... [Second] and [IsZero] are the operations of Go's [time] package
    the program uses, on the proleptic Gregorian calendar; [encodeBCDTime],
    [parseBCDTime6] and their binary twins are the program's own.  The theorems
    are the round trips in both directions and the exact range of years for
    which the encoding is faithful. *)
From S2P Require Import Prelude.

(** ** The [time] package *)

Record Time := mkTime {
  t_unix : Z;   (* seconds since 1970-01-01 00:00:00 UTC *)
  t_nsec : Z;   (* nanoseconds within the second *)
  t_off : Z     (* offset of the location from UTC, in seconds *)
}.

#[export] Instance Time_eq_dec : EqDecision Time.
Proof. solve_decision. Defined.

(** The day number (day 0 is 1970-01-01) of a civil date; years are counted
    from March so that the leap day ends them, in eras of 400 years. *)
Definition days_from_civil (y m d : Z) : Z :=
  let y := if m <=? 2 then y - 1 else y in
  let era := y / 400 in
  let yoe := y mod 400 in
  let mp := if m <=? 2 then m + 9 else m - 3 in
  let doy := (153 * mp + 2) / 5 + d - 1 in
  let doe := yoe * 365 + yoe / 4 - yoe / 100 + doy in
  era * 146097 + doe - 719468.

Definition civil_from_days (z : Z) : Z * Z * Z :=
  let z := z + 719468 in
  let era := z / 146097 in
  let doe := z mod 146097 in
  let yoe := (doe - doe / 1460 + doe / 36524 - doe / 146096) / 365 in
  let doy := doe - (365 * yoe + yoe / 4 - yoe / 100) in
  let mp := (5 * doy + 2) / 153 in
  let d := doy - (153 * mp + 2) / 5 + 1 in
  let m := if mp <? 10 then mp + 3 else mp - 9 in
  let y := yoe + era * 400 in
  (if m <=? 2 then y + 1 else y, m, d).

(** [time.Date(year, month, day, hour, min, sec, nsec, time.UTC)]: values
    outside their usual ranges are normalised, carrying from the second up. *)
Definition Date (year month day hour min sec nsec : int) : Time :=
  let year' := year + (month - 1) / 12 in
  let month' := (month - 1) mod 12 + 1 in
  let sec' := sec + nsec / 1000000000 in
  let min' := min + sec' / 60 in
  let hour' := hour + min' / 60 in
  let day' := day + hour' / 24 in
  mkTime ((days_from_civil year' month' 1 + (day' - 1)) * 86400
          + (hour' mod 24) * 3600 + (min' mod 60) * 60 + sec' mod 60)
         (nsec mod 1000000000) 0.

(** The clock on the wall at [t]'s location. *)
Definition wall (t : Time) : Z := t_unix t + t_off t.

Definition Year (t : Time) : int := (civil_from_days (wall t / 86400)).1.1.
Definition Month (t : Time) : int := (civil_from_days (wall t / 86400)).1.2.
Definition Day (t : Time) : int := (civil_from_days (wall t / 86400)).2.
Definition Hour (t : Time) : int := (wall t mod 86400) / 3600.
Definition Minute (t : Time) : int := (wall t mod 3600) / 60.
Definition Second (t : Time) : int := wall t mod 60.

(** January 1, year 1, 00:00:00 UTC. *)
Definition zeroTime : Time := mkTime (-62135596800) 0 0.
Definition IsZero (t : Time) : bool :=
  (t_unix t =? t_unix zeroTime) && (t_nsec t =? 0).

(** ** decoder.go *)

Definition parseBinaryTime6 (b : bytes) : outcome Time :=
  let! b0 := index b 0 in
  let! b1 := index b 1 in
  let! b2 := index b 2 in
  let! b3 := index b 3 in
  let! b4 := index b 4 in
  let! b5 := index b 5 in
  Ok (Date (2000 + b0) b1 b2 b3 b4 b5 0).

Definition parseTime6 (b : bytes) : outcome Time := parseBinaryTime6 b.

(** [int(x>>4)*10 + int(x&0x0F)] *)
Definition bcd (x : byte) : int := Z.shiftr x 4 * 10 + Z.land x 15.

Definition parseBCDTime6 (b : bytes) : outcome Time :=
  let! b0 := index b 0 in
  let! b1 := index b 1 in
  let! b2 := index b 2 in
  let! b3 := index b 3 in
  let! b4 := index b 4 in
  let! b5 := index b 5 in
  Ok (Date (2000 + Z.shiftr b0 4 * 10 + Z.land b0 15)
           (bcd b1) (bcd b2) (bcd b3) (bcd b4) (bcd b5) 0).

Definition encodeBinaryTime6 (t : Time) : bytes :=
  [to_byte (Z.rem (Year t) 100); to_byte (Month t); to_byte (Day t);
   to_byte (Hour t); to_byte (Minute t); to_byte (Second t)].

(** [byte((x/10)<<4 | (x%10))] *)
Definition to_bcd (x : int) : byte :=
  to_byte (Z.lor (Z.shiftl (Z.quot x 10) 4) (Z.rem x 10)).

Definition encodeBCDTime (t : Time) : bytes :=
  let y := Year t - 2000 in
  [to_bcd y; to_bcd (Month t); to_bcd (Day t);
   to_bcd (Hour t); to_bcd (Minute t); to_bcd (Second t)].

Definition encodeTime6 (t : Time) : bytes := encodeBCDTime t.

(** [TimeCodec] and [Decoder.decodeTime6], which only reads the codec. *)
Inductive TimeCodec := TimeCodecBCD | TimeCodecBinary.

#[export] Instance TimeCodec_eq_dec : EqDecision TimeCodec.
Proof. solve_decision. Defined.

Definition decodeTime6 (tc : TimeCodec) (b : bytes) : outcome Time :=
  match tc with
  | TimeCodecBinary => parseBinaryTime6 b
  | TimeCodecBCD => parseBCDTime6 b
  end.

(** A time the wire formats can give: whole seconds UTC, a year of four digits. *)
Definition stampable (t : Time) : Prop := t_nsec t = 0 /\ t_off t = 0 /\ 0 <= Year t <= 9999.

(** ** The reference calendar *)

Definition is_leap (y : Z) : bool :=
  (y mod 4 =? 0) && (negb (y mod 100 =? 0) || (y mod 400 =? 0)).

Definition days_in_month (y m : Z) : Z :=
  if m =? 2 then if is_leap y then 29 else 28
  else if (m =? 4) || (m =? 6) || (m =? 9) || (m =? 11) then 30 else 31.

(** A date and time of day that exist. *)
Definition civil_valid (y m d hh mm ss : Z) : Prop :=
  1 <= m <= 12 /\ 1 <= d <= days_in_month y m /\
  0 <= hh < 24 /\ 0 <= mm < 60 /\ 0 <= ss < 60.

(** The instant, read off the wall of its location as if it were UTC and cut
    to the second: what six bytes can carry. *)
Definition wall_utc (t : Time) : Time := mkTime (wall t) 0 0.

(** ** Calendar lemmas *)


Lemma civil_yoe_range doe :
  0 <= doe < 146097 ->
  let yoe := (doe - doe / 1460 + doe / 36524 - doe / 146096) / 365 in
  0 <= yoe < 400.
Proof. cbn. intros. zdm. lia. Qed.

Lemma civil_doy_range doe :
  0 <= doe < 146097 ->
  let yoe := (doe - doe / 1460 + doe / 36524 - doe / 146096) / 365 in
  let doy := doe - (365 * yoe + yoe / 4 - yoe / 100) in
  0 <= doy < 366.
Proof. cbn. intros. zdm. lia. Qed.

Lemma days_from_civil_from_days z :
  let '(y, m, d) := civil_from_days z in days_from_civil y m d = z.
Proof.
  unfold civil_from_days.
  set (w := z + 719468). set (doe := w mod 146097). cbv zeta.
  set (yoe := (doe - doe / 1460 + doe / 36524 - doe / 146096) / 365).
  set (doy := doe - (365 * yoe + yoe / 4 - yoe / 100)).
  assert (0 <= doe < 146097) as Hdoe by (apply Z.mod_pos_bound; lia).
  assert (0 <= yoe < 400) as Hyoe by (apply civil_yoe_range; lia).
  assert (0 <= doy < 366) as Hdoy by (apply civil_doy_range; lia).
  set (mp := (5 * doy + 2) / 153).
  assert (0 <= mp < 12) as Hmp by (unfold mp; zdm; lia).
  assert (w = 146097 * (w / 146097) + doe) as Hw by (apply Z.div_mod; lia).
  set (era := w / 146097) in *.
  unfold days_from_civil.
  assert (forall a, (yoe + era * 400 + a - a) / 400 = era) as He by (intros; zdm; lia).
  assert (forall a, (yoe + era * 400 + a - a) mod 400 = yoe) as Hy by (intros; zdm; lia).
  destruct (Z.ltb_spec mp 10).
  - destruct (Z.leb_spec (mp + 3) 2); [lia|].
    replace (yoe + era * 400) with (yoe + era * 400 + 0 - 0) by lia.
    rewrite He, Hy. replace (mp + 3 - 3) with mp by lia. lia.
  - destruct (Z.leb_spec (mp - 9) 2); [|lia].
    rewrite He, Hy. replace (mp - 9 + 9) with mp by lia. lia.
Qed.

Lemma civil_from_days_range z :
  let '(y, m, d) := civil_from_days z in 1 <= m <= 12 /\ 1 <= d <= 31.
Proof.
  unfold civil_from_days.
  set (doe := (z + 719468) mod 146097). cbv zeta.
  set (yoe := (doe - doe / 1460 + doe / 36524 - doe / 146096) / 365).
  set (doy := doe - (365 * yoe + yoe / 4 - yoe / 100)).
  assert (0 <= doe < 146097) as Hdoe by (apply Z.mod_pos_bound; lia).
  assert (0 <= doy < 366) as Hdoy by (apply civil_doy_range; lia).
  set (mp := (5 * doy + 2) / 153).
  assert (0 <= mp < 12) as Hmp by (unfold mp; zdm; lia).
  split; [destruct (Z.ltb_spec mp 10); lia|].
  unfold mp. zdm. lia.
Qed.

Lemma Month_range t : 1 <= Month t <= 12.
Proof.
  unfold Month. pose proof (civil_from_days_range (wall t / 86400)) as H.
  destruct (civil_from_days _) as [[y m] d]. apply H.
Qed.

Lemma Day_range t : 1 <= Day t <= 31.
Proof.
  unfold Day. pose proof (civil_from_days_range (wall t / 86400)) as H.
  destruct (civil_from_days _) as [[y m] d]. apply H.
Qed.

Lemma Hour_range t : 0 <= Hour t < 24.
Proof. unfold Hour. zdm. lia. Qed.
Lemma Minute_range t : 0 <= Minute t < 60.
Proof. unfold Minute. zdm. lia. Qed.
Lemma Second_range t : 0 <= Second t < 60.
Proof. unfold Second. zdm. lia. Qed.

Lemma days_from_civil_day y m d : days_from_civil y m d = days_from_civil y m 1 + (d - 1).
Proof. unfold days_from_civil. lia. Qed.

(** [Date] on values in their usual ranges does not carry. *)
Lemma Date_in_range y m d hh mm ss :
  1 <= m <= 12 -> 0 <= hh < 24 -> 0 <= mm < 60 -> 0 <= ss < 60 ->
  Date y m d hh mm ss 0 =
    mkTime (days_from_civil y m d * 86400 + hh * 3600 + mm * 60 + ss) 0 0.
Proof.
  intros. unfold Date. rewrite (days_from_civil_day y m d).
  rewrite (Z.div_small (m - 1) 12), (Z.mod_small (m - 1) 12) by lia.
  rewrite Z.div_0_l, !Z.add_0_r by lia.
  rewrite (Z.div_small ss), (Z.mod_small ss), !Z.add_0_r by lia.
  rewrite (Z.div_small mm), (Z.mod_small mm), !Z.add_0_r by lia.
  rewrite (Z.div_small hh), (Z.mod_small hh), !Z.add_0_r by lia.
  replace (m - 1 + 1) with m by lia. done.
Qed.

(** Reading the clock and calling [Date] gives the wall time back. *)
Lemma Date_of_fields t :
  Date (Year t) (Month t) (Day t) (Hour t) (Minute t) (Second t) 0 = wall_utc t.
Proof.
  rewrite Date_in_range by auto using Month_range, Hour_range, Minute_range, Second_range.
  unfold wall_utc. f_equal.
  pose proof (days_from_civil_from_days (wall t / 86400)) as Hd.
  unfold Year, Month, Day. destruct (civil_from_days _) as [[y m] d]. cbn. rewrite Hd.
  unfold Hour, Minute, Second. set (w := wall t). clearbody w. clear. zdm. lia.
Qed.

(** ** Binary coded decimal *)

Lemma bcd_decimal q r : 0 <= q < 16 -> 0 <= r < 16 -> bcd (q * 16 + r) = q * 10 + r.
Proof.
  intros. unfold bcd. rewrite Z.shiftr_div_pow2 by lia. change 15 with (Z.ones 4).
  rewrite Z.land_ones by lia. change (2 ^ 4) with 16. zdm. lia.
Qed.

Lemma to_bcd_decimal x : 0 <= x < 160 -> to_bcd x = (x / 10) * 16 + x mod 10.
Proof.
  intros. unfold to_bcd. rewrite Z.quot_div_nonneg, Z.rem_mod_nonneg, Z.lor_comm by lia.
  rewrite lor_shiftl by (zdm; lia). rewrite to_byte_small; change (2 ^ 4) with 16;
    [|split]; zdm; lia.
Qed.

Lemma bcd_to_bcd x : 0 <= x < 160 -> bcd (to_bcd x) = x.
Proof. intros. rewrite to_bcd_decimal, bcd_decimal by (zdm; lia). zdm. lia. Qed.

Lemma to_bcd_bcd x : is_byte x -> Z.land x 15 < 10 -> to_bcd (bcd x) = x.
Proof.
  intros [] Hd. unfold bcd in *. change 15 with (Z.ones 4) in *.
  rewrite Z.land_ones in * by lia. rewrite Z.shiftr_div_pow2 by lia.
  change (2 ^ 4) with 16 in *. rewrite to_bcd_decimal by (zdm; lia). zdm. lia.
Qed.

(** A byte out of the BCD range [0..159] is the residue of something else. *)
Lemma bcd_range x : is_byte x -> 0 <= bcd x <= 165.
Proof.
  intros []. unfold bcd. change 15 with (Z.ones 4). rewrite Z.land_ones by lia.
  rewrite Z.shiftr_div_pow2 by lia. change (2 ^ 4) with 16. zdm. lia.
Qed.

Lemma index6 b0 b1 b2 b3 b4 b5 s :
  let l := b0 :: b1 :: b2 :: b3 :: b4 :: b5 :: s in
  index l 0 = Ok b0 /\ index l 1 = Ok b1 /\ index l 2 = Ok b2 /\
  index l 3 = Ok b3 /\ index l 4 = Ok b4 /\ index l 5 = Ok b5.
Proof. cbv zeta. rewrite !index_ok by llia. done. Qed.

Lemma parseBCD_bytes b0 b1 b2 b3 b4 b5 :
  parseBCDTime6 [b0; b1; b2; b3; b4; b5] =
    Ok (Date (2000 + bcd b0) (bcd b1) (bcd b2) (bcd b3) (bcd b4) (bcd b5) 0).
Proof.
  unfold parseBCDTime6.
  destruct (index6 b0 b1 b2 b3 b4 b5 []) as (-> & -> & -> & -> & -> & ->). cbn.
  do 2 f_equal. unfold bcd. lia.
Qed.

Lemma parseBinary_bytes b0 b1 b2 b3 b4 b5 :
  parseBinaryTime6 [b0; b1; b2; b3; b4; b5] = Ok (Date (2000 + b0) b1 b2 b3 b4 b5 0).
Proof.
  unfold parseBinaryTime6.
  by destruct (index6 b0 b1 b2 b3 b4 b5 []) as (-> & -> & -> & -> & -> & ->).
Qed.

Lemma encodeBCDTime_parse t :
  2000 <= Year t < 2160 -> parseBCDTime6 (encodeBCDTime t) = Ok (wall_utc t).
Proof.
  intros Hy. unfold encodeBCDTime. rewrite parseBCD_bytes.
  pose proof (Month_range t). pose proof (Day_range t). pose proof (Hour_range t).
  pose proof (Minute_range t). pose proof (Second_range t).
  rewrite !bcd_to_bcd by lia. replace (2000 + (Year t - 2000)) with (Year t) by lia.
  by rewrite Date_of_fields.
Qed.

Lemma encodeBCDTime_bytes t : all_bytes (encodeBCDTime t).
Proof. repeat constructor; apply Z.mod_pos_bound; lia. Qed.

Lemma len_encodeBCDTime t : len (encodeBCDTime t) = 6.
Proof. done. Qed.
#[export] Hint Rewrite len_encodeBCDTime : go_len.
#[global] Arguments encodeBCDTime : simpl never.

(** Any six bytes decode, whatever the codec. *)
Lemma decodeTime6_total tc b : len b = 6 -> exists t, decodeTime6 tc b = Ok t.
Proof.
  intros Hl. destruct b as [|b0 [|b1 [|b2 [|b3 [|b4 [|b5 [|]]]]]]]; try (unfold len in Hl; cbn in Hl; lia).
  destruct tc; cbn; rewrite ?parseBCD_bytes, ?parseBinary_bytes; eauto.
Qed.

(** ** From valid dates to instants and back *)

(** The year of the era is recovered: a year counted from March has 366 days
    exactly when the February that ends it has 29. *)
Lemma yoe_correct yoe doy :
  0 <= yoe < 400 -> 0 <= doy ->
  (doy < 365 \/ (doy = 365 /\ (yoe + 1) mod 4 = 0 /\ ((yoe + 1) mod 100 <> 0 \/ yoe = 399))) ->
  let doe := yoe * 365 + yoe / 4 - yoe / 100 + doy in
  0 <= doe < 146097 /\
  (doe - doe / 1460 + doe / 36524 - doe / 146096) / 365 = yoe.
Proof.
  intros ? ? H. cbv zeta. split; [zdm; lia|].
  set (doe := yoe * 365 + yoe / 4 - yoe / 100 + doy).
  symmetry.
  apply (Z.div_unique _ 365 _ (doe - doe / 1460 + doe / 36524 - doe / 146096 - 365 * yoe));
    [left|lia].
  subst doe. zdm. lia.
Qed.

(** Month and day from the day of the March-based year. *)
Lemma month_day_correct mp d :
  0 <= mp < 12 -> 1 <= d <= 31 ->
  (153 * mp + 2) / 5 + d - 1 < (153 * (mp + 1) + 2) / 5 ->
  (5 * ((153 * mp + 2) / 5 + d - 1) + 2) / 153 = mp.
Proof. intros. zdm. lia. Qed.

Lemma days_in_month_bound y m : 28 <= days_in_month y m <= 31.
Proof. unfold days_in_month. repeat case_match; lia. Qed.

Lemma is_leap_spec y :
  is_leap y = true <-> y mod 4 = 0 /\ (y mod 100 <> 0 \/ y mod 400 = 0).
Proof.
  unfold is_leap. rewrite andb_true_iff, orb_true_iff, negb_true_iff, !Z.eqb_eq, Z.eqb_neq. done.
Qed.

Lemma mp_month_length y m d mp :
  1 <= m <= 12 -> 1 <= d <= days_in_month y m ->
  mp = (if m <=? 2 then m + 9 else m - 3) ->
  0 <= mp < 12 /\ 1 <= d <= 31 /\
  (153 * mp + 2) / 5 + d - 1 < (153 * (mp + 1) + 2) / 5 /\
  0 <= (153 * mp + 2) / 5 + d - 1 /\
  ((153 * mp + 2) / 5 + d - 1 < 365 \/
   ((153 * mp + 2) / 5 + d - 1 = 365 /\ m = 2 /\ is_leap y = true)).
Proof.
  intros Hm Hd ->. unfold days_in_month in Hd.
  assert (m = 1 \/ m = 2 \/ m = 3 \/ m = 4 \/ m = 5 \/ m = 6 \/ m = 7 \/ m = 8 \/
          m = 9 \/ m = 10 \/ m = 11 \/ m = 12) as Hc by lia.
  repeat destruct Hc as [-> | Hc]; try subst m; cbn in Hd |- *;
    try (destruct (is_leap y)); repeat split; try (zdm; lia).
Qed.

Lemma civil_from_days_from_civil y m d :
  1 <= m <= 12 -> 1 <= d <= days_in_month y m ->
  civil_from_days (days_from_civil y m d) = (y, m, d).
Proof.
  intros Hm Hd. pose proof (mp_month_length y m d _ Hm Hd eq_refl) as Hmp.
  unfold days_from_civil. set (mp := if m <=? 2 then m + 9 else m - 3) in *.
  set (doy := (153 * mp + 2) / 5 + d - 1) in *.
  set (y' := if m <=? 2 then y - 1 else y). cbv zeta.
  destruct Hmp as (Hmp & Hd31 & Hnext & Hdoy & Hleap).
  assert (0 <= y' mod 400 < 400) as Hyoe by (apply Z.mod_pos_bound; lia).
  assert (y' = 400 * (y' / 400) + y' mod 400) as Hy' by (apply Z.div_mod; lia).
  set (yoe := y' mod 400) in *. set (era := y' / 400) in *.
  destruct (yoe_correct yoe doy) as [Hdoe Hyc]; [lia|lia|..].
  { destruct Hleap as [|(Hx & -> & Hl)]; [by left|right]. split; [done|].
    apply is_leap_spec in Hl. unfold y' in Hy'. cbn in Hy'. zdm. lia. }
  set (doe := yoe * 365 + yoe / 4 - yoe / 100 + doy) in *.
  unfold civil_from_days.
  replace (era * 146097 + doe - 719468 + 719468) with (doe + era * 146097) by lia.
  rewrite Z.div_add, Z.mod_add, (Z.div_small doe), (Z.mod_small doe), Z.add_0_l by lia.
  cbv zeta. rewrite Hyc.
  replace (doe - (365 * yoe + yoe / 4 - yoe / 100)) with doy by (unfold doe; lia).
  assert ((5 * doy + 2) / 153 = mp) as -> by (apply month_day_correct; lia).
  replace (doy - (153 * mp + 2) / 5 + 1) with d by (unfold doy; lia).
  unfold mp, y' in *. destruct (Z.leb_spec m 2).
  - destruct (Z.ltb_spec (m + 9) 10); [lia|]. replace (m + 9 - 9) with m by lia.
    destruct (Z.leb_spec m 2); [|lia]. do 2 f_equal; lia.
  - destruct (Z.ltb_spec (m - 3) 10); [|lia]. replace (m - 3 + 3) with m by lia.
    destruct (Z.leb_spec m 2); [lia|]. do 2 f_equal; lia.
Qed.

(** The clock read off [Date] of values that exist. *)
Lemma fields_of_Date y m d hh mm ss :
  civil_valid y m d hh mm ss ->
  let t := Date y m d hh mm ss 0 in
  Year t = y /\ Month t = m /\ Day t = d /\ Hour t = hh /\ Minute t = mm /\ Second t = ss.
Proof.
  intros (Hm & Hd & Hh & Hmm & Hs). cbv zeta. rewrite Date_in_range by lia.
  unfold Year, Month, Day, Hour, Minute, Second, wall. cbn [t_unix t_off].
  set (D := days_from_civil y m d).
  replace ((D * 86400 + hh * 3600 + mm * 60 + ss + 0) / 86400) with D by (zdm; lia).
  unfold D. rewrite civil_from_days_from_civil by done. cbn.
  repeat split; zdm; lia.
Qed.

(** Six BCD bytes that spell an existing date and time. *)
Definition bcd_digits (x : byte) : Prop := is_byte x /\ Z.land x 15 < 10.
Definition bcd_time (b : bytes) : Prop :=
  match b with
  | [b0; b1; b2; b3; b4; b5] =>
      Forall bcd_digits b /\
      civil_valid (2000 + bcd b0) (bcd b1) (bcd b2) (bcd b3) (bcd b4) (bcd b5)
  | _ => False
  end.

(** A six-byte time never decodes to the zero time of year 1. *)
Lemma Date_2000_unix y m d hh mm ss :
  2000 <= y -> 0 <= m -> 0 <= d -> 0 <= hh -> 0 <= mm -> 0 <= ss ->
  0 <= t_unix (Date y m d hh mm ss 0).
Proof.
  intros Hy Hm Hd Hhh Hmm Hss. unfold Date, days_from_civil. cbn [t_unix].
  rewrite Z.div_0_l, Z.add_0_r by lia.
  set (y' := y + (m - 1) / 12). set (m' := (m - 1) mod 12 + 1).
  assert (1 <= m' <= 12) as Hm' by (unfold m'; zdm; lia).
  assert (1999 <= y') as Hy' by (unfold y'; zdm; lia).
  set (yy := if m' <=? 2 then y' - 1 else y').
  assert (1998 <= yy) as Hyy by (unfold yy; destruct (m' <=? 2); lia).
  set (mp := if m' <=? 2 then m' + 9 else m' - 3).
  assert (0 <= mp) as Hmp by (unfold mp; destruct (Z.leb_spec m' 2); lia).
  clearbody yy mp. clear Hm Hy Hm' Hy'. zdm. lia.
Qed.

(** The day number grows with the year. *)
Lemma days_from_civil_year_lt y1 y2 m d :
  y1 < y2 -> days_from_civil y1 m d < days_from_civil y2 m d.
Proof.
  intros Hy. unfold days_from_civil.
  set (a := if m <=? 2 then y1 - 1 else y1). set (b := if m <=? 2 then y2 - 1 else y2).
  assert (a < b) as Hab by (unfold a, b; destruct (m <=? 2); lia).
  clearbody a b. clear Hy. zdm. lia.
Qed.

Lemma Date_year_inj t y :
  Date y (Month t) (Day t) (Hour t) (Minute t) (Second t) 0 = wall_utc t -> y = Year t.
Proof.
  intros H. rewrite <- Date_of_fields in H.
  rewrite !Date_in_range in H by auto using Month_range, Hour_range, Minute_range, Second_range.
  injection H as H.
  destruct (Z.lt_trichotomy y (Year t)) as [Hlt|[?|Hlt]]; [|done|];
    apply (days_from_civil_year_lt _ _ (Month t) (Day t)) in Hlt; lia.
Qed.

Lemma bcd_to_bcd_out y : y < 0 \/ 160 <= y -> bcd (to_bcd y) <> y.
Proof.
  intros Hy Hc. pose proof (bcd_range (to_bcd y) (is_byte_to_byte _)) as Hr.
  assert (160 <= y <= 165) as Hy' by lia.
  assert (y = 160 \/ y = 161 \/ y = 162 \/ y = 163 \/ y = 164 \/ y = 165) as Hd by lia.
  repeat destruct Hd as [-> | Hd]; try subst y; by vm_compute in Hc.
Qed.

Lemma binary_fields t :
  parseBinaryTime6 (encodeBinaryTime6 t) =
    Ok (Date (2000 + to_byte (Z.rem (Year t) 100)) (Month t) (Day t)
             (Hour t) (Minute t) (Second t) 0).
Proof.
  unfold encodeBinaryTime6. rewrite parseBinary_bytes.
  pose proof (Month_range t). pose proof (Day_range t). pose proof (Hour_range t).
  pose proof (Minute_range t). pose proof (Second_range t).
  do 2 f_equal; apply to_byte_small; unfold is_byte; lia.
Qed.

Lemma decodeTime6_post tc b (P : Time -> Prop) E :
  len b = 6 -> (forall t, decodeTime6 tc b = Ok t -> P t) -> post (decodeTime6 tc b) P E.
Proof. intros Hb HP. destruct (decodeTime6_total tc b Hb) as [t Ht]. rewrite Ht. by apply HP. Qed.

(** A time [encodeTime6] wrote is read back by the default codec. *)
Lemma time_at data pos t s :
  at_pos data pos (encodeTime6 t ++ s) -> 2000 <= Year t < 2160 ->
  slice data pos (pos + 6) = Ok (encodeTime6 t) /\
  decodeTime6 TimeCodecBCD (encodeTime6 t) = Ok (wall_utc t) /\
  at_pos data (pos + 6) s.
Proof.
  intros H Hy. unfold encodeTime6 in H.
  split; [by rewrite (slice_at _ _ _ _ _ H) by (rewrite len_encodeBCDTime; lia)|].
  split; [by apply encodeBCDTime_parse|].
  apply at_pos_step with (j := pos + 6) in H; [done|by rewrite len_encodeBCDTime].
Qed.

(** The year of a day between 1970 and the year 4000 or so has four digits. *)
Lemma Year_bound t : t_off t = 0 -> 0 <= t_unix t <= 86400 * 1000000 -> 0 <= Year t <= 9999.
Proof.
  intros Ho Ht. unfold Year, wall. rewrite Ho, Z.add_0_r. set (z := t_unix t / 86400).
  assert (0 <= z <= 1000000) as Hz by (unfold z; zdm; lia). clearbody z.
  pose proof (days_from_civil_from_days z) as Hd. pose proof (civil_from_days_range z) as Hr.
  destruct (civil_from_days z) as [[y m] d]. cbn. unfold days_from_civil in Hd.
  set (yy := if m <=? 2 then y - 1 else y) in *. set (mp := if m <=? 2 then m + 9 else m - 3) in *.
  assert (y - 1 <= yy <= y) as Hy by (unfold yy; destruct (m <=? 2); lia).
  assert (0 <= mp <= 11) as Hmp by (unfold mp; destruct (Z.leb_spec m 2); lia).
  clearbody yy mp. clear Ht. zdm. lia.
Qed.

Lemma Date_bound y m d hh mm ss :
  2000 <= y <= 2255 -> is_byte m -> is_byte d -> is_byte hh -> is_byte mm -> is_byte ss ->
  0 <= t_unix (Date y m d hh mm ss 0) <= 86400 * 1000000.
Proof.
  unfold is_byte. intros Hy Hm Hd Hhh Hmm Hss. split; [apply Date_2000_unix; lia|].
  unfold Date, days_from_civil. cbn [t_unix]. rewrite Z.div_0_l, Z.add_0_r by lia.
  set (y' := y + (m - 1) / 12). set (m' := (m - 1) mod 12 + 1).
  assert (1 <= m' <= 12) as Hm' by (unfold m'; zdm; lia).
  assert (y' <= 2300) as Hy' by (unfold y'; zdm; lia).
  set (yy := if m' <=? 2 then y' - 1 else y').
  assert (yy <= 2300) as Hyy by (unfold yy; destruct (m' <=? 2); lia).
  set (mp := if m' <=? 2 then m' + 9 else m' - 3).
  assert (mp <= 11) as Hmp by (unfold mp; destruct (Z.leb_spec m' 2); lia).
  clearbody yy mp. clear Hm Hy Hm' Hy'. zdm. lia.
Qed.

Lemma decodeTime6_stampable tc b t :
  all_bytes b -> len b = 6 -> decodeTime6 tc b = Ok t -> stampable t.
Proof.
  intros Hb Hl. destruct b as [|b0 [|b1 [|b2 [|b3 [|b4 [|b5 [|]]]]]]]; try (unfold len in Hl; cbn in Hl; lia).
  repeat match goal with H : all_bytes (_ :: _) |- _ => inversion_clear H end.
  assert (forall y m d hh mm ss, 2000 <= y <= 2255 -> is_byte m -> is_byte d -> is_byte hh -> is_byte mm -> is_byte ss ->
    stampable (Date y m d hh mm ss 0)) as Hd.
  { intros. split; [done|]. split; [done|]. apply Year_bound; [done|]. by apply Date_bound. }
  assert (forall x, is_byte x -> 0 <= bcd x < 256) as Hbcd by (intros x Hx; pose proof (bcd_range x Hx); lia).
  destruct tc; cbn [decodeTime6]; unfold parseTime6; rewrite ?parseBCD_bytes, ?parseBinary_bytes; intros [= <-]; apply Hd; try by apply Hbcd.
  all: try done; pose proof (bcd_range b0 ltac:(done)); unfold is_byte in *; lia.
Qed.

(** ** Round trips *)

Lemma bcd_roundtrip_iff t :
  parseBCDTime6 (encodeBCDTime t) = Ok (wall_utc t) <-> 2000 <= Year t < 2160.
Proof.
  split; [|apply encodeBCDTime_parse]. intros H.
  unfold encodeBCDTime in H. rewrite parseBCD_bytes in H.
  pose proof (Month_range t). pose proof (Day_range t). pose proof (Hour_range t).
  pose proof (Minute_range t). pose proof (Second_range t).
  rewrite !(bcd_to_bcd (Month t)), !(bcd_to_bcd (Day t)), !(bcd_to_bcd (Hour t)),
    !(bcd_to_bcd (Minute t)), !(bcd_to_bcd (Second t)) in H by lia.
  apply Ok_inj, Date_year_inj in H.
  destruct (decide (2000 <= Year t < 2160)) as [|Hn]; [done|].
  exfalso. apply (bcd_to_bcd_out (Year t - 2000)); lia.
Qed.

(** Conversely, six BCD digits pairs that spell an existing date and time
    parse to an instant whose encoding is those same bytes, and whose fields
    are the ones written. *)
Theorem bcd_time_canonical b (Hb : bcd_time b) :
  exists t, parseBCDTime6 b = Ok t /\ encodeBCDTime t = b.
Proof.
  destruct b as [|b0 [|b1 [|b2 [|b3 [|b4 [|b5 [|]]]]]]]; try done.
  destruct Hb as [Hd Hv]. rewrite parseBCD_bytes.
  destruct (fields_of_Date _ _ _ _ _ _ Hv) as (Hy & Hm & Hday & Hh & Hmin & Hs).
  eexists. split; [done|]. unfold encodeBCDTime. rewrite Hy, Hm, Hday, Hh, Hmin, Hs.
  replace (2000 + bcd b0 - 2000) with (bcd b0) by lia.
  repeat match goal with H : Forall bcd_digits (_ :: _) |- _ => inversion_clear H end.
  unfold bcd_digits in *. by rewrite !to_bcd_bcd by tauto.
Qed.

Lemma bcd_time_canonical_witness :
  bcd_time [38; 5; 20; 20; 72; 0] /\
  exists t, parseBCDTime6 [38; 5; 20; 20; 72; 0] = Ok t /\
            encodeBCDTime t = [38; 5; 20; 20; 72; 0].
Proof.
  assert (bcd_time [38; 5; 20; 20; 72; 0]) as H.
  { unfold bcd_time, bcd_digits, is_byte, civil_valid.
    split; [repeat constructor; vm_compute; congruence|].
    vm_compute. intuition congruence. }
  split; [exact H | exact (bcd_time_canonical _ H)].
Defined.

Lemma binary_roundtrip_iff t :
  parseBinaryTime6 (encodeBinaryTime6 t) = Ok (wall_utc t) <-> 2000 <= Year t < 2100.
Proof.
  rewrite binary_fields. split.
  - intros H. apply Ok_inj, Date_year_inj in H.
    revert H. unfold to_byte. set (y := Year t). clearbody y. intros H.
    Z.to_euclidean_division_equations. lia.
  - intros Hy. rewrite Z.rem_mod_nonneg by lia. rewrite to_byte_small by (split; zdm; lia).
    replace (2000 + Year t mod 100) with (Year t) by (zdm; lia).
    by rewrite Date_of_fields.
Qed.

(** ** Properties *)

(** C40: Encoding a time as six bytes and parsing them back gives the wall clock of
    the time, cut to the second, exactly for the years 2000 to 2159 in the BCD
    format and 2000 to 2099 in the binary one: each pair of functions is inverse
    there and nowhere else. *)
Theorem time_roundtrip t :
  (parseBCDTime6 (encodeBCDTime t) = Ok (wall_utc t) <-> 2000 <= Year t < 2160) /\
  (parseBinaryTime6 (encodeBinaryTime6 t) = Ok (wall_utc t) <-> 2000 <= Year t < 2100).
Proof. split; [apply bcd_roundtrip_iff | apply binary_roundtrip_iff]. Qed.
