(* ===== verification/Text.v ===== *)
(** * Numbers and bytes as text

    What the program uses of packages [fmt], [strconv], [encoding/hex],
    [encoding/base64] and of [time]'s RFC 3339 format: two-digit hexadecimal,
    decimal, base64 and time stamps, each injective, decimal with its reader. *)
From S2P Require Import Prelude.
From S2P Require Import GoTime.

(** The bytes of a string literal. *)
Definition lit (s : string) : bytes := (fun c => Z.of_nat (Ascii.nat_of_ascii c)) <$> String.list_ascii_of_string s.

(** ** Hexadecimal and decimal *)

(** [encoding/hex.EncodeToString]: two lower-case digits a byte. *)
Definition hexDigit (n : Z) : byte := if n <? 10 then 48 + n else 87 + n.
Definition EncodeToString (b : bytes) : gostring :=
  concat ((fun x => [hexDigit (x / 16); hexDigit (x mod 16)]) <$> b).

(** [fmt.Sprintf("%d", n)] *)
Fixpoint digits (fuel : nat) (n : Z) : gostring :=
  match fuel with
  | O => []
  | S fuel => if n <? 10 then [48 + n] else digits fuel (n / 10) ++ [48 + n mod 10]
  end.
Definition Sprint_d (n : int) : gostring :=
  let print n := digits (S (Z.to_nat (Z.log2 n))) n in
  if n <? 0 then 45 :: print (- n) else print n.

(** The number of [width] digits at least, padded with zeros ([time.appendInt]). *)
Definition appendInt (n : int) (width : nat) : gostring :=
  let pad s := replicate (width - length s) 48 ++ s in
  if n <? 0 then 45 :: pad (Sprint_d (- n)) else pad (Sprint_d n).

(** ** Base64 *)

(** [base64.StdEncoding]: three bytes make four characters, the last group is
    padded with equals signs. *)
Definition base64Char (n : Z) : byte :=
  if n <? 26 then 65 + n
  else if n <? 52 then 71 + n
  else if n <? 62 then n - 4
  else if n =? 62 then 43 else 47.

Fixpoint base64 (src : bytes) : gostring :=
  match src with
  | [] => []
  | [a] => [base64Char (a / 4); base64Char (a mod 4 * 16); 61; 61]
  | [a; b] => [base64Char (a / 4); base64Char (a mod 4 * 16 + b / 16); base64Char (b mod 16 * 4); 61]
  | a :: b :: c :: src =>
      base64Char (a / 4) :: base64Char (a mod 4 * 16 + b / 16) ::
      base64Char (b mod 16 * 4 + c / 64) :: base64Char (c mod 64) :: base64 src
  end.

(** ** RFC 3339 *)

(** The fraction of a second without its trailing zeros ([time.appendNano]). *)
Fixpoint trimZeros (digits : nat) (n : Z) : gostring :=
  match digits with
  | O => []
  | S k => if n mod 10 =? 0 then trimZeros k (n / 10) else appendInt n digits
  end.
Definition appendNano (nsec : int) : gostring :=
  if nsec =? 0 then [] else 46 :: trimZeros 9 nsec.

(** The offset's minutes, without sign. *)
Definition zoneMinutes (t : Time) : int := Z.abs (Z.quot (t_off t) 60).

(** [t.Format(time.RFC3339Nano)] *)
Definition RFC3339 (t : Time) : gostring :=
  appendInt (Year t) 4 ++ 45 :: appendInt (Month t) 2 ++ 45 :: appendInt (Day t) 2 ++ 84 ::
  appendInt (Hour t) 2 ++ 58 :: appendInt (Minute t) 2 ++ 58 :: appendInt (Second t) 2 ++
  appendNano (t_nsec t) ++
  if t_off t =? 0 then [90] else
  (if Z.quot (t_off t) 60 <? 0 then 45 else 43) ::
  appendInt (zoneMinutes t / 60) 2 ++ 58 :: appendInt (zoneMinutes t mod 60) 2.

(** ** Lemmas *)

Lemma hexDigit_inj a b : 0 <= a < 16 -> 0 <= b < 16 -> hexDigit a = hexDigit b -> a = b.
Proof. intros. unfold hexDigit in *. destruct (Z.ltb_spec a 10), (Z.ltb_spec b 10); lia. Qed.

Lemma EncodeToString_inj b1 : forall b2,
  all_bytes b1 -> all_bytes b2 -> EncodeToString b1 = EncodeToString b2 -> b1 = b2.
Proof.
  induction b1 as [|x b1 IH]; intros [|y b2] H1 H2 He; try done.
  inversion_clear H1 as [|?? Hx H1']. inversion_clear H2 as [|?? Hy H2']. injection He as E1 E2 E3.
  unfold is_byte in *. f_equal; [|by apply IH].
  apply hexDigit_inj in E1; [|zdm; lia|zdm; lia]. apply hexDigit_inj in E2; [|zdm; lia|zdm; lia].
  zdm. lia.
Qed.

Lemma length_EncodeToString b : length (EncodeToString b) = (2 * length b)%nat.
Proof. induction b as [|x b IH]; [done|]. unfold EncodeToString in *. cbn in *. lia. Qed.

(** The number the digits say. *)
Definition digits_value (s : gostring) : Z := fold_left (fun a d => 10 * a + (d - 48)) s 0.

Lemma digits_spec fuel : forall n,
  0 <= n < 2 ^ Z.of_nat fuel -> (0 < fuel)%nat ->
  digits_value (digits fuel n) = n /\ all_bytes (digits fuel n).
Proof.
  induction fuel as [|fuel IH]; intros n Hn Hf; [lia|]. cbn [digits].
  rewrite Nat2Z.inj_succ, Z.pow_succ_r in Hn by lia.
  destruct (Z.ltb_spec n 10).
  - split; [unfold digits_value; cbn; lia|]. repeat constructor; lia.
  - assert (0 <= n / 10 < 2 ^ Z.of_nat fuel) as Hq by (zdm; lia).
    assert (0 < fuel)%nat as Hf' by (destruct fuel; [cbn in Hn; lia|lia]).
    destruct (IH (n / 10) Hq Hf') as [Hv Hb]. unfold digits_value in *. rewrite fold_left_app, Hv. cbn.
    split; [zdm; lia|]. apply Forall_app. split; [done|]. repeat constructor; zdm; lia.
Qed.

Lemma Sprint_d_spec n : 0 <= n -> digits_value (Sprint_d n) = n /\ all_bytes (Sprint_d n).
Proof.
  intros Hn. unfold Sprint_d. destruct (Z.ltb_spec n 0); [lia|]. apply digits_spec; [|lia].
  split; [done|]. rewrite Nat2Z.inj_succ. destruct (Z.eq_dec n 0) as [->|]; [cbn; lia|].
  rewrite Z2Nat.id by apply Z.log2_nonneg. apply Z.log2_spec. lia.
Qed.

Lemma digits_short k : forall fuel n,
  (length (digits fuel n) <= k)%nat -> 0 <= n < 2 ^ Z.of_nat fuel -> n < 10 ^ Z.of_nat k.
Proof.
  induction k as [|k IH]; intros [|fuel] n Hl Hn; try (cbn in Hn; pose proof (Z.pow_pos_nonneg 10 (Z.of_nat (S k)) ltac:(lia) ltac:(lia)); lia).
  - cbn in *; lia.
  - cbn [digits] in Hl. destruct (n <? 10); [cbn in Hl; lia|]. rewrite length_app in Hl. cbn in Hl. lia.
  - cbn [digits] in Hl. rewrite Nat2Z.inj_succ, Z.pow_succ_r by lia. destruct (Z.ltb_spec n 10).
    + pose proof (Z.pow_pos_nonneg 10 (Z.of_nat k) ltac:(lia) ltac:(lia)). lia.
    + rewrite length_app in Hl. cbn in Hl. rewrite Nat2Z.inj_succ, Z.pow_succ_r in Hn by lia.
      assert (n / 10 < 10 ^ Z.of_nat k); [|zdm; lia]. apply (IH fuel); [lia|zdm; lia].
Qed.

(** *** Decimal *)

Definition is_digit (b : byte) : Prop := 48 <= b <= 57.

Lemma digits_chars fuel : forall n, 0 <= n -> Forall is_digit (digits fuel n).
Proof.
  induction fuel as [|fuel IH]; intros n Hn; [constructor|]. cbn [digits]. unfold is_digit in *.
  destruct (Z.ltb_spec n 10); [repeat constructor; lia|].
  apply Forall_app. split; [apply IH; zdm; lia|]. repeat constructor; zdm; lia.
Qed.

Lemma digits_nonempty fuel n : (0 < fuel)%nat -> digits fuel n <> [].
Proof. destruct fuel; [lia|]. intros _. cbn. destruct (n <? 10); [done|]. by destruct (digits fuel (n / 10)). Qed.

Lemma digits_length k : forall fuel n, (0 < k)%nat -> 0 <= n < 10 ^ Z.of_nat k ->
  (length (digits fuel n) <= k)%nat.
Proof.
  induction k as [|k IH]; intros fuel n Hk Hn; [lia|]. destruct fuel as [|fuel]; [cbn; lia|].
  cbn [digits]. destruct (Z.ltb_spec n 10); [cbn; lia|].
  rewrite Nat2Z.inj_succ, Z.pow_succ_r in Hn by lia.
  destruct (decide (k = 0%nat)) as [->|]; [cbn in Hn; lia|].
  rewrite length_app. cbn. specialize (IH fuel (n / 10) ltac:(lia) ltac:(zdm; lia)). lia.
Qed.

Lemma Sprint_d_chars n : 0 <= n -> Forall is_digit (Sprint_d n).
Proof. intros Hn. unfold Sprint_d. destruct (Z.ltb_spec n 0); [lia|]. by apply digits_chars. Qed.

Lemma Sprint_d_nonempty n : Sprint_d n <> [].
Proof. unfold Sprint_d. destruct (n <? 0); [done|]. apply digits_nonempty. lia. Qed.

Lemma digits_value_pad k s : digits_value (replicate k 48 ++ s) = digits_value s.
Proof.
  unfold digits_value. rewrite fold_left_app. f_equal.
  induction k as [|k IH]; [done|]. exact IH.
Qed.

Lemma appendInt_value n w : 0 <= n -> digits_value (appendInt n w) = n.
Proof.
  intros Hn. unfold appendInt. destruct (Z.ltb_spec n 0); [lia|].
  rewrite digits_value_pad. by apply Sprint_d_spec.
Qed.

Lemma appendInt_chars n w : 0 <= n -> Forall is_digit (appendInt n w).
Proof.
  intros Hn. unfold appendInt. destruct (Z.ltb_spec n 0); [lia|]. apply Forall_app.
  split; [|by apply Sprint_d_chars]. apply Forall_replicate. unfold is_digit. lia.
Qed.

Lemma length_appendInt n w :
  (0 < w)%nat -> 0 <= n < 10 ^ Z.of_nat w -> length (appendInt n w) = w.
Proof.
  intros Hw Hn. unfold appendInt. destruct (Z.ltb_spec n 0); [lia|].
  rewrite length_app, length_replicate. unfold Sprint_d. destruct (Z.ltb_spec n 0); [lia|].
  pose proof (digits_length w (S (Z.to_nat (Z.log2 n))) n Hw Hn). lia.
Qed.

Lemma appendInt_inj n m w : 0 <= n -> 0 <= m -> appendInt n w = appendInt m w -> n = m.
Proof. intros Hn Hm He. by rewrite <- (appendInt_value n w), <- (appendInt_value m w), He. Qed.

(** *** Base64 *)

Lemma base64Char_inj a b : 0 <= a < 64 -> 0 <= b < 64 -> base64Char a = base64Char b -> a = b.
Proof.
  intros. unfold base64Char in *.
  destruct (Z.ltb_spec a 26), (Z.ltb_spec a 52), (Z.ltb_spec a 62), (Z.eqb_spec a 62),
    (Z.ltb_spec b 26), (Z.ltb_spec b 52), (Z.ltb_spec b 62), (Z.eqb_spec b 62); lia.
Qed.

(** Letters, digits, plus and slash; not the padding. *)
Lemma base64Char_range a : 0 <= a < 64 -> 43 <= base64Char a <= 122 /\ base64Char a <> 60 /\
  base64Char a <> 61 /\ base64Char a <> 62 /\ base64Char a <> 92.
Proof.
  intros. unfold base64Char.
  destruct (Z.ltb_spec a 26), (Z.ltb_spec a 52), (Z.ltb_spec a 62), (Z.eqb_spec a 62); lia.
Qed.

(** Bytes in groups of three. *)
Lemma triples_ind {A} (P : list A -> Prop) :
  P [] -> (forall a, P [a]) -> (forall a b, P [a; b]) ->
  (forall a b c l, P l -> P (a :: b :: c :: l)) -> forall l, P l.
Proof.
  intros H0 H1 H2 H3. fix IH 1. intros [|a [|b [|c l]]]; [exact H0|apply H1|apply H2|apply H3, IH].
Qed.

Ltac sextets :=
  repeat match goal with
  | H : all_bytes (_ :: _) |- _ => inversion_clear H
  | H : base64Char ?x = base64Char ?y |- _ => apply base64Char_inj in H; [|unfold is_byte in *; zdm; lia..]
  | H : base64Char ?x = 61 |- _ =>
      destruct (base64Char_range x) as (_ & _ & ? & _); [unfold is_byte in *; zdm; lia|done]
  | H : 61 = base64Char _ |- _ => symmetry in H
  end; unfold is_byte in *.

Lemma base64_inj l1 : forall l2, all_bytes l1 -> all_bytes l2 -> base64 l1 = base64 l2 -> l1 = l2.
Proof.
  induction l1 as [|a|a b|a b c l1 IH] using triples_ind; intros [|a2 [|b2 [|c2 l2]]] H1 H2 He;
    cbn [base64] in He; try done; try (injection He; intros; sextets; repeat f_equal; zdm; lia).
  injection He as E1 E2 E3 E4 He. sextets.
  assert (a = a2 /\ b = b2 /\ c = c2) as (-> & -> & ->) by (repeat split; zdm; lia).
  do 3 f_equal. by apply IH.
Qed.

(** *** Time stamps *)

Lemma RFC3339_inj t1 t2 : stampable t1 -> stampable t2 -> RFC3339 t1 = RFC3339 t2 -> t1 = t2.
Proof.
  intros (N1 & O1 & Y1) (N2 & O2 & Y2). unfold RFC3339. rewrite N1, N2, O1, O2.
  pose proof (Month_range t1). pose proof (Month_range t2). pose proof (Day_range t1).
  pose proof (Day_range t2). pose proof (Hour_range t1). pose proof (Hour_range t2).
  pose proof (Minute_range t1). pose proof (Minute_range t2). pose proof (Second_range t1).
  pose proof (Second_range t2). intros He.
  apply app_inj_1 in He as [Ey [= He]]; [|by rewrite !length_appendInt by lia].
  apply app_inj_1 in He as [Em [= He]]; [|by rewrite !length_appendInt by lia].
  apply app_inj_1 in He as [Ed [= He]]; [|by rewrite !length_appendInt by lia].
  apply app_inj_1 in He as [Eh [= He]]; [|by rewrite !length_appendInt by lia].
  apply app_inj_1 in He as [En [= He]]; [|by rewrite !length_appendInt by lia].
  apply app_inj_1 in He as [Es _]; [|by rewrite !length_appendInt by lia].
  apply appendInt_inj in Ey, Em, Ed, Eh, En, Es; [|lia..].
  pose proof (Date_of_fields t1) as D1. pose proof (Date_of_fields t2) as D2.
  rewrite Ey, Em, Ed, Eh, En, Es, D2 in D1. unfold wall_utc, wall in D1. rewrite O1, O2 in D1.
  injection D1 as D1. destruct t1, t2; cbn in *. f_equal; lia || congruence.
Qed.
