(* ===== verification/Constant.v ===== *)
(** * Protocol constants ([constant/command.go]) *)
From S2P Require Import Prelude.

Definition StartMarker1 : byte := 0x23.
Definition StartMarker2 : byte := 0x23.

Definition CmdLogin : byte := 0x01.
Definition CmdRealtime : byte := 0x02.
Definition CmdReissue : byte := 0x03.
Definition CmdLogout : byte := 0x04.
Definition CmdPlatLogin : byte := 0x05.
Definition CmdPlatLogout : byte := 0x06.
Definition CmdHeartbeat : byte := 0x07.
Definition CmdTimeCalibr : byte := 0x08.

Definition CmdParamQuery : byte := 0x80.
Definition CmdParamQueryResp : byte := 0x81.
Definition CmdParamSetting : byte := 0x82.

Definition RespSuccess : byte := 0xFE.
Definition ReqRequest : byte := 0x01.

Definition EncNone : byte := 0x01.
Definition EncRSA : byte := 0x02.
Definition EncAES128 : byte := 0x03.
Definition EncAbnormal : byte := 0xFE.

Definition VINLength : int := 17.

Definition LoginSuccess : byte := 0x01.
Definition LoginCarNotFound : byte := 0x02.
Definition LoginTerminalNotFound : byte := 0x03.
Definition LoginResultAbnormal : byte := 0xFE.

Definition HeaderSize : int := 24.
Definition MinPacketSize : int := 25.
Definition MaxPacketSize : int := 65535 + 25.

(** The names the constants are logged under. *)
Definition CommandNames : list (byte * string) :=
  [(CmdLogin, "LOGIN"); (CmdRealtime, "REALTIME"); (CmdReissue, "REISSUE"); (CmdLogout, "LOGOUT");
   (CmdPlatLogin, "PLAT_LOGIN"); (CmdPlatLogout, "PLAT_LOGOUT"); (CmdHeartbeat, "HEARTBEAT");
   (CmdTimeCalibr, "TIME_CALIBRATION"); (CmdParamQuery, "PARAM_QUERY");
   (CmdParamQueryResp, "PARAM_QUERY_RESP"); (CmdParamSetting, "PARAM_SETTING")]%string.

Definition LoginResultNames : list (byte * string) :=
  [(LoginSuccess, "SUCCESS"); (LoginCarNotFound, "CAR_NOT_FOUND");
   (LoginTerminalNotFound, "TERMINAL_NOT_FOUND"); (LoginResultAbnormal, "ABNORMAL")]%string.
