(* ===== verification/Packet.v ===== *)
(** * Message types ([packet.go])

    The structs of the package, field by field in the order of the source; a
    pointer field that may be [nil] is an [option], a slice is a list.  The
    field names carry the struct's initials, since a Rocq module cannot declare
    one projection twice. *)
From S2P Require Import Prelude.
From S2P Require Import GoTime.

Record Packet := mkPacket {
  p_Command : byte;
  p_Response : byte;
  p_VIN : gostring;
  p_EncryptType : byte;
  p_Data : bytes;
  p_Length : uint16
}.

Record ConfigField := mkConfigField {
  cf_ID : byte;
  cf_Length : byte;
  cf_Value : bytes
}.

Record VehicleLoginData := mkVehicleLoginData {
  vl_LoginTime : Time;
  vl_Sequence : uint16;
  vl_ICCID : gostring;
  vl_ConfigDataCnt : byte;
  vl_ConfigData : list ConfigField
}.

Record VehicleLogoutData := mkVehicleLogoutData {
  vo_LogoutTime : Time;
  vo_Sequence : uint16
}.

Record LoginResponse := mkLoginResponse {
  lr_LoginTime : Time;
  lr_Sequence : uint16;
  lr_Result : byte;
  lr_Token : bytes
}.

Record VehicleBaseInfo := mkVehicleBaseInfo {
  vb_VehicleStatus : byte;
  vb_ChargingStatus : byte;
  vb_RunMode : byte;
  vb_Speed : uint16;
  vb_Odometer : uint32;
  vb_TotalVoltage : uint16;
  vb_TotalCurrent : uint16;
  vb_SOC : byte;
  vb_DCStatus : byte;
  vb_Gear : byte;
  vb_InsulationRes : uint16
}.

Record MotorInfo := mkMotorInfo {
  mo_MotorSeq : byte;
  mo_MotorStatus : byte;
  mo_ControllerTemp : byte;
  mo_MotorSpeed : uint16;
  mo_MotorTorque : uint16;
  mo_MotorTemp : byte;
  mo_MotorVoltage : uint16;
  mo_MotorCurrent : uint16
}.

Record FuelCellInfo := mkFuelCellInfo {
  fc_CellVoltage : uint16;
  fc_CellCurrent : uint16;
  fc_FuelConsumption : uint16;
  fc_ProbeCount : uint16;
  fc_ProbeTemps : bytes;
  fc_H2MaxTemp : uint16;
  fc_H2MaxTempProbe : byte;
  fc_H2MaxConcentration : uint16;
  fc_H2MaxConcentrationSensor : byte;
  fc_H2PressureMax : uint16;
  fc_H2PressureMaxSensor : byte;
  fc_H2PressureMin : uint16;
  fc_H2PressureMinSensor : byte;
  fc_DCDCStatus : byte
}.

Record EngineInfo := mkEngineInfo {
  en_EngineStatus : byte;
  en_CrankSpeed : uint16;
  en_FuelRate : uint16
}.

Record PositionInfo := mkPositionInfo {
  po_Longitude : uint32;
  po_Latitude : uint32
}.

Record ExtremeInfo := mkExtremeInfo {
  ex_MaxBatteryVoltage : uint16;
  ex_MaxBatteryVoltageCode : byte;
  ex_MinBatteryVoltage : uint16;
  ex_MinBatteryVoltageCode : byte;
  ex_MaxTemp : byte;
  ex_MaxTempCode : byte;
  ex_MinTemp : byte;
  ex_MinTempCode : byte
}.

Record AlarmInfo := mkAlarmInfo {
  al_MaxLevel : byte;
  al_AlarmByteLen : uint32;
  al_AlarmBytes : bytes
}.

Record CellInfo := mkCellInfo {
  ci_Voltage : uint16;
  ci_Temp : byte
}.

Record CellVoltage := mkCellVoltage {
  cv_CellNo : byte;
  cv_CellInfo : CellInfo
}.

Record SubsystemVoltage := mkSubsystemVoltage {
  sv_SubsysNo : byte;
  sv_Voltage : uint16;
  sv_Current : uint16;
  sv_CellCount : uint16;
  sv_Cells : list CellVoltage
}.

Record VoltageInfo := mkVoltageInfo {
  vi_SubsysCount : uint16;
  vi_SubsystemVoltages : list SubsystemVoltage
}.

Record RealtimeMessage := mkRealtimeMessage {
  rt_InfoTime : Time;
  rt_VehicleData : option VehicleBaseInfo;
  rt_MotorData : list MotorInfo;
  rt_FuelCellData : option FuelCellInfo;
  rt_EngineData : option EngineInfo;
  rt_PositionData : option PositionInfo;
  rt_ExtremeData : option ExtremeInfo;
  rt_AlarmData : option AlarmInfo;
  rt_VoltageData : option VoltageInfo
}.

Record ReissueMessage := mkReissueMessage {
  ri_InfoTime : Time;
  ri_DataItems : list RealtimeMessage
}.

Record PlatformLoginData := mkPlatformLoginData {
  pl_LoginTime : Time;
  pl_Sequence : uint16;
  pl_Username : gostring;
  pl_Password : gostring
}.

Record PlatformLogoutData := mkPlatformLogoutData {
  pg_LogoutTime : Time;
  pg_Sequence : uint16
}.

Record ParamQueryData := mkParamQueryData {
  pq_QueryTime : Time;
  pq_Count : byte;
  pq_ParamIDs : list uint32
}.

Record ParamItem := mkParamItem {
  pi_ID : uint32;
  pi_Value : bytes
}.

Record ParamQueryResponse := mkParamQueryResponse {
  pr_Count : byte;
  pr_Params : list ParamItem
}.

Record ParamSettingData := mkParamSettingData {
  ps_SettingTime : Time;
  ps_Count : byte;
  ps_Params : list ParamItem
}.

(** [newForwardMsg]: the [Data interface{}] of the messages the server
    forwards is one of four decoded bodies. *)
Inductive ForwardData :=
  | FwdLogin (d : VehicleLoginData)
  | FwdLogout (d : VehicleLogoutData)
  | FwdRealtime (d : RealtimeMessage)
  | FwdReissue (d : ReissueMessage).

Record ForwardMsg := mkForwardMsg {
  fm_Type : string;
  fm_VIN : gostring;
  fm_Data : ForwardData
}.

Definition newForwardMsg (msgType : string) (vin : gostring) (data : ForwardData) : ForwardMsg :=
  mkForwardMsg msgType vin data.
