(* ===== verification/Codec.v ===== *)
(** * Data fields of a realtime message (package [codec])

    One decoder per data field of GB/T 32960.3, as the files of [codec/] have
    them, and the dispatch table of [field.go].  The class [Wire] states what
    the message layer relies on: a value's wire format, and that the field's
    decoder reads it back whatever follows it. *)
From S2P Require Import Prelude.

(** ** Data *)

Record VehicleBaseInfo := mkVehicleBaseInfo {
  v_VehicleStatus : byte;
  v_ChargingStatus : byte;
  v_RunMode : byte;
  v_Speed : uint16;
  v_Odometer : uint32;
  v_TotalVoltage : uint16;
  v_TotalCurrent : uint16;
  v_SOC : byte;
  v_DCStatus : byte;
  v_Gear : byte;
  v_InsulationRes : uint16;
  v_Reserved : uint16
}.

Record MotorInfo := mkMotorInfo {
  m_MotorSeq : byte;
  m_MotorStatus : byte;
  m_ControllerTemp : byte;
  m_MotorSpeed : uint16;
  m_MotorTorque : uint16;
  m_MotorTemp : byte;
  m_MotorVoltage : uint16;
  m_MotorCurrent : uint16
}.

Record FuelCellInfo := mkFuelCellInfo {
  f_CellVoltage : uint16;
  f_CellCurrent : uint16;
  f_FuelConsumption : uint16;
  f_ProbeCount : uint16;
  f_ProbeTemps : bytes;
  f_H2MaxTemp : uint16;
  f_H2MaxTempProbe : byte;
  f_H2MaxConcentration : uint16;
  f_H2MaxConcentrationSensor : byte;
  f_H2PressureMax : uint16;
  f_H2PressureMaxSensor : byte;
  f_H2PressureMin : uint16;
  f_H2PressureMinSensor : byte;
  f_DCDCStatus : byte
}.

Record EngineInfo := mkEngineInfo {
  e_EngineStatus : byte;
  e_CrankSpeed : uint16;
  e_FuelRate : uint16
}.

Record PositionInfo := mkPositionInfo {
  p_Longitude : uint32;
  p_Latitude : uint32
}.

Record ExtremeInfo := mkExtremeInfo {
  x_MaxBatteryVoltage : uint16;
  x_MaxBatteryVoltageCode : byte;
  x_MinBatteryVoltage : uint16;
  x_MinBatteryVoltageCode : byte;
  x_MaxTemp : byte;
  x_MaxTempCode : byte;
  x_MinTemp : byte;
  x_MinTempCode : byte
}.

Record AlarmInfo := mkAlarmInfo {
  a_MaxLevel : byte;
  a_AlarmByteLen : uint32;
  a_AlarmBytes : bytes
}.

Record CellInfo := mkCellInfo {
  c_Voltage : uint16;
  c_Temp : byte
}.

Record CellVoltage := mkCellVoltage {
  c_CellNo : byte;
  c_CellInfo : CellInfo
}.

Record SubsystemVoltage := mkSubsystemVoltage {
  s_SubsysNo : byte;
  s_Voltage : uint16;
  s_Current : uint16;
  s_CellCount : uint16;
  s_Cells : list CellVoltage
}.

Record VoltageInfo := mkVoltageInfo {
  vt_SubsysCount : uint16;
  vt_SubsystemVoltages : list SubsystemVoltage
}.

Record SubsystemTemperature := mkSubsystemTemperature {
  st_SubsysNo : byte;
  st_ProbeCount : uint16;
  st_ProbeTemperatures : bytes
}.

Record TemperatureInfo := mkTemperatureInfo {
  t_SubsysCount : uint16;
  t_SubsystemTemperatures : list SubsystemTemperature
}.

(** ** Decoders *)

Definition DecodeVehicleData (data : bytes) : outcome VehicleBaseInfo :=
  if len data <? 20 then Err (Errorf "vehicle data too short: %d < 20" [len data]) else
  let pos := 0 in
  let! VehicleStatus := index data pos in
  let pos := pos + 1 in
  let! ChargingStatus := index data pos in
  let pos := pos + 1 in
  let! RunMode := index data pos in
  let pos := pos + 1 in
  let! Speed := read16 data pos in
  let pos := pos + 2 in
  let! Odometer := read32 data pos in
  let pos := pos + 4 in
  let! TotalVoltage := read16 data pos in
  let pos := pos + 2 in
  let! TotalCurrent := read16 data pos in
  let pos := pos + 2 in
  let! SOC := index data pos in
  let pos := pos + 1 in
  let! DCStatus := index data pos in
  let pos := pos + 1 in
  let! Gear := index data pos in
  let pos := pos + 1 in
  let! InsulationRes := read16 data pos in
  let pos := pos + 2 in
  let! Reserved := read16 data pos in
  Ok (mkVehicleBaseInfo VehicleStatus ChargingStatus RunMode Speed Odometer
        TotalVoltage TotalCurrent SOC DCStatus Gear InsulationRes Reserved).

(** [MotorInfo{}], what [make([]MotorInfo, count)] is filled with. *)
Definition zeroMotor : MotorInfo := mkMotorInfo 0 0 0 0 0 0 0 0.

(** The loop of [DecodeMotorData], [n] iterations before [i] reaches [count]. *)
Fixpoint decodeMotors (n i : nat) (data : bytes) (pos : int) (motors : list MotorInfo)
  : outcome (list MotorInfo) :=
  match n with
  | O => Ok motors
  | S n =>
      if len data <? pos + 12 then Ok motors else
      let! MotorSeq := index data pos in
      let pos := pos + 1 in
      let! MotorStatus := index data pos in
      let pos := pos + 1 in
      let! ControllerTemp := index data pos in
      let pos := pos + 1 in
      let! MotorSpeed := read16 data pos in
      let pos := pos + 2 in
      let! MotorTorque := read16 data pos in
      let pos := pos + 2 in
      let! MotorTemp := index data pos in
      let pos := pos + 1 in
      let! MotorVoltage := read16 data pos in
      let pos := pos + 2 in
      let! MotorCurrent := read16 data pos in
      let pos := pos + 2 in
      let m := mkMotorInfo MotorSeq MotorStatus ControllerTemp MotorSpeed
                 MotorTorque MotorTemp MotorVoltage MotorCurrent in
      decodeMotors n (S i) data pos (<[i := m]> motors)
  end.

Definition DecodeMotorData (data : bytes) : outcome (list MotorInfo) :=
  if len data <? 1 then Err (Errorf "motor data too short" []) else
  let pos := 0 in
  let! count := index data pos in
  let pos := pos + 1 in
  decodeMotors (Z.to_nat count) 0 data pos (replicate (Z.to_nat count) zeroMotor).

Definition DecodeFuelCellData (data : bytes) : outcome FuelCellInfo :=
  if len data <? 8 then Err (Errorf "fuel cell data too short: %d < 8" [len data]) else
  let pos := 0 in
  let! CellVoltage := read16 data pos in
  let pos := pos + 2 in
  let! CellCurrent := read16 data pos in
  let pos := pos + 2 in
  let! FuelConsumption := read16 data pos in
  let pos := pos + 2 in
  let! ProbeCount := read16 data pos in
  let pos := pos + 2 in
  let probeCnt := ProbeCount in
  let expectedLen := pos + probeCnt + 13 in
  if len data <? expectedLen then
    Err (Errorf "fuel cell data truncated: need %d bytes, have %d" [expectedLen; len data])
  else
  let! ProbeTemps := slice data pos (pos + probeCnt) in
  let pos := pos + probeCnt in
  let! H2MaxTemp := read16 data pos in
  let pos := pos + 2 in
  let! H2MaxTempProbe := index data pos in
  let pos := pos + 1 in
  let! H2MaxConcentration := read16 data pos in
  let pos := pos + 2 in
  let! H2MaxConcentrationSensor := index data pos in
  let pos := pos + 1 in
  let! H2PressureMax := read16 data pos in
  let pos := pos + 2 in
  let! H2PressureMaxSensor := index data pos in
  let pos := pos + 1 in
  let! H2PressureMin := read16 data pos in
  let pos := pos + 2 in
  let! H2PressureMinSensor := index data pos in
  let pos := pos + 1 in
  let! DCDCStatus := index data pos in
  Ok (mkFuelCellInfo CellVoltage CellCurrent FuelConsumption ProbeCount ProbeTemps
        H2MaxTemp H2MaxTempProbe H2MaxConcentration H2MaxConcentrationSensor
        H2PressureMax H2PressureMaxSensor H2PressureMin H2PressureMinSensor DCDCStatus).

Definition DecodeEngineData (data : bytes) : outcome EngineInfo :=
  if len data <? 5 then Err (Errorf "engine data too short: %d < 5" [len data]) else
  let pos := 0 in
  let! EngineStatus := index data pos in
  let pos := pos + 1 in
  let! CrankSpeed := read16 data pos in
  let pos := pos + 2 in
  let! FuelRate := read16 data pos in
  Ok (mkEngineInfo EngineStatus CrankSpeed FuelRate).

Definition DecodePositionData (data : bytes) : outcome PositionInfo :=
  if len data <? 8 then Err (Errorf "position data too short: %d < 8" [len data]) else
  let! Longitude := read32 data 0 in
  let! Latitude := read32 data 4 in
  Ok (mkPositionInfo Longitude Latitude).

Definition DecodeExtremeData (data : bytes) : outcome ExtremeInfo :=
  if len data <? 10 then Err (Errorf "extreme data too short: %d < 10" [len data]) else
  let pos := 0 in
  let! MaxBatteryVoltage := read16 data pos in
  let pos := pos + 2 in
  let! MaxBatteryVoltageCode := index data pos in
  let pos := pos + 1 in
  let! MinBatteryVoltage := read16 data pos in
  let pos := pos + 2 in
  let! MinBatteryVoltageCode := index data pos in
  let pos := pos + 1 in
  let! MaxTemp := index data pos in
  let pos := pos + 1 in
  let! MaxTempCode := index data pos in
  let pos := pos + 1 in
  let! MinTemp := index data pos in
  let pos := pos + 1 in
  let! MinTempCode := index data pos in
  Ok (mkExtremeInfo MaxBatteryVoltage MaxBatteryVoltageCode MinBatteryVoltage
        MinBatteryVoltageCode MaxTemp MaxTempCode MinTemp MinTempCode).

Definition DecodeAlarmData (data : bytes) : outcome AlarmInfo :=
  if len data <? 5 then Err (Errorf "alarm data too short: %d < 5" [len data]) else
  let pos := 0 in
  let! MaxLevel := index data pos in
  let pos := pos + 1 in
  let! AlarmByteLen := read32 data pos in
  let pos := pos + 4 in
  if len data - pos <? AlarmByteLen then
    Err (Errorf "alarm byte length %d exceeds data (%d bytes remaining)"
           [AlarmByteLen; len data - pos])
  else
  let! AlarmBytes := slice data pos (pos + AlarmByteLen) in
  Ok (mkAlarmInfo MaxLevel AlarmByteLen AlarmBytes).

(** The inner loop of [DecodeVoltageData], [n] iterations before [j] reaches
    the cell count.  [CellInfo.Temp] is never assigned. *)
Fixpoint decodeCells (n : nat) (data : bytes) (pos : int) (cells : list CellVoltage)
  : outcome (list CellVoltage * int) :=
  match n with
  | O => Ok (cells, pos)
  | S n =>
      if len data <? pos + 3 then Ok (cells, pos) else
      let! CellNo := index data pos in
      let pos := pos + 1 in
      let! Voltage := read16 data pos in
      let pos := pos + 2 in
      decodeCells n data pos (cells ++ [mkCellVoltage CellNo (mkCellInfo Voltage 0)])
  end.

(** The outer loop, [n] iterations before [i] reaches [SubsysCount]. *)
Fixpoint decodeSubsysVoltages (n : nat) (data : bytes) (pos : int)
    (subs : list SubsystemVoltage) : outcome (list SubsystemVoltage) :=
  match n with
  | O => Ok subs
  | S n =>
      if len data <? pos + 7 then Ok subs else
      let! SubsysNo := index data pos in
      let pos := pos + 1 in
      let! Voltage := read16 data pos in
      let pos := pos + 2 in
      let! Current := read16 data pos in
      let pos := pos + 2 in
      let! CellCount := read16 data pos in
      let pos := pos + 2 in
      let! '(cells, pos) := decodeCells (Z.to_nat CellCount) data pos [] in
      decodeSubsysVoltages n data pos
        (subs ++ [mkSubsystemVoltage SubsysNo Voltage Current CellCount cells])
  end.

Definition DecodeVoltageData (data : bytes) : outcome VoltageInfo :=
  if len data <? 2 then Err (Errorf "voltage data too short: %d < 2" [len data]) else
  let pos := 0 in
  let! SubsysCount := read16 data pos in
  let pos := pos + 2 in
  let! subs := decodeSubsysVoltages (Z.to_nat SubsysCount) data pos [] in
  Ok (mkVoltageInfo SubsysCount subs).

(** The loop of [DecodeTemperatureData]: a truncated subsystem keeps the probes
    that are there. *)
Fixpoint decodeSubsysTemperatures (n : nat) (data : bytes) (pos : int)
    (subs : list SubsystemTemperature) : outcome (list SubsystemTemperature) :=
  match n with
  | O => Ok subs
  | S n =>
      if len data <? pos + 3 then Ok subs else
      let! SubsysNo := index data pos in
      let pos := pos + 1 in
      let! ProbeCount := read16 data pos in
      let pos := pos + 2 in
      let probeCnt := if len data <? pos + ProbeCount then len data - pos else ProbeCount in
      let! ProbeTemperatures := slice data pos (pos + probeCnt) in
      let pos := pos + probeCnt in
      decodeSubsysTemperatures n data pos
        (subs ++ [mkSubsystemTemperature SubsysNo ProbeCount ProbeTemperatures])
  end.

Definition DecodeTemperatureData (data : bytes) : outcome TemperatureInfo :=
  if len data <? 2 then Err (Errorf "temperature data too short: %d < 2" [len data]) else
  let pos := 0 in
  let! SubsysCount := read16 data pos in
  let pos := pos + 2 in
  let! subs := decodeSubsysTemperatures (Z.to_nat SubsysCount) data pos [] in
  Ok (mkTemperatureInfo SubsysCount subs).

(** ** Dispatch (field.go) *)

Definition FieldVehicle : byte := 0x01.
Definition FieldMotor : byte := 0x02.
Definition FieldFuelCell : byte := 0x03.
Definition FieldEngine : byte := 0x04.
Definition FieldPosition : byte := 0x05.
Definition FieldExtreme : byte := 0x06.
Definition FieldAlarm : byte := 0x07.
Definition FieldVoltage : byte := 0x08.
Definition FieldTemperature : byte := 0x09.

(** The [interface{}] of [DecodeField], by its dynamic type. *)
Inductive FieldValue :=
  | VVehicle (v : VehicleBaseInfo)
  | VMotor (ms : list MotorInfo)
  | VFuelCell (f : FuelCellInfo)
  | VEngine (e : EngineInfo)
  | VPosition (p : PositionInfo)
  | VExtreme (e : ExtremeInfo)
  | VAlarm (a : AlarmInfo)
  | VVoltage (v : VoltageInfo)
  | VTemperature (t : TemperatureInfo)
  | VRaw (data : bytes).

Definition FieldDecoder := bytes -> outcome FieldValue.

Definition boxed {A} (box : A -> FieldValue) (d : bytes -> outcome A) : FieldDecoder :=
  fun data => let! v := d data in Ok (box v).

Definition decoders (fieldID : byte) : option FieldDecoder :=
  match fieldID with
  | 0x01 => Some (boxed VVehicle DecodeVehicleData)
  | 0x02 => Some (boxed VMotor DecodeMotorData)
  | 0x03 => Some (boxed VFuelCell DecodeFuelCellData)
  | 0x04 => Some (boxed VEngine DecodeEngineData)
  | 0x05 => Some (boxed VPosition DecodePositionData)
  | 0x06 => Some (boxed VExtreme DecodeExtremeData)
  | 0x07 => Some (boxed VAlarm DecodeAlarmData)
  | 0x08 => Some (boxed VVoltage DecodeVoltageData)
  | 0x09 => Some (boxed VTemperature DecodeTemperatureData)
  | _ => None
  end.

Definition DecodeField (fieldID : byte) (data : bytes) : outcome FieldValue :=
  match decoders fieldID with
  | Some d => d data
  | None => Ok (VRaw data)
  end.

Definition HasDecoder (fieldID : byte) : bool :=
  match decoders fieldID with Some _ => true | None => false end.
