(* ===== verification/CodecWire.v ===== *)
(** * Wire formats of the data fields, and the field decoders against them

    The byte layout GB/T 32960.3 gives each data field is written as an
    encoder [enc]; the class [Wire] says that the decoder of [Codec] reads it
    back.  The message layer ([Realtime]) uses the class only. *)
From S2P Require Import Prelude.
From S2P Require Import Codec.

(** ** The interface *)

(** A wire format for [A] and the decoder that inverts it.  [fits] says that
    the value can be written in the format: its numbers have their width and
    its counts are the lengths of what they count. *)
Class Wire (A : Type) := {
  enc : A -> bytes;
  fits : A -> Prop;
  dec : bytes -> outcome A;
  dec_enc : forall a s, fits a -> dec (enc a ++ s) = Ok a;
  enc_bytes : forall a, fits a -> all_bytes (enc a)
}.

(** A format of [n] bytes, which covers every string of [n] bytes. *)
Class FixedWire (A : Type) `{Wire A} (n : Z) := {
  len_enc : forall a, len (enc a) = n;
  dec_short : forall data, len data < n -> exists e, dec data = Err e;
  enc_onto : forall data, all_bytes data -> len data = n -> exists a, fits a /\ enc a = data
}.

(** ** Layouts *)

Definition enc_vehicle (v : VehicleBaseInfo) : bytes :=
  v_VehicleStatus v :: v_ChargingStatus v :: v_RunMode v ::
  put16 (v_Speed v) ++ put32 (v_Odometer v) ++
  put16 (v_TotalVoltage v) ++ put16 (v_TotalCurrent v) ++
  v_SOC v :: v_DCStatus v :: v_Gear v ::
  put16 (v_InsulationRes v) ++ put16 (v_Reserved v).

Definition fits_vehicle (v : VehicleBaseInfo) : Prop :=
  is_byte (v_VehicleStatus v) /\ is_byte (v_ChargingStatus v) /\ is_byte (v_RunMode v) /\
  is_uint16 (v_Speed v) /\ is_uint32 (v_Odometer v) /\
  is_uint16 (v_TotalVoltage v) /\ is_uint16 (v_TotalCurrent v) /\
  is_byte (v_SOC v) /\ is_byte (v_DCStatus v) /\ is_byte (v_Gear v) /\
  is_uint16 (v_InsulationRes v) /\ is_uint16 (v_Reserved v).

Definition enc_motor (m : MotorInfo) : bytes :=
  m_MotorSeq m :: m_MotorStatus m :: m_ControllerTemp m ::
  put16 (m_MotorSpeed m) ++ put16 (m_MotorTorque m) ++
  m_MotorTemp m :: put16 (m_MotorVoltage m) ++ put16 (m_MotorCurrent m).

Definition fits_motor (m : MotorInfo) : Prop :=
  is_byte (m_MotorSeq m) /\ is_byte (m_MotorStatus m) /\ is_byte (m_ControllerTemp m) /\
  is_uint16 (m_MotorSpeed m) /\ is_uint16 (m_MotorTorque m) /\ is_byte (m_MotorTemp m) /\
  is_uint16 (m_MotorVoltage m) /\ is_uint16 (m_MotorCurrent m).

Definition enc_motors (ms : list MotorInfo) : bytes := len ms :: concat (enc_motor <$> ms).
Definition fits_motors (ms : list MotorInfo) : Prop :=
  is_byte (len ms) /\ Forall fits_motor ms.

Definition enc_fuelcell (f : FuelCellInfo) : bytes :=
  put16 (f_CellVoltage f) ++ put16 (f_CellCurrent f) ++
  put16 (f_FuelConsumption f) ++ put16 (f_ProbeCount f) ++
  f_ProbeTemps f ++
  put16 (f_H2MaxTemp f) ++ f_H2MaxTempProbe f ::
  put16 (f_H2MaxConcentration f) ++ f_H2MaxConcentrationSensor f ::
  put16 (f_H2PressureMax f) ++ f_H2PressureMaxSensor f ::
  put16 (f_H2PressureMin f) ++ [f_H2PressureMinSensor f; f_DCDCStatus f].

Definition fits_fuelcell (f : FuelCellInfo) : Prop :=
  is_uint16 (f_CellVoltage f) /\ is_uint16 (f_CellCurrent f) /\
  is_uint16 (f_FuelConsumption f) /\ is_uint16 (f_ProbeCount f) /\
  f_ProbeCount f = len (f_ProbeTemps f) /\ all_bytes (f_ProbeTemps f) /\
  is_uint16 (f_H2MaxTemp f) /\ is_byte (f_H2MaxTempProbe f) /\
  is_uint16 (f_H2MaxConcentration f) /\ is_byte (f_H2MaxConcentrationSensor f) /\
  is_uint16 (f_H2PressureMax f) /\ is_byte (f_H2PressureMaxSensor f) /\
  is_uint16 (f_H2PressureMin f) /\ is_byte (f_H2PressureMinSensor f) /\
  is_byte (f_DCDCStatus f).

Definition enc_engine (e : EngineInfo) : bytes :=
  e_EngineStatus e :: put16 (e_CrankSpeed e) ++ put16 (e_FuelRate e).
Definition fits_engine (e : EngineInfo) : Prop :=
  is_byte (e_EngineStatus e) /\ is_uint16 (e_CrankSpeed e) /\ is_uint16 (e_FuelRate e).

Definition enc_position (p : PositionInfo) : bytes :=
  put32 (p_Longitude p) ++ put32 (p_Latitude p).
Definition fits_position (p : PositionInfo) : Prop :=
  is_uint32 (p_Longitude p) /\ is_uint32 (p_Latitude p).

Definition enc_extreme (x : ExtremeInfo) : bytes :=
  put16 (x_MaxBatteryVoltage x) ++ x_MaxBatteryVoltageCode x ::
  put16 (x_MinBatteryVoltage x) ++
  [x_MinBatteryVoltageCode x; x_MaxTemp x; x_MaxTempCode x; x_MinTemp x; x_MinTempCode x].
Definition fits_extreme (x : ExtremeInfo) : Prop :=
  is_uint16 (x_MaxBatteryVoltage x) /\ is_byte (x_MaxBatteryVoltageCode x) /\
  is_uint16 (x_MinBatteryVoltage x) /\ is_byte (x_MinBatteryVoltageCode x) /\
  is_byte (x_MaxTemp x) /\ is_byte (x_MaxTempCode x) /\
  is_byte (x_MinTemp x) /\ is_byte (x_MinTempCode x).

Definition enc_alarm (a : AlarmInfo) : bytes :=
  a_MaxLevel a :: put32 (a_AlarmByteLen a) ++ a_AlarmBytes a.
Definition fits_alarm (a : AlarmInfo) : Prop :=
  is_byte (a_MaxLevel a) /\ is_uint32 (a_AlarmByteLen a) /\
  a_AlarmByteLen a = len (a_AlarmBytes a) /\ all_bytes (a_AlarmBytes a).

Definition enc_cell (c : CellVoltage) : bytes := c_CellNo c :: put16 (c_Voltage (c_CellInfo c)).
Definition fits_cell (c : CellVoltage) : Prop :=
  is_byte (c_CellNo c) /\ is_uint16 (c_Voltage (c_CellInfo c)) /\ c_Temp (c_CellInfo c) = 0.

Definition enc_subvoltage (s : SubsystemVoltage) : bytes :=
  s_SubsysNo s :: put16 (s_Voltage s) ++ put16 (s_Current s) ++ put16 (s_CellCount s) ++
  concat (enc_cell <$> s_Cells s).
Definition fits_subvoltage (s : SubsystemVoltage) : Prop :=
  is_byte (s_SubsysNo s) /\ is_uint16 (s_Voltage s) /\ is_uint16 (s_Current s) /\
  is_uint16 (s_CellCount s) /\ s_CellCount s = len (s_Cells s) /\ Forall fits_cell (s_Cells s).

Definition enc_voltage (v : VoltageInfo) : bytes :=
  put16 (vt_SubsysCount v) ++ concat (enc_subvoltage <$> vt_SubsystemVoltages v).
Definition fits_voltage (v : VoltageInfo) : Prop :=
  is_uint16 (vt_SubsysCount v) /\ vt_SubsysCount v = len (vt_SubsystemVoltages v) /\
  Forall fits_subvoltage (vt_SubsystemVoltages v).

Definition enc_subtemperature (s : SubsystemTemperature) : bytes :=
  st_SubsysNo s :: put16 (st_ProbeCount s) ++ st_ProbeTemperatures s.
Definition fits_subtemperature (s : SubsystemTemperature) : Prop :=
  is_byte (st_SubsysNo s) /\ is_uint16 (st_ProbeCount s) /\
  st_ProbeCount s = len (st_ProbeTemperatures s) /\ all_bytes (st_ProbeTemperatures s).

Definition enc_temperature (t : TemperatureInfo) : bytes :=
  put16 (t_SubsysCount t) ++ concat (enc_subtemperature <$> t_SubsystemTemperatures t).
Definition fits_temperature (t : TemperatureInfo) : Prop :=
  is_uint16 (t_SubsysCount t) /\ t_SubsysCount t = len (t_SubsystemTemperatures t) /\
  Forall fits_subtemperature (t_SubsystemTemperatures t).

(** The identifier and the bytes of a field. *)
Definition field_id (v : FieldValue) : byte :=
  match v with
  | VVehicle _ => FieldVehicle
  | VMotor _ => FieldMotor
  | VFuelCell _ => FieldFuelCell
  | VEngine _ => FieldEngine
  | VPosition _ => FieldPosition
  | VExtreme _ => FieldExtreme
  | VAlarm _ => FieldAlarm
  | VVoltage _ => FieldVoltage
  | VTemperature _ => FieldTemperature
  | VRaw _ => 0
  end.

Definition enc_value (v : FieldValue) : bytes :=
  match v with
  | VVehicle v => enc_vehicle v
  | VMotor ms => enc_motors ms
  | VFuelCell f => enc_fuelcell f
  | VEngine e => enc_engine e
  | VPosition p => enc_position p
  | VExtreme e => enc_extreme e
  | VAlarm a => enc_alarm a
  | VVoltage v => enc_voltage v
  | VTemperature t => enc_temperature t
  | VRaw data => data
  end.

Definition fits_value (v : FieldValue) : Prop :=
  match v with
  | VVehicle v => fits_vehicle v
  | VMotor ms => fits_motors ms
  | VFuelCell f => fits_fuelcell f
  | VEngine e => fits_engine e
  | VPosition p => fits_position p
  | VExtreme e => fits_extreme e
  | VAlarm a => fits_alarm a
  | VVoltage v => fits_voltage v
  | VTemperature t => fits_temperature t
  | VRaw _ => False
  end.

(** ** Automation *)

Create HintDb wire discriminated.
#[export] Hint Resolve put16_bytes put32_bytes Forall_nil_2 : wire.

(** ** Fixed layouts *)

Lemma dec_enc_vehicle v s :
  fits_vehicle v -> DecodeVehicleData (enc_vehicle v ++ s) = Ok v.
Proof.
  intros (? & ? & ? & ? & ? & ? & ? & ? & ? & ? & ? & ?).
  unfold DecodeVehicleData. set (data := enc_vehicle v ++ s).
  assert (at_pos data 0 (enc_vehicle v ++ s)) as H' by apply at_pos_0.
  not_short; [unfold data, enc_vehicle in *; len_simpl; pose proof (len_nonneg s); lia|].
  cbv zeta. unfold enc_vehicle in H'. clearbody data. repeat wire_step H'. by destruct v.
Qed.

Lemma dec_enc_engine e s : fits_engine e -> DecodeEngineData (enc_engine e ++ s) = Ok e.
Proof.
  intros Hf. unfold fits_engine in Hf; destruct_and! Hf. unfold DecodeEngineData. set (data := enc_engine e ++ s).
  assert (at_pos data 0 (enc_engine e ++ s)) as H' by apply at_pos_0.
  not_short; [unfold data, enc_engine in *; len_simpl; pose proof (len_nonneg s); lia|].
  cbv zeta. unfold enc_engine in H'. clearbody data. repeat wire_step H'. by destruct e.
Qed.

Lemma dec_enc_position p s : fits_position p -> DecodePositionData (enc_position p ++ s) = Ok p.
Proof.
  intros Hf. unfold fits_position in Hf; destruct_and! Hf. unfold DecodePositionData. set (data := enc_position p ++ s).
  assert (at_pos data 0 (enc_position p ++ s)) as H' by apply at_pos_0.
  not_short; [unfold data, enc_position in *; len_simpl; pose proof (len_nonneg s); lia|].
  cbv zeta. unfold enc_position in H'. clearbody data.
  wire_step H'. wire_step H'. change (0 + 4) with 4 in H'. repeat wire_step H'. by destruct p.
Qed.

Lemma dec_enc_extreme x s : fits_extreme x -> DecodeExtremeData (enc_extreme x ++ s) = Ok x.
Proof.
  intros Hf. unfold fits_extreme in Hf; destruct_and! Hf. unfold DecodeExtremeData. set (data := enc_extreme x ++ s).
  assert (at_pos data 0 (enc_extreme x ++ s)) as H' by apply at_pos_0.
  not_short; [unfold data, enc_extreme in *; len_simpl; pose proof (len_nonneg s); lia|].
  cbv zeta. unfold enc_extreme in H'. clearbody data. repeat wire_step H'. by destruct x.
Qed.

(** ** Counted layouts *)

Lemma dec_enc_alarm a s : fits_alarm a -> DecodeAlarmData (enc_alarm a ++ s) = Ok a.
Proof.
  intros Hf. unfold fits_alarm in Hf; destruct_and! Hf. unfold DecodeAlarmData. set (data := enc_alarm a ++ s).
  assert (at_pos data 0 (enc_alarm a ++ s)) as H' by apply at_pos_0.
  pose proof (len_nonneg s). pose proof (len_nonneg (a_AlarmBytes a)).
  assert (len data = 5 + len (a_AlarmBytes a) + len s) as Hl
    by (unfold data, enc_alarm; len_simpl; lia).
  not_short; [lia|].
  cbv zeta. unfold enc_alarm in H'. clearbody data. repeat wire_step H'.
  not_short; [lia|].
  rewrite (slice_at _ _ _ _ _ H') by lia. by destruct a.
Qed.

Lemma dec_enc_fuelcell f s : fits_fuelcell f -> DecodeFuelCellData (enc_fuelcell f ++ s) = Ok f.
Proof.
  intros Hf. unfold fits_fuelcell in Hf; destruct_and! Hf. unfold DecodeFuelCellData.
  set (data := enc_fuelcell f ++ s).
  assert (at_pos data 0 (enc_fuelcell f ++ s)) as H' by apply at_pos_0.
  pose proof (len_nonneg s). pose proof (len_nonneg (f_ProbeTemps f)).
  assert (len data = 21 + len (f_ProbeTemps f) + len s) as Hl
    by (unfold data, enc_fuelcell; len_simpl; lia).
  not_short; [lia|].
  cbv zeta. unfold enc_fuelcell in H'. clearbody data. repeat wire_step H'.
  not_short; [lia|].
  rewrite (slice_at _ _ _ _ _ H') by lia.
  apply at_pos_step with (j := 0 + 2 + 2 + 2 + 2 + f_ProbeCount f) in H'; [|lia].
  repeat wire_step H'. by destruct f.
Qed.

(** One element of a counted list: its [n] bytes are read, then the loop goes
    on behind them. *)
Lemma decodeMotors_step n i data pos m s motors :
  fits_motor m -> at_pos data pos (enc_motor m ++ s) ->
  decodeMotors (S n) i data pos motors = decodeMotors n (S i) data (pos + 12) (<[i := m]> motors).
Proof.
  intros Hf H'. unfold fits_motor in Hf; destruct_and! Hf. cbn [decodeMotors].
  pose proof (at_pos_bound _ _ _ H') as [? Hl]. unfold enc_motor in Hl, H'. len_simpl.
  pose proof (len_nonneg s). not_short; [lia|].
  cbv zeta. repeat wire_step H'.
  replace (pos + 1 + 1 + 1 + 2 + 2 + 1 + 2 + 2) with (pos + 12) by lia. by destruct m.
Qed.

Lemma len_enc_motor m : len (enc_motor m) = 12.
Proof. done. Qed.

Lemma decodeMotors_all ms : forall i data pos s motors,
  Forall fits_motor ms -> length motors = (i + length ms)%nat ->
  at_pos data pos (concat (enc_motor <$> ms) ++ s) ->
  decodeMotors (length ms) i data pos motors = Ok (take i motors ++ ms).
Proof.
  induction ms as [|m ms IH]; intros i data pos s motors Hf Hl H'.
  - cbn in *. rewrite app_nil_r, take_ge by lia. done.
  - inversion_clear Hf as [|?? Hm Hms]. cbn [fmap list_fmap concat length] in *.
    rewrite <- app_assoc in H'. erewrite decodeMotors_step by done.
    apply at_pos_step with (j := pos + 12) in H'; [|by rewrite len_enc_motor].
    rewrite (IH _ _ _ s) by (rewrite ?length_insert; auto; lia). f_equal.
    rewrite (take_S_r _ _ m) by (apply list_lookup_insert_eq; lia).
    rewrite take_insert_ge by lia. by rewrite <- app_assoc.
Qed.

Lemma dec_enc_motors ms s : fits_motors ms -> DecodeMotorData (enc_motors ms ++ s) = Ok ms.
Proof.
  intros [Hc Hf]. unfold DecodeMotorData. set (data := enc_motors ms ++ s).
  assert (at_pos data 0 (enc_motors ms ++ s)) as H' by apply at_pos_0.
  not_short; [unfold data, enc_motors in *; len_simpl; pose proof (len_nonneg s);
    pose proof (len_nonneg (concat (enc_motor <$> ms))); lia|].
  cbv zeta. unfold enc_motors in H'. clearbody data. repeat wire_step H'.
  rewrite to_nat_len. rewrite (decodeMotors_all _ _ _ _ s); [done..|by rewrite length_replicate|done].
Qed.

Lemma decodeCells_all cs : forall data pos s cells,
  Forall fits_cell cs -> at_pos data pos (concat (enc_cell <$> cs) ++ s) ->
  decodeCells (length cs) data pos cells = Ok (cells ++ cs, pos + 3 * len cs).
Proof.
  induction cs as [|c cs IH]; intros data pos s cells Hf H'.
  - cbn. rewrite app_nil_r. do 2 f_equal. unfold len. cbn. lia.
  - inversion_clear Hf as [|?? Hm Hms]. rewrite fmap_cons, concat_cons, <- app_assoc in H'.
    pose proof (at_pos_bound _ _ _ H') as [? Hl].
    pose proof (len_nonneg (concat (enc_cell <$> cs) ++ s)).
    cbn [length decodeCells]. unfold enc_cell at 1 in H'. unfold enc_cell at 1 in Hl.
    rewrite len_app, len_cons, len_put16 in Hl.
    not_short; [lia|]. destruct Hm as (? & ? & Ht).
    cbv zeta. repeat wire_step H'.
    rewrite (IH _ _ s) by done. rewrite <- app_assoc, len_cons. cbn [app]. do 2 f_equal; [|lia].
    do 2 f_equal. destruct c as [no [v t]]. cbn in *. by subst.
Qed.

Lemma len_enc_cells cs : len (concat (enc_cell <$> cs)) = 3 * len cs.
Proof.
  induction cs as [|c cs IH]; [done|].
  rewrite fmap_cons, concat_cons, len_app, IH, len_cons. unfold enc_cell. len_simpl. lia.
Qed.

Lemma len_enc_motors ms : len (concat (enc_motor <$> ms)) = 12 * len ms.
Proof.
  induction ms as [|c cs IH]; [done|].
  rewrite fmap_cons, concat_cons, len_app, IH, len_cons, len_enc_motor. lia.
Qed.

Lemma decodeSubsysVoltages_all ss : forall data pos s subs,
  Forall fits_subvoltage ss -> at_pos data pos (concat (enc_subvoltage <$> ss) ++ s) ->
  decodeSubsysVoltages (length ss) data pos subs = Ok (subs ++ ss).
Proof.
  induction ss as [|v ss IH]; intros data pos s subs Hf H'.
  - cbn. by rewrite app_nil_r.
  - inversion_clear Hf as [|?? Hm Hms]. rewrite fmap_cons, concat_cons, <- app_assoc in H'.
    pose proof (at_pos_bound _ _ _ H') as [? Hl].
    pose proof (len_nonneg (concat (enc_subvoltage <$> ss) ++ s)).
    pose proof (len_nonneg (concat (enc_cell <$> s_Cells v))).
    cbn [length decodeSubsysVoltages]. unfold enc_subvoltage at 1 in H'.
    unfold enc_subvoltage at 1 in Hl. rewrite len_app in Hl. autorewrite with go_len in Hl.
    not_short; [rewrite len_app in *; lia|]. unfold fits_subvoltage in Hm. destruct_and! Hm.
    cbv zeta. repeat wire_step H'.
    match goal with E : s_CellCount v = _ |- _ => rewrite E, to_nat_len end.
    rewrite (decodeCells_all _ _ _ (concat (enc_subvoltage <$> ss) ++ s)) by done.
    cbn [bind app]. eapply at_pos_step in H'; [|done]. rewrite len_enc_cells in H'.
    rewrite (IH _ _ s) by done. rewrite <- app_assoc. do 2 f_equal. cbn [app]. f_equal.
    destruct v; cbn in *; by f_equal.
Qed.

Lemma dec_enc_voltage v s : fits_voltage v -> DecodeVoltageData (enc_voltage v ++ s) = Ok v.
Proof.
  intros (Hc & Hl & Hf). unfold DecodeVoltageData. set (data := enc_voltage v ++ s).
  assert (at_pos data 0 (enc_voltage v ++ s)) as H' by apply at_pos_0.
  not_short; [unfold data, enc_voltage in *; len_simpl; pose proof (len_nonneg s);
    pose proof (len_nonneg (concat (enc_subvoltage <$> vt_SubsystemVoltages v))); lia|].
  cbv zeta. unfold enc_voltage in H'. clearbody data. repeat wire_step H'.
  rewrite Hl, to_nat_len, (decodeSubsysVoltages_all _ _ _ s) by done.
  destruct v; cbn in *; by subst.
Qed.

Lemma decodeSubsysTemperatures_all ss : forall data pos s subs,
  Forall fits_subtemperature ss -> at_pos data pos (concat (enc_subtemperature <$> ss) ++ s) ->
  decodeSubsysTemperatures (length ss) data pos subs = Ok (subs ++ ss).
Proof.
  induction ss as [|v ss IH]; intros data pos s subs Hf H'.
  - cbn. by rewrite app_nil_r.
  - inversion_clear Hf as [|?? Hm Hms]. rewrite fmap_cons, concat_cons, <- app_assoc in H'.
    pose proof (at_pos_bound _ _ _ H') as [? Hl].
    pose proof (len_nonneg (concat (enc_subtemperature <$> ss) ++ s)).
    pose proof (len_nonneg (st_ProbeTemperatures v)).
    cbn [length decodeSubsysTemperatures]. unfold enc_subtemperature at 1 in H'.
    unfold enc_subtemperature at 1 in Hl. rewrite len_app in Hl. autorewrite with go_len in Hl.
    not_short; [rewrite len_app in *; lia|]. unfold fits_subtemperature in Hm. destruct_and! Hm.
    cbv zeta. repeat wire_step H'.
    destruct (Z.ltb_spec (len data) (pos + 1 + 2 + st_ProbeCount v)); [rewrite len_app in *; lia|].
    rewrite (slice_at _ _ _ _ _ H') by lia. cbn [bind].
    eapply at_pos_step in H'; [|done].
    match goal with E : st_ProbeCount v = _ |- _ => rewrite <- E in H' end.
    rewrite (IH _ _ s) by done. rewrite <- app_assoc. do 2 f_equal. cbn [app]. f_equal.
    by destruct v.
Qed.

Lemma dec_enc_temperature t s :
  fits_temperature t -> DecodeTemperatureData (enc_temperature t ++ s) = Ok t.
Proof.
  intros (Hc & Hl & Hf). unfold DecodeTemperatureData. set (data := enc_temperature t ++ s).
  assert (at_pos data 0 (enc_temperature t ++ s)) as H' by apply at_pos_0.
  not_short; [unfold data, enc_temperature in *; len_simpl; pose proof (len_nonneg s);
    pose proof (len_nonneg (concat (enc_subtemperature <$> t_SubsystemTemperatures t))); lia|].
  cbv zeta. unfold enc_temperature in H'. clearbody data. repeat wire_step H'.
  rewrite Hl, to_nat_len, (decodeSubsysTemperatures_all _ _ _ s) by done.
  destruct t; cbn in *; by subst.
Qed.

(** ** Instances *)

(** The bytes of a layout are bytes, piece by piece. *)
Ltac layout e f :=
  unfold e, f; let Hf := fresh in intros Hf; destruct_and! Hf;
  repeat first [ apply Forall_cons_2; [assumption|] | apply Forall_app_2 ];
  eauto using concat_bytes with wire.

Lemma enc_vehicle_bytes v : fits_vehicle v -> all_bytes (enc_vehicle v).
Proof. layout enc_vehicle fits_vehicle. Qed.
Lemma enc_motor_bytes m : fits_motor m -> all_bytes (enc_motor m).
Proof. layout enc_motor fits_motor. Qed.
#[export] Hint Resolve enc_motor_bytes : wire.
Lemma enc_motors_bytes ms : fits_motors ms -> all_bytes (enc_motors ms).
Proof. layout enc_motors fits_motors. Qed.
Lemma enc_fuelcell_bytes f : fits_fuelcell f -> all_bytes (enc_fuelcell f).
Proof. layout enc_fuelcell fits_fuelcell. Qed.
Lemma enc_engine_bytes e : fits_engine e -> all_bytes (enc_engine e).
Proof. layout enc_engine fits_engine. Qed.
Lemma enc_position_bytes p : fits_position p -> all_bytes (enc_position p).
Proof. layout enc_position fits_position. Qed.
Lemma enc_extreme_bytes x : fits_extreme x -> all_bytes (enc_extreme x).
Proof. layout enc_extreme fits_extreme. Qed.
Lemma enc_alarm_bytes a : fits_alarm a -> all_bytes (enc_alarm a).
Proof. layout enc_alarm fits_alarm. Qed.
Lemma enc_cell_bytes c : fits_cell c -> all_bytes (enc_cell c).
Proof. layout enc_cell fits_cell. Qed.
#[export] Hint Resolve enc_cell_bytes : wire.
Lemma enc_subvoltage_bytes v : fits_subvoltage v -> all_bytes (enc_subvoltage v).
Proof. layout enc_subvoltage fits_subvoltage. Qed.
Lemma enc_subtemperature_bytes v : fits_subtemperature v -> all_bytes (enc_subtemperature v).
Proof. layout enc_subtemperature fits_subtemperature. Qed.
#[export] Hint Resolve enc_subvoltage_bytes enc_subtemperature_bytes : wire.
Lemma enc_voltage_bytes v : fits_voltage v -> all_bytes (enc_voltage v).
Proof. layout enc_voltage fits_voltage. Qed.
Lemma enc_temperature_bytes v : fits_temperature v -> all_bytes (enc_temperature v).
Proof. layout enc_temperature fits_temperature. Qed.

Lemma enc_value_bytes v : fits_value v -> all_bytes (enc_value v).
Proof.
  destruct v; cbn [fits_value enc_value]; intros; try done;
    auto using enc_vehicle_bytes, enc_motors_bytes, enc_fuelcell_bytes, enc_engine_bytes,
      enc_position_bytes, enc_extreme_bytes, enc_alarm_bytes, enc_voltage_bytes,
      enc_temperature_bytes.
Qed.

Lemma field_id_byte v : is_byte (field_id v).
Proof. by destruct v. Qed.

#[export] Instance wire_vehicle : Wire VehicleBaseInfo :=
  {| dec_enc := dec_enc_vehicle; enc_bytes := enc_vehicle_bytes |}.
#[export] Instance wire_motors : Wire (list MotorInfo) :=
  {| dec_enc := dec_enc_motors; enc_bytes := enc_motors_bytes |}.
#[export] Instance wire_fuelcell : Wire FuelCellInfo :=
  {| dec_enc := dec_enc_fuelcell; enc_bytes := enc_fuelcell_bytes |}.
#[export] Instance wire_engine : Wire EngineInfo :=
  {| dec_enc := dec_enc_engine; enc_bytes := enc_engine_bytes |}.
#[export] Instance wire_position : Wire PositionInfo :=
  {| dec_enc := dec_enc_position; enc_bytes := enc_position_bytes |}.
#[export] Instance wire_extreme : Wire ExtremeInfo :=
  {| dec_enc := dec_enc_extreme; enc_bytes := enc_extreme_bytes |}.
#[export] Instance wire_alarm : Wire AlarmInfo :=
  {| dec_enc := dec_enc_alarm; enc_bytes := enc_alarm_bytes |}.
#[export] Instance wire_voltage : Wire VoltageInfo :=
  {| dec_enc := dec_enc_voltage; enc_bytes := enc_voltage_bytes |}.
#[export] Instance wire_temperature : Wire TemperatureInfo :=
  {| dec_enc := dec_enc_temperature; enc_bytes := enc_temperature_bytes |}.

Ltac short_input f :=
  intros data Hl; cbn; unfold f;
  lazymatch goal with |- context [?a <? ?b] => destruct (Z.ltb_spec a b) end;
  [eauto | lia].

#[export] Instance fixed_vehicle : FixedWire VehicleBaseInfo 20.
Proof.
  constructor; [done | short_input DecodeVehicleData |].
  intros data Hb Hl. unfold len in Hl.
  destruct data as [|b0 [|b1 [|b2 [|b3 [|b4 [|b5 [|b6 [|b7 [|b8 [|b9 [|b10 [|b11
    [|b12 [|b13 [|b14 [|b15 [|b16 [|b17 [|b18 [|b19 [|]]]]]]]]]]]]]]]]]]]]]; try (exfalso; cbn in Hl; lia).
  decompose_Forall.
  exists (mkVehicleBaseInfo b0 b1 b2 (be16 b3 b4) (be32 b5 b6 b7 b8) (be16 b9 b10)
            (be16 b11 b12) b13 b14 b15 (be16 b16 b17) (be16 b18 b19)).
  cbn. unfold fits_vehicle, enc_vehicle. cbn. rewrite !put16_be, !put32_be by done.
  auto 15 using be16_bound, be32_bound.
Qed.

#[export] Instance fixed_engine : FixedWire EngineInfo 5.
Proof.
  constructor; [done | short_input DecodeEngineData |].
  intros data Hb Hl. unfold len in Hl.
  destruct data as [|b0 [|b1 [|b2 [|b3 [|b4 [|]]]]]]; try (exfalso; cbn in Hl; lia).
  decompose_Forall. exists (mkEngineInfo b0 (be16 b1 b2) (be16 b3 b4)).
  cbn. unfold fits_engine, enc_engine. cbn. rewrite !put16_be by done. auto using be16_bound.
Qed.

#[export] Instance fixed_position : FixedWire PositionInfo 8.
Proof.
  constructor; [done | short_input DecodePositionData |].
  intros data Hb Hl. unfold len in Hl.
  destruct data as [|b0 [|b1 [|b2 [|b3 [|b4 [|b5 [|b6 [|b7 [|]]]]]]]]]; try (exfalso; cbn in Hl; lia).
  decompose_Forall. exists (mkPositionInfo (be32 b0 b1 b2 b3) (be32 b4 b5 b6 b7)).
  cbn. unfold fits_position, enc_position. cbn. rewrite !put32_be by done.
  auto using be32_bound.
Qed.

#[export] Instance fixed_extreme : FixedWire ExtremeInfo 10.
Proof.
  constructor; [done | short_input DecodeExtremeData |].
  intros data Hb Hl. unfold len in Hl.
  destruct data as [|b0 [|b1 [|b2 [|b3 [|b4 [|b5 [|b6 [|b7 [|b8 [|b9 [|]]]]]]]]]]];
    try (exfalso; cbn in Hl; lia).
  decompose_Forall.
  exists (mkExtremeInfo (be16 b0 b1) b2 (be16 b3 b4) b5 b6 b7 b8 b9).
  cbn. unfold fits_extreme, enc_extreme. cbn. rewrite !put16_be by done.
  auto 15 using be16_bound.
Qed.

(** A fixed format decides every input by its length. *)
Lemma fixed_wire_exact {A} `{FixedWire A n} data :
  0 <= n -> all_bytes data ->
  if len data <? n then exists e, dec data = Err e
  else exists a, dec data = Ok a /\ fits a /\ enc a = sub data 0 n.
Proof.
  intros Hn Hb. destruct (Z.ltb_spec (len data) n); [by apply dec_short|].
  destruct (enc_onto (sub data 0 n)) as (a & Hf & He);
    [by apply all_bytes_sub | rewrite len_sub; lia|].
  exists a. split; [|done].
  rewrite (split_at data 0 n) by lia. cbn [Z.to_nat take app]. rewrite take_0, <- He.
  by apply dec_enc.
Qed.

(** ** Typing: every value a decoder returns, on any input *)

Definition subvoltage_ok (s : SubsystemVoltage) : Prop :=
  is_byte (s_SubsysNo s) /\ is_uint16 (s_Voltage s) /\ is_uint16 (s_Current s) /\
  is_uint16 (s_CellCount s) /\ len (s_Cells s) <= s_CellCount s /\ Forall fits_cell (s_Cells s).

Definition subtemperature_ok (s : SubsystemTemperature) : Prop :=
  is_byte (st_SubsysNo s) /\ is_uint16 (st_ProbeCount s) /\
  len (st_ProbeTemperatures s) <= st_ProbeCount s /\ all_bytes (st_ProbeTemperatures s).

(** What holds of a decoded value whatever the bytes were: the numbers have
    their width and no list is longer than the count that announced it. *)
Definition value_ok (v : FieldValue) : Prop :=
  match v with
  | VMotor ms => len ms < 256 /\ Forall fits_motor ms
  | VVoltage v =>
      is_uint16 (vt_SubsysCount v) /\ len (vt_SubsystemVoltages v) <= vt_SubsysCount v /\
      Forall subvoltage_ok (vt_SubsystemVoltages v)
  | VTemperature t =>
      is_uint16 (t_SubsysCount t) /\ len (t_SubsystemTemperatures t) <= t_SubsysCount t /\
      Forall subtemperature_ok (t_SubsystemTemperatures t)
  | VRaw data => all_bytes data
  | _ => fits_value v
  end.

Section typing.
Context (data : bytes) (Hdata : all_bytes data).

Lemma decodeMotors_ok n : forall i pos motors,
  0 <= pos -> (length motors = i + n)%nat -> Forall fits_motor motors ->
  ensures (decodeMotors n i data pos motors)
    (fun ms => length ms = length motors /\ Forall fits_motor ms).
Proof.
  induction n as [|n IH]; intros i pos motors Hpos Hl Hf; cbn [decodeMotors]; [done|].
  go_safe; [done|].
  eapply post_mono; [|apply IH; [lia | rewrite length_insert; lia |]].
  - intros ms [Hlen ?]. by rewrite length_insert in Hlen.
  - apply Forall_insert; [done|]. unfold fits_motor. cbn. auto 10.
Qed.

Lemma decodeCells_ok n : forall pos cells,
  0 <= pos -> Forall fits_cell cells ->
  ensures (decodeCells n data pos cells) (fun '(cs, pos') =>
    pos <= pos' /\ (length cs <= length cells + n)%nat /\ Forall fits_cell cs).
Proof.
  induction n as [|n IH]; intros pos cells Hpos Hf; cbn [decodeCells];
    [cbn; repeat split; [lia..|done]|].
  go_safe; [repeat split; [lia..|done]|].
  eapply post_mono; [|apply IH; [lia|]].
  - intros [cs pos'] (? & Hlen & ?). rewrite length_app in Hlen. cbn in Hlen.
    repeat split; [lia..|done].
  - apply Forall_app_2; [done|]. repeat constructor; cbn; unfold is_uint16, is_byte in *; lia.
Qed.

Lemma decodeSubsysVoltages_ok n : forall pos subs,
  0 <= pos -> Forall subvoltage_ok subs ->
  ensures (decodeSubsysVoltages n data pos subs) (fun ss =>
    (length ss <= length subs + n)%nat /\ Forall subvoltage_ok ss).
Proof.
  induction n as [|n IH]; intros pos subs Hpos Hf; cbn [decodeSubsysVoltages];
    [cbn; split; [lia|done]|].
  go_safe; [split; [lia|done]|].
  eapply post_mono; [|apply decodeCells_ok; [lia|constructor]].
  intros [cs pos'] (? & Hlen & ?).
  eapply post_mono; [|apply IH; [lia|]].
  - intros ss [Hl ?]. rewrite length_app in Hl. cbn in Hl. split; [lia|done].
  - apply Forall_app_2; [done|]. repeat constructor; cbn; unfold len, is_uint16, is_byte in *;
      cbn in *; try lia; done.
Qed.

Lemma decodeSubsysTemperatures_ok n : forall pos subs,
  0 <= pos -> Forall subtemperature_ok subs ->
  ensures (decodeSubsysTemperatures n data pos subs) (fun ss =>
    (length ss <= length subs + n)%nat /\ Forall subtemperature_ok ss).
Proof.
  induction n as [|n IH]; intros pos subs Hpos Hf; cbn [decodeSubsysTemperatures];
    [cbn; split; [lia|done]|].
  cbv zeta. go_step; [split; [lia|done]|].
  do 4 go_step. unfold is_uint16 in *.
  destruct (Z.ltb_spec (len data) (pos + 1 + 2 + v)); do 2 go_step;
  (eapply post_mono; [|apply IH; [lia|]];
    [intros ss [Hl ?]; rewrite length_app in Hl; cbn in Hl; split; [lia|done]
    |apply Forall_app_2; [done|]; repeat constructor; cbn; unfold is_uint16, is_byte in *; try lia; done]).
Qed.
End typing.

(** The decoders, typed. *)
Lemma boxed_ensures {A} (box : A -> FieldValue) d data (P : FieldValue -> Prop) :
  ensures (d data) (fun a => P (box a)) -> ensures (boxed box d data) P.
Proof. unfold boxed. destruct (d data); done. Qed.

Lemma fixed_ensures {A} `{FixedWire A n} data (P : A -> Prop) :
  0 <= n -> all_bytes data -> (forall a, fits a -> P a) -> ensures (dec data) P.
Proof.
  intros Hn Hb HP. pose proof (fixed_wire_exact data Hn Hb) as He.
  destruct (len data <? n); [by destruct He as [e ->]|].
  destruct He as (a & -> & Hf & _). by apply HP.
Qed.

Lemma zeroMotor_fits : fits_motor zeroMotor.
Proof. unfold fits_motor, is_byte, is_uint16. cbn. lia. Qed.

Lemma motor_ok data : all_bytes data ->
  ensures (DecodeMotorData data) (fun ms => len ms < 256 /\ Forall fits_motor ms).
Proof.
  intros Hb. unfold DecodeMotorData. go_safe. eapply post_mono; [|apply decodeMotors_ok].
  - intros ms [Hl ?]. rewrite length_replicate in Hl. unfold len, is_byte in *. split; [lia|done].
  - done.
  - lia.
  - by rewrite length_replicate.
  - apply Forall_replicate, zeroMotor_fits.
Qed.

Lemma alarm_ok data : all_bytes data -> ensures (DecodeAlarmData data) fits_alarm.
Proof.
  intros Hb. unfold DecodeAlarmData. go_safe.
  unfold fits_alarm. cbn. repeat split; solve [done | width_lia].
Qed.

Lemma fuelcell_ok data : all_bytes data -> ensures (DecodeFuelCellData data) fits_fuelcell.
Proof.
  intros Hb. unfold DecodeFuelCellData. go_safe.
  unfold fits_fuelcell. cbn. repeat split; solve [done | width_lia].
Qed.

Lemma voltage_ok data : all_bytes data ->
  ensures (DecodeVoltageData data) (fun v => value_ok (VVoltage v)).
Proof.
  intros Hb. unfold DecodeVoltageData. go_safe.
  eapply post_mono; [|apply decodeSubsysVoltages_ok; [done | lia | constructor]].
  intros ss [Hl ?]. cbn in *. unfold len. repeat split; solve [done | width_lia].
Qed.

Lemma temperature_ok data : all_bytes data ->
  ensures (DecodeTemperatureData data) (fun v => value_ok (VTemperature v)).
Proof.
  intros Hb. unfold DecodeTemperatureData. go_safe.
  eapply post_mono; [|apply decodeSubsysTemperatures_ok; [done | lia | constructor]].
  intros ss [Hl ?]. cbn in *. unfold len. repeat split; solve [done | width_lia].
Qed.

(** An identifier with a decoder is one of the nine. *)
Lemma decoders_range id d : decoders id = Some d -> 1 <= id <= 9.
Proof.
  intros H. destruct id as [|p|p]; try done.
  repeat (destruct p as [p|p|]; try done); lia.
Qed.

Lemma HasDecoder_range id : HasDecoder id = true <-> 1 <= id <= 9.
Proof.
  unfold HasDecoder. split.
  - destruct (decoders id) eqn:E; [intros _; by eapply decoders_range | done].
  - intros Hr. assert (id = 1 \/ id = 2 \/ id = 3 \/ id = 4 \/ id = 5 \/ id = 6 \/
      id = 7 \/ id = 8 \/ id = 9) as Hd by lia.
    by repeat destruct Hd as [-> | Hd]; try subst id.
Qed.

Lemma DecodeField_ok id data :
  all_bytes data -> ensures (DecodeField id data) value_ok.
Proof.
  intros Hb. destruct (HasDecoder id) eqn:E.
  - apply HasDecoder_range in E.
    assert (id = 1 \/ id = 2 \/ id = 3 \/ id = 4 \/ id = 5 \/ id = 6 \/
      id = 7 \/ id = 8 \/ id = 9) as Hd by lia.
    repeat destruct Hd as [-> | Hd]; try subst id; apply boxed_ensures;
      auto using motor_ok, fuelcell_ok, alarm_ok, voltage_ok, temperature_ok.
    + by apply (@fixed_ensures _ wire_vehicle 20 fixed_vehicle); [lia|..].
    + by apply (@fixed_ensures _ wire_engine 5 fixed_engine); [lia|..].
    + by apply (@fixed_ensures _ wire_position 8 fixed_position); [lia|..].
    + by apply (@fixed_ensures _ wire_extreme 10 fixed_extreme); [lia|..].
  - unfold DecodeField, HasDecoder in *. by destruct (decoders id).
Qed.

Lemma DecodeField_enc v s :
  fits_value v -> DecodeField (field_id v) (enc_value v ++ s) = Ok v.
Proof.
  destruct v; cbn [fits_value]; intros Hf; try done; cbn -[app]; unfold boxed;
    first [ by rewrite dec_enc_vehicle | by rewrite dec_enc_motors | by rewrite dec_enc_fuelcell
          | by rewrite dec_enc_engine | by rewrite dec_enc_position | by rewrite dec_enc_extreme
          | by rewrite dec_enc_alarm | by rewrite dec_enc_voltage | by rewrite dec_enc_temperature ].
Qed.

(** Behind the last whole motor the loop stops, and the slots left keep what
    [make] put there. *)
Lemma decodeMotors_truncated ms : forall n i data pos s motors,
  Forall fits_motor ms -> len s < 12 ->
  length motors = (i + length ms + n)%nat ->
  at_pos data pos (concat (enc_motor <$> ms) ++ s) ->
  decodeMotors (length ms + n) i data pos motors =
    Ok (take i motors ++ ms ++ drop (i + length ms) motors).
Proof.
  induction ms as [|m ms IH]; intros n i data pos s motors Hf Hs Hl H'.
  - apply at_pos_bound in H' as [? Hd]. cbn in *. rewrite Nat.add_0_r, take_drop.
    destruct n as [|n]; [done|]. cbn [decodeMotors].
    by destruct (Z.ltb_spec (len data) (pos + 12)); [|lia].
  - inversion_clear Hf as [|?? Hm Hms]. rewrite fmap_cons, concat_cons, <- app_assoc in H'.
    cbn [length Nat.add] in *. erewrite decodeMotors_step by done.
    apply at_pos_step with (j := pos + 12) in H'; [|by rewrite len_enc_motor].
    rewrite (IH n _ _ _ s) by (rewrite ?length_insert; auto; lia). f_equal.
    rewrite (take_S_r _ _ m) by (apply list_lookup_insert_eq; lia).
    rewrite take_insert_ge by lia. rewrite drop_insert_lt by lia.
    rewrite <- app_assoc. cbn [app]. do 3 f_equal. f_equal. lia.
Qed.

(** ** Properties *)

(** C19: Every data field round-trips: a value that fits its wire format,
    encoded and followed by any bytes, is what [DecodeField] returns for its
    identifier. *)
Theorem field_roundtrip v s (Hv : fits_value v) :
  DecodeField (field_id v) (enc_value v ++ s) = Ok v.
Proof. by apply DecodeField_enc. Qed.

Lemma field_roundtrip_witness :
  let v := VVoltage (mkVoltageInfo 1 [mkSubsystemVoltage 1 3800 200 2
             [mkCellVoltage 1 (mkCellInfo 4100 0); mkCellVoltage 2 (mkCellInfo 4090 0)]]) in
  fits_value v /\ DecodeField FieldVoltage (enc_value v ++ [9; 9]) = Ok v.
Proof.
  cbv zeta. set (v := VVoltage _).
  assert (fits_value v) as Hv.
  { cbn. unfold fits_voltage, is_uint16. cbn. repeat split; try lia.
    repeat constructor; cbn; unfold is_byte, is_uint16, len; cbn; lia. }
  split; [exact Hv | exact (field_roundtrip v [9; 9] Hv)].
Defined.

(** C23: [DecodeField] is total and typed: on any bytes and any identifier it
    returns (it never indexes or slices out of range), and the value it
    returns has numbers of their width and lists within their counts. *)
Theorem field_total id data (Hb : all_bytes data) :
  ensures (DecodeField id data) value_ok.
Proof. by apply DecodeField_ok. Qed.

Lemma field_total_witness :
  all_bytes [2; 1; 1] /\ ensures (DecodeField FieldMotor [2; 1; 1]) value_ok.
Proof.
  assert (all_bytes [2; 1; 1]) as Hb by (repeat constructor; unfold is_byte; lia).
  split; [exact Hb | exact (field_total FieldMotor _ Hb)].
Defined.

(** The four fixed fields are decided by the length of the input: too
    short is an error, otherwise the value returned is the one whose bytes
    are the first of the input. *)
Theorem fixed_fields_exact data (Hb : all_bytes data) :
  (if len data <? 20 then exists e, DecodeVehicleData data = Err e
   else exists v, DecodeVehicleData data = Ok v /\ fits_vehicle v /\ enc_vehicle v = sub data 0 20) /\
  (if len data <? 5 then exists e, DecodeEngineData data = Err e
   else exists v, DecodeEngineData data = Ok v /\ fits_engine v /\ enc_engine v = sub data 0 5) /\
  (if len data <? 8 then exists e, DecodePositionData data = Err e
   else exists v, DecodePositionData data = Ok v /\ fits_position v /\ enc_position v = sub data 0 8) /\
  (if len data <? 10 then exists e, DecodeExtremeData data = Err e
   else exists v, DecodeExtremeData data = Ok v /\ fits_extreme v /\ enc_extreme v = sub data 0 10).
Proof.
  split; [exact (fixed_wire_exact (A := VehicleBaseInfo) (n := 20) data ltac:(lia) Hb)|].
  split; [exact (fixed_wire_exact (A := EngineInfo) (n := 5) data ltac:(lia) Hb)|].
  split; [exact (fixed_wire_exact (A := PositionInfo) (n := 8) data ltac:(lia) Hb)|].
  exact (fixed_wire_exact (A := ExtremeInfo) (n := 10) data ltac:(lia) Hb).
Qed.

Lemma fixed_fields_exact_witness :
  exists v, DecodeEngineData [1; 3; 232; 0; 100; 7] = Ok v /\ enc_engine v = [1; 3; 232; 0; 100].
Proof.
  assert (all_bytes [1; 3; 232; 0; 100; 7]) as Hb by (repeat constructor; unfold is_byte; lia).
  destruct (fixed_fields_exact _ Hb) as (_ & He & _).
  destruct He as (v & ? & _ & ?). by exists v.
Defined.

(** A motor field cut short: [DecodeMotorData] still returns as many
    motors as the count announces, the whole ones first, and zero-valued
    motors in place of those the input does not hold. *)
Theorem motor_truncated count ms s
    (Hc : is_byte count) (Hms : Forall fits_motor ms) (Hl : len ms <= count) (Hs : len s < 12) :
  DecodeMotorData (count :: concat (enc_motor <$> ms) ++ s) =
    Ok (ms ++ replicate (Z.to_nat (count - len ms)) zeroMotor).
Proof.
  unfold DecodeMotorData. set (data := _ :: _).
  assert (at_pos data 0 (count :: concat (enc_motor <$> ms) ++ s)) as H' by apply at_pos_0.
  destruct (Z.ltb_spec (len data) 1); [unfold data in *; llia|].
  cbv zeta. clearbody data. read_byte H'. unfold is_byte, len in *.
  replace (Z.to_nat count) with (length ms + (Z.to_nat count - length ms))%nat at 1 by lia.
  rewrite (decodeMotors_truncated _ _ _ _ _ s) by
    (try rewrite length_replicate; unfold len; solve [done | lia]).
  cbn [take app]. rewrite take_0, drop_replicate. cbn [app]. do 3 f_equal. lia.
Qed.

Lemma motor_truncated_witness :
  DecodeMotorData [2; 1; 1; 40; 3; 232; 0; 100; 35; 1; 44; 0; 50; 2; 1] =
    Ok [mkMotorInfo 1 1 40 1000 100 35 300 50; zeroMotor].
Proof.
  refine (motor_truncated 2 [mkMotorInfo 1 1 40 1000 100 35 300 50] [2; 1] _ _ _ _).
  - unfold is_byte. lia.
  - repeat constructor; cbn; lia.
  - unfold len. cbn. lia.
  - unfold len. cbn. lia.
Defined.
