(* ===== verification/Framing.v ===== *)
(** * The stream decoder and the frame encoder ([decoder.go])

    [Decoder] buffers what was read from a connection and cuts it into
    packets: [Feed] appends, [Decode] finds the next start marker, reads the
    header and the body and checks the BCC.  [EncodeResponse] writes a frame.
    The stream theory ([Stream]) is in [FramingSpec]. *)
From S2P Require Import Prelude.
From S2P Require Import GoTime.
From S2P Require Import Constant.
From S2P Require Import Packet.

(** ** State *)

(** [buf] is [nil] before the first [Feed] and after [Reset]. *)
Record Decoder := mkDecoder {
  d_buf : option bytes;
  d_pos : int;
  d_limit : int;
  d_timeCodec : TimeCodec;
  d_bccIncludeStart : bool
}.

Definition NewDecoder : Decoder := mkDecoder None 0 0 TimeCodecBCD false.

Definition newDecoderWithConfig (tc : TimeCodec) (bccIncludeStart : bool) : Decoder :=
  mkDecoder None 0 0 tc bccIncludeStart.

Definition defaultDecoder : Decoder := mkDecoder None 0 0 TimeCodecBCD false.

Definition set_buf (d : Decoder) (buf : option bytes) (pos limit : int) : Decoder :=
  mkDecoder buf pos limit (d_timeCodec d) (d_bccIncludeStart d).
Definition set_pos (d : Decoder) (pos : int) : Decoder :=
  set_buf d (d_buf d) pos (d_limit d).

(** A [nil] slice has no elements. *)
Definition bufBytes (d : Decoder) : bytes := default [] (d_buf d).

Definition Reset (d : Decoder) : Decoder := set_buf d None 0 0.

Definition Feed (d : Decoder) (data : bytes) : outcome Decoder :=
  match d_buf d with
  | None =>
      let! buf := make (len data) in
      let buf := copy buf data in
      Ok (set_buf d (Some buf) 0 (len buf))
  | Some old =>
      let remaining := d_limit d - d_pos d in
      if 0 <? remaining then
        let! newBuf := make (remaining + len data) in
        let! tail := slice old (d_pos d) (len old) in
        let newBuf := copy newBuf tail in
        let! newBuf := copy_into newBuf remaining (len newBuf) data in
        Ok (set_buf d (Some newBuf) 0 (len newBuf))
      else
        let! buf := make (len data) in
        let buf := copy buf data in
        Ok (set_buf d (Some buf) 0 (len buf))
  end.

(** The loop of [findStartMarker], [n] iterations before [i] reaches
    [limit-1]; the second comparison is made only when the first holds. *)
Fixpoint findStartMarker_loop (n : nat) (buf : bytes) (i : int) : outcome int :=
  match n with
  | O => Ok (-1)
  | S n =>
      let! b := index buf i in
      if b =? StartMarker1 then
        let! b' := index buf (i + 1) in
        if b' =? StartMarker2 then Ok i else findStartMarker_loop n buf (i + 1)
      else findStartMarker_loop n buf (i + 1)
  end.

Definition findStartMarker (d : Decoder) : outcome int :=
  findStartMarker_loop (Z.to_nat (d_limit d - 1 - d_pos d)) (bufBytes d) (d_pos d).

Definition calculateBCC (data : bytes) : byte := fold_left Z.lxor data 0.

Definition verifyBCC (d : Decoder) (header data : bytes) (bcc : byte) : outcome bool :=
  let! h := slice header 2 (len header) in
  let calcBCC := calculateBCC h in
  let calcBCC := fold_left Z.lxor data calcBCC in
  if calcBCC =? bcc then Ok true
  else if d_bccIncludeStart d then
    let calcBCC2 := calculateBCC header in
    let calcBCC2 := fold_left Z.lxor data calcBCC2 in
    if calcBCC2 =? bcc then Ok true else Ok false
  else Ok false.

(** The [for] loop of [Decode]; [None] is the [nil] packet.  [Decode] returns
    no error. *)
Fixpoint Decode_loop (fuel : nat) (d : Decoder) : outcome (option Packet * Decoder) :=
  match fuel with
  | O => OutOfFuel
  | S fuel =>
      let! startIdx := findStartMarker d in
      if startIdx <? 0 then Ok (None, Reset d) else
      let d := set_pos d startIdx in
      if d_limit d - d_pos d <? HeaderSize then Ok (None, d) else
      let! header := slice (bufBytes d) (d_pos d) (d_pos d + HeaderSize) in
      let! command := index header 2 in
      let! response := index header 3 in
      let! vin := slice header 4 21 in
      let! encryptType := index header 21 in
      let! dataLength := read16 header 22 in
      let d := set_pos d (d_pos d + HeaderSize) in
      if d_limit d - d_pos d <? dataLength then Ok (None, set_pos d startIdx) else
      let! data := slice (bufBytes d) (d_pos d) (d_pos d + dataLength) in
      let d := set_pos d (d_pos d + dataLength) in
      let! bcc := index (bufBytes d) (d_pos d) in
      let d := set_pos d (d_pos d + 1) in
      let! ok := verifyBCC d header data bcc in
      if negb ok then Decode_loop fuel (set_pos d (startIdx + 2)) else
      Ok (Some (mkPacket command response vin encryptType data dataLength), d)
  end.

(** Every iteration but the last moves [pos] by two bytes or more. *)
Definition Decode (d : Decoder) : outcome (option Packet * Decoder) :=
  Decode_loop (S (Z.to_nat (d_limit d - d_pos d))) d.

Definition Close (d : Decoder) : Decoder := d.

(** ** Encoding *)

Definition EncodeResponse (command : byte) (vin : gostring) (encryptType : byte)
    (data : bytes) : outcome bytes :=
  if negb (len vin =? VINLength) then Err ErrInvalidVIN else
  let encryptType := if encryptType =? 0 then EncNone else encryptType in
  let dataLen := len data in
  let totalLen := HeaderSize + dataLen + 1 in
  let! pkt := make totalLen in
  let pos := 0 in
  let! pkt := store pkt pos StartMarker1 in
  let pos := pos + 1 in
  let! pkt := store pkt pos StartMarker2 in
  let pos := pos + 1 in
  let! pkt := store pkt pos command in
  let pos := pos + 1 in
  let! pkt := store pkt pos RespSuccess in
  let pos := pos + 1 in
  let vinPadded := replicate (Z.to_nat VINLength) 0x20 in
  let vinPadded := copy vinPadded vin in
  let! pkt := copy_into pkt pos (pos + VINLength) vinPadded in
  let pos := pos + VINLength in
  let! pkt := store pkt pos encryptType in
  let pos := pos + 1 in
  let! pkt := copy_into pkt pos (pos + 2) (put16 (to_uint16 dataLen)) in
  let pos := pos + 2 in
  let! '(pkt, pos) :=
    (if 0 <? dataLen then
       let! pkt := copy_into pkt pos (pos + dataLen) data in
       Ok (pkt, pos + dataLen)
     else Ok (pkt, pos)) in
  let! body := slice pkt 2 (len pkt) in
  let bcc := calculateBCC body in
  store pkt pos bcc.

(** ** [VerifyVIN] ranges over the runes of the string *)

Definition in_range (x lo hi : Z) : bool := (lo <=? x) && (x <=? hi).
Definition RuneError : Z := 0xFFFD.

(** The first rune of a non-empty string and its width, as [range] decodes
    UTF-8: an ill-formed sequence yields [RuneError] of width one. *)
Definition decodeRune (b0 : byte) (s : bytes) : Z * nat :=
  let cont x := in_range x 0x80 0xBF in
  let low x := Z.land x 0x3F in
  if b0 <? 0x80 then (b0, 1%nat)
  else if in_range b0 0xC2 0xDF then
    match s with
    | b1 :: _ =>
        if cont b1 then (Z.lor (low b1) (Z.shiftl (Z.land b0 0x1F) 6), 2%nat)
        else (RuneError, 1%nat)
    | _ => (RuneError, 1%nat)
    end
  else if in_range b0 0xE0 0xEF then
    match s with
    | b1 :: b2 :: _ =>
        if in_range b1 (if b0 =? 0xE0 then 0xA0 else 0x80) (if b0 =? 0xED then 0x9F else 0xBF)
           && cont b2
        then (Z.lor (low b2) (Z.shiftl (Z.lor (low b1) (Z.shiftl (Z.land b0 0xF) 6)) 6), 3%nat)
        else (RuneError, 1%nat)
    | _ => (RuneError, 1%nat)
    end
  else if in_range b0 0xF0 0xF4 then
    match s with
    | b1 :: b2 :: b3 :: _ =>
        if in_range b1 (if b0 =? 0xF0 then 0x90 else 0x80) (if b0 =? 0xF4 then 0x8F else 0xBF)
           && cont b2 && cont b3
        then (Z.lor (low b3)
               (Z.shiftl (Z.lor (low b2)
                 (Z.shiftl (Z.lor (low b1) (Z.shiftl (Z.land b0 0x7) 6)) 6)) 6), 4%nat)
        else (RuneError, 1%nat)
    | _ => (RuneError, 1%nat)
    end
  else (RuneError, 1%nat).

(** ['0'..'9'], ['A'..'Z'], ['a'..'z'] *)
Definition alnum (c : Z) : bool :=
  in_range c 48 57 || in_range c 65 90 || in_range c 97 122.

(** The [range] loop; a string has at most one rune per byte. *)
Fixpoint alnumRunes (n : nat) (s : gostring) : bool :=
  match n, s with
  | S n, b0 :: t =>
      let '(c, w) := decodeRune b0 t in
      if negb (alnum c) then false else alnumRunes n (drop w s)
  | _, _ => true
  end.

Definition VerifyVIN (vin : gostring) : bool :=
  if negb (len vin =? VINLength) then false else alnumRunes (length vin) vin.
