(* ===== verification/FramingSpec.v ===== *)
(** * What the stream decoder promises

    The abstract state of a decoder is its [unread] bytes.  [scan] is the
    reference decoder on that list; [Decode] refines it and [Feed] refines
    appending.  [frame] is the reference layout of a frame. *)
From S2P Require Import Prelude.
From S2P Require Import GoTime.
From S2P Require Import Constant.
From S2P Require Import Packet.
From S2P Require Import Framing.

(** ** Reference definitions *)

(** The body a BCC covers, and the whole frame. *)
Definition frame_body (cmd resp : byte) (vin : gostring) (encType : byte) (data : bytes) : bytes :=
  cmd :: resp :: vin ++ encType :: put16 (to_uint16 (len data)) ++ data.

Definition frame (cmd resp : byte) (vin : gostring) (encType : byte) (data : bytes) : bytes :=
  let body := frame_body cmd resp vin encType data in
  StartMarker1 :: StartMarker2 :: body ++ [calculateBCC body].

(** What a list that starts with a marker holds. *)
Inductive parsed :=
  | NeedMore                           (* header or body not complete *)
  | NoChecksum                         (* complete but for the BCC byte *)
  | BadChecksum
  | Good (p : Packet) (rest : bytes).

Definition parse_frame (l : bytes) : parsed :=
  if len l <? HeaderSize then NeedMore else
  let n := be16 (nth 22 l 0) (nth 23 l 0) in
  if len l - HeaderSize <? n then NeedMore else
  if len l - HeaderSize =? n then NoChecksum else
  let body := sub l 2 (24 + n) in
  if calculateBCC body =? nth (Z.to_nat (24 + n)) l 0 then
    Good (mkPacket (nth 2 l 0) (nth 3 l 0) (sub l 4 21) (nth 21 l 0) (sub l 24 (24 + n)) n)
         (drop (Z.to_nat (24 + n + 1)) l)
  else BadChecksum.

Definition is_marker (a b : byte) : bool := (a =? StartMarker1) && (b =? StartMarker2).

(** The reference decoder: packet found (if any) and bytes left unread. *)
Fixpoint scan (l : bytes) : outcome (option Packet * bytes) :=
  match l with
  | a :: t =>
      match t with
      | b :: r =>
          if is_marker a b then
            match parse_frame l with
            | NeedMore => Ok (None, l)
            | NoChecksum => Panic
            | BadChecksum => scan r
            | Good p rest => Ok (Some p, rest)
            end
          else scan t
      | [] => Ok (None, [])
      end
  | [] => Ok (None, [])
  end.

(** The abstraction function and the invariant of the decoder. *)
Definition unread (d : Decoder) : bytes := drop (Z.to_nat (d_pos d)) (bufBytes d).

Definition decoder_wf (d : Decoder) : Prop :=
  0 <= d_pos d <= d_limit d /\ d_limit d = len (bufBytes d) /\ all_bytes (bufBytes d).

Definition same_config (d d' : Decoder) : Prop :=
  d_timeCodec d' = d_timeCodec d /\ d_bccIncludeStart d' = d_bccIncludeStart d.

(** ** The BCC *)

Lemma fold_xor l : forall a, fold_left Z.lxor l a = Z.lxor a (calculateBCC l).
Proof.
  unfold calculateBCC. induction l as [|b l IH]; intros a; cbn.
  - by rewrite Z.lxor_0_r.
  - rewrite IH, (IH (Z.lxor 0 b)), Z.lxor_0_l. by rewrite Z.lxor_assoc.
Qed.

Lemma BCC_app l1 l2 : calculateBCC (l1 ++ l2) = Z.lxor (calculateBCC l1) (calculateBCC l2).
Proof. unfold calculateBCC at 1. by rewrite fold_left_app, fold_xor. Qed.

Lemma BCC_cons b l : calculateBCC (b :: l) = Z.lxor b (calculateBCC l).
Proof. unfold calculateBCC at 1. cbn. by rewrite fold_xor, Z.lxor_0_l. Qed.

(** The two start markers cancel. *)
Lemma BCC_markers l : calculateBCC (StartMarker1 :: StartMarker2 :: l) = calculateBCC l.
Proof. by rewrite !BCC_cons, <- Z.lxor_assoc, Z.lxor_nilpotent, Z.lxor_0_l. Qed.

Lemma is_byte_lxor a b : is_byte a -> is_byte b -> is_byte (Z.lxor a b).
Proof.
  intros [] []. unfold is_byte. split; [by apply Z.lxor_nonneg|].
  destruct (Z.eq_dec (Z.lxor a b) 0) as [->|Hn]; [lia|].
  apply (Z.log2_lt_pow2 _ 8); [pose proof (proj2 (Z.lxor_nonneg a b) ltac:(tauto)); lia|].
  eapply Z.le_lt_trans; [by apply Z.log2_lxor|].
  apply Z.max_lub_lt.
  - destruct (Z.eq_dec a 0) as [->|]; [done|]. apply Z.log2_lt_pow2; lia.
  - destruct (Z.eq_dec b 0) as [->|]; [done|]. apply Z.log2_lt_pow2; lia.
Qed.

Lemma BCC_byte l : all_bytes l -> is_byte (calculateBCC l).
Proof.
  induction 1 as [|b l Hb Hl IH]; [unfold is_byte, calculateBCC; cbn; lia|].
  rewrite BCC_cons. by apply is_byte_lxor.
Qed.

(** Exchanging one byte exchanges it in the sum. *)
Lemma BCC_replace l1 x y l2 :
  calculateBCC (l1 ++ y :: l2) = Z.lxor (calculateBCC (l1 ++ x :: l2)) (Z.lxor x y).
Proof.
  rewrite !BCC_app, !BCC_cons. apply Z.bits_inj. intros n. rewrite !Z.lxor_spec.
  by destruct (Z.testbit _ n), (Z.testbit x n), (Z.testbit y n), (Z.testbit _ n).
Qed.

Lemma BCC_replace_ne l1 x y l2 :
  x <> y -> calculateBCC (l1 ++ y :: l2) <> calculateBCC (l1 ++ x :: l2).
Proof.
  intros Hn Hc. rewrite (BCC_replace l1 x y l2) in Hc.
  apply Hn, Z.lxor_eq. set (s := calculateBCC (l1 ++ x :: l2)) in *.
  rewrite <- (Z.lxor_0_l (Z.lxor x y)), <- (Z.lxor_nilpotent s), Z.lxor_assoc, Hc. done.
Qed.

(** On a header that starts with the markers both modes of [verifyBCC] compute
    the same sum. *)
Lemma verifyBCC_spec d h data bcc :
  verifyBCC d (StartMarker1 :: StartMarker2 :: h) data bcc = Ok (calculateBCC (h ++ data) =? bcc).
Proof.
  unfold verifyBCC. rewrite slice_ok by llia. cbn [bind].
  rewrite (sub_tail [StartMarker1; StartMarker2] h) by llia.
  rewrite BCC_markers, !fold_xor, <- BCC_app.
  destruct (calculateBCC (h ++ data) =? bcc); [done|]. by destruct (d_bccIncludeStart d).
Qed.

(** ** Refinement *)

Lemma at_pos_unread d : decoder_wf d -> at_pos (bufBytes d) (d_pos d) (unread d).
Proof. intros (? & ? & ?). apply at_pos_drop. lia. Qed.

Lemma unread_at_pos d s : at_pos (bufBytes d) (d_pos d) s -> unread d = s.
Proof. intros (p & Hb & Hp). unfold unread. rewrite Hb, Hp. apply drop_len_app. Qed.

Lemma slice_take l i s n :
  at_pos l i s -> 0 <= n <= len s -> slice l i (i + n) = Ok (take (Z.to_nat n) s).
Proof.
  intros H Hn. apply (slice_at _ _ _ _ (drop (Z.to_nat n) s)); [by rewrite take_drop|].
  by rewrite len_take.
Qed.

Lemma at_pos_skip l i s n :
  at_pos l i s -> 0 <= n <= len s -> at_pos l (i + n) (drop (Z.to_nat n) s).
Proof.
  intros H Hn. apply (at_pos_step l i (take (Z.to_nat n) s)); [by rewrite take_drop|].
  by rewrite len_take.
Qed.

Lemma index_drop l i s b n : at_pos l i s -> i <= n < len l -> b = nth (Z.to_nat (n - i)) s 0 ->
  index l n = Ok b.
Proof.
  intros (p & -> & ->) Hn ->. rewrite index_ok by (unfold len in *; lia).
  f_equal. unfold len in *. rewrite app_nth2 by lia. f_equal. lia.
Qed.

Lemma nth_take l n k : (k < n)%nat -> nth k (take n l) 0 = nth k l 0.
Proof. intros. by rewrite !nth_lookup, lookup_take_lt. Qed.

(** What [findStartMarker] returns, against the bytes from [pos] on. *)
Lemma findStartMarker_loop_spec s : forall buf i,
  at_pos buf i s ->
  (findStartMarker_loop (length s - 1) buf i = Ok (-1) /\ scan s = Ok (None, [])) \/
  (exists r t, findStartMarker_loop (length s - 1) buf i = Ok r /\ i <= r /\
     at_pos buf r (StartMarker1 :: StartMarker2 :: t) /\
     scan s = scan (StartMarker1 :: StartMarker2 :: t)).
Proof.
  induction s as [|a [|b r] IH]; intros buf i Hp; [by left..|].
  cbn [length Nat.sub findStartMarker_loop]. rewrite (index_at _ _ _ _ Hp). cbn [bind].
  pose proof (at_pos_cons _ _ _ _ Hp) as Hp'.
  destruct (Z.eqb_spec a StartMarker1) as [->|Ha].
  - rewrite (index_at _ _ _ _ Hp'). cbn [bind].
    destruct (Z.eqb_spec b StartMarker2) as [->|Hb].
    + right. exists i, r. split_and!; [done|lia|done|done].
    + assert (scan (StartMarker1 :: b :: r) = scan (b :: r)) as ->.
      { cbn [scan]. unfold is_marker. by destruct (Z.eqb_spec b StartMarker2). }
      cbn [length Nat.sub] in IH. rewrite Nat.sub_0_r in IH.
      destruct (IH _ _ Hp') as [?|(r' & t & ? & ? & ? & ?)]; [by left|right].
      exists r', t. split_and!; [done|lia|done|done].
  - assert (scan (a :: b :: r) = scan (b :: r)) as ->.
    { cbn [scan]. unfold is_marker. by destruct (Z.eqb_spec a StartMarker1). }
    cbn [length Nat.sub] in IH. rewrite Nat.sub_0_r in IH.
    destruct (IH _ _ Hp') as [?|(r' & t & ? & ? & ? & ?)]; [by left|right].
    exists r', t. split_and!; [done|lia|done|done].
Qed.

Lemma findStartMarker_spec d s :
  d_limit d = len (bufBytes d) -> at_pos (bufBytes d) (d_pos d) s ->
  findStartMarker d = findStartMarker_loop (length s - 1) (bufBytes d) (d_pos d).
Proof.
  intros Hl Hp. apply at_pos_bound in Hp as [? Hs]. unfold findStartMarker. f_equal.
  unfold len in *. lia.
Qed.

(** The simulation: what [Decode_loop] may do where [scan] is applied to the
    bytes from [pos] on. *)
Definition simulates (d : Decoder) (s : bytes) (m : outcome (option Packet * Decoder)) : Prop :=
  match m with
  | Ok (p, d') =>
      scan s = Ok (p, unread d') /\ decoder_wf d' /\ same_config d d'
  | Panic => scan s = Panic
  | Err _ | OutOfFuel => False
  end.

(** One iteration, from a marker on. *)
Section iteration.
Context (d : Decoder) (i : int) (t : bytes).
Let l := StartMarker1 :: StartMarker2 :: t.
Context (Hwf : decoder_wf d) (Hi : at_pos (bufBytes d) i l).

Lemma marker_len : len (bufBytes d) = i + len l /\ 0 <= i /\ d_limit d = i + len l.
Proof.
  destruct Hwf as (? & ? & ?). pose proof (at_pos_bound _ _ _ Hi) as [? ?]. lia.
Qed.

Lemma header_spec :
  HeaderSize <= len l ->
  exists header,
    slice (bufBytes d) i (i + HeaderSize) = Ok header /\
    header = StartMarker1 :: StartMarker2 :: take 22 t /\
    index header 2 = Ok (nth 2 l 0) /\ index header 3 = Ok (nth 3 l 0) /\
    slice header 4 21 = Ok (sub l 4 21) /\ index header 21 = Ok (nth 21 l 0) /\
    read16 header 22 = Ok (be16 (nth 22 l 0) (nth 23 l 0)).
Proof.
  intros Hl. exists (take 24 l). unfold HeaderSize in *.
  assert (len (take 24 l) = 24) as Hh by (unfold len in *; rewrite length_take; lia).
  rewrite (slice_take _ _ l) by (done || lia).
  split_and!; [done|done|..].
  1,2,4: rewrite index_ok by lia; by rewrite nth_take by (cbn; lia).
  - rewrite slice_ok by lia. f_equal. unfold sub.
    by rewrite skipn_firstn_comm, take_take.
  - unfold read16. rewrite slice_ok by lia. cbn [bind]. unfold Uint16.
    assert (len (sub (take 24 l) 22 (22 + 2)) = 2) as Hs by (rewrite len_sub; lia).
    rewrite !index_ok by lia. cbn [bind]. unfold sub.
    rewrite !nth_lookup, !lookup_take_lt, !lookup_drop by (cbn; lia).
    cbn [Z.to_nat Pos.to_nat Pos.iter_op Nat.add]. rewrite !lookup_take_lt by (cbn; lia).
    by rewrite <- !nth_lookup.
Qed.
End iteration.

Lemma sub_from {A} (l : list A) i n : 0 <= n -> 0 <= i -> sub l i (i + n) = take (Z.to_nat n) (drop (Z.to_nat i) l).
Proof. intros. unfold sub. do 2 f_equal. lia. Qed.

Lemma scan_marker t :
  scan (StartMarker1 :: StartMarker2 :: t) =
    match parse_frame (StartMarker1 :: StartMarker2 :: t) with
    | NeedMore => Ok (None, StartMarker1 :: StartMarker2 :: t)
    | NoChecksum => Panic
    | BadChecksum => scan t
    | Good p rest => Ok (Some p, rest)
    end.
Proof. done. Qed.

Lemma simulates_scan d s s' m : scan s = scan s' -> simulates d s' m -> simulates d s m.
Proof. intros Hs. unfold simulates. by rewrite Hs. Qed.

Lemma bufBytes_set_pos d p : bufBytes (set_pos d p) = bufBytes d.
Proof. done. Qed.

Lemma set_pos_wf d p : decoder_wf d -> 0 <= p <= d_limit d -> decoder_wf (set_pos d p).
Proof. intros (? & ? & ?) ?. split; [done|by split]. Qed.

Lemma simulates_more d s p l :
  decoder_wf d -> at_pos (bufBytes d) p l -> scan s = Ok (None, l) ->
  simulates d s (Ok (None, set_pos d p)).
Proof.
  intros Hwf Hp Hs. split; [|split; [|done]].
  - rewrite Hs. by rewrite (unread_at_pos (set_pos d p) l Hp).
  - apply set_pos_wf; [done|]. destruct Hwf as (? & ? & ?).
    pose proof (len_nonneg l). apply at_pos_bound in Hp as []. lia.
Qed.

Lemma all_bytes_at l i s : all_bytes l -> at_pos l i s -> all_bytes s.
Proof. intros Hl (p & -> & _). by apply Forall_app in Hl as [_ ?]. Qed.

(** The end of an iteration: the packet if the BCC holds, else on behind the
    markers. *)
Lemma simulates_checked d i t n p (good : bool) m :
  let l := StartMarker1 :: StartMarker2 :: t in
  decoder_wf d -> at_pos (bufBytes d) i l -> 0 <= n -> 24 + n < len l -> i + len l = d_limit d ->
  scan l = (if good then Ok (Some p, drop (Z.to_nat (24 + n + 1)) l) else scan t) ->
  simulates (set_pos d (i + 2)) t m ->
  simulates d l (if negb good then m else Ok (Some p, set_pos d (i + 24 + n + 1))).
Proof.
  intros l Hwf Hpi Hn Hl Hlim Hscan Hm. pose proof (at_pos_bound _ _ _ Hpi) as [? _].
  destruct good; cbn [negb]; [|exact (simulates_scan _ _ _ _ Hscan Hm)].
  split; [|split; [|done]].
  - rewrite Hscan. do 3 f_equal. symmetry. apply unread_at_pos. cbn.
    replace (i + 24 + n + 1) with (i + (24 + n + 1)) by lia. apply at_pos_skip; [done|lia].
  - apply (set_pos_wf d); [done|]. lia.
Qed.

Lemma Decode_loop_refines fuel : forall d s,
  decoder_wf d -> at_pos (bufBytes d) (d_pos d) s -> (length s < fuel)%nat ->
  simulates d s (Decode_loop fuel d).
Proof.
  induction fuel as [|fuel IH]; intros d s Hwf Hp Hfuel; [lia|].
  cbn [Decode_loop]. pose proof Hwf as (Hb & Hlim & Hbytes).
  rewrite (findStartMarker_spec d s) by done.
  destruct (findStartMarker_loop_spec s _ _ Hp) as [[-> Hs]|(i & t & -> & Hi & Hpi & Hs)].
  { cbn. rewrite Hs. split; [done|]. repeat split; cbn; try lia. constructor. }
  cbn [bind]. destruct (Z.ltb_spec i 0); [lia|].
  destruct (marker_len d i t Hwf Hpi) as (Hl & ? & Hlim').
  pose proof (at_pos_bound _ _ _ Hp) as [_ Hls].
  apply (simulates_scan _ _ _ _ Hs). clear Hs. rewrite <- Hl in Hlim'.
  pose proof (header_spec d i t Hpi) as Hhdr. pose proof (scan_marker t) as Hscan.
  unfold parse_frame in Hscan.
  set (l := StartMarker1 :: StartMarker2 :: t) in *.
  change (bufBytes (set_pos d ?x)) with (bufBytes d). cbn [set_pos set_buf d_limit d_pos].
  replace (d_limit d - i) with (len l) by lia.
  destruct (Z.ltb_spec (len l) HeaderSize); [exact (simulates_more d _ i _ Hwf Hpi Hscan)|].
  destruct Hhdr as (header & -> & Hh & E2 & E3 & E4 & E21 & E22); [done|]. cbn [bind].
  rewrite E2, E3, E4, E21, E22. cbn [bind].
  assert (all_bytes l) as Hlb by eauto using all_bytes_at.
  set (n := be16 _ _) in *.
  assert (is_uint16 n) as Hn.
  { unfold HeaderSize in *.
    apply be16_bound; [apply (all_bytes_nth l 22)|apply (all_bytes_nth l 23)]; done || lia. }
  replace (d_limit d - (i + HeaderSize)) with (len l - HeaderSize) by lia.
  destruct (Z.ltb_spec (len l - HeaderSize) n); [exact (simulates_more d _ i _ Hwf Hpi Hscan)|].
  unfold is_uint16, HeaderSize in *.
  pose proof (at_pos_skip _ _ _ 24 Hpi ltac:(lia)) as Hp24.
  rewrite (slice_take _ _ _ _ Hp24) by (rewrite len_drop; lia). cbn [bind].
  destruct (Z.eqb_spec (len l - 24) n).
  { rewrite !bufBytes_set_pos, index_panic by lia. exact Hscan. }
  rewrite !bufBytes_set_pos.
  rewrite (index_drop (bufBytes d) i l (nth (Z.to_nat (24 + n)) l 0)) by (done || lia || (do 2 f_equal; lia)).
  cbn [bind]. rewrite Hh, verifyBCC_spec. cbn [bind].
  assert (take 22 t ++ take (Z.to_nat n) (drop (Z.to_nat 24) l) = sub l 2 (24 + n)) as ->.
  { unfold sub. replace (Z.to_nat (24 + n - 2)) with (22 + Z.to_nat n)%nat by lia.
    by rewrite <- take_take_drop. }
  rewrite <- (sub_from l 24 n) by lia.
  apply (simulates_checked d i t n _ _ _ Hwf Hpi); [lia|fold l; lia|fold l; lia|fold l; by destruct (_ =? _)|].
  apply (IH (set_pos d (i + 2)) t).
  - apply set_pos_wf; [done|]. unfold l in *. len_simpl. pose proof (len_nonneg t). lia.
  - by apply (at_pos_step _ i [StartMarker1; StartMarker2]).
  - unfold l, len in *. cbn [length] in *. lia.
Qed.

Lemma Decode_refines d : decoder_wf d -> simulates d (unread d) (Decode d).
Proof.
  intros Hwf. pose proof (at_pos_unread d Hwf) as Hp. apply Decode_loop_refines; [done..|].
  apply at_pos_bound in Hp as [? ?]. destruct Hwf as (? & ? & ?). unfold len in *. lia.
Qed.

Lemma copy_replicate n data : n = length data -> copy (replicate n 0) data = data.
Proof. intros ->. apply copy_same, length_replicate. Qed.

(** A fresh buffer that holds exactly [data]. *)
Lemma make_copy data : exists buf, make (len data) = Ok buf /\ copy buf data = data.
Proof.
  eexists. rewrite make_ok by apply len_nonneg. split; [done|].
  apply copy_replicate. unfold len. lia.
Qed.

Lemma set_buf_all d b : all_bytes b ->
  decoder_wf (set_buf d (Some b) 0 (len b)) /\ unread (set_buf d (Some b) 0 (len b)) = b.
Proof.
  intros Hb. split; [|by apply drop_0]. repeat split; cbn; try done. apply len_nonneg.
Qed.

Lemma Feed_refines d data :
  decoder_wf d -> all_bytes data ->
  exists d', Feed d data = Ok d' /\ decoder_wf d' /\ same_config d d' /\
    unread d' = unread d ++ data.
Proof.
  intros Hwf Hd. pose proof Hwf as (Hpos & Hlim & Hb). unfold Feed.
  destruct (make_copy data) as (buf & Hmake & Hcopy).
  destruct (set_buf_all d data Hd) as [Hwf0 Hu0].
  unfold unread, bufBytes in Hlim, Hb |- *. destruct (d_buf d) as [old|]; cbn in *.
  - destruct (Z.ltb_spec 0 (d_limit d - d_pos d)).
    + rewrite make_ok by (pose proof (len_nonneg data); lia). cbn [bind].
      rewrite slice_ok by lia. cbn [bind].
      assert (len (sub old (d_pos d) (len old)) = d_limit d - d_pos d) as Ht
        by (rewrite len_sub; lia).
      assert (sub old (d_pos d) (len old) = drop (Z.to_nat (d_pos d)) old) as Hs.
      { unfold sub. apply take_ge. rewrite length_drop. unfold len. lia. }
      rewrite Hs in *. set (tail := drop _ old) in *.
      assert (copy (replicate (Z.to_nat (d_limit d - d_pos d + len data)) 0) tail
              = tail ++ replicate (length data) 0) as ->.
      { unfold copy. rewrite firstn_all2 by (rewrite length_replicate; unfold len in *; lia).
        rewrite drop_replicate. do 2 f_equal. unfold len in *. lia. }
      rewrite <- (app_nil_r (replicate (length data) 0)).
      rewrite (copy_into_app tail _ []) by (try (rewrite length_replicate); try done; unfold len in *;
        rewrite ?length_app, ?length_replicate; cbn [length]; lia).
      cbn [bind]. rewrite app_nil_r. eexists. split; [done|].
      assert (all_bytes (tail ++ data)) as Htd
        by (apply Forall_app_2; [by apply Forall_drop|done]).
      destruct (set_buf_all d _ Htd) as [? Hu]. split; [done|]. by split.
    + rewrite Hmake. cbn [bind]. rewrite Hcopy. eexists. split; [done|].
      split; [done|]. split; [done|]. by rewrite (drop_ge old) by (unfold len in *; lia).
  - rewrite Hmake. cbn [bind]. rewrite Hcopy. eexists. split; [done|].
    split; [done|]. split; [done|]. by rewrite drop_nil.
Qed.

(** ** Frames *)

Section frame.
Context (cmd resp : byte) (vin : gostring) (encType : byte) (data : bytes).
Context (Hvin : len vin = VINLength) (Hlen : is_uint16 (len data)).
Let fr := frame cmd resp vin encType data.
Let body := frame_body cmd resp vin encType data.
Let pkt := mkPacket cmd resp vin encType data (len data).

(** The header, and the frame cut at its end. *)
Definition frame_header : bytes :=
  StartMarker1 :: StartMarker2 :: cmd :: resp :: vin ++ encType :: put16 (to_uint16 (len data)).

Lemma frame_cut : fr = frame_header ++ data ++ [calculateBCC body].
Proof. unfold fr, frame, frame_header, frame_body. cbn [app]. by rewrite <- !app_assoc. Qed.

Lemma len_frame_header : len frame_header = HeaderSize.
Proof. unfold frame_header. autorewrite with go_len. rewrite Hvin. done. Qed.

Lemma len_frame : len fr = 25 + len data.
Proof. rewrite frame_cut, !len_app, len_frame_header. unfold HeaderSize. llia. Qed.

Lemma to_uint16_len : to_uint16 (len data) = len data.
Proof. apply Z.mod_small. apply Hlen. Qed.

(** Any list that begins with the whole header announces [len data] bytes. *)
Lemma frame_header_fields s :
  let l := frame_header ++ s in
  nth 2 l 0 = cmd /\ nth 3 l 0 = resp /\ sub l 4 21 = vin /\ nth 21 l 0 = encType /\
  be16 (nth 22 l 0) (nth 23 l 0) = len data.
Proof.
  cbv zeta. unfold frame_header. rewrite to_uint16_len.
  pose proof (be16_put _ Hlen) as Hbe. revert Hbe. unfold put16.
  generalize (to_byte (Z.shiftr (len data) 8)) as hi.
  generalize (to_byte (len data)) as lo. intros lo hi <-.
  clear fr body pkt Hlen. unfold len, VINLength in Hvin.
  assert (length vin = 17%nat) as Hv by lia. clear Hvin. revert Hv. generalize vin as w.
  intros w Hv. do 17 (destruct w as [|? w]; [discriminate Hv|]).
  by destruct w.
Qed.

Lemma parse_frame_good rest : parse_frame (fr ++ rest) = Good pkt rest.
Proof.
  assert (fr ++ rest = frame_header ++ data ++ calculateBCC body :: rest) as Hl
    by (rewrite frame_cut, <- !app_assoc; done).
  rewrite Hl. set (l := frame_header ++ data ++ calculateBCC body :: rest).
  pose proof (len_nonneg rest). pose proof (len_nonneg data).
  assert (len l = 25 + len data + len rest) as Hll.
  { unfold l. autorewrite with go_len. rewrite len_frame_header. unfold HeaderSize. lia. }
  destruct (frame_header_fields (data ++ calculateBCC body :: rest)) as (H2 & H3 & H4 & H21 & H22).
  fold l in H2, H3, H4, H21, H22. unfold parse_frame. rewrite H2, H3, H4, H21, H22.
  unfold HeaderSize. destruct (Z.ltb_spec (len l) 24); [lia|].
  destruct (Z.ltb_spec (len l - 24) (len data)); [lia|].
  destruct (Z.eqb_spec (len l - 24) (len data)); [lia|].
  assert (sub l 2 (24 + len data) = body) as ->.
  { assert (l = [StartMarker1; StartMarker2] ++ body ++ calculateBCC body :: rest) as ->.
    { unfold l, frame_header, body, frame_body. cbn [app]. by rewrite <- !app_assoc. }
    apply sub_app; [done|]. unfold body, frame_body. autorewrite with go_len.
    rewrite Hvin. unfold VINLength, len. cbn [length]. lia. }
  assert (at_pos l 24 (data ++ calculateBCC body :: rest)) as Hp24
    by (exists frame_header; split; [done|by rewrite len_frame_header]).
  assert (at_pos l (24 + len data) (calculateBCC body :: rest)) as Hpb
    by (by eapply at_pos_step).
  pose proof (index_at _ _ _ _ Hpb) as Hi. rewrite index_ok in Hi by lia.
  apply Ok_inj in Hi. rewrite Hi, Z.eqb_refl.
  pose proof (slice_at _ _ _ _ _ Hp24 eq_refl) as Hs. rewrite slice_ok in Hs by lia.
  apply Ok_inj in Hs. rewrite Hs. f_equal.
  apply at_pos_cons in Hpb. destruct Hpb as (p & -> & ->). apply drop_len_app.
Qed.

(** A proper prefix of a frame that holds its header. *)
Lemma prefix_header p q :
  p ++ q = fr -> HeaderSize <= len p -> exists s, p = frame_header ++ s.
Proof.
  intros Hpq Hp. exists (drop (Z.to_nat HeaderSize) p).
  rewrite <- (take_drop (Z.to_nat HeaderSize) p) at 1. f_equal.
  rewrite frame_cut in Hpq. apply (f_equal (take (Z.to_nat HeaderSize))) in Hpq.
  rewrite take_app_le in Hpq by (unfold len in *; lia). rewrite Hpq.
  rewrite <- len_frame_header. apply take_len_app.
Qed.

Lemma parse_prefix p q :
  p ++ q = fr -> len p <= len fr - 1 ->
  parse_frame p = if len p =? len fr - 1 then NoChecksum else NeedMore.
Proof.
  intros Hpq Hp. rewrite len_frame in *. unfold parse_frame.
  pose proof (len_nonneg data). unfold HeaderSize.
  destruct (Z.ltb_spec (len p) 24); [by destruct (Z.eqb_spec (len p) (25 + len data - 1)); [lia|]|].
  destruct (prefix_header p q) as [s ->]; [done..|].
  destruct (frame_header_fields s) as (_ & _ & _ & _ & ->).
  set (l := frame_header ++ s) in *.
  destruct (Z.ltb_spec (len l - 24) (len data)).
  - by destruct (Z.eqb_spec (len l) (25 + len data - 1)); [lia|].
  - destruct (Z.eqb_spec (len l - 24) (len data)); [|lia].
    by destruct (Z.eqb_spec (len l) (25 + len data - 1)); [|lia].
Qed.

Lemma prefix_marker p q :
  p ++ q = fr -> 2 <= len p -> exists t, p = StartMarker1 :: StartMarker2 :: t.
Proof.
  intros Hpq Hp. destruct p as [|a [|b t]]; [llia..|].
  unfold fr, frame in Hpq. cbn [app] in Hpq. exists t. congruence.
Qed.

Lemma scan_frame rest : scan (fr ++ rest) = Ok (Some pkt, rest).
Proof.
  pose proof (parse_frame_good rest) as Hg. unfold fr, frame in *. cbn [app] in *.
  by rewrite scan_marker, Hg.
Qed.

Lemma scan_prefix p q :
  p ++ q = fr -> 2 <= len p <= len fr - 1 ->
  scan p = if len p =? len fr - 1 then Panic else Ok (None, p).
Proof.
  intros Hpq Hp. pose proof (parse_prefix p q Hpq ltac:(lia)) as Hparse.
  destruct (prefix_marker p q) as [t ->]; [done|lia|].
  rewrite scan_marker, Hparse. by destruct (len _ =? _).
Qed.

Lemma frame_bytes :
  is_byte cmd -> is_byte resp -> all_bytes vin -> is_byte encType -> all_bytes data ->
  all_bytes fr.
Proof.
  intros. unfold fr, frame. 
  assert (all_bytes (frame_body cmd resp vin encType data)) as Hb.
  { unfold frame_body. do 2 (apply Forall_cons_2; [done|]). apply Forall_app_2; [done|].
    apply Forall_cons_2; [done|]. apply Forall_app_2; [apply put16_bytes|done]. }
  do 2 (apply Forall_cons_2; [unfold StartMarker1, StartMarker2, is_byte; lia|]).
  apply Forall_app_2; [done|]. constructor; [by apply BCC_byte|constructor].
Qed.
End frame.

(** [scan] skips what cannot start a frame. *)
Lemma scan_skip g l : Forall (fun b => b <> StartMarker1) g -> scan (g ++ l) = scan l.
Proof.
  induction 1 as [|a g Ha Hg IH]; [done|]. cbn [app]. rewrite <- IH.
  destruct (g ++ l) as [|b r] eqn:E; [done|]. cbn [scan]. unfold is_marker.
  by destruct (Z.eqb_spec a StartMarker1).
Qed.

(** The frame of a packet, behind its markers. *)
Definition packet_body (p : Packet) : bytes :=
  frame_body (p_Command p) (p_Response p) (p_VIN p) (p_EncryptType p) (p_Data p).
Definition packet_frame (p : Packet) : bytes :=
  frame (p_Command p) (p_Response p) (p_VIN p) (p_EncryptType p) (p_Data p).

Definition packet_wf (p : Packet) : Prop :=
  len (p_VIN p) = VINLength /\ p_Length p = len (p_Data p) /\ is_uint16 (p_Length p) /\
  is_byte (p_Command p) /\ is_byte (p_Response p) /\ all_bytes (p_VIN p) /\
  is_byte (p_EncryptType p) /\ all_bytes (p_Data p).

(** Cut a list of [n + 1] or more at [n]. *)
Lemma cut_nth (l : bytes) n :
  (n < length l)%nat -> l = take n l ++ nth n l 0 :: drop (S n) l.
Proof.
  intros Hn. rewrite <- (take_drop n l) at 1. f_equal. apply drop_S.
  destruct (lookup_lt_is_Some_2 l n Hn) as [x Hx]. by rewrite nth_lookup, Hx.
Qed.

(** A list of 24 bytes or more is a header and what follows it. *)
Lemma header_cut t :
  HeaderSize <= len (StartMarker1 :: StartMarker2 :: t) ->
  exists c r v e hi lo u, t = c :: r :: v ++ e :: hi :: lo :: u /\ len v = VINLength.
Proof.
  intros H24. unfold HeaderSize, VINLength, len in *.
  destruct t as [|c [|r t]]; [exfalso; cbn in H24; lia..|].
  destruct (drop 17 t) as [|e [|hi [|lo u]]] eqn:E;
    apply (f_equal length) in E as E'; rewrite length_drop in E'; cbn [length] in *; try lia.
  exists c, r, (take 17 t), e, hi, lo, u. rewrite <- E, take_drop, length_take.
  split; [done|]. lia.
Qed.

(** The fields [parse_frame] reads off such a list. *)
Lemma header_fields c r v e hi lo u :
  len v = VINLength ->
  let l := StartMarker1 :: StartMarker2 :: c :: r :: v ++ e :: hi :: lo :: u in
  nth 21 l 0 = e /\ nth 22 l 0 = hi /\ nth 23 l 0 = lo /\ sub l 4 21 = v /\
  at_pos l 24 u.
Proof.
  intros Hv. unfold VINLength, len in Hv. assert (length v = 17%nat) as Hl by lia. clear Hv.
  do 17 (destruct v as [|? v]; [discriminate Hl|]). destruct v; [|discriminate Hl].
  cbv zeta. split_and!; try done.
  by eexists [_; _; _; _; _; _; _; _; _; _; _; _; _; _; _; _; _; _; _; _; _; _; _; _].
Qed.

(** Such a list with [n] bytes of data and one more behind the header. *)
Lemma header_windows c r v e hi lo u n :
  let l := StartMarker1 :: StartMarker2 :: c :: r :: v ++ e :: hi :: lo :: u in
  let data := take (Z.to_nat n) u in
  let bcc := nth (Z.to_nat n) u 0 in
  let rest := drop (S (Z.to_nat n)) u in
  len v = VINLength -> put16 n = [hi; lo] -> is_uint16 n -> n < len u ->
  l = [StartMarker1; StartMarker2] ++ frame_body c r v e data ++ bcc :: rest /\
  len data = n /\ sub l 24 (24 + n) = data /\ nth (Z.to_nat (24 + n)) l 0 = bcc /\
  drop (Z.to_nat (24 + n + 1)) l = rest /\ sub l 2 (24 + n) = frame_body c r v e data.
Proof.
  intros l data bcc rest Hv Hput Hn Hlen. unfold is_uint16 in Hn.
  destruct (header_fields c r v e hi lo u Hv) as (_ & _ & _ & _ & Hp24). fold l in Hp24.
  pose proof (at_pos_bound _ _ _ Hp24) as [_ Hll].
  pose proof (cut_nth u (Z.to_nat n) ltac:(unfold len in *; lia)) as Hu. fold data bcc rest in Hu.
  assert (len data = n) as Hdata by (unfold data; rewrite len_take; lia).
  assert (l = [StartMarker1; StartMarker2] ++ frame_body c r v e data ++ bcc :: rest) as El.
  { unfold l, frame_body. rewrite Hdata. unfold to_uint16. rewrite Z.mod_small, Hput by lia.
    rewrite Hu at 1. cbn [app]. by rewrite <- !app_assoc. }
  rewrite Hu in Hp24. split_and!; [done|done|..].
  - pose proof (slice_at _ _ _ _ _ Hp24 eq_refl) as Hx. rewrite slice_ok in Hx by lia.
    apply Ok_inj in Hx. by rewrite Hdata in Hx.
  - apply at_pos_step with (j := 24 + n) in Hp24; [|lia].
    pose proof (index_at _ _ _ _ Hp24) as Hx. rewrite index_ok in Hx by lia. by apply Ok_inj in Hx.
  - apply at_pos_step with (j := 24 + n) in Hp24; [|lia]. apply at_pos_cons in Hp24.
    destruct Hp24 as (q & -> & ->). apply drop_len_app.
  - rewrite El. apply sub_app; [done|]. unfold frame_body. autorewrite with go_len.
    rewrite Hv, Hdata. unfold VINLength, len. cbn [length]. lia.
Qed.

Lemma parse_frame_sound t p rest :
  all_bytes (StartMarker1 :: StartMarker2 :: t) ->
  parse_frame (StartMarker1 :: StartMarker2 :: t) = Good p rest ->
  StartMarker1 :: StartMarker2 :: t = packet_frame p ++ rest /\ packet_wf p.
Proof.
  intros Hb Hp. unfold parse_frame in Hp.
  destruct (Z.ltb_spec (len (StartMarker1 :: StartMarker2 :: t)) HeaderSize) as [|H24]; [done|].
  destruct (header_cut t H24) as (c & r & v & e & hi & lo & u & -> & Hv).
  destruct (header_fields c r v e hi lo u Hv) as (E21 & E22 & E23 & E4 & Hp24).
  rewrite E21, E22, E23, E4 in Hp.
  change (nth 2 _ 0) with c in Hp. change (nth 3 _ 0) with r in Hp.
  rewrite !Forall_cons, Forall_app, !Forall_cons in Hb.
  destruct Hb as (_ & _ & ? & ? & ? & ? & ? & ? & Hub).
  set (l := StartMarker1 :: StartMarker2 :: c :: r :: v ++ e :: hi :: lo :: u) in *.
  pose proof (at_pos_bound _ _ _ Hp24) as [_ Hll]. unfold HeaderSize in *.
  pose proof (be16_bound hi lo ltac:(done) ltac:(done)) as Hn. set (n := be16 hi lo) in *.
  destruct (Z.ltb_spec (len l - 24) n); [done|]. destruct (Z.eqb_spec (len l - 24) n); [done|].
  destruct (header_windows c r v e hi lo u n Hv) as (El & Hdata & Es & Eb & Er & Eo);
    [by apply put16_be | done | lia |]. fold l in El, Es, Eb, Er, Eo.
  rewrite Es, Eb, Er, Eo in Hp. set (data := take _ u) in *. set (bcc := nth _ u 0) in *.
  destruct (Z.eqb_spec (calculateBCC (frame_body c r v e data)) bcc) as [Hbcc|]; [|done].
  injection Hp as <- <-. split.
  - rewrite El, <- Hbcc. unfold packet_frame, frame. cbn [app p_Command p_Response p_VIN p_EncryptType p_Data].
    by rewrite <- app_assoc.
  - unfold packet_wf. cbn. rewrite Hdata. split_and!; try done. by apply Forall_take.
Qed.

(** What [scan] returns is the first good frame: it is a window of the input,
    and the packet is its content. *)
Lemma scan_sound_aux k : forall l p rest,
  (length l < k)%nat -> all_bytes l -> scan l = Ok (Some p, rest) ->
  exists skipped, l = skipped ++ packet_frame p ++ rest /\ packet_wf p.
Proof.
  induction k as [|k IH]; intros l p rest Hk Hb Hs; [lia|].
  destruct l as [|a [|b t]]; [done..|].
  destruct (is_marker a b) eqn:Em.
  - unfold is_marker in Em. apply andb_true_iff in Em as [->%Z.eqb_eq ->%Z.eqb_eq].
    rewrite scan_marker in Hs. destruct (parse_frame _) as [| | |q r'] eqn:Ep; [done|done|..].
    + cbn [length] in Hk. rewrite !Forall_cons in Hb. destruct Hb as (? & ? & ?).
      destruct (IH t p rest) as (sk & -> & ?); [lia|done..|].
      by exists (StartMarker1 :: StartMarker2 :: sk).
    + injection Hs as -> ->. exists []. by apply parse_frame_sound in Ep.
  - assert (scan (b :: t) = Ok (Some p, rest)) as Hs' by (cbn [scan] in *; by rewrite Em in Hs).
    cbn [length] in Hk. rewrite !Forall_cons in Hb. destruct Hb as (? & ? & ?).
    destruct (IH (b :: t) p rest) as (sk & -> & ?);
      [cbn [length]; lia|by rewrite Forall_cons|done|].
    by exists (a :: sk).
Qed.

Lemma scan_sound l p rest :
  all_bytes l -> scan l = Ok (Some p, rest) ->
  exists skipped, l = skipped ++ packet_frame p ++ rest /\ packet_wf p.
Proof. apply (scan_sound_aux (S (length l))). lia. Qed.

(** ** The encoder writes the reference layout *)

(** The last step: the BCC is computed over the buffer while its own byte is
    still zero. *)
Lemma encode_end cmd resp vin e data pre pkt pos :
  len vin = VINLength ->
  pre = [StartMarker1; StartMarker2; cmd; resp] ++ vin ++ [e] ++ put16 (to_uint16 (len data)) ->
  pkt = pre ++ data ++ [0] -> pos = 24 + len data ->
  bind (slice pkt 2 (len pkt)) (fun body => store pkt pos (calculateBCC body)) =
    Ok (frame cmd resp vin e data).
Proof.
  intros Hv -> -> ->. set (body := frame_body cmd resp vin e data).
  assert (([StartMarker1; StartMarker2; cmd; resp] ++ vin ++ [e] ++ put16 (to_uint16 (len data)))
            ++ data ++ [0] = StartMarker1 :: StartMarker2 :: body ++ [0]) as ->.
  { unfold body, frame_body. cbn [app]. by rewrite <- !app_assoc. }
  pose proof (len_nonneg body). rewrite slice_ok by llia. cbn [bind].
  rewrite (sub_tail [StartMarker1; StartMarker2] (body ++ [0])) by llia.
  rewrite BCC_app, Z.lxor_0_r.
  rewrite (store_cut _ (StartMarker1 :: StartMarker2 :: body) 0 []); [done|done|].
  unfold body, frame_body. autorewrite with go_len. rewrite Hv. unfold VINLength. lia.
Qed.

(** What every frame builder does first: a buffer of the frame's size, the
    markers, command, response, VIN, encryption type and length written in
    order; the data and the BCC are still zero. *)
Definition frame_start (cmd resp : byte) (vin : gostring) (e : byte) (data : bytes) : bytes :=
  [StartMarker1; StartMarker2; cmd; resp] ++ vin ++ [e] ++ put16 (to_uint16 (len data)).

Lemma write_header {A} cmd resp vin e data (k : bytes -> outcome A) :
  len vin = VINLength ->
  (let! pkt := make (24 + len data + 1) in
   let! pkt := store pkt 0 StartMarker1 in
   let! pkt := store pkt 1 StartMarker2 in
   let! pkt := store pkt 2 cmd in
   let! pkt := store pkt 3 resp in
   let! pkt := copy_into pkt 4 21 vin in
   let! pkt := store pkt 21 e in
   let! pkt := copy_into pkt 22 24 (put16 (to_uint16 (len data))) in
   k pkt) = k (frame_start cmd resp vin e data ++ replicate (length data) 0 ++ [0]).
Proof.
  intros Hv. pose proof (len_nonneg data) as Hd. unfold VINLength in Hv.
  rewrite make_ok by lia. cbn [bind].
  assert (length vin = 17%nat) as Hlv by (unfold len in Hv; lia).
  assert (replicate (Z.to_nat (24 + len data + 1)) 0 =
          0 :: 0 :: 0 :: 0 :: replicate 17 0 ++ 0 :: replicate 2 0 ++
          replicate (length data) 0 ++ [0]) as ->.
  { replace (Z.to_nat (24 + len data + 1)) with (4 + (17 + (1 + (2 + (length data + 1)))))%nat
      by (unfold len; lia).
    by rewrite !replicate_add. }
  set (z := replicate 17 0 ++ 0 :: replicate 2 0 ++ replicate (length data) 0 ++ [0]).
  rewrite (store_cut _ [] 0 (0 :: 0 :: 0 :: z)) by done. cbn [bind app].
  rewrite (store_cut _ [StartMarker1] 0 (0 :: 0 :: z)) by done. cbn [bind app].
  rewrite (store_cut _ [StartMarker1; StartMarker2] 0 (0 :: z)) by done. cbn [bind app].
  rewrite (store_cut _ [StartMarker1; StartMarker2; cmd] 0 z) by done. cbn [bind app].
  set (h := [StartMarker1; StartMarker2; cmd; resp]). unfold z.
  rewrite (copy_into_cut _ h (replicate 17 0) (0 :: replicate 2 0 ++ replicate (length data) 0 ++ [0]))
    by (done || (rewrite length_replicate; lia)). cbn [bind].
  rewrite (store_cut _ (h ++ vin) 0 (replicate 2 0 ++ replicate (length data) 0 ++ [0]))
    by (rewrite <- ?app_assoc; done || (rewrite len_app, Hv; done)). cbn [bind].
  rewrite (copy_into_cut _ (h ++ vin ++ [e]) (replicate 2 0) (replicate (length data) 0 ++ [0]))
    by (rewrite <- ?app_assoc; done || (rewrite !len_app, Hv; done)). cbn [bind].
  f_equal. unfold frame_start. fold h. by rewrite <- !app_assoc.
Qed.

Lemma len_frame_start cmd resp vin e data :
  len vin = VINLength -> len (frame_start cmd resp vin e data) = 24.
Proof. intros Hv. unfold frame_start. by rewrite !len_app, Hv. Qed.

(** The data is copied behind it. *)
Lemma write_data cmd resp vin e data :
  len vin = VINLength ->
  copy_into (frame_start cmd resp vin e data ++ replicate (length data) 0 ++ [0]) 24 (24 + len data) data =
    Ok (frame_start cmd resp vin e data ++ data ++ [0]).
Proof.
  intros Hv. apply copy_into_app.
  - by rewrite len_frame_start.
  - unfold len. rewrite length_replicate. lia.
  - by rewrite length_replicate.
Qed.

Lemma EncodeResponse_frame cmd vin encType data :
  EncodeResponse cmd vin encType data =
    if len vin =? VINLength then
      Ok (frame cmd RespSuccess vin (if encType =? 0 then EncNone else encType) data)
    else Err ErrInvalidVIN.
Proof.
  unfold EncodeResponse. destruct (Z.eqb_spec (len vin) VINLength) as [Hv|]; [|done].
  cbn [negb]. set (e := if encType =? 0 then EncNone else encType). cbv zeta. unfold HeaderSize.
  rewrite (copy_same (replicate _ 0x20)) by (rewrite length_replicate; unfold len in Hv; lia).
  etrans; [by apply write_header|]. pose proof (len_nonneg data).
  destruct (Z.ltb_spec 0 (len data)) as [Hpos|Hpos].
  - rewrite write_data by done. cbn [bind]. by apply (encode_end _ _ _ _ _ (frame_start cmd RespSuccess vin e data)).
  - assert (data = []) as -> by (apply len_0_nil; lia). cbn [bind].
    by apply (encode_end _ _ _ _ _ (frame_start cmd RespSuccess vin e [])).
Qed.

Lemma len_packet_frame p : packet_wf p -> len (packet_frame p) = 25 + len (p_Data p).
Proof. intros (? & Hl & Hu & _). rewrite Hl in Hu. by apply len_frame. Qed.
