(* ===== verification/Stream.v ===== *)
(** * Packets out of a byte stream

    The theorems about [Feed], [Decode], [verifyBCC], [EncodeResponse] and
    [VerifyVIN], on top of the reference decoder of [FramingSpec]: soundness,
    round trip, independence of how the stream was cut into reads, the two cuts
    that break it, and what the BCC detects. *)
From S2P Require Import Prelude.
From S2P Require Import GoTime.
From S2P Require Import Constant.
From S2P Require Import Packet.
From S2P Require Import Framing.
From S2P Require Import FramingSpec.

(** ** Reading a stream *)

(** [Decode] until it returns no packet: the loop of [processPackets] without
    its handlers. *)
Fixpoint decodeAll (fuel : nat) (d : Decoder) : outcome (list Packet * Decoder) :=
  match fuel with
  | O => OutOfFuel
  | S fuel =>
      let! '(p, d) := Decode d in
      match p with
      | None => Ok ([], d)
      | Some p => let! '(ps, d) := decodeAll fuel d in Ok (p :: ps, d)
      end
  end.

(** One [Feed] and one loop per read; a packet is one byte or more. *)
Fixpoint receive (d : Decoder) (reads : list bytes) : outcome (list Packet * Decoder) :=
  match reads with
  | [] => Ok ([], d)
  | r :: reads =>
      let! d := Feed d r in
      let! '(ps, d) := decodeAll (S (length (unread d))) d in
      let! '(qs, d) := receive d reads in
      Ok (ps ++ qs, d)
  end.

(** A place inside a frame where a read may end: not behind the first byte and
    not before the last. *)
Definition safe_cut (s : bytes) : Prop :=
  s = [] \/
  exists p t, packet_wf p /\ s ++ t = packet_frame p /\ 2 <= len s /\ 2 <= len t.

(** [reads_of s ps reads]: behind the unread bytes [s], the reads hold exactly
    the frames of [ps], and every read ends at the end of a frame or at a
    [safe_cut]. *)
Inductive reads_of : bytes -> list Packet -> list bytes -> Prop :=
  | reads_end : reads_of [] [] []
  | reads_step s r ps s' qs reads :
      s ++ r = concat (packet_frame <$> ps) ++ s' ->
      safe_cut s' -> Forall packet_wf ps -> all_bytes r ->
      reads_of s' qs reads ->
      reads_of s (ps ++ qs) (r :: reads).

(** ** Lemmas *)

Lemma packet_frame_scan p rest :
  packet_wf p -> scan (packet_frame p ++ rest) = Ok (Some p, rest).
Proof.
  intros (Hv & Hl & Hu & _). unfold packet_frame. rewrite Hl in Hu.
  rewrite scan_frame by done. rewrite <- Hl. by destruct p.
Qed.

Lemma packet_frame_bytes p : packet_wf p -> all_bytes (packet_frame p).
Proof. intros (? & Hl & Hu & ? & ? & ? & ? & ?). rewrite Hl in Hu. by apply frame_bytes. Qed.

Lemma packet_prefix_scan p s t :
  packet_wf p -> s ++ t = packet_frame p -> 2 <= len s -> 1 <= len t ->
  scan s = if len t =? 1 then Panic else Ok (None, s).
Proof.
  intros Hwf Hst Hs Ht. pose proof (f_equal len Hst) as Hl. rewrite len_app in Hl.
  destruct Hwf as (Hv & Hlen & Hu & _). rewrite Hlen in Hu.
  erewrite (scan_prefix _ _ _ _ _ Hv Hu); [|exact Hst|fold (packet_frame p); lia].
  fold (packet_frame p).
  destruct (Z.eqb_spec (len s) (len (packet_frame p) - 1)), (Z.eqb_spec (len t) 1); done || lia.
Qed.

Lemma safe_cut_scan s : safe_cut s -> scan s = Ok (None, s).
Proof.
  intros [->|(p & t & Hwf & Hst & Hs & Ht)]; [done|].
  rewrite (packet_prefix_scan p s t) by (done || lia).
  by destruct (Z.eqb_spec (len t) 1); [lia|].
Qed.

(** [Decode], read off the reference decoder. *)
Lemma Decode_scan d p s :
  decoder_wf d -> scan (unread d) = Ok (p, s) ->
  exists d', Decode d = Ok (p, d') /\ unread d' = s /\ decoder_wf d' /\ same_config d d'.
Proof.
  intros Hwf Hs. pose proof (Decode_refines d Hwf) as Hr. unfold simulates in Hr.
  destruct (Decode d) as [[q d']| | |]; [|done|congruence|done].
  destruct Hr as (Hr & ? & ?). rewrite Hs in Hr. injection Hr as -> ->. by exists d'.
Qed.

(** A frame fed to a decoder with nothing unread is read back whole. *)
Lemma frame_read d P :
  decoder_wf d -> unread d = [] -> packet_wf P ->
  exists d1 d2, Feed d (packet_frame P) = Ok d1 /\ Decode d1 = Ok (Some P, d2) /\ unread d2 = [].
Proof.
  intros Hwf Hd HP. destruct (Feed_refines d (packet_frame P) Hwf (packet_frame_bytes P HP))
    as (d1 & HF & Hwf1 & _ & Hu1). rewrite Hd in Hu1. cbn [app] in Hu1.
  destruct (Decode_scan d1 (Some P) [] Hwf1) as (d2 & HD & Hu2 & _).
  { rewrite Hu1, <- (app_nil_r (packet_frame P)). by apply packet_frame_scan. }
  by exists d1, d2.
Qed.

Lemma Decode_panic d : decoder_wf d -> scan (unread d) = Panic -> Decode d = Panic.
Proof.
  intros Hwf Hs. pose proof (Decode_refines d Hwf) as Hr. unfold simulates in Hr.
  destruct (Decode d) as [[q d']| | |]; [|done..]. destruct Hr as (Hr & _). congruence.
Qed.

Lemma same_config_trans d1 d2 d3 : same_config d1 d2 -> same_config d2 d3 -> same_config d1 d3.
Proof. unfold same_config. intros [] []. split; congruence. Qed.

Lemma decodeAll_frames ps : forall fuel d s,
  decoder_wf d -> Forall packet_wf ps -> safe_cut s ->
  unread d = concat (packet_frame <$> ps) ++ s -> (length ps < fuel)%nat ->
  exists d', decodeAll fuel d = Ok (ps, d') /\ unread d' = s /\ decoder_wf d' /\ same_config d d'.
Proof.
  induction ps as [|p ps IH]; intros fuel d s Hwf Hps Hs Hu Hf;
    (destruct fuel as [|fuel]; [lia|]); cbn [decodeAll length] in *.
  - destruct (Decode_scan d None s Hwf) as (d' & -> & ? & ? & ?).
    { rewrite Hu. by apply safe_cut_scan. }
    by exists d'.
  - inversion_clear Hps as [|?? Hp Hps']. rewrite fmap_cons, concat_cons, <- app_assoc in Hu.
    destruct (Decode_scan d (Some p) (concat (packet_frame <$> ps) ++ s) Hwf)
      as (d1 & -> & Hu1 & Hwf1 & Hc1).
    { rewrite Hu. by apply packet_frame_scan. }
    cbn [bind]. destruct (IH fuel d1 s) as (d2 & -> & ? & ? & ?); [done..|lia|].
    exists d2. cbn. split_and!; try done. by eapply same_config_trans.
Qed.

Lemma concat_frames_length ps :
  Forall packet_wf ps -> (length ps <= length (concat (packet_frame <$> ps)))%nat.
Proof.
  induction 1 as [|p ps Hp Hps IH]; [done|]. rewrite fmap_cons, concat_cons, length_app.
  pose proof (len_packet_frame p Hp). pose proof (len_nonneg (p_Data p)). unfold len in *.
  cbn [length]. lia.
Qed.

Lemma receive_reads reads : forall s ps d,
  reads_of s ps reads -> decoder_wf d -> unread d = s ->
  exists d', receive d reads = Ok (ps, d') /\ unread d' = [] /\ decoder_wf d'.
Proof.
  induction reads as [|r reads IH]; intros s ps d Hr Hwf Hu.
  - inversion Hr; subst. by exists d.
  - inversion Hr as [|? ? ps' s' qs ? Heq Hs Hps Hb Hr']; subst. cbn [receive].
    destruct (Feed_refines d r Hwf Hb) as (d1 & -> & Hwf1 & _ & Hu1). cbn [bind].
    rewrite Hu1, Heq.
    destruct (decodeAll_frames ps' (S (length (concat (packet_frame <$> ps') ++ s'))) d1 s')
      as (d2 & -> & Hu2 & Hwf2 & _); [done|done|done|congruence|..].
    { pose proof (concat_frames_length ps' Hps). rewrite length_app. lia. }
    cbn [bind]. destruct (IH s' qs d2) as (d3 & -> & ? & ?); [done..|].
    exists d3. by cbn.
Qed.

(** One read for each frame. *)
Lemma reads_of_frames ps : Forall packet_wf ps -> reads_of [] ps (packet_frame <$> ps).
Proof.
  induction 1 as [|p ps Hp Hps IH]; [constructor|].
  apply (reads_step [] _ [p] [] ps); [by rewrite app_nil_r; cbn; rewrite app_nil_r | by left | by constructor
    | by apply packet_frame_bytes | done].
Qed.

Lemma reads_of_wf s ps reads : reads_of s ps reads -> Forall packet_wf ps.
Proof. induction 1; [constructor | by apply Forall_app_2]. Qed.

(** The reads are the frames, cut elsewhere. *)
Lemma reads_of_concat s ps reads :
  reads_of s ps reads -> s ++ concat reads = concat (packet_frame <$> ps).
Proof.
  induction 1 as [|s r ps s' qs reads Hs _ _ _ _ IH]; [done|].
  cbn [concat]. by rewrite app_assoc, Hs, <- app_assoc, IH, fmap_app, concat_app.
Qed.

Lemma NewDecoder_wf : decoder_wf NewDecoder.
Proof. repeat split; cbn; try lia. constructor. Qed.

(** ** Runes *)

Lemma land_ones_mod x m k : m = Z.ones k -> 0 <= k -> Z.land x m = x mod 2 ^ k.
Proof. intros -> ?. by apply Z.land_ones. Qed.

(** One step of assembling a rune from continuation bytes. *)
Lemma rune_step x b1 : Z.lor (Z.land b1 0x3F) (Z.shiftl x 6) = b1 mod 64 + x * 64.
Proof.
  rewrite (land_ones_mod b1 63 6) by done. rewrite lor_shiftl; [done|lia|].
  apply Z.mod_pos_bound. lia.
Qed.

Lemma decodeRune_ascii b s : b < 128 -> decodeRune b s = (b, 1%nat).
Proof. intros. unfold decodeRune. by destruct (Z.ltb_spec b 128); [|lia]. Qed.

Lemma in_range_spec x lo hi : in_range x lo hi = true <-> lo <= x <= hi.
Proof. unfold in_range. rewrite andb_true_iff, !Z.leb_le. lia. Qed.

(** A rune that does not start with an ASCII byte is not ASCII. *)
Lemma decodeRune_high b s : 128 <= b -> 128 <= (decodeRune b s).1.
Proof.
  intros Hb. unfold decodeRune. destruct (Z.ltb_spec b 128); [lia|].
  destruct (in_range b 0xC2 0xDF) eqn:E2; [|destruct (in_range b 0xE0 0xEF) eqn:E3;
    [|destruct (in_range b 0xF0 0xF4) eqn:E4; [|done]]];
    rewrite ?in_range_spec in *.
  - destruct s as [|b1 s]; [done|]. destruct (in_range b1 _ _); [|done]. cbn [fst].
    rewrite rune_step, (land_ones_mod b 31 5) by done. change (2 ^ 5) with 32. zdm. lia.
  - destruct s as [|b1 [|b2 s]]; [done..|].
    destruct (in_range b1 _ _ && _) eqn:E; [|done]. cbn [fst].
    apply andb_true_iff in E as [E _]. apply in_range_spec in E.
    rewrite !rune_step, (land_ones_mod b 15 4) by done. change (2 ^ 4) with 16.
    destruct (Z.eqb_spec b 0xE0), (Z.eqb_spec b 0xED); zdm; lia.
  - destruct s as [|b1 [|b2 [|b3 s]]]; [done..|].
    destruct (in_range b1 _ _ && _ && _) eqn:E; [|done]. cbn [fst].
    apply andb_true_iff in E as [[E _]%andb_true_iff _]. apply in_range_spec in E.
    rewrite !rune_step, (land_ones_mod b 7 3) by done. change (2 ^ 3) with 8.
    destruct (Z.eqb_spec b 0xF0), (Z.eqb_spec b 0xF4); zdm; lia.
Qed.

Lemma alnum_ascii c : alnum c = true -> 48 <= c <= 122.
Proof. unfold alnum. rewrite !orb_true_iff, !in_range_spec. lia. Qed.

Lemma alnumRunes_spec s : forall n, (length s <= n)%nat -> alnumRunes n s = forallb alnum s.
Proof.
  induction s as [|b s IH]; intros n Hn; (destruct n as [|n]; [try done; cbn in Hn; lia|]);
    [done|]. cbn [alnumRunes forallb length] in *.
  destruct (Z.lt_ge_cases b 128) as [Hb|Hb].
  - rewrite decodeRune_ascii by done. destruct (alnum b); [|done]. cbn.
    rewrite drop_0. apply IH. lia.
  - pose proof (decodeRune_high b s Hb) as Hr. destruct (decodeRune b s) as [c w]. cbn in Hr.
    assert (alnum c = false) as ->
      by (destruct (alnum c) eqn:E; [apply alnum_ascii in E; lia|done]).
    by destruct (alnum b) eqn:E; [apply alnum_ascii in E; lia|].
Qed.

(** ** Properties *)

(** C1: [Decode] refines the reference decoder [scan] on the unread bytes: on
    any buffer it terminates, returns the same packet and leaves the same
    bytes unread, and it panics exactly where [scan] meets a frame that is
    complete but for its BCC. *)
Theorem decode_refines d (Hwf : decoder_wf d) :
  match Decode d with
  | Ok (p, d') => scan (unread d) = Ok (p, unread d') /\ decoder_wf d' /\ same_config d d'
  | Panic => scan (unread d) = Panic
  | Err _ | OutOfFuel => False
  end.
Proof. exact (Decode_refines d Hwf). Qed.

Lemma decode_refines_witness :
  decoder_wf (mkDecoder (Some [1; 35; 35; 7]) 1 4 TimeCodecBCD false) /\
  scan [35; 35; 7] = Ok (None, [35; 35; 7]).
Proof.
  set (d := mkDecoder _ _ _ _ _).
  assert (decoder_wf d) as Hwf.
  { split; [cbn; lia|]. split; [done|check_bytes]. }
  split; [exact Hwf|]. pose proof (decode_refines d Hwf) as Hr. apply Hr.
Defined.

(** Soundness: a packet [Decode] returns is a window of the buffer.  What
    was unread is some skipped bytes, the frame of the packet (markers, header,
    [Length] bytes of data, BCC over command to data) and what is left. *)
Theorem decode_sound d p d' (Hwf : decoder_wf d) (Hd : Decode d = Ok (Some p, d')) :
  exists skipped, unread d = skipped ++ packet_frame p ++ unread d' /\ packet_wf p.
Proof.
  pose proof (Decode_refines d Hwf) as Hr. rewrite Hd in Hr. cbn in Hr.
  destruct Hr as (Hr & _). apply scan_sound; [|done].
  destruct Hwf as (_ & _ & Hb). by apply Forall_drop.
Qed.

(** A heartbeat of vehicle [AAAAAAAAAAAAAAAAA] with one data byte. *)
Definition sample_vin : gostring := replicate 17 65.
Definition sample_packet : Packet := mkPacket CmdHeartbeat ReqRequest sample_vin EncNone [9] 1.

Lemma sample_packet_wf : packet_wf sample_packet.
Proof. unfold packet_wf, is_uint16, is_byte. cbn. split_and!; try lia; try done; check_bytes. Qed.

Lemma decode_sound_witness :
  exists d', Decode (mkDecoder (Some (7 :: packet_frame sample_packet)) 0 27 TimeCodecBCD false)
             = Ok (Some sample_packet, d') /\
  exists skipped, 7 :: packet_frame sample_packet = skipped ++ packet_frame sample_packet ++ unread d'.
Proof.
  set (d := mkDecoder _ _ _ _ _).
  assert (decoder_wf d) as Hwf.
  { split; [cbn; lia|]. split; [done|check_bytes]. }
  eexists. split; [vm_compute; reflexivity|].
  destruct (decode_sound d sample_packet _ Hwf ltac:(vm_compute; reflexivity)) as (sk & Hs & _).
  exists sk. exact Hs.
Defined.

(** C7: Round trip: what [EncodeResponse] writes, fed to any decoder that has
    nothing unread, decodes to the command, VIN, encryption type and data that
    were encoded, with the response flag 0xFE, and nothing is left. *)
Theorem encode_decode_roundtrip d cmd vin encType data f
    (Hwf : decoder_wf d) (Hd : unread d = [])
    (Hcmd : is_byte cmd) (Hvin : all_bytes vin) (Henc : is_byte encType)
    (Hdata : all_bytes data) (Hlen : len data < 65536)
    (Hf : EncodeResponse cmd vin encType data = Ok f) :
  exists d1 d2,
    Feed d f = Ok d1 /\
    Decode d1 = Ok (Some (mkPacket cmd RespSuccess vin
                            (if encType =? 0 then EncNone else encType) data (len data)), d2) /\
    unread d2 = [].
Proof.
  rewrite EncodeResponse_frame in Hf. destruct (Z.eqb_spec (len vin) VINLength) as [Hv|]; [|done].
  apply Ok_inj in Hf as <-. set (e := if encType =? 0 then _ else _).
  set (p := mkPacket cmd RespSuccess vin e data (len data)).
  assert (packet_wf p) as Hp.
  { unfold packet_wf, p, RespSuccess, EncNone, is_byte, is_uint16 in *. cbn. unfold e.
    pose proof (len_nonneg data). split_and!; try done; try lia;
    destruct (encType =? 0); unfold EncNone; lia. }
  by apply (frame_read d p).
Qed.

Lemma encode_decode_roundtrip_witness :
  exists f d1 d2, EncodeResponse CmdLogin sample_vin 0 [1; 2; 3] = Ok f /\
    Feed NewDecoder f = Ok d1 /\
    Decode d1 = Ok (Some (mkPacket CmdLogin RespSuccess sample_vin EncNone [1; 2; 3] 3), d2) /\
    unread d2 = [].
Proof.
  eexists. destruct (encode_decode_roundtrip NewDecoder CmdLogin sample_vin 0 [1; 2; 3] _
    NewDecoder_wf eq_refl ltac:(unfold is_byte, CmdLogin; lia)
    ltac:(check_bytes) ltac:(unfold is_byte; lia) ltac:(check_bytes)
    ltac:(done) ltac:(vm_compute; reflexivity)) as (d1 & d2 & H1 & H2 & H3).
  exists d1, d2. split; [vm_compute; reflexivity|]. exact (conj H1 (conj H2 H3)).
Defined.

(** [EncodeResponse] refuses a VIN that is not 17 bytes, and otherwise
    writes exactly the reference frame: the index-by-index construction over a
    zeroed buffer, BCC last, is the layout of the protocol. *)
Theorem encode_response_layout cmd vin encType data :
  EncodeResponse cmd vin encType data =
    if len vin =? VINLength then
      Ok (frame cmd RespSuccess vin (if encType =? 0 then EncNone else encType) data)
    else Err ErrInvalidVIN.
Proof. apply EncodeResponse_frame. Qed.

(** The length field is 16 bits and [EncodeResponse] does not check: the
    frame it writes always holds the whole body but announces its length modulo
    65536, which is the length exactly for bodies below 65536 bytes. *)
Theorem encode_length_field cmd vin encType data :
  match EncodeResponse cmd vin encType data with
  | Ok f =>
      len f = 25 + len data /\ read16 f 22 = Ok (len data mod 65536) /\
      (read16 f 22 = Ok (len data) <-> len data < 65536)
  | Err e => e = ErrInvalidVIN /\ len vin <> VINLength
  | Panic | OutOfFuel => False
  end.
Proof.
  rewrite EncodeResponse_frame. destruct (Z.eqb_spec (len vin) VINLength) as [Hv|]; [|done].
  set (e := if encType =? 0 then _ else _).
  pose proof (len_nonneg data) as Hn.
  assert (read16 (frame cmd RespSuccess vin e data) 22 = Ok (len data mod 65536)) as Hr.
  { apply (read16_put _ _ _ (data ++ [calculateBCC (frame_body cmd RespSuccess vin e data)])).
    - exists ([StartMarker1; StartMarker2; cmd; RespSuccess] ++ vin ++ [e]). split.
      + unfold frame, frame_body. cbn [app]. by rewrite <- !app_assoc.
      + rewrite !len_app, Hv. done.
    - apply Z.mod_pos_bound. lia. }
  split; [|split; [exact Hr|]].
  - unfold frame, frame_body. autorewrite with go_len. rewrite Hv. unfold VINLength. lia.
  - rewrite Hr. split; intros H.
    + apply Ok_inj in H. rewrite <- H. apply Z.mod_pos_bound. lia.
    + by rewrite Z.mod_small by lia.
Qed.

(** C8: Independence of how the stream is cut: if every read ends at the end of
    a frame or inside one, at least two bytes in and two bytes before its end,
    the decoder delivers exactly the packets that were sent, in order, and
    keeps nothing back. *)
Theorem stream_reads reads ps d
    (Hwf : decoder_wf d) (Hd : unread d = []) (Hr : reads_of [] ps reads) :
  exists d', receive d reads = Ok (ps, d') /\ unread d' = [].
Proof. destruct (receive_reads reads [] ps d Hr Hwf Hd) as (d' & ? & ? & _). by exists d'. Qed.

Lemma stream_reads_witness :
  let f := packet_frame sample_packet in
  exists d', receive NewDecoder [f ++ take 10 f; drop 10 f] =
               Ok ([sample_packet; sample_packet], d') /\ unread d' = [].
Proof.
  cbv zeta. set (f := packet_frame sample_packet).
  apply (stream_reads [f ++ take 10 f; drop 10 f] [sample_packet; sample_packet]
           NewDecoder NewDecoder_wf eq_refl).
  apply (reads_step [] _ [sample_packet] (take 10 f) [sample_packet]).
  - vm_compute. reflexivity.
  - right. exists sample_packet, (drop 10 f). split; [apply sample_packet_wf|].
    vm_compute. split; [reflexivity|split; discriminate].
  - constructor; [apply sample_packet_wf | constructor].
  - check_bytes.
  - apply (reads_step _ _ [sample_packet] [] []).
    + vm_compute. reflexivity.
    + by left.
    + constructor; [apply sample_packet_wf | constructor].
    + check_bytes.
    + constructor.
Defined.

(** A read that ends right before the BCC of a frame makes [Decode] panic,
    whatever the frame: the length check leaves out the checksum byte, which is
    then read past the end of the buffer. *)
Theorem decode_panics_before_bcc d p d1
    (Hwf : decoder_wf d) (Hd : unread d = []) (Hp : packet_wf p)
    (Hf : Feed d (take (length (packet_frame p) - 1) (packet_frame p)) = Ok d1) :
  Decode d1 = Panic.
Proof.
  set (f := packet_frame p) in *. set (k := (length f - 1)%nat) in *.
  pose proof (len_packet_frame p Hp) as Hl. fold f in Hl.
  pose proof (len_nonneg (p_Data p)) as Hn.
  destruct (Feed_refines d (take k f) Hwf) as (d1' & HF & Hwf1 & _ & Hu).
  { apply Forall_take. by apply packet_frame_bytes. }
  rewrite Hf in HF. apply Ok_inj in HF as <-. rewrite Hd in Hu. cbn [app] in Hu.
  apply Decode_panic; [done|]. rewrite Hu.
  rewrite (packet_prefix_scan p (take k f) (drop k f)).
  - assert (len (drop k f) = 1) as -> by (unfold len, k in *; rewrite length_drop; lia). done.
  - done.
  - by rewrite take_drop.
  - unfold len, k in *. rewrite length_take. lia.
  - unfold len, k in *. rewrite length_drop. lia.
Qed.

Lemma decode_panics_before_bcc_witness :
  exists d1, Feed NewDecoder (take 25 (packet_frame sample_packet)) = Ok d1 /\ Decode d1 = Panic.
Proof.
  eexists. split; [vm_compute; reflexivity|].
  refine (decode_panics_before_bcc NewDecoder sample_packet _ NewDecoder_wf eq_refl
            sample_packet_wf _).
  vm_compute. reflexivity.
Defined.

(** A read that ends behind the first byte of a frame loses the frame: the
    lone 0x23 is discarded by the [Reset] of [Decode], and the rest, which no
    longer starts with a marker, is discarded too (here for a frame with no
    other 0x23). *)
Theorem decode_loses_split_marker d p b f
    (Hwf : decoder_wf d) (Hd : unread d = []) (Hp : packet_wf p)
    (Hf : packet_frame p = StartMarker1 :: b :: f)
    (Hno : Forall (fun x => x <> StartMarker1) f) :
  exists d1 d2 d3 d4,
    Feed d [StartMarker1] = Ok d1 /\ Decode d1 = Ok (None, d2) /\ unread d2 = [] /\
    Feed d2 (b :: f) = Ok d3 /\ Decode d3 = Ok (None, d4) /\ unread d4 = [].
Proof.
  pose proof (packet_frame_bytes p Hp) as Hb. rewrite Hf in Hb.
  apply Forall_cons_1 in Hb as [Hb1 Hb2].
  destruct (Feed_refines d [StartMarker1] Hwf) as (d1 & H1 & Hwf1 & _ & Hu1); [by constructor|].
  rewrite Hd in Hu1. cbn [app] in Hu1.
  destruct (Decode_scan d1 None [] Hwf1) as (d2 & H2 & Hu2 & Hwf2 & _); [by rewrite Hu1|].
  destruct (Feed_refines d2 (b :: f) Hwf2 Hb2) as (d3 & H3 & Hwf3 & _ & Hu3).
  rewrite Hu2 in Hu3. cbn [app] in Hu3.
  destruct (Decode_scan d3 None [] Hwf3) as (d4 & H4 & Hu4 & _).
  { rewrite Hu3. destruct f as [|c f]; [done|]. inversion_clear Hno as [|?? Hc Hf'].
    assert (scan (b :: c :: f) = scan (c :: f)) as ->.
    { cbn [scan]. unfold is_marker, StartMarker1, StartMarker2 in *.
      destruct (Z.eqb_spec c 0x23); [lia|]. by rewrite andb_false_r. }
    rewrite <- (app_nil_r (c :: f)). rewrite scan_skip; [done|by constructor]. }
  by exists d1, d2, d3, d4.
Qed.

Lemma decode_loses_split_marker_witness :
  exists d1 d2 d3 d4 f, packet_frame sample_packet = StartMarker1 :: StartMarker2 :: f /\
    Feed NewDecoder [StartMarker1] = Ok d1 /\ Decode d1 = Ok (None, d2) /\ unread d2 = [] /\
    Feed d2 (StartMarker2 :: f) = Ok d3 /\ Decode d3 = Ok (None, d4) /\ unread d4 = [].
Proof.
  destruct (decode_loses_split_marker NewDecoder sample_packet StartMarker2
    (drop 2 (packet_frame sample_packet)) NewDecoder_wf eq_refl sample_packet_wf eq_refl)
    as (d1 & d2 & d3 & d4 & H).
  - vm_compute. repeat constructor; discriminate.
  - exists d1, d2, d3, d4, (drop 2 (packet_frame sample_packet)). split; [reflexivity|exact H].
Defined.

(** A decoder with the option [WithBCCIncludeStart] set to [b]. *)
Definition with_bccIncludeStart (b : bool) (d : Decoder) : Decoder :=
  mkDecoder (d_buf d) (d_pos d) (d_limit d) (d_timeCodec d) b.

(** The compatibility mode [bccIncludeStart] changes nothing: the start
    markers 0x23 0x23 cancel in an exclusive or, so that [Decode] returns the
    same packet and leaves the same bytes unread with the mode on or off. *)
Theorem bcc_include_start_noop d (Hwf : decoder_wf d) :
  match Decode (with_bccIncludeStart true d), Decode (with_bccIncludeStart false d) with
  | Ok (p, d1), Ok (q, d2) => p = q /\ unread d1 = unread d2
  | Panic, Panic => True
  | _, _ => False
  end.
Proof.
  assert (forall b, decoder_wf (with_bccIncludeStart b d)) as Hb by done.
  pose proof (Decode_refines _ (Hb true)) as Ht. pose proof (Decode_refines _ (Hb false)) as Hf.
  change (unread (with_bccIncludeStart ?b d)) with (unread d) in *. unfold simulates in *.
  destruct (Decode (with_bccIncludeStart true d)) as [[p d1]| | |],
    (Decode (with_bccIncludeStart false d)) as [[q d2]| | |]; try done;
    try (destruct Ht as (Ht & _)); try (destruct Hf as (Hf & _)); [|congruence..].
  rewrite Ht in Hf. by injection Hf.
Qed.

Lemma bcc_include_start_noop_witness :
  exists d1 d2,
    Decode (mkDecoder (Some (packet_frame sample_packet)) 0 26 TimeCodecBCD true)
      = Ok (Some sample_packet, d1) /\
    Decode (mkDecoder (Some (packet_frame sample_packet)) 0 26 TimeCodecBCD false)
      = Ok (Some sample_packet, d2) /\ unread d1 = unread d2.
Proof.
  set (d := mkDecoder (Some (packet_frame sample_packet)) 0 26 TimeCodecBCD false).
  assert (decoder_wf d) as Hwf by (split; [cbn; lia|]; split; [done|check_bytes]).
  do 2 eexists. split; [vm_compute; reflexivity|]. split; [vm_compute; reflexivity|].
  exact (proj2 (bcc_include_start_noop d Hwf)).
Defined.

(** C38: The BCC detects every error in a single byte: a header (markers first)
    and a body that [verifyBCC] accepts with [bcc] are rejected when one byte
    behind the markers, one byte of the body or the BCC itself is another. *)
Theorem bcc_detects_single_byte d h data bcc
    (Hok : verifyBCC d (StartMarker1 :: StartMarker2 :: h) data bcc = Ok true) :
  (forall h1 x h2 y, h = h1 ++ x :: h2 -> x <> y ->
     verifyBCC d (StartMarker1 :: StartMarker2 :: h1 ++ y :: h2) data bcc = Ok false) /\
  (forall d1 x d2 y, data = d1 ++ x :: d2 -> x <> y ->
     verifyBCC d (StartMarker1 :: StartMarker2 :: h) (d1 ++ y :: d2) bcc = Ok false) /\
  (forall bcc', bcc' <> bcc ->
     verifyBCC d (StartMarker1 :: StartMarker2 :: h) data bcc' = Ok false).
Proof.
  rewrite verifyBCC_spec in Hok. apply Ok_inj, Z.eqb_eq in Hok. split_and!.
  - intros h1 x h2 y -> Hn. rewrite verifyBCC_spec. f_equal. apply Z.eqb_neq.
    rewrite <- Hok, <- !app_assoc. by apply BCC_replace_ne.
  - intros d1 x d2 y -> Hn. rewrite verifyBCC_spec. f_equal. apply Z.eqb_neq.
    rewrite <- Hok, !app_assoc. by apply BCC_replace_ne.
  - intros bcc' Hn. rewrite verifyBCC_spec. f_equal. apply Z.eqb_neq. congruence.
Qed.

Lemma bcc_detects_single_byte_witness :
  verifyBCC NewDecoder [35; 35; 7; 1] [9] 15 = Ok true /\
  verifyBCC NewDecoder [35; 35; 7; 1] [8] 15 = Ok false.
Proof.
  assert (verifyBCC NewDecoder [35; 35; 7; 1] [9] 15 = Ok true) as H by reflexivity.
  split; [exact H|].
  exact (proj1 (proj2 (bcc_detects_single_byte NewDecoder [7; 1] [9] 15 H)) [] 9 [] 8
           eq_refl ltac:(discriminate)).
Defined.

(** One byte too early, the encryption type is the high byte of the length. *)
Lemma parse_frame_shifted c r v e hi u :
  len v = VINLength -> is_byte hi -> 1 <= e -> len u <= 255 ->
  parse_frame (StartMarker1 :: StartMarker2 :: StartMarker2 :: c :: r :: v ++ e :: hi :: u) = NeedMore.
Proof.
  intros Hv Hhi He Hu. unfold VINLength, len in Hv. assert (length v = 17%nat) as Hl by lia. clear Hv.
  do 17 (destruct v as [|? v]; [discriminate Hl|]). destruct v; [|discriminate Hl].
  unfold parse_frame. set (l := _ :: _ :: _ :: _).
  assert (len l = 24 + len u) as Hll by (unfold l, len; cbn [app length]; lia).
  change (nth 22 l 0) with e. change (nth 23 l 0) with hi. rewrite Hll.
  destruct (Z.ltb_spec (24 + len u) HeaderSize); [done|].
  rewrite be16_eq by done. unfold HeaderSize, is_byte in *.
  by destruct (Z.ltb_spec (24 + len u - 24) (e * 256 + hi)); [|lia].
Qed.

(** A stray 0x23 in front of a frame is taken for the first start marker:
    the header is read one byte early, the encryption type becomes the high
    byte of the length, and [Decode] returns nothing and waits, with the whole
    frame in its buffer (here for bodies of up to 253 bytes). *)
Theorem stray_marker_stalls d p
    (Hwf : decoder_wf d) (Hd : unread d = []) (Hp : packet_wf p)
    (He : 1 <= p_EncryptType p) (Hl : len (p_Data p) <= 253) :
  exists d1 d2, Feed d (StartMarker1 :: packet_frame p) = Ok d1 /\
    Decode d1 = Ok (None, d2) /\ unread d2 = StartMarker1 :: packet_frame p.
Proof.
  pose proof (packet_frame_bytes p Hp) as Hb.
  destruct (Feed_refines d (StartMarker1 :: packet_frame p) Hwf) as (d1 & HF & Hwf1 & _ & Hu).
  { apply Forall_cons_2; [unfold is_byte, StartMarker1; lia|done]. }
  rewrite Hd in Hu. cbn [app] in Hu.
  destruct (Decode_scan d1 None (StartMarker1 :: packet_frame p) Hwf1) as (d2 & HD & Hu2 & _);
    [|by exists d1, d2].
  rewrite Hu. unfold packet_frame, frame, frame_body, put16. cbn [app].
  change StartMarker2 with StartMarker1 at 1. rewrite <- !app_assoc. cbn [app].
  rewrite (scan_marker (StartMarker2 :: _)). rewrite parse_frame_shifted; [done|apply Hp|..].
  - apply is_byte_to_byte.
  - done.
  - rewrite len_cons, len_app, len_cons, len_nil. lia.
Qed.

Lemma stray_marker_stalls_witness :
  exists d1 d2, Feed NewDecoder (StartMarker1 :: packet_frame sample_packet) = Ok d1 /\
    Decode d1 = Ok (None, d2) /\ unread d2 = StartMarker1 :: packet_frame sample_packet.
Proof.
  apply (stray_marker_stalls NewDecoder sample_packet NewDecoder_wf eq_refl sample_packet_wf);
    vm_compute; discriminate.
Defined.

(** [VerifyVIN] accepts exactly the strings of 17 bytes that are ASCII
    letters and digits: ranging over runes, ill-formed UTF-8 included, never
    lets another byte through. *)
Theorem verify_vin_spec vin :
  VerifyVIN vin = (len vin =? VINLength) && forallb alnum vin.
Proof.
  unfold VerifyVIN. destruct (len vin =? VINLength); [|done]. cbn. by apply alnumRunes_spec.
Qed.
