(* ===== verification/Payload.v ===== *)
(** * Message bodies ([decoder.go], and the senders of [conn.go])

    The decoders of login, logout, platform and parameter messages and the
    bodies the connection sends.  A decoder method reads only the time codec of
    its receiver; the package-level functions use [defaultDecoder]. *)
From S2P Require Import Prelude.
From S2P Require Import GoTime.
From S2P Require Import Constant.
From S2P Require Import Packet.
From S2P Require Import Framing.

(** ** Vehicle login and logout *)

(** The loop over configuration fields, [n] iterations before [i] reaches the
    count; a field that exceeds the body ends it. *)
Fixpoint decodeConfig (n : nat) (data : bytes) (pos : int) (configData : list ConfigField)
  : outcome (list ConfigField) :=
  match n with
  | O => Ok configData
  | S n =>
      if len data <? pos + 2 then Ok configData else
      let! ID := index data pos in
      let! Length := index data (pos + 1) in
      let pos := pos + 2 in
      if len data <? pos + Length then Ok configData else
      let! Value := slice data pos (pos + Length) in
      let pos := pos + Length in
      decodeConfig n data pos (configData ++ [mkConfigField ID Length Value])
  end.

Definition Decoder_DecodeLoginData (d : Decoder) (data : bytes) : outcome VehicleLoginData :=
  if len data <? 9 then Err (Errorf "login data too short: %d bytes" [len data]) else
  let pos := 0 in
  let! b := slice data pos (pos + 6) in
  let! loginTime := decodeTime6 (d_timeCodec d) b in
  let pos := pos + 6 in
  let! seq := read16 data pos in
  let pos := pos + 2 in
  let! iccidLen := index data pos in
  let pos := pos + 1 in
  if len data <? pos + iccidLen then
    Err (Errorf "ICCID length exceeds data: %d > %d" [pos + iccidLen; len data])
  else
  let! iccid := slice data pos (pos + iccidLen) in
  let pos := pos + iccidLen in
  let! '(configCnt, configData) :=
    (if pos <? len data then
       let! configCnt := index data pos in
       let pos := pos + 1 in
       let! configData := decodeConfig (Z.to_nat configCnt) data pos [] in
       Ok (configCnt, configData)
     else Ok (0, [])) in
  Ok (mkVehicleLoginData loginTime seq iccid configCnt configData).

Definition DecodeLoginData (data : bytes) : outcome VehicleLoginData :=
  Decoder_DecodeLoginData defaultDecoder data.

Definition EncodeLoginResponse (data : LoginResponse) : bytes :=
  let pkt := encodeTime6 (lr_LoginTime data) in
  let pkt := pkt ++ put16 (lr_Sequence data) in
  let pkt := pkt ++ [lr_Result data] in
  pkt ++ lr_Token data.

Definition Decoder_DecodeLogoutData (d : Decoder) (data : bytes) : outcome VehicleLogoutData :=
  if len data <? 8 then Err (Errorf "logout data too short: %d bytes" [len data]) else
  let! b := slice data 0 6 in
  let! LogoutTime := decodeTime6 (d_timeCodec d) b in
  let! Sequence := read16 data 6 in
  Ok (mkVehicleLogoutData LogoutTime Sequence).

Definition DecodeLogoutData (data : bytes) : outcome VehicleLogoutData :=
  Decoder_DecodeLogoutData defaultDecoder data.

(** ** Platform login and logout *)

Definition EncodeParamString (s : gostring) : outcome bytes :=
  let! out := make (1 + len s) in
  let! out := store out 0 (to_byte (len s)) in
  copy_into out 1 (len out) s.

Definition decodeParamString (data : bytes) : outcome (gostring * int) :=
  if len data <? 1 then Ok ([], 0) else
  let! length := index data 0 in
  if len data <? 1 + length then Ok ([], 0) else
  let! s := slice data 1 (1 + length) in
  Ok (s, 1 + length).

Definition Decoder_DecodePlatLoginResponse (d : Decoder) (data : bytes) : outcome PlatformLoginData :=
  if len data <? 8 then Err (Errorf "platform login data too short: %d bytes" [len data]) else
  let pos := 0 in
  let! b := slice data pos (pos + 6) in
  let! loginTime := decodeTime6 (d_timeCodec d) b in
  let pos := pos + 6 in
  let! seq := read16 data pos in
  let pos := pos + 2 in
  let! rest := slice data pos (len data) in
  let! '(username, n) := decodeParamString rest in
  let pos := pos + n in
  let! rest := slice data pos (len data) in
  let! '(password, _) := decodeParamString rest in
  Ok (mkPlatformLoginData loginTime seq username password).

Definition DecodePlatLoginResponse (data : bytes) : outcome PlatformLoginData :=
  Decoder_DecodePlatLoginResponse defaultDecoder data.

Definition Decoder_DecodePlatLogoutResponse (d : Decoder) (data : bytes) : outcome PlatformLogoutData :=
  if len data <? 8 then Err (Errorf "platform logout data too short: %d bytes" [len data]) else
  let! b := slice data 0 6 in
  let! LogoutTime := decodeTime6 (d_timeCodec d) b in
  let! Sequence := read16 data 6 in
  Ok (mkPlatformLogoutData LogoutTime Sequence).

Definition DecodePlatLogoutResponse (data : bytes) : outcome PlatformLogoutData :=
  Decoder_DecodePlatLogoutResponse defaultDecoder data.

(** The body of [SendPlatLogin]; the sequence number is two zero bytes. *)
Definition platLoginBody (loginTime : Time) (username password : gostring) : outcome bytes :=
  let data := encodeTime6 loginTime in
  let data := data ++ [0; 0] in
  let! u := EncodeParamString username in
  let data := data ++ u in
  let! p := EncodeParamString password in
  Ok (data ++ p).

(** The body of [SendPlatLogout]. *)
Definition platLogoutBody (logoutTime : Time) : bytes := encodeTime6 logoutTime ++ [0; 0].

(** ** Parameters *)

Fixpoint decodeParamIDs (n : nat) (data : bytes) (pos : int) (ids : list uint32)
  : outcome (list uint32) :=
  match n with
  | O => Ok ids
  | S n =>
      if len data <? pos + 4 then Ok ids else
      let! id := read32 data pos in
      decodeParamIDs n data (pos + 4) (ids ++ [id])
  end.

Definition Decoder_DecodeParamQueryData (d : Decoder) (data : bytes) : outcome ParamQueryData :=
  if len data <? 7 then Err (Errorf "param query data too short: %d bytes" [len data]) else
  let pos := 0 in
  let! b := slice data pos (pos + 6) in
  let! queryTime := decodeTime6 (d_timeCodec d) b in
  let pos := pos + 6 in
  let! count := index data pos in
  let pos := pos + 1 in
  let! ids := decodeParamIDs (Z.to_nat count) data pos [] in
  Ok (mkParamQueryData queryTime count ids).

Definition DecodeParamQueryData (data : bytes) : outcome ParamQueryData :=
  Decoder_DecodeParamQueryData defaultDecoder data.

Fixpoint decodeParams (n : nat) (data : bytes) (pos : int) (params : list ParamItem)
  : outcome (list ParamItem) :=
  match n with
  | O => Ok params
  | S n =>
      if len data <? pos + 5 then Ok params else
      let! id := read32 data pos in
      let pos := pos + 4 in
      let! valLen := index data pos in
      let pos := pos + 1 in
      if len data <? pos + valLen then Ok params else
      let! value := slice data pos (pos + valLen) in
      decodeParams n data (pos + valLen) (params ++ [mkParamItem id value])
  end.

Definition Decoder_DecodeParamSettingData (d : Decoder) (data : bytes) : outcome ParamSettingData :=
  if len data <? 7 then Err (Errorf "param setting data too short: %d bytes" [len data]) else
  let pos := 0 in
  let! b := slice data pos (pos + 6) in
  let! settingTime := decodeTime6 (d_timeCodec d) b in
  let pos := pos + 6 in
  let! count := index data pos in
  let pos := pos + 1 in
  let! params := decodeParams (Z.to_nat count) data pos [] in
  Ok (mkParamSettingData settingTime count params).

Definition DecodeParamSettingData (data : bytes) : outcome ParamSettingData :=
  Decoder_DecodeParamSettingData defaultDecoder data.

(** The body of [SendParamQuery], at the time [now]. *)
Definition paramQueryBody (now : Time) (paramIDs : list uint32) : bytes :=
  fold_left (fun data id => data ++ put32 id) paramIDs
    (encodeTime6 now ++ [to_byte (len paramIDs)]).

(** One [ParamItem] as [SendParamSetting] and [sendParamQueryResponse] append it. *)
Definition appendParam (data : bytes) (p : ParamItem) : bytes :=
  let data := data ++ put32 (pi_ID p) in
  let data := data ++ [to_byte (len (pi_Value p))] in
  data ++ pi_Value p.

(** The body of [SendParamSetting]. *)
Definition paramSettingBody (now : Time) (params : list ParamItem) : bytes :=
  fold_left appendParam params (encodeTime6 now ++ [to_byte (len params)]).

(** The body of [sendParamQueryResponse]. *)
Definition paramQueryRespBody (resp : ParamQueryResponse) : bytes :=
  fold_left appendParam (pr_Params resp) [pr_Count resp].

(** ** Reference layouts *)

Definition enc_config (c : ConfigField) : bytes := cf_ID c :: cf_Length c :: cf_Value c.
Definition fits_config (c : ConfigField) : Prop :=
  is_byte (cf_ID c) /\ is_byte (cf_Length c) /\ cf_Length c = len (cf_Value c) /\
  all_bytes (cf_Value c).

Definition enc_login (t : Time) (seq : uint16) (iccid : gostring) (cs : list ConfigField) : bytes :=
  encodeTime6 t ++ put16 seq ++ len iccid :: iccid ++ len cs :: concat (enc_config <$> cs).

Definition enc_param (p : ParamItem) : bytes :=
  put32 (pi_ID p) ++ to_byte (len (pi_Value p)) :: pi_Value p.
Definition fits_param (p : ParamItem) : Prop :=
  is_uint32 (pi_ID p) /\ is_byte (len (pi_Value p)) /\ all_bytes (pi_Value p).

(** ** Lemmas *)

Lemma enc_config_bytes c : fits_config c -> all_bytes (enc_config c).
Proof. intros (? & ? & _ & ?). by repeat apply Forall_cons_2. Qed.

Ltac read_time H Hy :=
  let H1 := fresh in let H2 := fresh in let H3 := fresh in
  destruct (time_at _ _ _ _ H Hy) as (H1 & H2 & H3);
  rewrite H1; cbn [bind d_timeCodec defaultDecoder]; rewrite H2; cbn [bind]; clear H H1 H2; rename H3 into H.

Lemma decodeConfig_step n data pos c s acc :
  fits_config c -> at_pos data pos (enc_config c ++ s) ->
  decodeConfig (S n) data pos acc =
    decodeConfig n data (pos + len (enc_config c)) (acc ++ [c]).
Proof.
  intros Hf H. destruct Hf as (? & ? & Hc & ?). cbn [decodeConfig]. pose proof (at_pos_bound _ _ _ H) as [? Hl].
  unfold enc_config in *. rewrite len_app, !len_cons in Hl.
  pose proof (len_nonneg s). pose proof (len_nonneg (cf_Value c)).
  not_short; [lia|]. cbn [app] in H. read_byte H. read_byte H. cbv zeta. not_short; [lia|].
  replace (pos + 1 + 1) with (pos + 2) in H by lia.
  rewrite (slice_at _ _ _ _ _ H) by lia. cbn [bind]. rewrite !len_cons.
  replace (pos + 2 + cf_Length c) with (pos + (1 + (1 + len (cf_Value c)))) by lia.
  by destruct c.
Qed.

Lemma decodeConfig_all cs : forall data pos s acc,
  Forall fits_config cs -> at_pos data pos (concat (enc_config <$> cs) ++ s) ->
  decodeConfig (length cs) data pos acc = Ok (acc ++ cs).
Proof.
  induction cs as [|c cs IH]; intros data pos s acc Hf H; [by cbn; rewrite app_nil_r|].
  inversion_clear Hf as [|?? Hc Hcs]. rewrite fmap_cons, concat_cons, <- app_assoc in H.
  cbn [length]. rewrite (decodeConfig_step _ _ _ _ _ _ Hc H).
  eapply at_pos_step in H; [|done]. rewrite (IH _ _ s) by done. by rewrite <- app_assoc.
Qed.

Lemma decodeParams_step n data pos p s acc :
  fits_param p -> at_pos data pos (enc_param p ++ s) ->
  decodeParams (S n) data pos acc =
    decodeParams n data (pos + len (enc_param p)) (acc ++ [p]).
Proof.
  intros Hf H. destruct Hf as (? & Hb & ?). cbn [decodeParams]. pose proof (at_pos_bound _ _ _ H) as [? Hl].
  unfold enc_param in *. rewrite !len_app, len_cons, len_put32 in Hl.
  pose proof (len_nonneg s). pose proof (len_nonneg (pi_Value p)).
  not_short; [lia|]. repeat wire_step H. cbv zeta. rewrite to_byte_small by done.
  not_short; [lia|].
  rewrite (slice_at _ _ _ _ _ H) by lia. cbn [bind]. rewrite len_app, len_cons, len_put32.
  replace (pos + 4 + 1 + len (pi_Value p)) with (pos + (4 + (1 + len (pi_Value p)))) by lia.
  by destruct p.
Qed.

Lemma decodeParams_take n ps : forall data pos acc,
  (n <= length ps)%nat -> Forall fits_param ps ->
  at_pos data pos (concat (enc_param <$> ps)) ->
  decodeParams n data pos acc = Ok (acc ++ take n ps).
Proof.
  revert ps. induction n as [|n IH]; intros ps data pos acc Hn Hf H; [by cbn; rewrite app_nil_r|].
  destruct ps as [|p ps]; [cbn in Hn; lia|].
  inversion_clear Hf as [|?? Hc Hcs]. rewrite fmap_cons, concat_cons in H. cbn [length] in Hn.
  rewrite (decodeParams_step _ _ _ _ _ _ Hc H).
  eapply at_pos_step in H; [|done]. rewrite (IH ps) by (done || lia). by rewrite <- app_assoc.
Qed.

Lemma decodeParamIDs_take n ids : forall data pos acc,
  (n <= length ids)%nat -> Forall is_uint32 ids ->
  at_pos data pos (concat (put32 <$> ids)) ->
  decodeParamIDs n data pos acc = Ok (acc ++ take n ids).
Proof.
  revert ids. induction n as [|n IH]; intros ids data pos acc Hn Hf H; [by cbn; rewrite app_nil_r|].
  destruct ids as [|p ids]; [cbn in Hn; lia|].
  inversion_clear Hf as [|?? Hc Hcs]. rewrite fmap_cons, concat_cons in H. cbn [length] in Hn.
  cbn [decodeParamIDs]. pose proof (at_pos_bound _ _ _ H) as [? Hl].
  rewrite len_app, len_put32 in Hl. pose proof (len_nonneg (concat (put32 <$> ids))).
  not_short; [lia|]. read_u32 H.
  rewrite (IH ids) by (done || lia). by rewrite <- app_assoc.
Qed.

(** The senders' loops, as concatenations. *)
Lemma appendParam_all ps : forall acc,
  fold_left appendParam ps acc = acc ++ concat (enc_param <$> ps).
Proof.
  induction ps as [|p ps IH]; intros acc; [by cbn; rewrite app_nil_r|].
  cbn [fold_left]. rewrite IH, fmap_cons, concat_cons. unfold appendParam, enc_param.
  by rewrite <- !app_assoc.
Qed.

Lemma appendID_all ids : forall acc,
  fold_left (fun data id => data ++ put32 id) ids acc = acc ++ concat (put32 <$> ids).
Proof.
  induction ids as [|p ids IH]; intros acc; [by cbn; rewrite app_nil_r|].
  cbn [fold_left]. rewrite IH, fmap_cons, concat_cons. by rewrite <- !app_assoc.
Qed.

Lemma EncodeParamString_ok s : EncodeParamString s = Ok (to_byte (len s) :: s).
Proof.
  unfold EncodeParamString. pose proof (len_nonneg s).
  rewrite make_ok by lia. cbn [bind].
  replace (Z.to_nat (1 + len s)) with (S (length s)) by (unfold len; lia). cbn [replicate].
  rewrite (store_cut _ [] 0 (replicate (length s) 0)) by done. cbn [bind app].
  rewrite (copy_into_cut _ [to_byte (len s)] (replicate (length s) 0) [] s);
    [by rewrite app_nil_r| |done|..].
  - by rewrite app_nil_r.
  - rewrite len_cons. lia.
  - by rewrite length_replicate.
Qed.

Lemma decodeParamString_enc s rest :
  decodeParamString (to_byte (len s) :: s ++ rest) =
    Ok (take (Z.to_nat (len s mod 256)) s, 1 + len s mod 256).
Proof.
  unfold decodeParamString. set (data := _ :: _). pose proof (len_nonneg s).
  assert (at_pos data 0 data) as H' by apply at_pos_0. unfold data at 2 in H'.
  assert (len data = 1 + len s + len rest) as Hl
    by (unfold data; rewrite len_cons, len_app; lia).
  pose proof (len_nonneg rest). clearbody data.
  assert (0 <= len s mod 256 <= len s) by (zdm; lia).
  not_short; [lia|]. read_byte H'. unfold to_byte in *. not_short; [lia|].
  rewrite <- (take_drop (Z.to_nat (len s mod 256)) s), <- app_assoc in H' at 1.
  by rewrite (slice_at _ _ _ _ _ H') by (rewrite len_take; lia).
Qed.

(** ** Totality *)

Section body_total.
Context (data : bytes) (Hdata : all_bytes data).

Lemma decodeConfig_ok n : forall pos acc,
  0 <= pos -> Forall fits_config acc ->
  yields (decodeConfig n data pos acc) (fun cs =>
    (length cs <= length acc + n)%nat /\ Forall fits_config cs).
Proof.
  induction n as [|n IH]; intros pos acc Hpos Hf; cbn [decodeConfig]; [cbn; split; [lia|done]|].
  go_safe; try (split; [lia|done]).
  eapply post_mono; [|apply IH; [width_lia|]].
  - intros cs [Hl ?]. rewrite length_app in Hl. cbn in Hl. split; [lia|done].
  - apply Forall_app_2; [done|]. repeat constructor; cbn; solve [done | width_lia].
Qed.

Lemma decodeParams_ok n : forall pos acc,
  0 <= pos -> Forall fits_param acc ->
  yields (decodeParams n data pos acc) (fun ps =>
    (length ps <= length acc + n)%nat /\ Forall fits_param ps).
Proof.
  induction n as [|n IH]; intros pos acc Hpos Hf; cbn [decodeParams]; [cbn; split; [lia|done]|].
  go_safe; try (split; [lia|done]).
  eapply post_mono; [|apply IH; [width_lia|]].
  - intros cs [Hl ?]. rewrite length_app in Hl. cbn in Hl. split; [lia|done].
  - apply Forall_app_2; [done|]. repeat constructor; cbn; solve [done | width_lia].
Qed.

Lemma decodeParamIDs_ok n : forall pos acc,
  0 <= pos -> Forall is_uint32 acc ->
  yields (decodeParamIDs n data pos acc) (fun ids =>
    (length ids <= length acc + n)%nat /\ Forall is_uint32 ids).
Proof.
  induction n as [|n IH]; intros pos acc Hpos Hf; cbn [decodeParamIDs]; [cbn; split; [lia|done]|].
  go_safe; try (split; [lia|done]).
  eapply post_mono; [|apply IH; [width_lia|]].
  - intros cs [Hl ?]. rewrite length_app in Hl. cbn in Hl. split; [lia|done].
  - apply Forall_app_2; [done|]. by apply Forall_singleton.
Qed.

Lemma decodeParamString_ok :
  yields (decodeParamString data) (fun '(s, n) =>
    0 <= n <= len data /\ all_bytes s /\ len s < 256).
Proof.
  unfold decodeParamString. pose proof (len_nonneg data).
  go_safe; split_and!; try done; try lia; try constructor; width_lia.
Qed.
End body_total.

Ltac body_safe :=
  cbv zeta; repeat first
    [ go_step
    | lazymatch goal with
      | |- post (decodeTime6 _ _) _ _ => apply decodeTime6_post; [lia | intros ? ?]
      end ].

Lemma login_ok d data (Hb : all_bytes data) :
  post (Decoder_DecodeLoginData d data)
    (fun v => exists n, index data 8 = Ok n /\ 9 + n <= len data /\
       vl_ICCID v = sub data 9 (9 + n) /\ is_uint16 (vl_Sequence v) /\
       is_byte (vl_ConfigDataCnt v) /\ len (vl_ConfigData v) <= vl_ConfigDataCnt v /\
       Forall fits_config (vl_ConfigData v))
    (fun _ => len data < 9 \/ exists n, index data 8 = Ok n /\ len data < 9 + n).
Proof.
  unfold Decoder_DecodeLoginData. cbv zeta. go_step; [cbn; by left|].
  body_safe.
  - right. by exists b.
  - apply yields_post. eapply post_mono; [|apply decodeConfig_ok; [done | width_lia | constructor]].
    intros cs [Hl ?]. cbn in Hl |- *. exists b. unfold len. split_and!; solve [done | width_lia].
  - exists b. cbn. split_and!; solve [done | width_lia].
Qed.

(** [decided data n m P]: the decoder refuses less than [n] bytes and nothing
    else, and its value satisfies [P]. *)
Definition decided {A} (data : bytes) (n : Z) (m : outcome A) (P : A -> Prop) : Prop :=
  if len data <? n then exists e, m = Err e else exists a, m = Ok a /\ P a.

Lemma decided_ensures {A} data n (m : outcome A) P : decided data n m P -> ensures m P.
Proof. unfold decided. destruct (len data <? n); [by intros [e ->]|by intros (a & -> & ?)]. Qed.

Section decided.
Context (d : Decoder) (data : bytes) (Hb : all_bytes data).

Lemma logout_decided :
  decided data 8 (Decoder_DecodeLogoutData d data) (fun v => is_uint16 (vo_Sequence v)).
Proof.
  unfold decided, Decoder_DecodeLogoutData. destruct (Z.ltb_spec (len data) 8); [by eexists|].
  apply yields_ok. body_safe. done.
Qed.

Lemma plat_login_decided :
  decided data 8 (Decoder_DecodePlatLoginResponse d data) (fun v =>
    is_uint16 (pl_Sequence v) /\ len (pl_Username v) < 256 /\ len (pl_Password v) < 256).
Proof.
  unfold decided, Decoder_DecodePlatLoginResponse. destruct (Z.ltb_spec (len data) 8); [by eexists|].
  apply yields_ok. body_safe.
  eapply post_mono; [|by apply decodeParamString_ok]. intros [u n] (Hn & Hu & ?). body_safe.
  eapply post_mono; [|by apply decodeParamString_ok]. intros [p m] (? & ? & ?). body_safe. done.
Qed.

Lemma plat_logout_decided :
  decided data 8 (Decoder_DecodePlatLogoutResponse d data) (fun v => is_uint16 (pg_Sequence v)).
Proof.
  unfold decided, Decoder_DecodePlatLogoutResponse. destruct (Z.ltb_spec (len data) 8); [by eexists|].
  apply yields_ok. body_safe. done.
Qed.

Lemma param_query_decided :
  decided data 7 (Decoder_DecodeParamQueryData d data) (fun v =>
    is_byte (pq_Count v) /\ len (pq_ParamIDs v) <= pq_Count v /\ Forall is_uint32 (pq_ParamIDs v)).
Proof.
  unfold decided, Decoder_DecodeParamQueryData. destruct (Z.ltb_spec (len data) 7); [by eexists|].
  apply yields_ok. body_safe.
  eapply post_mono; [|apply decodeParamIDs_ok; [done | width_lia | constructor]].
  intros ids [Hl ?]. cbn in Hl |- *. unfold len. split_and!; solve [done | width_lia].
Qed.

Lemma param_setting_decided :
  decided data 7 (Decoder_DecodeParamSettingData d data) (fun v =>
    is_byte (ps_Count v) /\ len (ps_Params v) <= ps_Count v /\ Forall fits_param (ps_Params v)).
Proof.
  unfold decided, Decoder_DecodeParamSettingData. destruct (Z.ltb_spec (len data) 7); [by eexists|].
  apply yields_ok. body_safe.
  eapply post_mono; [|apply decodeParams_ok; [done | width_lia | constructor]].
  intros ids [Hl ?]. cbn in Hl |- *. unfold len. split_and!; solve [done | width_lia].
Qed.
End decided.

(** *** Laid-out bodies *)

Lemma DecodeLoginData_enc t seq iccid cs rest
    (Ht : 2000 <= Year t < 2160) (Hs : is_uint16 seq) (Hi : len iccid < 256)
    (Hc : len cs < 256) (Hf : Forall fits_config cs) :
  DecodeLoginData (enc_login t seq iccid cs ++ rest) =
    Ok (mkVehicleLoginData (wall_utc t) seq iccid (len cs) cs).
Proof.
  unfold DecodeLoginData, Decoder_DecodeLoginData. set (data := enc_login t seq iccid cs ++ rest).
  assert (at_pos data 0 (enc_login t seq iccid cs ++ rest)) as H' by apply at_pos_0.
  pose proof (len_nonneg rest). pose proof (len_nonneg iccid). pose proof (len_nonneg cs).
  set (tail := concat (enc_config <$> cs)) in *. pose proof (len_nonneg tail).
  assert (len data = 10 + len iccid + len tail + len rest) as Hl
    by (unfold data, enc_login, encodeTime6; len_simpl; fold tail; lia).
  not_short; [lia|]. unfold enc_login in H'. fold tail in H'. clearbody data. cbv zeta.
  rewrite <- app_assoc in H'. read_time H' Ht. repeat wire_step H'.
  not_short; [lia|]. rewrite (slice_at _ _ _ _ _ H') by lia. cbn [bind].
  eapply at_pos_step in H'; [|done].
  destruct (Z.ltb_spec (0 + 6 + 2 + 1 + len iccid) (len data)); [|lia].
  cbn [app] in H'. read_byte H'. rewrite to_nat_len. unfold tail in H'.
  by rewrite (decodeConfig_all _ _ _ rest) by done.
Qed.

Lemma DecodeLogoutData_enc t seq rest :
  2000 <= Year t < 2160 -> is_uint16 seq ->
  DecodeLogoutData (encodeTime6 t ++ put16 seq ++ rest) = Ok (mkVehicleLogoutData (wall_utc t) seq).
Proof.
  intros Ht Hs. unfold DecodeLogoutData, Decoder_DecodeLogoutData. set (data := encodeTime6 t ++ _).
  assert (at_pos data 0 (encodeTime6 t ++ put16 seq ++ rest)) as H' by apply at_pos_0.
  pose proof (at_pos_bound _ _ _ H') as [_ Hl]. unfold encodeTime6 in Hl. len_simpl. pose proof (len_nonneg rest).
  not_short; [lia|]. clearbody data. change (slice data 0 6) with (slice data 0 (0 + 6)).
  change (read16 data 6) with (read16 data (0 + 6)). read_time H' Ht. by repeat wire_step H'.
Qed.

(** ** Properties *)

(** C33: A login body laid out as the protocol has it (time, sequence, ICCID
    behind its length, configuration fields behind their count) decodes to its
    fields, whatever follows it. *)
Theorem login_roundtrip t seq iccid cs rest
    (Ht : 2000 <= Year t < 2160) (Hs : is_uint16 seq) (Hi : len iccid < 256)
    (Hc : len cs < 256) (Hf : Forall fits_config cs) :
  DecodeLoginData (enc_login t seq iccid cs ++ rest) =
    Ok (mkVehicleLoginData (wall_utc t) seq iccid (len cs) cs).
Proof. by apply DecodeLoginData_enc. Qed.

Lemma login_roundtrip_witness :
  DecodeLoginData (enc_login (Date 2024 2 29 12 30 45 0) 7 [56; 57; 56; 54] [mkConfigField 1 2 [3; 4]]) =
    Ok (mkVehicleLoginData (Date 2024 2 29 12 30 45 0) 7 [56; 57; 56; 54] 1 [mkConfigField 1 2 [3; 4]]).
Proof.
  rewrite <- (app_nil_r (enc_login _ _ _ _)).
  refine (login_roundtrip (Date 2024 2 29 12 30 45 0) 7 [56; 57; 56; 54] [mkConfigField 1 2 [3; 4]] [] _ _ _ _ _).
  - vm_compute. split; [discriminate|reflexivity].
  - unfold is_uint16. lia.
  - done.
  - done.
  - repeat constructor; cbn; lia.
Defined.

(** Login bodies, every branch: [DecodeLoginData] returns on any bytes; it
    refuses exactly a body under 9 bytes and one whose ICCID runs past the end;
    otherwise the ICCID is the announced window and the configuration fields
    are well-formed and at most as many as announced, missing ones dropped
    silently. *)
Theorem login_total d data (Hb : all_bytes data) :
  post (Decoder_DecodeLoginData d data)
    (fun v => exists n, index data 8 = Ok n /\ 9 + n <= len data /\
       vl_ICCID v = sub data 9 (9 + n) /\ is_uint16 (vl_Sequence v) /\
       is_byte (vl_ConfigDataCnt v) /\ len (vl_ConfigData v) <= vl_ConfigDataCnt v /\
       Forall fits_config (vl_ConfigData v))
    (fun _ => len data < 9 \/ exists n, index data 8 = Ok n /\ len data < 9 + n).
Proof. by apply login_ok. Qed.

Lemma login_total_witness :
  all_bytes [36; 1; 1; 0; 0; 0; 0; 1; 2; 65] /\
  (DecodeLoginData [36; 1; 1; 0; 0; 0; 0; 1; 2; 65] =
     Err (Errorf "ICCID length exceeds data: %d > %d" [11; 10])) /\
  exists n, index [36; 1; 1; 0; 0; 0; 0; 1; 2; 65] 8 = Ok n /\ 10 < 9 + n.
Proof.
  assert (all_bytes [36; 1; 1; 0; 0; 0; 0; 1; 2; 65]) as Hb by check_bytes.
  split; [exact Hb|]. split; [reflexivity|].
  destruct (login_total defaultDecoder _ Hb) as [Hl|Hn]; [vm_compute in Hl; discriminate|exact Hn].
Defined.

(** The other body decoders are total and decided by length: below the
    minimum an error, otherwise a value whose numbers have their width and
    whose lists stay within their counts. *)
Theorem bodies_decided_by_length d data (Hb : all_bytes data) :
  decided data 8 (Decoder_DecodeLogoutData d data) (fun v => is_uint16 (vo_Sequence v)) /\
  decided data 8 (Decoder_DecodePlatLoginResponse d data) (fun v =>
    is_uint16 (pl_Sequence v) /\ len (pl_Username v) < 256 /\ len (pl_Password v) < 256) /\
  decided data 8 (Decoder_DecodePlatLogoutResponse d data) (fun v => is_uint16 (pg_Sequence v)) /\
  decided data 7 (Decoder_DecodeParamQueryData d data) (fun v =>
    is_byte (pq_Count v) /\ len (pq_ParamIDs v) <= pq_Count v /\ Forall is_uint32 (pq_ParamIDs v)) /\
  decided data 7 (Decoder_DecodeParamSettingData d data) (fun v =>
    is_byte (ps_Count v) /\ len (ps_Params v) <= ps_Count v /\ Forall fits_param (ps_Params v)).
Proof.
  split_and!; auto using logout_decided, plat_login_decided, plat_logout_decided,
    param_query_decided, param_setting_decided.
Qed.

Lemma bodies_decided_by_length_witness :
  (exists v, DecodeLogoutData [36; 1; 1; 0; 0; 0; 0; 7] = Ok v /\ is_uint16 (vo_Sequence v)) /\
  (exists e, DecodeParamQueryData [36; 1; 1] = Err e).
Proof.
  assert (all_bytes [36; 1; 1; 0; 0; 0; 0; 7]) as Hb by check_bytes.
  assert (all_bytes [36; 1; 1]) as Hb' by check_bytes.
  split; [exact (proj1 (bodies_decided_by_length defaultDecoder _ Hb))|].
  apply (bodies_decided_by_length defaultDecoder _ Hb').
Defined.

(** Length-prefixed strings: what [EncodeParamString] writes reads back,
    whatever follows; the prefix is one byte, so a string of 256 bytes or more
    comes back cut to its length modulo 256. *)
Theorem param_string_roundtrip s rest :
  (let! out := EncodeParamString s in decodeParamString (out ++ rest)) =
    Ok (take (Z.to_nat (len s mod 256)) s, 1 + len s mod 256) /\
  ((let! out := EncodeParamString s in decodeParamString (out ++ rest)) = Ok (s, 1 + len s) <->
   len s < 256).
Proof.
  rewrite EncodeParamString_ok. cbn [bind app]. rewrite decodeParamString_enc.
  split; [done|]. pose proof (len_nonneg s). split.
  - intros [= _ Hl]. assert (len s mod 256 = len s) by lia. zdm. lia.
  - intros Hs. rewrite Z.mod_small by lia. by rewrite to_nat_len, firstn_all.
Qed.

(** A platform login the connection sends decodes to the time, the user
    name and the password it was given, sequence 0, for a user name of up to
    255 bytes; a longer password arrives cut modulo 256. *)
Theorem plat_login_roundtrip t username password
    (Ht : 2000 <= Year t < 2160) (Hu : len username < 256) :
  exists body, platLoginBody t username password = Ok body /\
    DecodePlatLoginResponse body =
      Ok (mkPlatformLoginData (wall_utc t) 0 username
            (take (Z.to_nat (len password mod 256)) password)).
Proof.
  unfold platLoginBody. cbv zeta. rewrite !EncodeParamString_ok. cbn [bind].
  eexists. split; [done|]. pose proof (len_nonneg username). pose proof (len_nonneg password).
  unfold DecodePlatLoginResponse, Decoder_DecodePlatLoginResponse.
  set (u := to_byte (len username) :: username). set (p := to_byte (len password) :: password).
  set (data := _ ++ p).
  assert (at_pos data 0 (encodeTime6 t ++ put16 0 ++ u ++ p)) as H'.
  { exists []. unfold data, encodeTime6. by rewrite <- !app_assoc. }
  pose proof (at_pos_bound _ _ _ H') as [_ Hl]. unfold encodeTime6 in Hl. len_simpl.
  pose proof (len_nonneg u). pose proof (len_nonneg p).
  not_short; [lia|]. clearbody data. cbv zeta. read_time H' Ht.
  assert (is_uint16 0) by (unfold is_uint16; lia). wire_step H'.
  rewrite (slice_at _ _ _ (u ++ p) []) by (rewrite ?app_nil_r; first [done | rewrite len_app; lia]).
  cbn [bind]. unfold u at 1. cbn [app]. rewrite decodeParamString_enc. cbn [bind].
  rewrite Z.mod_small, to_nat_len, firstn_all by lia.
  eapply at_pos_step with (j := 0 + 6 + 2 + (1 + len username)) in H';
    [|unfold u; rewrite len_cons; lia].
  rewrite (slice_at _ _ _ p []) by (rewrite ?app_nil_r; first
    [done | apply at_pos_bound in H' as [_ ->]; lia]).
  cbn [bind]. unfold p. rewrite <- (app_nil_r password) at 2. by rewrite decodeParamString_enc.
Qed.

Lemma plat_login_roundtrip_witness :
  exists body, platLoginBody (Date 2024 1 1 0 0 0 0) [117; 115; 114] [112; 119] = Ok body /\
    DecodePlatLoginResponse body =
      Ok (mkPlatformLoginData (Date 2024 1 1 0 0 0 0) 0 [117; 115; 114] [112; 119]).
Proof.
  refine (plat_login_roundtrip (Date 2024 1 1 0 0 0 0) [117; 115; 114] [112; 119] _ _);
    [vm_compute; split; [discriminate|reflexivity] | done].
Defined.

Lemma to_nat_mod_le {A} (l : list A) : (Z.to_nat (len l mod 256) <= length l)%nat.
Proof. pose proof (len_nonneg l). unfold len in *. zdm. lia. Qed.

Lemma param_query_sent now ids
    (Ht : 2000 <= Year now < 2160) (Hi : Forall is_uint32 ids) :
  DecodeParamQueryData (paramQueryBody now ids) =
    Ok (mkParamQueryData (wall_utc now) (len ids mod 256)
          (take (Z.to_nat (len ids mod 256)) ids)).
Proof.
  unfold DecodeParamQueryData, Decoder_DecodeParamQueryData, paramQueryBody.
  rewrite appendID_all. set (data := _ ++ _).
  assert (at_pos data 0 (encodeTime6 now ++ to_byte (len ids) :: concat (put32 <$> ids))) as H'.
  { exists []. unfold data. by rewrite <- !app_assoc. }
  pose proof (at_pos_bound _ _ _ H') as [_ Hl]. unfold encodeTime6 in Hl. len_simpl.
  pose proof (len_nonneg (concat (put32 <$> ids))).
  not_short; [lia|]. clearbody data. cbv zeta. read_time H' Ht. read_byte H'.
  unfold to_byte. by rewrite (decodeParamIDs_take _ ids) by (done || apply to_nat_mod_le).
Qed.

Lemma param_setting_sent now ps
    (Ht : 2000 <= Year now < 2160) (Hp : Forall fits_param ps) :
  DecodeParamSettingData (paramSettingBody now ps) =
    Ok (mkParamSettingData (wall_utc now) (len ps mod 256)
          (take (Z.to_nat (len ps mod 256)) ps)).
Proof.
  unfold DecodeParamSettingData, Decoder_DecodeParamSettingData, paramSettingBody.
  rewrite appendParam_all. set (data := _ ++ _).
  assert (at_pos data 0 (encodeTime6 now ++ to_byte (len ps) :: concat (enc_param <$> ps))) as H'.
  { exists []. unfold data. by rewrite <- !app_assoc. }
  pose proof (at_pos_bound _ _ _ H') as [_ Hl]. unfold encodeTime6 in Hl. len_simpl.
  pose proof (len_nonneg (concat (enc_param <$> ps))).
  not_short; [lia|]. clearbody data. cbv zeta. read_time H' Ht. read_byte H'.
  unfold to_byte. by rewrite (decodeParams_take _ ps) by (done || apply to_nat_mod_le).
Qed.

(** What the connection sends about parameters is what the decoders read: a
    query decodes to its time and identifiers, a setting, its values of up to
    255 bytes, to its time and items.  The count is one byte: only the first
    [n mod 256] come out, and of 256 none. *)
Theorem param_roundtrip now ids ps
    (Ht : 2000 <= Year now < 2160) (Hi : Forall is_uint32 ids) (Hp : Forall fits_param ps) :
  DecodeParamQueryData (paramQueryBody now ids) =
    Ok (mkParamQueryData (wall_utc now) (len ids mod 256)
          (take (Z.to_nat (len ids mod 256)) ids)) /\
  DecodeParamSettingData (paramSettingBody now ps) =
    Ok (mkParamSettingData (wall_utc now) (len ps mod 256)
          (take (Z.to_nat (len ps mod 256)) ps)).
Proof. split; [by apply param_query_sent | by apply param_setting_sent]. Qed.

Lemma param_roundtrip_witness :
  DecodeParamQueryData (paramQueryBody (Date 2024 1 1 0 0 0 0) (replicate 256 5)) =
    Ok (mkParamQueryData (Date 2024 1 1 0 0 0 0) 0 []) /\
  DecodeParamSettingData (paramSettingBody (Date 2024 1 1 0 0 0 0) [mkParamItem 2 [0; 30]; mkParamItem 9 []]) =
    Ok (mkParamSettingData (Date 2024 1 1 0 0 0 0) 2 [mkParamItem 2 [0; 30]; mkParamItem 9 []]).
Proof.
  apply (param_roundtrip (Date 2024 1 1 0 0 0 0) (replicate 256 5) [mkParamItem 2 [0; 30]; mkParamItem 9 []]).
  - vm_compute. split; [discriminate|reflexivity].
  - apply Forall_replicate. unfold is_uint32. lia.
  - unfold fits_param. widths.
Defined.

(** [sendParamQueryResponse] and [DecodeParamQueryData], which the
    connection applies to CmdParamQueryResp, do not speak one format: the sender
    writes no time, so the decoder takes count, first identifier and first
    length for a time, and the first byte of the first value for the count. *)
Theorem param_query_resp_misread count id v value ps
    (Hc : is_byte count) (Hf : Forall fits_param (mkParamItem id (v :: value) :: ps)) :
  exists msg,
    DecodeParamQueryData
      (paramQueryRespBody (mkParamQueryResponse count (mkParamItem id (v :: value) :: ps))) = Ok msg /\
    parseBCDTime6 (count :: put32 id ++ [len value + 1]) = Ok (pq_QueryTime msg) /\
    pq_Count msg = v.
Proof.
  unfold DecodeParamQueryData, Decoder_DecodeParamQueryData, paramQueryRespBody. cbn [pr_Params pr_Count].
  rewrite appendParam_all, fmap_cons, concat_cons. set (items := concat _).
  assert (all_bytes items) as Hb.
  { inversion_clear Hf. apply concat_bytes with (P := fits_param); [|done].
    intros p (? & ? & ?). unfold enc_param. apply Forall_app_2; [apply put32_bytes|].
    apply Forall_cons_2; [apply is_byte_to_byte | done]. }
  inversion_clear Hf as [|?? (? & Hlv & Hv) _]. unfold enc_param. cbn [pi_ID pi_Value] in *.
  rewrite to_byte_small by done. rewrite len_cons in *. inversion_clear Hv.
  set (data := [count] ++ _).
  assert (at_pos data 0 ((count :: put32 id ++ [1 + len value]) ++ v :: value ++ items)) as H'.
  { exists []. unfold data. cbn [app]. rewrite <- !app_assoc. by cbn [app]. }
  assert (all_bytes data) as Hd.
  { unfold data. repeat first
      [assumption | apply put32_bytes | apply Forall_nil_2 | apply Forall_app_2 | apply Forall_cons_2]. }
  pose proof (at_pos_bound _ _ _ H') as [_ Hl]. len_simpl.
  pose proof (len_nonneg value). pose proof (len_nonneg items).
  destruct (Z.ltb_spec (len data) 7); [lia|]. clearbody data. cbv zeta.
  rewrite (slice_at _ _ _ _ _ H') by (len_simpl; lia). cbn [bind d_timeCodec defaultDecoder].
  apply at_pos_step with (j := 0 + 6) in H'; [|len_simpl; lia].
  destruct (decodeTime6_total TimeCodecBCD (count :: put32 id ++ [1 + len value])) as [t Ht]; [done|].
  rewrite Ht. cbn [bind]. read_byte H'.
  destruct (yields_ok _ _ (decodeParamIDs_ok data Hd (Z.to_nat v) (0 + 6 + 1) []
    ltac:(lia) ltac:(constructor))) as (ids & -> & _). cbn [bind].
  eexists. split; [done|]. split; [|done]. cbn [pq_QueryTime]. by rewrite Z.add_comm.
Qed.

Lemma param_query_resp_misread_witness :
  exists msg, DecodeParamQueryData
      (paramQueryRespBody (mkParamQueryResponse 1 [mkParamItem 2 [200]])) = Ok msg /\
    pq_Count msg = 200.
Proof.
  destruct (param_query_resp_misread 1 2 200 [] []) as (msg & H1 & _ & H2).
  - unfold is_byte. lia.
  - unfold fits_param. widths.
  - by exists msg.
Defined.
