(* ===== verification/Realtime.v ===== *)
(** * Realtime and reissue messages ([message.go])

    A realtime body is a time and a sequence of data fields, each an identifier
    and its bytes.  Nothing says how long a field is: [findFieldEnd] works it
    out from the counts inside the field, and [codec.DecodeField] decodes the
    window.  A reissue body is a sequence of such items behind a count, which
    only the next unknown identifier separates. *)
From S2P Require Import Prelude.
From S2P Require Import GoTime.
From S2P Require Import Codec.
From S2P Require Import CodecWire.
From S2P Require Import Framing.
From S2P Require Import Packet.

(** ** The end of a field *)

(** The loop over subsystems of the voltage field, [n] iterations before [i]
    reaches the count. *)
Fixpoint voltageEnd (n : nat) (data : bytes) (e : int) : outcome int :=
  match n with
  | O => Ok e
  | S n =>
      if negb (e <? len data) then Ok e else
      if len data <? e + 7 then Ok e else
      let e := e + 7 in
      let! cellCnt := read16 data (e - 2) in
      voltageEnd n data (e + cellCnt * 3)
  end.

(** The same for the temperature field. *)
Fixpoint temperatureEnd (n : nat) (data : bytes) (e : int) : outcome int :=
  match n with
  | O => Ok e
  | S n =>
      if negb (e <? len data) then Ok e else
      if len data <? e + 3 then Ok e else
      let e := e + 3 in
      let! probeCnt := read16 data (e - 2) in
      temperatureEnd n data (e + probeCnt)
  end.

(** [-1] when the field is cut short or unknown.  The alarm length is read at
    [data[1:5]], whatever [pos] is. *)
Definition findFieldEnd (fieldID : byte) (data : bytes) (pos : int) : outcome int :=
  match fieldID with
  | 0x01 => if pos + 20 <=? len data then Ok (pos + 20) else Ok (-1)
  | 0x02 =>
      if pos + 1 <=? len data then
        let! count := index data pos in
        Ok (pos + 1 + count * 12)
      else Ok (-1)
  | 0x03 =>
      if pos + 8 <=? len data then
        let! probeCnt := read16 data (pos + 6) in
        Ok (pos + 8 + probeCnt + 13)
      else Ok (-1)
  | 0x04 => if pos + 5 <=? len data then Ok (pos + 5) else Ok (-1)
  | 0x05 => if pos + 8 <=? len data then Ok (pos + 8) else Ok (-1)
  | 0x06 => if pos + 10 <=? len data then Ok (pos + 10) else Ok (-1)
  | 0x07 =>
      if pos + 5 <=? len data then
        let! alarmLen := read32 data 1 in
        Ok (pos + 5 + alarmLen)
      else Ok (-1)
  | 0x08 =>
      if pos + 2 <=? len data then
        let! subCnt := read16 data pos in
        voltageEnd (Z.to_nat subCnt) data (pos + 2)
      else Ok (-1)
  | 0x09 =>
      if pos + 2 <=? len data then
        let! subCnt := read16 data pos in
        temperatureEnd (Z.to_nat subCnt) data (pos + 2)
      else Ok (-1)
  | _ => Ok (-1)
  end.

(** ** From [codec] types to message types *)

Definition vehicleOf (v : Codec.VehicleBaseInfo) : VehicleBaseInfo :=
  mkVehicleBaseInfo (v_VehicleStatus v) (v_ChargingStatus v) (v_RunMode v) (v_Speed v)
    (v_Odometer v) (v_TotalVoltage v) (v_TotalCurrent v) (v_SOC v) (v_DCStatus v) (v_Gear v)
    (v_InsulationRes v).

Definition motorOf (m : Codec.MotorInfo) : MotorInfo :=
  mkMotorInfo (m_MotorSeq m) (m_MotorStatus m) (m_ControllerTemp m) (m_MotorSpeed m)
    (m_MotorTorque m) (m_MotorTemp m) (m_MotorVoltage m) (m_MotorCurrent m).

Definition fuelCellOf (fc : Codec.FuelCellInfo) : FuelCellInfo :=
  mkFuelCellInfo (f_CellVoltage fc) (f_CellCurrent fc) (f_FuelConsumption fc) (f_ProbeCount fc)
    (f_ProbeTemps fc) (f_H2MaxTemp fc) (f_H2MaxTempProbe fc) (f_H2MaxConcentration fc)
    (f_H2MaxConcentrationSensor fc) (f_H2PressureMax fc) (f_H2PressureMaxSensor fc)
    (f_H2PressureMin fc) (f_H2PressureMinSensor fc) (f_DCDCStatus fc).

Definition engineOf (e : Codec.EngineInfo) : EngineInfo :=
  mkEngineInfo (e_EngineStatus e) (e_CrankSpeed e) (e_FuelRate e).

Definition positionOf (p : Codec.PositionInfo) : PositionInfo :=
  mkPositionInfo (Codec.p_Longitude p) (Codec.p_Latitude p).

Definition extremeOf (e : Codec.ExtremeInfo) : ExtremeInfo :=
  mkExtremeInfo (x_MaxBatteryVoltage e) (x_MaxBatteryVoltageCode e) (x_MinBatteryVoltage e)
    (x_MinBatteryVoltageCode e) (x_MaxTemp e) (x_MaxTempCode e) (x_MinTemp e) (x_MinTempCode e).

Definition alarmOf (a : Codec.AlarmInfo) : AlarmInfo :=
  mkAlarmInfo (a_MaxLevel a) (a_AlarmByteLen a) (a_AlarmBytes a).

Definition cellOf (c : Codec.CellVoltage) : CellVoltage :=
  mkCellVoltage (c_CellNo c) (mkCellInfo (c_Voltage (c_CellInfo c)) (c_Temp (c_CellInfo c))).

Definition subsystemOf (s : Codec.SubsystemVoltage) : SubsystemVoltage :=
  mkSubsystemVoltage (s_SubsysNo s) (s_Voltage s) (s_Current s) (s_CellCount s)
    (cellOf <$> s_Cells s).

Definition voltageOf (v : Codec.VoltageInfo) : VoltageInfo :=
  mkVoltageInfo (vt_SubsysCount v) (subsystemOf <$> vt_SubsystemVoltages v).

(** [&RealtimeMessage{InfoTime: t}] *)
Definition newMessage (t : Time) : RealtimeMessage :=
  mkRealtimeMessage t None [] None None None None None None.

(** The assignments [msg.X = ...]; the [switch] of [DecodeRealtimeData],
    which has no case for the temperature field. *)
Definition storeField (fieldID : byte) (decoded : FieldValue) (msg : RealtimeMessage)
  : RealtimeMessage :=
  let '(mkRealtimeMessage t v ms fc en po ex al vi) := msg in
  match fieldID, decoded with
  | 0x01, VVehicle d => mkRealtimeMessage t (Some (vehicleOf d)) ms fc en po ex al vi
  | 0x02, VMotor d => mkRealtimeMessage t v (ms ++ (motorOf <$> d)) fc en po ex al vi
  | 0x03, VFuelCell d => mkRealtimeMessage t v ms (Some (fuelCellOf d)) en po ex al vi
  | 0x04, VEngine d => mkRealtimeMessage t v ms fc (Some (engineOf d)) po ex al vi
  | 0x05, VPosition d => mkRealtimeMessage t v ms fc en (Some (positionOf d)) ex al vi
  | 0x06, VExtreme d => mkRealtimeMessage t v ms fc en po (Some (extremeOf d)) al vi
  | 0x07, VAlarm d => mkRealtimeMessage t v ms fc en po ex (Some (alarmOf d)) vi
  | 0x08, VVoltage d => mkRealtimeMessage t v ms fc en po ex al (Some (voltageOf d))
  | _, _ => msg
  end.

(** ** Realtime *)

(** The loop of [DecodeRealtimeData]; every iteration but the last consumes the
    identifier. *)
Fixpoint realtimeFields (fuel : nat) (data : bytes) (pos : int) (msg : RealtimeMessage)
  : outcome RealtimeMessage :=
  match fuel with
  | O => OutOfFuel
  | S fuel =>
      if negb (pos <? len data) then Ok msg else
      if len data <? pos + 1 then Ok msg else
      let! fieldID := index data pos in
      if negb (HasDecoder fieldID) then Ok msg else
      let pos := pos + 1 in
      let! fieldEnd := findFieldEnd fieldID data pos in
      if (fieldEnd <? 0) || (len data <? fieldEnd) then Ok msg else
      let! fieldData := slice data pos fieldEnd in
      let pos := fieldEnd in
      match DecodeField fieldID fieldData with
      | Err _ => realtimeFields fuel data pos msg
      | Ok decoded => realtimeFields fuel data pos (storeField fieldID decoded msg)
      | Panic => Panic
      | OutOfFuel => OutOfFuel
      end
  end.

Definition Decoder_DecodeRealtimeData (d : Decoder) (data : bytes) : outcome RealtimeMessage :=
  if len data <? 6 then Err (Errorf "realtime data too short: %d bytes" [len data]) else
  let! b := slice data 0 6 in
  let! InfoTime := decodeTime6 (d_timeCodec d) b in
  let msg := newMessage InfoTime in
  let pos := 6 in
  realtimeFields (S (length data)) data pos msg.

Definition DecodeRealtimeData (data : bytes) : outcome RealtimeMessage :=
  Decoder_DecodeRealtimeData defaultDecoder data.

(** ** Reissue *)

(** The [switch] of [decodeRealtimeItem], written out a second time. *)
Definition storeItemField (fieldID : byte) (decoded : FieldValue) (msg : RealtimeMessage)
  : RealtimeMessage :=
  let '(mkRealtimeMessage t v ms fc en po ex al vi) := msg in
  match fieldID, decoded with
  | 0x01, VVehicle d => mkRealtimeMessage t (Some (vehicleOf d)) ms fc en po ex al vi
  | 0x02, VMotor d => mkRealtimeMessage t v (ms ++ (motorOf <$> d)) fc en po ex al vi
  | 0x03, VFuelCell d => mkRealtimeMessage t v ms (Some (fuelCellOf d)) en po ex al vi
  | 0x04, VEngine d => mkRealtimeMessage t v ms fc (Some (engineOf d)) po ex al vi
  | 0x05, VPosition d => mkRealtimeMessage t v ms fc en (Some (positionOf d)) ex al vi
  | 0x06, VExtreme d => mkRealtimeMessage t v ms fc en po (Some (extremeOf d)) al vi
  | 0x07, VAlarm d => mkRealtimeMessage t v ms fc en po ex (Some (alarmOf d)) vi
  | 0x08, VVoltage d => mkRealtimeMessage t v ms fc en po ex al (Some (voltageOf d))
  | _, _ => msg
  end.

(** The loop of [decodeRealtimeItem]: the same, and the position where it
    stopped; an identifier whose field is cut short has been consumed. *)
Fixpoint itemFields (fuel : nat) (data : bytes) (pos : int) (msg : RealtimeMessage)
  : outcome (RealtimeMessage * int) :=
  match fuel with
  | O => OutOfFuel
  | S fuel =>
      if negb (pos <? len data) then Ok (msg, pos) else
      if len data <? pos + 1 then Ok (msg, pos) else
      let! fieldID := index data pos in
      if negb (HasDecoder fieldID) then Ok (msg, pos) else
      let pos := pos + 1 in
      let! fieldEnd := findFieldEnd fieldID data pos in
      if (fieldEnd <? 0) || (len data <? fieldEnd) then Ok (msg, pos) else
      let! fieldData := slice data pos fieldEnd in
      let pos := fieldEnd in
      match DecodeField fieldID fieldData with
      | Err _ => itemFields fuel data pos msg
      | Ok decoded => itemFields fuel data pos (storeItemField fieldID decoded msg)
      | Panic => Panic
      | OutOfFuel => OutOfFuel
      end
  end.

Definition decodeRealtimeItem (d : Decoder) (data : bytes) : outcome (RealtimeMessage * int) :=
  if len data <? 6 then Err (Errorf "realtime item too short: %d bytes" [len data]) else
  let! b := slice data 0 6 in
  let! InfoTime := decodeTime6 (d_timeCodec d) b in
  let msg := newMessage InfoTime in
  let pos := 6 in
  itemFields (S (length data)) data pos msg.

(** The loop of [DecodeReissueData], [n] iterations before [i] reaches
    [totalItems]. *)
Fixpoint reissueItems (n : nat) (d : Decoder) (data : bytes) (pos : int)
    (items : list RealtimeMessage) : outcome (list RealtimeMessage) :=
  match n with
  | O => Ok items
  | S n =>
      if negb (pos <? len data) then Ok items else
      let! rest := slice data pos (len data) in
      match decodeRealtimeItem d rest with
      | Err _ => Ok items
      | Ok (item, consumed) => reissueItems n d data (pos + consumed) (items ++ [item])
      | Panic => Panic
      | OutOfFuel => OutOfFuel
      end
  end.

Definition Decoder_DecodeReissueData (d : Decoder) (data : bytes) : outcome ReissueMessage :=
  if len data <? 8 then Err (Errorf "reissue data too short: %d bytes" [len data]) else
  let pos := 0 in
  let! b := slice data pos (pos + 6) in
  let! infoTime := decodeTime6 (d_timeCodec d) b in
  let pos := pos + 6 in
  let! totalItems := read16 data pos in
  let pos := pos + 2 in
  let! items := reissueItems (Z.to_nat totalItems) d data pos [] in
  Ok (mkReissueMessage infoTime items).

Definition DecodeReissueData (data : bytes) : outcome ReissueMessage :=
  Decoder_DecodeReissueData defaultDecoder data.

(** ** Reference layout *)

(** A field on the wire. *)
Definition enc_field (v : FieldValue) : bytes := field_id v :: enc_value v.

(** Storing a field under its own identifier, for the proofs and for what the decoders
    make of arbitrary bytes; what a message is to hold is [carries], below. *)
Definition stored (msg : RealtimeMessage) (v : FieldValue) : RealtimeMessage :=
  storeField (field_id v) v msg.

Definition is_alarm (v : FieldValue) : bool := match v with VAlarm _ => true | _ => false end.
Definition plain_field (v : FieldValue) : Prop := fits_value v /\ is_alarm v = false.

Definition enc_message (t : Time) (vs : list FieldValue) : bytes :=
  encodeTime6 t ++ concat (enc_field <$> vs).

(** What stops the field loop: the end, or an identifier without decoder. *)
Definition stops (s : bytes) : Prop :=
  match s with [] => True | b :: _ => HasDecoder b = false end.

(** ** What a message carries

    The specification of the conversion, field by field, without the code's: what the
    message has under a name is what the vehicle laid out under that name. *)
Record same_vehicle (v : Codec.VehicleBaseInfo) (m : VehicleBaseInfo) : Prop := {
  sv_VehicleStatus : vb_VehicleStatus m = v_VehicleStatus v;
  sv_ChargingStatus : vb_ChargingStatus m = v_ChargingStatus v;
  sv_RunMode : vb_RunMode m = v_RunMode v;
  sv_Speed : vb_Speed m = v_Speed v;
  sv_Odometer : vb_Odometer m = v_Odometer v;
  sv_TotalVoltage : vb_TotalVoltage m = v_TotalVoltage v;
  sv_TotalCurrent : vb_TotalCurrent m = v_TotalCurrent v;
  sv_SOC : vb_SOC m = v_SOC v;
  sv_DCStatus : vb_DCStatus m = v_DCStatus v;
  sv_Gear : vb_Gear m = v_Gear v;
  sv_InsulationRes : vb_InsulationRes m = v_InsulationRes v
}.

Record same_motor (v : Codec.MotorInfo) (m : MotorInfo) : Prop := {
  sm_MotorSeq : mo_MotorSeq m = m_MotorSeq v;
  sm_MotorStatus : mo_MotorStatus m = m_MotorStatus v;
  sm_ControllerTemp : mo_ControllerTemp m = m_ControllerTemp v;
  sm_MotorSpeed : mo_MotorSpeed m = m_MotorSpeed v;
  sm_MotorTorque : mo_MotorTorque m = m_MotorTorque v;
  sm_MotorTemp : mo_MotorTemp m = m_MotorTemp v;
  sm_MotorVoltage : mo_MotorVoltage m = m_MotorVoltage v;
  sm_MotorCurrent : mo_MotorCurrent m = m_MotorCurrent v
}.

Record same_fuelcell (v : Codec.FuelCellInfo) (m : FuelCellInfo) : Prop := {
  sf_CellVoltage : fc_CellVoltage m = f_CellVoltage v;
  sf_CellCurrent : fc_CellCurrent m = f_CellCurrent v;
  sf_FuelConsumption : fc_FuelConsumption m = f_FuelConsumption v;
  sf_ProbeCount : fc_ProbeCount m = f_ProbeCount v;
  sf_ProbeTemps : fc_ProbeTemps m = f_ProbeTemps v;
  sf_H2MaxTemp : fc_H2MaxTemp m = f_H2MaxTemp v;
  sf_H2MaxTempProbe : fc_H2MaxTempProbe m = f_H2MaxTempProbe v;
  sf_H2MaxConcentration : fc_H2MaxConcentration m = f_H2MaxConcentration v;
  sf_H2MaxConcentrationSensor : fc_H2MaxConcentrationSensor m = f_H2MaxConcentrationSensor v;
  sf_H2PressureMax : fc_H2PressureMax m = f_H2PressureMax v;
  sf_H2PressureMaxSensor : fc_H2PressureMaxSensor m = f_H2PressureMaxSensor v;
  sf_H2PressureMin : fc_H2PressureMin m = f_H2PressureMin v;
  sf_H2PressureMinSensor : fc_H2PressureMinSensor m = f_H2PressureMinSensor v;
  sf_DCDCStatus : fc_DCDCStatus m = f_DCDCStatus v
}.

Record same_engine (v : Codec.EngineInfo) (m : EngineInfo) : Prop := {
  se_EngineStatus : en_EngineStatus m = e_EngineStatus v;
  se_CrankSpeed : en_CrankSpeed m = e_CrankSpeed v;
  se_FuelRate : en_FuelRate m = e_FuelRate v
}.

Record same_position (v : Codec.PositionInfo) (m : PositionInfo) : Prop := {
  sp_Longitude : po_Longitude m = Codec.p_Longitude v;
  sp_Latitude : po_Latitude m = Codec.p_Latitude v
}.

Record same_extreme (v : Codec.ExtremeInfo) (m : ExtremeInfo) : Prop := {
  sx_MaxBatteryVoltage : ex_MaxBatteryVoltage m = x_MaxBatteryVoltage v;
  sx_MaxBatteryVoltageCode : ex_MaxBatteryVoltageCode m = x_MaxBatteryVoltageCode v;
  sx_MinBatteryVoltage : ex_MinBatteryVoltage m = x_MinBatteryVoltage v;
  sx_MinBatteryVoltageCode : ex_MinBatteryVoltageCode m = x_MinBatteryVoltageCode v;
  sx_MaxTemp : ex_MaxTemp m = x_MaxTemp v;
  sx_MaxTempCode : ex_MaxTempCode m = x_MaxTempCode v;
  sx_MinTemp : ex_MinTemp m = x_MinTemp v;
  sx_MinTempCode : ex_MinTempCode m = x_MinTempCode v
}.

Record same_cell (v : Codec.CellVoltage) (m : CellVoltage) : Prop := {
  sc_CellNo : cv_CellNo m = c_CellNo v;
  sc_Voltage : ci_Voltage (cv_CellInfo m) = c_Voltage (c_CellInfo v);
  sc_Temp : ci_Temp (cv_CellInfo m) = c_Temp (c_CellInfo v)
}.

Record same_subsystem (v : Codec.SubsystemVoltage) (m : SubsystemVoltage) : Prop := {
  su_SubsysNo : sv_SubsysNo m = s_SubsysNo v;
  su_Voltage : sv_Voltage m = s_Voltage v;
  su_Current : sv_Current m = s_Current v;
  su_CellCount : sv_CellCount m = s_CellCount v;
  su_Cells : Forall2 same_cell (s_Cells v) (sv_Cells m)
}.

Record same_voltage (v : Codec.VoltageInfo) (m : VoltageInfo) : Prop := {
  st_SubsysCount : vi_SubsysCount m = vt_SubsysCount v;
  st_SubsystemVoltages : Forall2 same_subsystem (vt_SubsystemVoltages v) (vi_SubsystemVoltages m)
}.

(** The fields of one kind among those of a body. *)
Definition as_vehicle v := match v with VVehicle d => Some d | _ => None end.
Definition as_motors v := match v with VMotor d => Some d | _ => None end.
Definition as_fuelcell v := match v with VFuelCell d => Some d | _ => None end.
Definition as_engine v := match v with VEngine d => Some d | _ => None end.
Definition as_position v := match v with VPosition d => Some d | _ => None end.
Definition as_extreme v := match v with VExtreme d => Some d | _ => None end.
Definition as_voltage v := match v with VVoltage d => Some d | _ => None end.

(** [m] carries the time and the fields of a body without alarms: the last field of
    each kind and no other, the motors of all motor fields in order, no alarm, and
    nothing of a temperature field, for which it has no place. *)
Record carries (t : Time) (vs : list FieldValue) (m : RealtimeMessage) : Prop := {
  ca_time : rt_InfoTime m = wall_utc t;
  ca_vehicle : option_Forall2 same_vehicle (last (omap as_vehicle vs)) (rt_VehicleData m);
  ca_motors : Forall2 same_motor (concat (omap as_motors vs)) (rt_MotorData m);
  ca_fuelcell : option_Forall2 same_fuelcell (last (omap as_fuelcell vs)) (rt_FuelCellData m);
  ca_engine : option_Forall2 same_engine (last (omap as_engine vs)) (rt_EngineData m);
  ca_position : option_Forall2 same_position (last (omap as_position vs)) (rt_PositionData m);
  ca_extreme : option_Forall2 same_extreme (last (omap as_extreme vs)) (rt_ExtremeData m);
  ca_alarm : rt_AlarmData m = None;
  ca_voltage : option_Forall2 same_voltage (last (omap as_voltage vs)) (rt_VoltageData m)
}.

(** ** Lemmas *)

Lemma vehicleOf_same v : same_vehicle v (vehicleOf v).
Proof. by split. Qed.

Lemma motorOf_same v : same_motor v (motorOf v).
Proof. by split. Qed.

Lemma fuelCellOf_same v : same_fuelcell v (fuelCellOf v).
Proof. by split. Qed.

Lemma engineOf_same v : same_engine v (engineOf v).
Proof. by split. Qed.

Lemma positionOf_same v : same_position v (positionOf v).
Proof. by split. Qed.

Lemma extremeOf_same v : same_extreme v (extremeOf v).
Proof. by split. Qed.

Lemma Forall2_converted {A B} (R : A -> B -> Prop) f l : (forall x, R x (f x)) -> Forall2 R l (f <$> l).
Proof. intros H. rewrite Forall2_fmap_r. by apply Forall_Forall2_diag, Forall_true. Qed.

Lemma voltageOf_same v : same_voltage v (voltageOf v).
Proof.
  split; [done|]. apply Forall2_converted. intros s. split; try done.
  apply Forall2_converted. by split.
Qed.

Lemma last_omap_snoc {A B} (f : A -> option B) l x :
  last (omap f (l ++ [x])) = match f x with Some y => Some y | None => last (omap f l) end.
Proof. rewrite omap_app. cbn. destruct (f x); [by rewrite last_snoc|by rewrite app_nil_r]. Qed.

Create HintDb converted.
#[export] Hint Resolve vehicleOf_same fuelCellOf_same engineOf_same positionOf_same extremeOf_same
  voltageOf_same motorOf_same : converted.

(** Storing a field keeps what a message carries. *)
Lemma carries_stored t vs v m :
  is_alarm v = false -> carries t vs m -> carries t (vs ++ [v]) (stored m v).
Proof.
  intros Hv [H1 H2 H3 H4 H5 H6 H7 H8 H9]. destruct m.
  destruct v; try done; split; cbn -[omap] in *; rewrite ?last_omap_snoc, ?omap_app, ?concat_app;
    cbn [as_vehicle as_motors as_fuelcell as_engine as_position as_extreme as_voltage omap list_omap concat];
    rewrite ?app_nil_r; try done; try (constructor; auto with converted).
  apply Forall2_app; [done|]. by apply Forall2_converted, motorOf_same.
Qed.

Lemma carries_fields t vs : Forall plain_field vs -> carries t vs (fold_left stored vs (newMessage (wall_utc t))).
Proof.
  induction vs as [|v vs IH] using rev_ind; [intros _; split; constructor|].
  rewrite Forall_app, Forall_singleton, fold_left_app. intros [Hvs [_ Ha]]. apply carries_stored; auto.
Qed.

(** The specification leaves nothing open: there is one message that carries the
    fields. *)
Definition functional {A B} (R : A -> B -> Prop) : Prop := forall x y z, R x y -> R x z -> y = z.

Lemma functional_list {A B} (R : A -> B -> Prop) : functional R -> functional (Forall2 R).
Proof.
  intros HR l k k' H. revert k'. induction H as [|x y l k Hx _ IH]; intros k' H'; inversion_clear H'; [done|].
  f_equal; [by eapply HR|by apply IH].
Qed.

Lemma functional_option {A B} (R : A -> B -> Prop) : functional R -> functional (option_Forall2 R).
Proof. intros HR x y z [a b Hb|] H'; inversion_clear H'; [|done]. f_equal. by eapply HR. Qed.

Ltac functional_record := intros v [] [] [] []; cbn in *; subst; reflexivity.

Lemma same_cell_fun : functional same_cell.
Proof. intros v [n [a b]] [n' [a' b']] [] []. cbn in *. congruence. Qed.

Lemma same_subsystem_fun : functional same_subsystem.
Proof.
  intros v [] [] [??? ? H] [??? ? H']. cbn in *. pose proof (functional_list _ same_cell_fun _ _ _ H H'). congruence.
Qed.

Lemma same_voltage_fun : functional same_voltage.
Proof.
  intros v [] [] [? H] [? H']. cbn in *. pose proof (functional_list _ same_subsystem_fun _ _ _ H H'). congruence.
Qed.

Lemma carries_unique t vs m m' : carries t vs m -> carries t vs m' -> m = m'.
Proof.
  intros [H1 H2 H3 H4 H5 H6 H7 H8 H9] [K1 K2 K3 K4 K5 K6 K7 K8 K9]. destruct m, m'. cbn in *.
  assert (functional same_vehicle) as F2 by functional_record.
  assert (functional same_motor) as F3 by functional_record.
  assert (functional same_fuelcell) as F4 by functional_record.
  assert (functional same_engine) as F5 by functional_record.
  assert (functional same_position) as F6 by functional_record.
  assert (functional same_extreme) as F7 by functional_record.
  pose proof same_voltage_fun as F9.
  f_equal; solve [congruence | eapply functional_option; eassumption | eapply functional_list; eassumption].
Qed.

Section ends.
Implicit Types data s : bytes.

Lemma voltageEnd_all ss : forall data e s,
  Forall fits_subvoltage ss -> at_pos data e (concat (enc_subvoltage <$> ss) ++ s) ->
  voltageEnd (length ss) data e = Ok (e + len (concat (enc_subvoltage <$> ss))).
Proof.
  induction ss as [|v ss IH]; intros data e s Hf H'; [cbn; f_equal; unfold len; cbn; lia|].
  inversion_clear Hf as [|?? Hm Hms]. rewrite fmap_cons, concat_cons, <- app_assoc in H'.
  pose proof (at_pos_bound _ _ _ H') as [? Hl].
  pose proof (len_nonneg (concat (enc_subvoltage <$> ss) ++ s)).
  unfold fits_subvoltage in Hm. destruct_and! Hm.
  assert (len (enc_subvoltage v) = 7 + 3 * s_CellCount v) as Hv
    by (unfold enc_subvoltage; len_simpl; rewrite len_enc_cells; lia).
  pose proof (len_nonneg (s_Cells v)). rewrite len_app in Hl.
  cbn [length voltageEnd]. destruct (Z.ltb_spec e (len data)); [|lia]. cbn [negb].
  not_short; [lia|]. cbv zeta.
  pose proof (at_pos_step data e (enc_subvoltage v) _ _ H' eq_refl) as Hnext.
  unfold enc_subvoltage in H' at 1. cbn [app] in H'. rewrite <- !app_assoc in H'.
  apply at_pos_cons, at_pos_skip16, at_pos_skip16 in H'.
  replace (e + 1 + 2 + 2) with (e + 7 - 2) in H' by lia.
  read_u16 H'. rewrite fmap_cons, concat_cons, len_app, Hv in *.
  replace (e + 7 + s_CellCount v * 3) with (e + (7 + 3 * s_CellCount v)) by lia.
  rewrite (IH _ _ s) by done. f_equal. lia.
Qed.

Lemma temperatureEnd_all ss : forall data e s,
  Forall fits_subtemperature ss -> at_pos data e (concat (enc_subtemperature <$> ss) ++ s) ->
  temperatureEnd (length ss) data e = Ok (e + len (concat (enc_subtemperature <$> ss))).
Proof.
  induction ss as [|v ss IH]; intros data e s Hf H'; [cbn; f_equal; unfold len; cbn; lia|].
  inversion_clear Hf as [|?? Hm Hms]. rewrite fmap_cons, concat_cons, <- app_assoc in H'.
  pose proof (at_pos_bound _ _ _ H') as [? Hl].
  pose proof (len_nonneg (concat (enc_subtemperature <$> ss) ++ s)).
  unfold fits_subtemperature in Hm. destruct_and! Hm.
  assert (len (enc_subtemperature v) = 3 + st_ProbeCount v) as Hv
    by (unfold enc_subtemperature; len_simpl; lia).
  pose proof (len_nonneg (st_ProbeTemperatures v)). rewrite len_app in Hl.
  cbn [length temperatureEnd]. destruct (Z.ltb_spec e (len data)); [|lia]. cbn [negb].
  not_short; [lia|]. cbv zeta.
  pose proof (at_pos_step data e (enc_subtemperature v) _ _ H' eq_refl) as Hnext.
  unfold enc_subtemperature in H' at 1. cbn [app] in H'. rewrite <- !app_assoc in H'.
  apply at_pos_cons in H'. replace (e + 1) with (e + 3 - 2) in H' by lia.
  read_u16 H'. rewrite fmap_cons, concat_cons, len_app, Hv in *.
  replace (e + 3 + st_ProbeCount v) with (e + (3 + st_ProbeCount v)) by lia.
  rewrite (IH _ _ s) by done. f_equal. lia.
Qed.

(** A whole field that is not an alarm ends where its encoding ends. *)
Lemma findFieldEnd_enc v data pos s :
  plain_field v -> at_pos data pos (enc_value v ++ s) ->
  findFieldEnd (field_id v) data pos = Ok (pos + len (enc_value v)).
Proof.
  intros [Hf Ha] H'. pose proof (at_pos_bound _ _ _ H') as [? Hl]. rewrite len_app in Hl.
  pose proof (len_nonneg s).
  destruct v; try done; cbn [fits_value enc_value field_id] in *;
    unfold FieldVehicle, FieldMotor, FieldFuelCell, FieldEngine, FieldPosition, FieldExtreme,
      FieldVoltage, FieldTemperature; cbn [findFieldEnd].
  - change (len (enc_vehicle v)) with 20 in *. by destruct (Z.leb_spec (pos + 20) (len data)); [|lia].
  - unfold enc_motors in *. rewrite len_cons, len_enc_motors in *. pose proof (len_nonneg ms).
    destruct (Z.leb_spec (pos + 1) (len data)); [|lia]. cbn [app] in H'. read_byte H'. f_equal. lia.
  - assert (len (enc_fuelcell f) = 21 + f_ProbeCount f) as Hn.
    { unfold fits_fuelcell in Hf. destruct_and! Hf. unfold enc_fuelcell. len_simpl. lia. }
    unfold fits_fuelcell in Hf; destruct_and! Hf. pose proof (len_nonneg (f_ProbeTemps f)).
    destruct (Z.leb_spec (pos + 8) (len data)); [|lia].
    unfold enc_fuelcell in H'. rewrite <- !app_assoc in H'.
    do 3 apply at_pos_skip16 in H'. replace (pos + 2 + 2 + 2) with (pos + 6) in H' by lia.
    read_u16 H'. f_equal. lia.
  - change (len (enc_engine e)) with 5 in *. by destruct (Z.leb_spec (pos + 5) (len data)); [|lia].
  - change (len (enc_position p)) with 8 in *. by destruct (Z.leb_spec (pos + 8) (len data)); [|lia].
  - change (len (enc_extreme e)) with 10 in *. by destruct (Z.leb_spec (pos + 10) (len data)); [|lia].
  - destruct Hf as (? & Hc & Hss). unfold enc_voltage in *. rewrite len_app, len_put16 in *.
    pose proof (len_nonneg (concat (enc_subvoltage <$> vt_SubsystemVoltages v))).
    destruct (Z.leb_spec (pos + 2) (len data)); [|lia]. rewrite <- app_assoc in H'.
    read_u16 H'. rewrite Hc, to_nat_len, (voltageEnd_all _ _ _ s) by done. f_equal. lia.
  - destruct Hf as (? & Hc & Hss). unfold enc_temperature in *. rewrite len_app, len_put16 in *.
    pose proof (len_nonneg (concat (enc_subtemperature <$> t_SubsystemTemperatures t))).
    destruct (Z.leb_spec (pos + 2) (len data)); [|lia]. rewrite <- app_assoc in H'.
    read_u16 H'. rewrite Hc, to_nat_len, (temperatureEnd_all _ _ _ s) by done. f_equal. lia.
Qed.

Section total.
Context (data : bytes) (Hdata : all_bytes data).

Lemma voltageEnd_ok n : forall e, 0 <= e -> yields (voltageEnd n data e) (fun e' => e <= e').
Proof.
  induction n as [|n IH]; intros e He; cbn [voltageEnd]; [cbn; lia|].
  destruct (Z.ltb_spec e (len data)); cbn [negb]; [|cbn; lia]. go_safe; [lia|].
  eapply post_mono; [|apply IH; width_lia]. intros. cbn in *. width_lia.
Qed.

Lemma temperatureEnd_ok n : forall e, 0 <= e -> yields (temperatureEnd n data e) (fun e' => e <= e').
Proof.
  induction n as [|n IH]; intros e He; cbn [temperatureEnd]; [cbn; lia|].
  destruct (Z.ltb_spec e (len data)); cbn [negb]; [|cbn; lia]. go_safe; [lia|].
  eapply post_mono; [|apply IH; width_lia]. intros. cbn in *. width_lia.
Qed.

(** [findFieldEnd] never reads out of range and never goes back. *)
Lemma findFieldEnd_ok id pos :
  6 <= pos -> yields (findFieldEnd id data pos) (fun e => e = -1 \/ pos <= e).
Proof.
  intros Hpos. destruct (HasDecoder id) eqn:E.
  - apply HasDecoder_range in E.
    assert (id = 1 \/ id = 2 \/ id = 3 \/ id = 4 \/ id = 5 \/ id = 6 \/
      id = 7 \/ id = 8 \/ id = 9) as Hd by lia.
    repeat destruct Hd as [-> | Hd]; try subst id; cbn [findFieldEnd];
      (apply post_if; [intros ?%Z.leb_le | intros ?; cbn; by left]); go_safe;
      try (right; width_lia).
    + eapply post_mono; [|apply voltageEnd_ok; lia]. intros. cbn in *. lia.
    + eapply post_mono; [|apply temperatureEnd_ok; lia]. intros. cbn in *. lia.
  - unfold HasDecoder in E. destruct id as [|p|p]; try (cbn; by left).
    repeat (destruct p as [p|p|]; try (cbn; by left); try done).
Qed.
End total.
End ends.

Lemma storeItemField_eq id v msg : storeItemField id v msg = storeField id v msg.
Proof. done. Qed.

(** The two copies of the loop agree; the item's also returns where it stopped. *)
Lemma realtimeFields_item fuel : forall data pos msg,
  realtimeFields fuel data pos msg = (let! '(m, _) := itemFields fuel data pos msg in Ok m).
Proof.
  induction fuel as [|fuel IH]; intros data pos msg; [done|]. cbn [realtimeFields itemFields].
  destruct (negb (pos <? len data)); [done|]. destruct (len data <? pos + 1); [done|].
  destruct (index data pos) as [id| | |]; [|done..]. cbn [bind].
  destruct (negb (HasDecoder id)); [done|]. cbv zeta.
  destruct (findFieldEnd id data (pos + 1)) as [e| | |]; [|done..]. cbn [bind].
  destruct ((e <? 0) || (len data <? e)); [done|].
  destruct (slice data (pos + 1) e) as [w| | |]; [|done..]. cbn [bind].
  by destruct (DecodeField id w) as [v| | |].
Qed.

Lemma Decoder_DecodeRealtimeData_item d data :
  6 <= len data ->
  Decoder_DecodeRealtimeData d data = (let! '(m, _) := decodeRealtimeItem d data in Ok m).
Proof.
  intros Hl. unfold Decoder_DecodeRealtimeData, decodeRealtimeItem.
  destruct (Z.ltb_spec (len data) 6); [lia|].
  destruct (slice data 0 6); [|done..]. cbn [bind]. destruct (decodeTime6 _ _); [|done..].
  cbn [bind]. apply realtimeFields_item.
Qed.

Lemma field_id_decoder v : fits_value v -> HasDecoder (field_id v) = true.
Proof. by destruct v. Qed.

Lemma enc_value_nonneg v : 0 <= len (enc_value v).
Proof. apply len_nonneg. Qed.

(** One whole field is decoded and stored. *)
Lemma itemFields_step fuel data pos v s msg :
  plain_field v -> at_pos data pos (enc_field v ++ s) ->
  itemFields (S fuel) data pos msg = itemFields fuel data (pos + len (enc_field v)) (stored msg v).
Proof.
  intros Hp H'. cbn [itemFields]. pose proof (at_pos_bound _ _ _ H') as [? Hl].
  unfold enc_field in *. rewrite len_app, len_cons in *.
  pose proof (enc_value_nonneg v). pose proof (len_nonneg s).
  destruct (Z.ltb_spec pos (len data)); [|lia]. cbn [negb]. not_short; [lia|].
  cbn [app] in H'. read_byte H'. rewrite field_id_decoder by apply Hp. cbn [negb]. cbv zeta.
  rewrite (findFieldEnd_enc _ _ _ s) by done. cbn [bind].
  destruct (Z.ltb_spec (pos + 1 + len (enc_value v)) 0); [lia|].
  destruct (Z.ltb_spec (len data) (pos + 1 + len (enc_value v))); [lia|]. cbn [orb].
  rewrite (slice_at _ _ _ _ _ H') by lia. cbn [bind].
  rewrite <- (app_nil_r (enc_value v)) at 1. rewrite DecodeField_enc by apply Hp.
  f_equal. lia.
Qed.

Lemma itemFields_fields vs : forall fuel data pos s msg,
  Forall plain_field vs -> at_pos data pos (concat (enc_field <$> vs) ++ s) ->
  itemFields (length vs + fuel) data pos msg =
    itemFields fuel data (pos + len (concat (enc_field <$> vs))) (fold_left stored vs msg).
Proof.
  induction vs as [|v vs IH]; intros fuel data pos s msg Hf H'.
  { cbn. f_equal. unfold len. cbn. lia. }
  inversion_clear Hf as [|?? Hv Hvs]. rewrite fmap_cons, concat_cons, <- app_assoc in H'.
  cbn [length Nat.add]. rewrite (itemFields_step _ _ _ _ _ _ Hv H').
  eapply at_pos_step in H'; [|done]. rewrite (IH _ _ _ s) by done.
  rewrite fmap_cons, concat_cons, len_app. cbn [fold_left]. f_equal. lia.
Qed.

Lemma itemFields_stops fuel data pos s msg :
  at_pos data pos s -> stops s -> itemFields (S fuel) data pos msg = Ok (msg, pos).
Proof.
  intros H' Hs. cbn [itemFields]. pose proof (at_pos_bound _ _ _ H') as [? Hl].
  destruct s as [|b s]; cbn [stops] in Hs.
  - rewrite len_nil in Hl. by destruct (Z.ltb_spec pos (len data)); [lia|].
  - rewrite len_cons in Hl. pose proof (len_nonneg s).
    destruct (Z.ltb_spec pos (len data)); [|lia]. cbn [negb]. not_short; [lia|].
    read_byte H'. by rewrite Hs.
Qed.

Lemma length_fields vs : (length vs <= length (concat (enc_field <$> vs)))%nat.
Proof.
  induction vs as [|v vs IH]; [done|]. rewrite fmap_cons, concat_cons, length_app. cbn. lia.
Qed.

(** The reading of [enc_message], up to whatever stops it. *)
Lemma itemFields_message t vs s msg :
  let data := enc_message t vs ++ s in
  Forall plain_field vs ->
  (exists fuel', itemFields (S (length data)) data 6 msg =
     itemFields (S fuel') data (6 + len (concat (enc_field <$> vs))) (fold_left stored vs msg)) /\
  at_pos data (6 + len (concat (enc_field <$> vs))) s.
Proof.
  intros data Hf. assert (at_pos data 6 (concat (enc_field <$> vs) ++ s)) as H'.
  { exists (encodeTime6 t). unfold data, enc_message. by rewrite <- app_assoc. }
  split; [|by eapply at_pos_step].
  exists (length data - length vs)%nat. pose proof (length_fields vs).
  rewrite <- (itemFields_fields _ _ _ _ s) by done. f_equal.
  unfold data, enc_message. rewrite !length_app. lia.
Qed.

(** The item decoder in front of its loop. *)
Lemma decodeRealtimeItem_message t vs s :
  2000 <= Year t < 2160 ->
  let data := enc_message t vs ++ s in
  decodeRealtimeItem defaultDecoder data =
    itemFields (S (length data)) data 6 (newMessage (wall_utc t)).
Proof.
  intros Ht data. unfold decodeRealtimeItem.
  assert (at_pos data 0 (encodeTime6 t ++ concat (enc_field <$> vs) ++ s)) as H'.
  { exists []. unfold data, enc_message. by rewrite <- app_assoc. }
  pose proof (at_pos_bound _ _ _ H') as [_ Hl]. unfold encodeTime6 in Hl. len_simpl.
  pose proof (len_nonneg s). pose proof (len_nonneg (concat (enc_field <$> vs))).
  not_short; [lia|]. destruct (time_at _ _ _ _ H' Ht) as (H1 & H2 & _). change (0 + 6) with 6 in H1.
  rewrite H1. cbn [bind d_timeCodec defaultDecoder]. by rewrite H2.
Qed.

(** Totality: the item decoder stops within its input, and what it returns is
    what storing some list of well-formed values gives. *)
Definition built (t : Time) (msg : RealtimeMessage) : Prop :=
  exists vs, Forall value_ok vs /\ msg = fold_left stored vs (newMessage t).

Lemma storeField_id id v msg :
  storeField id v msg = msg \/ storeField id v msg = stored msg v.
Proof.
  destruct msg. unfold stored, storeField. destruct id as [|p|p]; [by left| |by left].
  repeat (destruct p as [p|p|]; try by left); destruct v; cbn; solve [by left | by right].
Qed.

Lemma built_store t msg id v : built t msg -> value_ok v -> built t (storeField id v msg).
Proof.
  intros (vs & Hvs & ->) Hv. destruct (storeField_id id v (fold_left stored vs (newMessage t))) as [-> | ->].
  - by exists vs.
  - exists (vs ++ [v]). rewrite fold_left_app. split; [|done]. by apply Forall_app_2; [|apply Forall_singleton].
Qed.

Section item_total.
Context (data : bytes) (Hdata : all_bytes data) (t : Time).

Lemma itemFields_ok fuel : forall pos msg,
  6 <= pos <= len data -> (Z.to_nat (len data - pos) < fuel)%nat -> built t msg ->
  yields (itemFields fuel data pos msg) (fun '(m, p) => pos <= p <= len data /\ built t m).
Proof.
  induction fuel as [|fuel IH]; intros pos msg Hpos Hf Hm; [lia|]. cbn [itemFields].
  destruct (Z.ltb_spec pos (len data)); cbn [negb]; [|cbn; split; [lia|done]].
  go_step; [cbn; split; [lia|done]|]. do 2 go_step.
  destruct (HasDecoder b) eqn:E; cbn [negb]; [|cbn; split; [lia|done]]. cbv zeta. go_step.
  eapply post_mono; [|by apply findFieldEnd_ok; [|lia]]. cbn. intros e He.
  apply post_if; [cbn; intros _; split; [lia|done]|].
  intros [?%Z.ltb_ge ?%Z.ltb_ge]%orb_false_iff. do 2 go_step.
  pose proof (DecodeField_ok b s ltac:(done)) as Hd.
  destruct (DecodeField b s) as [v|err| |]; [| |done..];
    (eapply post_mono; [|apply IH; [lia | lia |]]; [|auto using built_store..]);
    intros [m p] [? ?]; (split; [lia|done]).
Qed.

Lemma built_new : built t (newMessage t).
Proof. by exists []. Qed.
End item_total.

Lemma decodeRealtimeItem_ok d data :
  all_bytes data -> 6 <= len data ->
  yields (decodeRealtimeItem d data) (fun '(m, p) =>
    6 <= p <= len data /\ exists t, decodeTime6 (d_timeCodec d) (sub data 0 6) = Ok t /\ built t m).
Proof.
  intros Hb Hl. unfold decodeRealtimeItem. destruct (Z.ltb_spec (len data) 6); [lia|].
  do 2 go_step. apply post_bind. apply decodeTime6_post; [lia|]. intros t Ht. cbv zeta.
  eapply post_mono; [|apply (itemFields_ok _ Hb t); [lia | unfold len in *; lia | apply built_new]].
  intros [m p] [? ?]. split; [lia|]. exists t. subst. done.
Qed.

Lemma reissueItems_ok d data n : forall pos items,
  all_bytes data -> 0 <= pos ->
  yields (reissueItems n d data pos items) (fun ms => exists ms',
    ms = items ++ ms' /\ (length ms' <= n)%nat /\ Forall (fun m => exists t, stampable t /\ built t m) ms').
Proof.
  induction n as [|n IH]; intros pos items Hb Hpos; cbn [reissueItems].
  { exists []. rewrite app_nil_r. by cbn. }
  destruct (Z.ltb_spec pos (len data)); cbn [negb];
    [|cbn; exists []; rewrite app_nil_r; split_and!; [done | cbn; lia | constructor]].
  do 2 go_step. destruct (Z.ltb_spec (len s) 6).
  - unfold decodeRealtimeItem. destruct (Z.ltb_spec (len s) 6); [|lia].
    cbn. exists []. rewrite app_nil_r. split_and!; [done | cbn; lia | constructor].
  - destruct (yields_ok _ _ (decodeRealtimeItem_ok d s ltac:(done) ltac:(lia)))
      as ([m p] & -> & ? & t & Htime & Hm).
    assert (stampable t) as Hstamp by (apply (decodeTime6_stampable _ _ _ (all_bytes_sub s 0 6 ltac:(done)) ltac:(rewrite len_sub; lia) Htime)).
    eapply post_mono; [|apply IH; [done|lia]]. cbn.
    intros ms (ms' & -> & ? & ?). exists (m :: ms'). rewrite <- app_assoc. cbn.
    split_and!; [done | lia | constructor; [by exists t | done]].
Qed.

(** A whole item, followed by something that stops it. *)
Lemma decodeRealtimeItem_enc t vs s :
  2000 <= Year t < 2160 -> Forall plain_field vs -> stops s ->
  decodeRealtimeItem defaultDecoder (enc_message t vs ++ s) =
    Ok (fold_left stored vs (newMessage (wall_utc t)), len (enc_message t vs)).
Proof.
  intros Ht Hf Hs. rewrite decodeRealtimeItem_message by done.
  destruct (itemFields_message t vs s (newMessage (wall_utc t)) Hf) as [[fuel ->] H'].
  rewrite (itemFields_stops _ _ _ s) by done. unfold enc_message, encodeTime6.
  by rewrite len_app, len_encodeBCDTime.
Qed.

Lemma len_enc_message t vs : 6 <= len (enc_message t vs).
Proof.
  unfold enc_message, encodeTime6. rewrite len_app, len_encodeBCDTime.
  pose proof (len_nonneg (concat (enc_field <$> vs))). lia.
Qed.

(** The first byte of a time from 2010 on is no field identifier, so the next
    item stops the one before it. *)
Lemma time_stops t s : 2010 <= Year t < 2160 -> stops (encodeTime6 t ++ s).
Proof.
  intros Hy. unfold encodeTime6, encodeBCDTime. cbn [app stops]. destruct (HasDecoder _) eqn:E; [|done].
  apply HasDecoder_range in E. rewrite to_bcd_decimal in E by lia. zdm. lia.
Qed.

(** What an item that was laid out as [enc_message] decodes to. *)
Definition item : Type := Time * list FieldValue.
Definition enc_item (i : item) : bytes := enc_message i.1 i.2.
Definition message_of (i : item) : RealtimeMessage :=
  fold_left stored i.2 (newMessage (wall_utc i.1)).
(** What a reissue carries: its time, and item by item what the vehicle laid out. *)
Record reissued (t : Time) (its : list item) (m : ReissueMessage) : Prop := {
  re_time : ri_InfoTime m = wall_utc t;
  re_items : Forall2 (fun i m => carries i.1 i.2 m) its (ri_DataItems m)
}.

Definition item_ok (i : item) : Prop := 2010 <= Year i.1 < 2160 /\ Forall plain_field i.2.

Lemma items_stop its s : Forall item_ok its -> stops s -> stops (concat (enc_item <$> its) ++ s).
Proof.
  intros [|[t vs] l [Ht _] _] Hs; [done|]. rewrite fmap_cons, concat_cons.
  unfold enc_item, enc_message. cbn [fst snd]. rewrite <- !app_assoc. by apply time_stops.
Qed.

Lemma reissueItems_all its : forall data pos s items,
  Forall item_ok its -> stops s -> at_pos data pos (concat (enc_item <$> its) ++ s) ->
  reissueItems (length its) defaultDecoder data pos items = Ok (items ++ (message_of <$> its)).
Proof.
  induction its as [|[t vs] its IH]; intros data pos s items Hf Hs H'.
  { cbn. by rewrite app_nil_r. }
  inversion_clear Hf as [|?? [Ht Hv] His]. cbn [fst snd] in *.
  rewrite fmap_cons, concat_cons, <- app_assoc in H'.
  pose proof (at_pos_bound _ _ _ H') as [? Hl]. rewrite len_app in Hl.
  pose proof (len_nonneg (concat (enc_item <$> its) ++ s)). pose proof (len_enc_message t vs).
  unfold enc_item in H', Hl at 1. cbn [fst snd] in H', Hl. cbn [length reissueItems].
  destruct (Z.ltb_spec pos (len data)); [|lia]. cbn [negb].
  rewrite (slice_at data pos (len data) (enc_message t vs ++ concat (enc_item <$> its) ++ s) [])
    by (rewrite ?app_nil_r; first [done | rewrite len_app; lia]).
  cbn [bind].
  rewrite decodeRealtimeItem_enc by (first [done | lia | by apply items_stop]).
  eapply at_pos_step in H'; [|done]. rewrite (IH _ _ s) by done. by rewrite <- app_assoc.
Qed.

(** ** The alarm field *)

Lemma enc_field_bytes v : fits_value v -> all_bytes (enc_field v).
Proof. intros Hf. apply Forall_cons_2; [apply field_id_byte | by apply enc_value_bytes]. Qed.

Lemma enc_message_bytes t vs : Forall plain_field vs -> all_bytes (enc_message t vs).
Proof.
  intros Hv. apply Forall_app_2; [apply encodeBCDTime_bytes|].
  eapply concat_bytes; [|exact Hv]. intros v [Hf _]. by apply enc_field_bytes.
Qed.

(** Byte 1 of a body is the month. *)
Lemma month_byte t vs s :
  index (enc_message t vs ++ s) 1 = Ok (to_bcd (Month t)) /\ 1 <= to_bcd (Month t).
Proof.
  split.
  - eapply index_at. exists [to_bcd (Year t - 2000)]. split; [|done].
    unfold enc_message, encodeTime6, encodeBCDTime. by cbn [app].
  - pose proof (Month_range t). rewrite to_bcd_decimal by lia. zdm. lia.
Qed.

Lemma alarm_end_beyond data pos b1 :
  all_bytes data -> len data < 16777216 -> index data 1 = Ok b1 -> 1 <= b1 -> 6 <= pos ->
  exists e, findFieldEnd FieldAlarm data pos = Ok e /\ (e < 0 \/ len data < e).
Proof.
  intros Hb Hl H1 Hm Hpos. unfold FieldAlarm. cbn [findFieldEnd].
  destruct (Z.leb_spec (pos + 5) (len data)); [|exists (-1); split; [done|lia]].
  assert (exists b2 b3 b4 s, at_pos data 1 (b1 :: b2 :: b3 :: b4 :: s) /\
    is_byte b2 /\ is_byte b3 /\ is_byte b4) as (b2 & b3 & b4 & s & H' & ? & ? & ?).
  { unfold len in *. destruct data as [|b0 [|b1' [|b2 [|b3 [|b4 s]]]]]; try (exfalso; cbn in *; lia).
    rewrite index_ok in H1 by (unfold len; cbn; lia). cbn in H1. injection H1 as ->.
    exists b2, b3, b4, s. decompose_Forall. split; [by exists [b0]|done]. }
  rewrite (read32_at _ _ _ _ _ _ _ H'). eexists. split; [done|].
  rewrite be32_eq by done. right. width_lia.
Qed.

Lemma itemFields_no_alarm data b1 fuel : forall pos msg m p,
  all_bytes data -> len data < 16777216 -> index data 1 = Ok b1 -> 1 <= b1 -> 6 <= pos ->
  itemFields fuel data pos msg = Ok (m, p) -> rt_AlarmData msg = None -> rt_AlarmData m = None.
Proof.
  induction fuel as [|fuel IH]; intros pos msg m p Hb Hl H1 Hm Hpos; [done|]. cbn [itemFields].
  destruct (negb (pos <? len data)); [by intros [= -> _]|].
  destruct (len data <? pos + 1); [by intros [= -> _]|].
  destruct (index data pos) as [id| | |]; [|done..]. cbn [bind].
  destruct (negb (HasDecoder id)); [by intros [= -> _]|]. cbv zeta.
  pose proof (findFieldEnd_ok data Hb id (pos + 1) ltac:(lia)) as He.
  destruct (findFieldEnd id data (pos + 1)) as [e| | |] eqn:E; [|done..]. cbn [bind] in *. cbn in He.
  destruct (Z.ltb_spec e 0), (Z.ltb_spec (len data) e); cbn [orb]; try by intros [= -> _].
  destruct (slice data (pos + 1) e) as [w| | |]; [|done..]. cbn [bind].
  destruct (DecodeField id w) as [v| | |]; [|by apply IH; (done || lia)|done..].
  intros Hi Ha. eapply IH; [..|exact Hi|]; [done..|lia|].
  assert (id <> 7) as Hid.
  { intros ->. destruct (alarm_end_beyond data (pos + 1) b1) as (e' & He' & ?); [done..|lia|].
    unfold FieldAlarm in He'. rewrite E in He'. injection He' as ->. lia. }
  destruct msg. unfold storeField. destruct id as [|q|q]; [done| |done].
  repeat (destruct q as [q|q|]; try done); by destruct v.
Qed.

Lemma reissue_ok d data (Hb : all_bytes data) :
  if len data <? 8 then
    Decoder_DecodeReissueData d data = Err (Errorf "reissue data too short: %d bytes" [len data])
  else
    exists n msg, read16 data 6 = Ok n /\ Decoder_DecodeReissueData d data = Ok msg /\
      decodeTime6 (d_timeCodec d) (sub data 0 6) = Ok (ri_InfoTime msg) /\
      len (ri_DataItems msg) <= n /\ Forall (fun m => exists t, stampable t /\ built t m) (ri_DataItems msg).
Proof.
  unfold Decoder_DecodeReissueData. destruct (Z.ltb_spec (len data) 8); [done|].
  destruct (read16_returns data 6 ltac:(lia) ltac:(lia)) as [n Hn]. exists n.
  rewrite slice_ok by lia. cbn [bind].
  destruct (decodeTime6_total (d_timeCodec d) (sub data 0 (0 + 6))) as [t Ht];
    [rewrite len_sub; lia|]. rewrite Ht. cbn [bind]. cbv zeta. change (0 + 6) with 6. rewrite Hn.
  cbn [bind].
  destruct (yields_ok _ _ (reissueItems_ok d data (Z.to_nat n) (6 + 2) [] Hb ltac:(lia)))
    as (ms & -> & ms' & -> & Hl & Hms). cbn [bind app].
  eexists. split; [done|]. split; [done|]. cbn. split_and!; [done| |done].
  assert (0 <= n); [|unfold len; lia].
  pose proof (post_read16 (fun _ => False) data 6 is_uint16 Hb ltac:(lia) ltac:(lia) ltac:(done)) as Hp.
  rewrite Hn in Hp. cbn in Hp. width_lia.
Qed.

Lemma reissue_ensures d data : all_bytes data -> ensures (Decoder_DecodeReissueData d data) (fun _ => True).
Proof.
  intros Hb. pose proof (reissue_ok d data Hb) as H. destruct (len data <? 8); [by rewrite H|].
  by destruct H as (n & msg & _ & -> & _).
Qed.

Lemma realtime_ensures d data : all_bytes data -> ensures (Decoder_DecodeRealtimeData d data) (fun _ => True).
Proof.
  intros Hb. destruct (Z.lt_ge_cases (len data) 6).
  - unfold Decoder_DecodeRealtimeData. by destruct (Z.ltb_spec (len data) 6); [|lia].
  - rewrite Decoder_DecodeRealtimeData_item by done.
    by destruct (yields_ok _ _ (decodeRealtimeItem_ok d data Hb ltac:(lia))) as ([m p] & -> & _).
Qed.

(** Laid-out bodies decode to what they hold. *)
Lemma DecodeRealtimeData_enc t vs rest
    (Ht : 2000 <= Year t < 2160) (Hv : Forall plain_field vs) (Hr : stops rest) :
  DecodeRealtimeData (enc_message t vs ++ rest) =
    Ok (fold_left stored vs (newMessage (wall_utc t))).
Proof.
  unfold DecodeRealtimeData. rewrite Decoder_DecodeRealtimeData_item.
  - by rewrite decodeRealtimeItem_enc.
  - rewrite len_app. pose proof (len_enc_message t vs). pose proof (len_nonneg rest). lia.
Qed.

(** And bodies of items, through [decodeRealtimeItem]. *)
Lemma DecodeReissueData_enc t its rest
    (Ht : 2000 <= Year t < 2160) (Hi : Forall item_ok its) (Hn : len its < 65536)
    (Hr : stops rest) :
  DecodeReissueData (encodeTime6 t ++ put16 (len its) ++ concat (enc_item <$> its) ++ rest) =
    Ok (mkReissueMessage (wall_utc t) (message_of <$> its)).
Proof.
  unfold DecodeReissueData, Decoder_DecodeReissueData.
  set (data := encodeTime6 t ++ _). pose proof (len_nonneg its).
  assert (at_pos data 0 (encodeTime6 t ++ put16 (len its) ++ concat (enc_item <$> its) ++ rest)) as H'
    by apply at_pos_0.
  pose proof (at_pos_bound _ _ _ H') as [_ Hl]. unfold encodeTime6 in Hl. len_simpl.
  pose proof (len_nonneg rest). pose proof (len_nonneg (concat (enc_item <$> its))).
  not_short; [lia|]. clearbody data. cbv zeta.
  destruct (time_at _ _ _ _ H' Ht) as (Hb & Hd & Hp). rewrite Hb. cbn [bind d_timeCodec defaultDecoder].
  rewrite Hd. cbn [bind]. clear H'. assert (is_uint16 (len its)) by (unfold is_uint16; lia).
  read_u16 Hp. rewrite to_nat_len. by rewrite (reissueItems_all its _ _ rest).
Qed.

Lemma reissued_items t its : Forall item_ok its ->
  reissued t its (mkReissueMessage (wall_utc t) (message_of <$> its)).
Proof.
  intros Hi. split; [done|]. cbn. rewrite Forall2_fmap_r. apply Forall_Forall2_diag.
  eapply Forall_impl; [exact Hi|]. intros i [_ Hv]. by apply carries_fields.
Qed.

(** ** Properties *)

(** C11: A realtime body laid out as a time and any sequence of whole data fields,
    alarms apart, decodes to the message that carries them ([carries], a relation field
    by named field that does not mention the decoder): the last vehicle, fuel cell,
    engine, position, extreme and voltage data with every value under its own name, the
    motors of every motor field one after another, no alarm.  A temperature field is read
    over, and nothing of it is kept: the message has no place for it.  There is only one
    such message.  The decoder finds every field's end from the counts inside it. *)
Theorem realtime_roundtrip t vs rest
    (Ht : 2000 <= Year t < 2160) (Hv : Forall plain_field vs) (Hr : stops rest) :
  exists m, DecodeRealtimeData (enc_message t vs ++ rest) = Ok m /\ carries t vs m /\
    forall m', carries t vs m' -> m' = m.
Proof.
  pose proof (carries_fields t vs Hv) as Hc. eexists. split; [by apply DecodeRealtimeData_enc|].
  split; [exact Hc|]. intros m' Hm'. by eapply carries_unique.
Qed.

(** Sample values. *)
Definition sample_time : Time := Date 2024 5 17 8 30 0 0.
Definition sample_fields : list FieldValue :=
  [VVehicle (Codec.mkVehicleBaseInfo 1 3 1 605 123456 3850 10120 87 1 14 2048 0);
   VEngine (Codec.mkEngineInfo 1 3000 250);
   VVoltage (Codec.mkVoltageInfo 1 [Codec.mkSubsystemVoltage 1 3851 10121 1 [Codec.mkCellVoltage 1 (Codec.mkCellInfo 3300 0)]]);
   VMotor [Codec.mkMotorInfo 1 1 40 1000 100 35 300 50];
   VTemperature (mkTemperatureInfo 1 [mkSubsystemTemperature 1 2 [60; 61]]);
   VMotor [Codec.mkMotorInfo 2 1 41 900 90 36 301 51];
   VPosition (Codec.mkPositionInfo 116000000 39000000)].

Lemma sample_fields_ok : Forall plain_field sample_fields.
Proof.
  repeat (apply Forall_cons_2; [split; [|reflexivity]; cbn;
    unfold fits_vehicle, fits_voltage, fits_subvoltage, fits_cell, fits_engine, fits_motors, fits_motor, fits_temperature, fits_subtemperature, fits_position;
    widths|]). apply Forall_nil_2.
Qed.

Lemma sample_time_year : 2010 <= Year sample_time < 2160.
Proof. vm_compute. split; [discriminate|reflexivity]. Qed.

(** The message of the sample. *)
Definition sample_message : RealtimeMessage :=
  mkRealtimeMessage sample_time
    (Some (mkVehicleBaseInfo 1 3 1 605 123456 3850 10120 87 1 14 2048))
    [mkMotorInfo 1 1 40 1000 100 35 300 50; mkMotorInfo 2 1 41 900 90 36 301 51]
    None (Some (mkEngineInfo 1 3000 250)) (Some (mkPositionInfo 116000000 39000000)) None None
    (Some (mkVoltageInfo 1 [mkSubsystemVoltage 1 3851 10121 1 [mkCellVoltage 1 (mkCellInfo 3300 0)]])).

Lemma sample_carried : carries sample_time sample_fields sample_message.
Proof. split; repeat (constructor; try reflexivity). Qed.

Lemma realtime_roundtrip_witness :
  DecodeRealtimeData (enc_message sample_time sample_fields ++ [0; 1]) = Ok sample_message.
Proof.
  destruct (realtime_roundtrip sample_time sample_fields [0; 1] ltac:(pose proof sample_time_year; lia)
    sample_fields_ok eq_refl) as (m & -> & _ & Hm).
  by rewrite (Hm _ sample_carried).
Defined.

(** The realtime decoder on any body. *)
Lemma realtime_decides d data (Hb : all_bytes data) :
  if len data <? 6 then
    Decoder_DecodeRealtimeData d data = Err (Errorf "realtime data too short: %d bytes" [len data])
  else
    exists t vs, decodeTime6 (d_timeCodec d) (sub data 0 6) = Ok t /\ Forall value_ok vs /\
      Decoder_DecodeRealtimeData d data = Ok (fold_left stored vs (newMessage t)).
Proof.
  destruct (Z.ltb_spec (len data) 6).
  - unfold Decoder_DecodeRealtimeData. by destruct (Z.ltb_spec (len data) 6); [|lia].
  - rewrite Decoder_DecodeRealtimeData_item by done.
    destruct (yields_ok _ _ (decodeRealtimeItem_ok d data Hb ltac:(lia)))
      as ([m p] & -> & _ & t & Ht & vs & Hvs & ->). by exists t, vs.
Qed.

(** The two copies of the field loop are one decoder: on any body of 6
    bytes or more [decodeRealtimeItem] returns the message of
    [DecodeRealtimeData], with the position where it stopped. *)
Theorem item_agrees_with_realtime d data (Hb : all_bytes data) (Hl : 6 <= len data) :
  exists m pos, decodeRealtimeItem d data = Ok (m, pos) /\
    Decoder_DecodeRealtimeData d data = Ok m /\ 6 <= pos <= len data.
Proof.
  rewrite Decoder_DecodeRealtimeData_item by done.
  destruct (yields_ok _ _ (decodeRealtimeItem_ok d data Hb Hl)) as ([m p] & -> & ? & _).
  by exists m, p.
Qed.

Lemma item_agrees_with_realtime_witness :
  exists m pos, decodeRealtimeItem defaultDecoder (enc_message sample_time []) = Ok (m, pos) /\
    DecodeRealtimeData (enc_message sample_time []) = Ok m /\ 6 <= pos <= 6.
Proof.
  apply (item_agrees_with_realtime defaultDecoder (enc_message sample_time []));
    [check_bytes | vm_compute; discriminate].
Defined.

(** No alarm is ever decoded: [findFieldEnd] takes bytes 1 to 4 of the
    body, the month to the minute of its time, for the alarm length, so in any
    body under 16 MiB whose month byte is not zero the field is out of range
    and the message has no alarm data. *)
Theorem alarm_never_decoded d data month msg
    (Hb : all_bytes data) (Hl : len data < 16777216)
    (Hm : index data 1 = Ok month) (Hmonth : 1 <= month)
    (Hd : Decoder_DecodeRealtimeData d data = Ok msg) :
  rt_AlarmData msg = None.
Proof.
  destruct (Z.lt_ge_cases (len data) 6) as [Hs|Hs].
  - unfold Decoder_DecodeRealtimeData in Hd. by destruct (Z.ltb_spec (len data) 6); [|lia].
  - rewrite Decoder_DecodeRealtimeData_item in Hd by done. unfold decodeRealtimeItem in Hd.
    destruct (Z.ltb_spec (len data) 6); [lia|].
    destruct (slice data 0 6); [|done..]. cbn [bind] in Hd.
    destruct (decodeTime6 _ _); [|done..]. cbn [bind] in Hd.
    destruct (itemFields _ _ _ _) as [[m p]| | |] eqn:E; [|done..]. cbn [bind] in Hd.
    injection Hd as ->. by eapply itemFields_no_alarm in E; [|done..].
Qed.

Lemma alarm_never_decoded_witness :
  let data := enc_message sample_time [VAlarm (Codec.mkAlarmInfo 2 1 [7])] in
  exists msg, DecodeRealtimeData data = Ok msg /\ rt_AlarmData msg = None.
Proof.
  cbv zeta. eexists. split; [vm_compute; reflexivity|].
  apply (alarm_never_decoded defaultDecoder (enc_message sample_time [VAlarm (Codec.mkAlarmInfo 2 1 [7])]) 5);
    [check_bytes | done | done | done | vm_compute; reflexivity].
Defined.

(** C37: An alarm field hides what follows it: of a body under 16 MiB, the
    fields in front of the alarm are decoded and everything behind it is lost. *)
Theorem alarm_hides_rest t vs a rest
    (Ht : 2000 <= Year t < 2160) (Hv : Forall plain_field vs) (Hb : fits_alarm a)
    (Hr : all_bytes rest)
    (Hl : len (enc_message t vs ++ enc_field (VAlarm a) ++ rest) < 16777216) :
  DecodeRealtimeData (enc_message t vs ++ enc_field (VAlarm a) ++ rest) =
  DecodeRealtimeData (enc_message t vs).
Proof.
  unfold DecodeRealtimeData. set (s := enc_field (VAlarm a) ++ rest).
  pose proof (len_enc_message t vs). pose proof (len_nonneg s).
  rewrite !Decoder_DecodeRealtimeData_item by (rewrite ?len_app; lia).
  rewrite <- (app_nil_r (enc_message t vs)) at 2. rewrite (decodeRealtimeItem_enc t vs []) by done.
  rewrite decodeRealtimeItem_message by done. cbv zeta.
  destruct (itemFields_message t vs s (newMessage (wall_utc t)) Hv) as [[fuel ->] H'].
  set (data := enc_message t vs ++ s) in *. set (pos := 6 + _) in *.
  assert (all_bytes data) as Hdata.
  { apply Forall_app_2; [by apply enc_message_bytes|]. apply Forall_app_2; [|done].
    apply (enc_field_bytes (VAlarm a)). done. }
  pose proof (len_nonneg (concat (enc_field <$> vs))).
  destruct (alarm_end_beyond data (pos + 1) (to_bcd (Month t))) as (e & He & Hout);
    [done | done | apply (month_byte t vs s) | apply (month_byte t vs s) | lia |].
  clearbody data pos. cbn [itemFields]. pose proof (at_pos_bound _ _ _ H') as [_ Hlen]. unfold s at 1 in Hlen.
  unfold enc_field in Hlen. rewrite len_app, len_cons in Hlen.
  pose proof (len_nonneg (enc_value (VAlarm a))). pose proof (len_nonneg rest).
  destruct (Z.ltb_spec pos (len data)); [|lia]. destruct (Z.ltb_spec (len data) (pos + 1)); [lia|].
  unfold s, enc_field in H'. cbn [app] in H'. cbn [negb]. read_byte H'.
  cbv zeta. cbn [field_id]. rewrite He. cbn [bind].
  by destruct (Z.ltb_spec e 0), (Z.ltb_spec (len data) e); cbn; try lia.
Qed.

Lemma alarm_hides_rest_witness :
  DecodeRealtimeData (enc_message sample_time [] ++
      enc_field (VAlarm (Codec.mkAlarmInfo 2 1 [7])) ++ enc_field (VEngine (Codec.mkEngineInfo 1 3000 250))) =
  DecodeRealtimeData (enc_message sample_time []).
Proof.
  refine (alarm_hides_rest sample_time [] (Codec.mkAlarmInfo 2 1 [7])
            (enc_field (VEngine (Codec.mkEngineInfo 1 3000 250))) _ _ _ _ _).
  - pose proof sample_time_year. lia.
  - constructor.
  - unfold fits_alarm. widths.
  - check_bytes.
  - done.
Defined.

(** C34: Reissue: items laid out one behind the other, alarms apart and their times from
    2010 on, decode to as many messages in the same order, and each carries the time and
    the fields of its item ([carries]; nothing of a temperature field is kept).  No length
    separates the items; one ends where the next one's year is not a field identifier. *)
Theorem reissue_roundtrip t its rest
    (Ht : 2000 <= Year t < 2160) (Hi : Forall item_ok its) (Hn : len its < 65536)
    (Hr : stops rest) :
  exists m, DecodeReissueData (encodeTime6 t ++ put16 (len its) ++ concat (enc_item <$> its) ++ rest) = Ok m /\
    reissued t its m.
Proof. eexists. split; [by apply DecodeReissueData_enc|]. by apply reissued_items. Qed.

Lemma reissue_roundtrip_witness :
  exists m1 m2,
    DecodeReissueData (encodeTime6 sample_time ++ put16 2 ++
        concat (enc_item <$> [(sample_time, sample_fields); (sample_time, [])]) ++ []) =
      Ok (mkReissueMessage sample_time [m1; m2]) /\
    m1 = sample_message /\ carries sample_time [] m2.
Proof.
  destruct (reissue_roundtrip sample_time [(sample_time, sample_fields); (sample_time, [])] [])
    as ([t ms] & Hd & [Ht Hms]).
  - pose proof sample_time_year. lia.
  - repeat apply Forall_cons_2; [| |apply Forall_nil_2]; (split; [exact sample_time_year|]).
    + exact sample_fields_ok.
    + apply Forall_nil_2.
  - done.
  - exact I.
  - cbn [ri_InfoTime ri_DataItems] in *. inversion Hms as [|? m1 ? ms1 H1 Hms1]; subst.
    inversion Hms1 as [|? m2 ? ms2 H2 Hms2]; subst. inversion Hms2; subst.
    exists m1, m2. split; [exact Hd|]. split; [|exact H2].
    exact (carries_unique _ _ _ _ H1 sample_carried).
Defined.

(** C24: The message decoders are total: on any bytes they terminate without
    reading out of range.  [DecodeRealtimeData] refuses exactly a body under 6
    bytes; otherwise the message is its time with some list of well-formed field
    values stored in it, whatever the rest of the body was.  [DecodeReissueData]
    refuses exactly a body under 8 bytes; otherwise it returns its time and at
    most the announced number of items, each well-formed. *)
Theorem messages_total d data (Hb : all_bytes data) :
  (if len data <? 6 then
     Decoder_DecodeRealtimeData d data = Err (Errorf "realtime data too short: %d bytes" [len data])
   else
     exists t vs, decodeTime6 (d_timeCodec d) (sub data 0 6) = Ok t /\ Forall value_ok vs /\
       Decoder_DecodeRealtimeData d data = Ok (fold_left stored vs (newMessage t))) /\
  (if len data <? 8 then
     Decoder_DecodeReissueData d data = Err (Errorf "reissue data too short: %d bytes" [len data])
   else
     exists n msg, read16 data 6 = Ok n /\ Decoder_DecodeReissueData d data = Ok msg /\
       decodeTime6 (d_timeCodec d) (sub data 0 6) = Ok (ri_InfoTime msg) /\
       len (ri_DataItems msg) <= n /\ Forall (fun m => exists t, stampable t /\ built t m) (ri_DataItems msg)).
Proof. split; [by apply realtime_decides | by apply reissue_ok]. Qed.

Lemma messages_total_witness :
  (exists t vs, Forall value_ok vs /\
    DecodeRealtimeData [36; 5; 23; 8; 48; 0; 0; 2; 36] = Ok (fold_left stored vs (newMessage t))) /\
  exists n msg, read16 [36; 5; 23; 8; 48; 0; 0; 2; 36] 6 = Ok n /\
    DecodeReissueData [36; 5; 23; 8; 48; 0; 0; 2; 36] = Ok msg /\ len (ri_DataItems msg) <= n.
Proof.
  assert (all_bytes [36; 5; 23; 8; 48; 0; 0; 2; 36]) as Hb by check_bytes.
  destruct (messages_total defaultDecoder _ Hb) as [(t & vs & _ & Hvs & Hr) (n & msg & H1 & H2 & _ & H3 & _)].
  split; [by exists t, vs | by exists n, msg].
Defined.
