(* ===== verification/Json.v ===== *)
(** * JSON

    Values and their text, as package [encoding/json] writes it (the characters it
    escapes, ill-formed UTF-8), and a reader of RFC 8259 texts that knows nothing of
    the writer: it gives the value back, with ill-formed bytes replaced
    ([readJson_print]). *)
From S2P Require Import Prelude.
From S2P Require Import Text.
From S2P Require Import Framing.
From S2P Require Import Stream.

(** ** JSON *)

(** Every number of these messages is an unsigned integer. *)
Unset Elimination Schemes.
Inductive json :=
  | JNull
  | JNum (n : Z)
  | JStr (s : gostring)
  | JArr (l : list json)
  | JObj (l : list (string * json)).
Set Elimination Schemes.

(** ** Writing ([encoding/json]) *)

Definition backslash : byte := 92.

(** An ASCII byte in a string: quote and backslash are escaped, control
    characters, and the three characters HTML gives a meaning. *)
Definition escapeByte (b : byte) : bytes :=
  if (b =? 34) || (b =? backslash) then [backslash; b]
  else if b =? 8 then [backslash; 98]
  else if b =? 12 then [backslash; 102]
  else if b =? 10 then [backslash; 110]
  else if b =? 13 then [backslash; 114]
  else if b =? 9 then [backslash; 116]
  else if (b <? 32) || (b =? 60) || (b =? 62) || (b =? 38)
  then lit "\u00" ++ [hexDigit (b / 16); hexDigit (b mod 16)]
  else [b].

(** [appendString]'s loop: ill-formed UTF-8 is written as an escaped
    replacement character, the two line separators of JavaScript are escaped. *)
Fixpoint escape (n : nat) (s : gostring) : bytes :=
  match n, s with
  | S n, b :: t =>
      if b <? 128 then escapeByte b ++ escape n t else
      let '(c, w) := decodeRune b t in
      (if (c =? RuneError) && (w =? 1)%nat then lit "\ufffd"
       else if (c =? 0x2028) || (c =? 0x2029) then lit "\u202" ++ [hexDigit (c mod 16)]
       else take w (b :: t)) ++ escape n (drop w (b :: t))
  | _, _ => []
  end.

Definition quote (s : gostring) : bytes := 34 :: escape (length s) s ++ [34].

Fixpoint commas (items : list bytes) : bytes :=
  match items with
  | [] => []
  | [x] => x
  | x :: items => x ++ 44 :: commas items
  end.

Fixpoint print (j : json) : bytes :=
  match j with
  | JNull => lit "null"
  | JNum n => Sprint_d n
  | JStr s => quote s
  | JArr l => 91 :: commas (print <$> l) ++ [93]
  | JObj l => 123 :: commas ((fun kv => quote (lit kv.1) ++ 58 :: print kv.2) <$> l) ++ [125]
  end.

(** ** Reading (RFC 8259) *)

(** [string] is a run of characters up to the closing quote; a [\u] escape
    stands for a code point outside the surrogates, written in UTF-8. *)
Definition hexValue (b : byte) : option Z :=
  if in_range b 48 57 then Some (b - 48)
  else if in_range b 97 102 then Some (b - 87)
  else if in_range b 65 70 then Some (b - 55) else None.

(** The UTF-8 of a code point below 0x10000. *)
Definition utf8 (c : Z) : bytes :=
  if c <? 0x80 then [c]
  else if c <? 0x800 then [0xC0 + c / 64; 0x80 + c mod 64]
  else [0xE0 + c / 4096; 0x80 + c / 64 mod 64; 0x80 + c mod 64].

Definition readEscape (e : byte) (s : bytes) : option (bytes * bytes) :=
  if (e =? 34) || (e =? backslash) || (e =? 47) then Some ([e], s)
  else if e =? 98 then Some ([8], s)
  else if e =? 102 then Some ([12], s)
  else if e =? 110 then Some ([10], s)
  else if e =? 114 then Some ([13], s)
  else if e =? 116 then Some ([9], s)
  else if e =? 117 then
    match s with
    | h3 :: h2 :: h1 :: h0 :: s =>
        h3 ← hexValue h3; h2 ← hexValue h2; h1 ← hexValue h1; h0 ← hexValue h0;
        let c := ((h3 * 16 + h2) * 16 + h1) * 16 + h0 in
        if in_range c 0xD800 0xDFFF then None else Some (utf8 c, s)
    | _ => None
    end
  else None.

Fixpoint readString (n : nat) (s : bytes) : option (gostring * bytes) :=
  match n, s with
  | S n, b :: s =>
      if b =? 34 then Some ([], s)
      else if b =? backslash then
        match s with
        | e :: s =>
            '(c, s) ← readEscape e s; '(cs, s) ← readString n s; Some (c ++ cs, s)
        | [] => None
        end
      else if b <? 32 then None
      else '(cs, s) ← readString n s; Some (b :: cs, s)
  | _, _ => None
  end.

Definition digit (b : byte) : bool := in_range b 48 57.

Fixpoint readDigits (s : bytes) : gostring * bytes :=
  match s with
  | b :: t => if digit b then let '(ds, t) := readDigits t in (b :: ds, t) else ([], s)
  | [] => ([], [])
  end.

(** Items up to [close], commas between them. *)
Fixpoint readItems {A} (item : bytes -> option (A * bytes)) (close : byte) (n : nat) (s : bytes)
  : option (list A * bytes) :=
  match n with
  | O => None
  | S n =>
      '(a, s) ← item s;
      match s with
      | b :: s =>
          if b =? close then Some ([a], s)
          else if b =? 44 then '(l, s) ← readItems item close n s; Some (a :: l, s)
          else None
      | [] => None
      end
  end.

Definition readList {A} (item : bytes -> option (A * bytes)) (close : byte) (s : bytes)
  : option (list A * bytes) :=
  match s with
  | b :: t => if b =? close then Some ([], t) else readItems item close (length s) s
  | [] => None
  end.

(** A key, read as the bytes of its characters, and its value. *)
Definition readField {A} (value : bytes -> option (A * bytes)) (s : bytes) : option (string * A * bytes) :=
  match s with
  | 34 :: s =>
      '(k, s) ← readString (length s) s;
      match s with
      | 58 :: s =>
          '(v, s) ← value s;
          Some (String.string_of_list_ascii ((fun b => Ascii.ascii_of_nat (Z.to_nat b)) <$> k), v, s)
      | _ => None
      end
  | _ => None
  end.

(** [fuel] bounds the depth of the value. *)
Fixpoint readValue (fuel : nat) (s : bytes) : option (json * bytes) :=
  match fuel, s with
  | S fuel, b :: t =>
      if b =? 110 then
        match t with 117 :: 108 :: 108 :: t => Some (JNull, t) | _ => None end
      else if b =? 34 then '(str, t) ← readString (length t) t; Some (JStr str, t)
      else if b =? 91 then '(l, t) ← readList (readValue fuel) 93 t; Some (JArr l, t)
      else if b =? 123 then '(l, t) ← readList (readField (readValue fuel)) 125 t; Some (JObj l, t)
      else if digit b then let '(ds, t) := readDigits s in Some (JNum (digits_value ds), t)
      else None
  | _, _ => None
  end.

(** A text is one value and nothing behind it. *)
Definition readJson (s : bytes) : option json :=
  match readValue (length s) s with Some (j, []) => Some j | _ => None end.

(** ** What a reader gets *)

(** A string with every ill-formed byte replaced ([strings.ToValidUTF8]). *)
Fixpoint toValid (n : nat) (s : gostring) : gostring :=
  match n, s with
  | S n, b :: t =>
      let '(c, w) := decodeRune b t in
      (if (c =? RuneError) && (w =? 1)%nat then [0xEF; 0xBF; 0xBD] else take w (b :: t)) ++
      toValid n (drop w (b :: t))
  | _, _ => []
  end.
Definition valid (s : gostring) : gostring := toValid (length s) s.

Fixpoint json_valid (j : json) : json :=
  match j with
  | JStr s => JStr (valid s)
  | JArr l => JArr (json_valid <$> l)
  | JObj l => JObj (prod_map id json_valid <$> l)
  | _ => j
  end.

(** ** Lemmas *)

(** *** Strings *)

Lemma hexValue_hexDigit n : 0 <= n < 16 -> hexValue (hexDigit n) = Some n.
Proof.
  intros Hn. unfold hexDigit, hexValue, in_range. destruct (Z.ltb_spec n 10);
    repeat match goal with |- context [?a <=? ?b] => destruct (Z.leb_spec a b); try lia end;
    cbn [andb]; f_equal; lia.
Qed.

(** A rune behind an ASCII byte: ill-formed, or all its bytes continue it. *)
Definition rune_ok (b : byte) (t : bytes) (r : Z * nat) : Prop :=
  r = (RuneError, 1%nat) \/
  ((2 <= r.2 <= length (b :: t))%nat /\ Forall (Z.le 128) (take r.2 (b :: t)) /\
   (r.1 = 0x2028 \/ r.1 = 0x2029 -> take r.2 (b :: t) = utf8 r.1)).

Lemma decodeRune_ok b t : 128 <= b -> rune_ok b t (decodeRune b t).
Proof.
  intros Hb. unfold decodeRune. destruct (Z.ltb_spec b 0x80); [lia|].
  destruct (in_range b 0xC2 0xDF) eqn:E2; [|destruct (in_range b 0xE0 0xEF) eqn:E3;
    [|destruct (in_range b 0xF0 0xF4) eqn:E4; [|by left]]];
    rewrite ?in_range_spec in *.
  - destruct t as [|b1 t]; [by left|]. destruct (in_range b1 _ _) eqn:E; [|by left].
    apply in_range_spec in E. right. cbn [fst snd take length]. split; [lia|].
    split; [repeat constructor; lia|].
    rewrite rune_step, (land_ones_mod b 31 5) by done. change (2 ^ 5) with 32. intros. zdm. lia.
  - destruct t as [|b1 [|b2 t]]; [by left..|].
    destruct (in_range b1 _ _ && _) eqn:E; [|by left].
    apply andb_true_iff in E as [E E']. apply in_range_spec in E, E'. right. cbn [fst snd take length].
    split; [lia|]. assert (128 <= b1 <= 191) as Hb1 by (destruct (b =? 0xE0), (b =? 0xED); lia).
    split; [repeat constructor; lia|].
    rewrite !rune_step, (land_ones_mod b 15 4) by done. change (2 ^ 4) with 16. intros Hc.
    assert (b = 0xE2 /\ b1 = 0x80) as [-> ->] by (zdm; lia).
    destruct Hc as [Hc|Hc]; rewrite Hc; (assert (b2 = 0xA8 \/ b2 = 0xA9) as [-> | ->] by (zdm; lia)); first [reflexivity|exfalso; zdm; lia].
  - destruct t as [|b1 [|b2 [|b3 t]]]; [by left..|].
    destruct (in_range b1 _ _ && _ && _) eqn:E; [|by left].
    apply andb_true_iff in E as [[E E']%andb_true_iff E'']. apply in_range_spec in E, E', E''.
    right. cbn [fst snd take length]. split; [lia|].
    assert (128 <= b1 <= 191 /\ (b = 0xF0 -> 144 <= b1)) as [Hb1 Hb0].
    { destruct (Z.eqb_spec b 0xF0), (Z.eqb_spec b 0xF4); lia. }
    split; [repeat constructor; lia|].
    rewrite !rune_step, (land_ones_mod b 7 3) by done. change (2 ^ 3) with 8. intros. zdm. lia.
Qed.

(** What [readString] makes of a first part that stands for [c]. *)
Definition reads (part c : bytes) : Prop :=
  forall n s, (length part < n)%nat ->
    exists k, (n <= k + length part)%nat /\ (k < n)%nat /\
      readString n (part ++ s) = '(cs, s) ← readString k s; Some (c ++ cs, s).

Lemma reads_char b : 32 <= b -> b <> 34 -> b <> backslash -> reads [b] [b].
Proof.
  intros H1 H2 H3 [|n] s Hn; [cbn in Hn; lia|]. exists n. cbn [length app]. split; [lia|]. split; [lia|].
  cbn [readString]. destruct (Z.eqb_spec b 34), (Z.eqb_spec b backslash), (Z.ltb_spec b 32); try lia. done.
Qed.

Lemma reads_app p1 p2 c1 c2 : reads p1 c1 -> reads p2 c2 -> reads (p1 ++ p2) (c1 ++ c2).
Proof.
  intros H1 H2 n s Hn. rewrite length_app in Hn. rewrite <- app_assoc.
  destruct (H1 n (p2 ++ s)) as (k1 & L1 & M1 & ->); [lia|].
  destruct (H2 k1 s) as (k2 & L2 & M2 & ->); [lia|]. exists k2. rewrite length_app.
  split; [lia|]. split; [lia|]. destruct (readString k2 s) as [[cs s']|]; [|done]. cbn. by rewrite app_assoc.
Qed.

Lemma reads_high l : l <> [] -> Forall (Z.le 128) l -> reads l l.
Proof.
  intros Hne H. induction H as [|b l Hb H IH]; [done|].
  destruct (decide (l = [])) as [->|Hl].
  - apply reads_char; unfold backslash; lia.
  - apply (reads_app [b] l [b] l); [|by apply IH]. apply reads_char; unfold backslash; lia.
Qed.

(** An escape, by computation. *)
Lemma reads_escape e part c :
  (forall s, readEscape e (part ++ s) = Some (c, s)) -> reads (backslash :: e :: part) c.
Proof.
  intros He [|n] s Hn; [cbn in Hn; lia|]. exists n. cbn [length app] in *. split; [lia|]. split; [lia|].
  cbn [readString]. change (backslash =? 34) with false. change (backslash =? backslash) with true.
  cbn iota. rewrite He. done.
Qed.

Lemma reads_escapeByte b : 0 <= b < 128 -> reads (escapeByte b) [b].
Proof.
  intros Hb. unfold escapeByte.
  destruct (Z.eqb_spec b 34) as [->|]; [by apply (reads_escape 34 [])|].
  destruct (Z.eqb_spec b backslash) as [->|]; [by apply (reads_escape backslash [])|].
  cbn [orb].
  destruct (Z.eqb_spec b 8) as [->|]; [by apply (reads_escape 98 [])|].
  destruct (Z.eqb_spec b 12) as [->|]; [by apply (reads_escape 102 [])|].
  destruct (Z.eqb_spec b 10) as [->|]; [by apply (reads_escape 110 [])|].
  destruct (Z.eqb_spec b 13) as [->|]; [by apply (reads_escape 114 [])|].
  destruct (Z.eqb_spec b 9) as [->|]; [by apply (reads_escape 116 [])|].
  destruct (_ || _) eqn:E.
  - change (lit "\u00") with [backslash; 117; 48; 48]. cbn [app].
    apply (reads_escape 117 [48; 48; hexDigit (b / 16); hexDigit (b mod 16)]).
    intros s. cbn [app readEscape]. change (hexValue 48) with (Some 0). cbn.
    rewrite !hexValue_hexDigit by (zdm; lia). cbn.
    replace ((((48 - 48) * 16 + (48 - 48)) * 16 + b / 16) * 16 + b mod 16) with b by (zdm; lia).
    unfold in_range, utf8. destruct (Z.leb_spec 0xD800 b), (Z.ltb_spec b 0x80); try lia. done.
  - rewrite !orb_false_iff in E. destruct E as [[[E _] _] _]. apply Z.ltb_ge in E. by apply reads_char.
Qed.

Lemma readString_escape m : forall s n rest,
  Forall (Z.le 0) s -> (length s <= m)%nat -> (length (escape m s) < n)%nat ->
  readString n (escape m s ++ 34 :: rest) = Some (toValid m s, rest).
Proof.
  assert (forall part c more cs n rest, reads part c -> (length (part ++ more) < n)%nat ->
    (forall k, (length more < k)%nat -> readString k (more ++ 34 :: rest) = Some (cs, rest)) ->
    readString n ((part ++ more) ++ 34 :: rest) = Some (c ++ cs, rest)) as Hstep.
  { intros part c more cs n rest Hr Hn Hk. rewrite length_app in Hn. rewrite <- app_assoc.
    destruct (Hr n (more ++ 34 :: rest)) as (k & L & _ & ->); [lia|]. rewrite Hk by lia. done. }
  induction m as [|m IH]; intros [|b t] n rest Hs Hm Hn; try (cbn in Hm; lia);
    try (destruct n; [cbn in Hn; lia|]; done).
  cbn [escape toValid] in *. inversion_clear Hs as [|? ? Hb Ht]. cbn [length] in Hm.
  destruct (Z.ltb_spec b 128).
  - rewrite decodeRune_ascii in * by done. assert ((b =? RuneError) = false) as -> by (apply Z.eqb_neq; unfold RuneError; lia).
    cbn [andb take drop] in *. rewrite drop_0 in *. apply Hstep; [by apply reads_escapeByte|done|].
    intros k Hk. apply IH; [done|lia|done].
  - pose proof (decodeRune_ok b t ltac:(done)) as Hok. destruct (decodeRune b t) as [c w].
    destruct Hok as [[= -> ->]|(Hw & Hh & Hsep)].
    + change ((RuneError =? RuneError) && (1 =? 1)%nat) with true in *. cbn iota in *. cbn [drop] in *.
      rewrite drop_0 in *. apply Hstep; [|done|intros k Hk; apply IH; [done|lia|done]].
      apply (reads_escape 117 [102; 102; 102; 100]). done.
    + cbn [fst snd] in *. assert ((c =? RuneError) && (w =? 1)%nat = false) as E.
      { apply andb_false_iff. right. apply Nat.eqb_neq. lia. }
      rewrite E in *. assert (forall k, (length (escape m (drop w (b :: t))) < k)%nat ->
        readString k (escape m (drop w (b :: t)) ++ 34 :: rest) = Some (toValid m (drop w (b :: t)), rest)) as Hk.
      { intros k Hk. apply IH; [|rewrite length_drop; cbn [length]; lia|done].
        apply Forall_drop. by constructor. }
      destruct ((c =? 0x2028) || (c =? 0x2029)) eqn:Ec.
      * apply Hstep; [|done|done]. rewrite orb_true_iff, !Z.eqb_eq in Ec. rewrite (Hsep Ec).
        destruct Ec as [-> | ->];
          [apply (reads_escape 117 [50; 48; 50; 56])|apply (reads_escape 117 [50; 48; 50; 57])]; done.
      * apply Hstep; [|done|done]. apply reads_high; [|done]. destruct w; [lia|done].
Qed.

Lemma readString_quote s n rest : Forall (Z.le 0) s -> (length (quote s) <= S n)%nat ->
  exists t, quote s ++ rest = 34 :: t /\ readString n t = Some (valid s, rest).
Proof.
  intros Hs Hn. exists (escape (length s) s ++ 34 :: rest). unfold quote in *.
  cbn [app length] in *. rewrite length_app in Hn. cbn in Hn. split; [by rewrite <- app_assoc|].
  apply readString_escape; [done|lia|lia].
Qed.

(** *** Values *)

Lemma json_ind (P : json -> Prop) :
  P JNull -> (forall n, P (JNum n)) -> (forall s, P (JStr s)) ->
  (forall l, Forall P l -> P (JArr l)) -> (forall l, Forall (fun kv => P kv.2) l -> P (JObj l)) ->
  forall j, P j.
Proof.
  intros H1 H2 H3 H4 H5. fix IH 1. intros [|n|s|l|l]; [exact H1|apply H2|apply H3|apply H4|apply H5].
  - induction l as [|j l IHl]; constructor; [apply IH|exact IHl].
  - induction l as [|[k j] l IHl]; constructor; [apply IH|exact IHl].
Qed.

Definition key_ok (k : string) : Prop :=
  String.string_of_list_ascii ((fun b => Ascii.ascii_of_nat (Z.to_nat b)) <$> valid (lit k)) = k.

(** Numbers are not negative, strings hold bytes, keys are ASCII. *)
Fixpoint json_ok (j : json) : Prop :=
  match j with
  | JNull => True
  | JNum n => 0 <= n
  | JStr s => Forall (Z.le 0) s
  | JArr l => foldr (fun j P => json_ok j /\ P) True l
  | JObj l => foldr (fun kv P => (key_ok kv.1 /\ json_ok kv.2) /\ P) True l
  end.

Lemma foldr_and {A} (P : A -> Prop) l : foldr (fun a Q => P a /\ Q) True l <-> Forall P l.
Proof. induction l as [|a l IH]; cbn; [by split|]. by rewrite Forall_cons, IH. Qed.

(** The text behind a value does not go on with a digit. *)
Definition stops (s : bytes) : Prop := match s with b :: _ => digit b = false | [] => True end.

Lemma readDigits_app ds s : Forall is_digit ds -> stops s -> readDigits (ds ++ s) = (ds, s).
Proof.
  intros Hd Hs. induction Hd as [|d ds Hd _ IH]; cbn.
  - destruct s as [|b s]; [done|]. cbn in *. by rewrite Hs.
  - assert (digit d = true) as -> by (apply in_range_spec; exact Hd). by rewrite IH.
Qed.

Section items.
Context {A : Type} (item : bytes -> option (A * bytes)) (close : byte).
Context (Hclose : close <> 44) (Hstop : digit close = false).

(** [item] reads the part as the value. *)
Definition reads_item (part : bytes) (a : A) : Prop :=
  (exists b t, part = b :: t /\ b <> close) /\
  forall s, stops s -> s <> [] -> item (part ++ s) = Some (a, s).

Lemma readItems_commas parts vals : Forall2 reads_item parts vals -> parts <> [] ->
  forall n rest, (length parts <= n)%nat ->
  readItems item close n (commas parts ++ close :: rest) = Some (vals, rest).
Proof.
  induction 1 as [|p a parts vals [_ Hp] Hl IH]; [done|]. intros _ [|n] rest Hn; [cbn in Hn; lia|].
  cbn [readItems]. destruct parts as [|q parts].
  - inversion_clear Hl. cbn [commas]. rewrite Hp by done. cbn. by rewrite Z.eqb_refl.
  - cbn [commas]. rewrite <- app_assoc. cbn [app]. rewrite Hp by done. cbn -[Z.eqb commas].
    destruct (Z.eqb_spec 44 close); [by subst|]. change (44 =? 44) with true. cbn iota. cbn [length] in Hn.
    rewrite IH by first [done|cbn; lia]. done.
Qed.

Lemma length_commas parts vals : Forall2 reads_item parts vals -> (length parts <= length (commas parts))%nat.
Proof.
  induction 1 as [|p a parts vals [(b & t & -> & _) _] _ IH]; [done|].
  destruct parts; cbn in *; [lia|]. rewrite length_app. cbn in *. lia.
Qed.

Lemma readList_commas parts vals rest : Forall2 reads_item parts vals ->
  readList item close (commas parts ++ close :: rest) = Some (vals, rest).
Proof.
  intros Hf. pose proof (length_commas _ _ Hf) as Hl. destruct parts as [|p parts].
  - inversion_clear Hf. cbn. by rewrite Z.eqb_refl.
  - assert (exists b t, commas (p :: parts) ++ close :: rest = b :: t /\ b <> close) as (b & t & E & Hb).
    { inversion_clear Hf as [|? ? ? ? [(b & t & -> & Hb) _] _]. exists b.
      destruct parts; cbn; by eexists. }
    assert (length parts < length (b :: t))%nat as Hn by (rewrite <- E, length_app; cbn in *; lia).
    unfold readList. rewrite E. destruct (Z.eqb_spec b close); [done|]. rewrite <- E at 2.
    by apply readItems_commas.
Qed.
End items.

Lemma print_head j : json_ok j -> exists b t, print j = b :: t /\ b <> 93 /\ b <> 125.
Proof.
  destruct j as [|n|s|l|l]; intros Hj; cbn; try (by eexists _, _).
  pose proof (Sprint_d_chars n Hj) as Hc. pose proof (Sprint_d_nonempty n) as Hn.
  destruct (Sprint_d n) as [|b t]; [done|]. exists b, t. inversion_clear Hc. unfold is_digit in *. by split_and!; [|lia..].
Qed.

Lemma length_commas_cons p parts :
  (length p <= length (commas (p :: parts)) /\ length (commas parts) <= length (commas (p :: parts)))%nat.
Proof. destruct parts; cbn [commas length]; [lia|]. rewrite length_app. cbn [length]. lia. Qed.

Lemma length_commas_item {A} (f : A -> bytes) x l :
  x ∈ l -> (length (f x) <= length (commas (f <$> l)))%nat.
Proof.
  induction 1 as [x l|x y l _ IH]; rewrite fmap_cons; [apply length_commas_cons|].
  etrans; [exact IH|]. apply length_commas_cons.
Qed.

Lemma lit_nonneg k : Forall (Z.le 0) (lit k).
Proof. apply Forall_fmap, Forall_true. intros c. cbn. lia. Qed.

Lemma readValue_print j : forall fuel rest, json_ok j -> stops rest -> (length (print j) <= fuel)%nat ->
  readValue fuel (print j ++ rest) = Some (json_valid j, rest).
Proof.
  induction j as [|n|s|l IH|l IH] using json_ind; intros fuel rest Hj Hr Hf;
    (destruct fuel as [|fuel]; [exfalso; revert Hf; try (cbn; lia)|]).
  - done.
  - destruct (Sprint_d n) eqn:E; [by apply Sprint_d_nonempty in E|]. cbn. rewrite E. cbn. lia.
  - cbn [print json_valid]. pose proof (Sprint_d_chars n Hj) as Hc.
    destruct (Sprint_d n) as [|d ds] eqn:E; [by apply Sprint_d_nonempty in E|]. cbn [app readValue].
    inversion_clear Hc as [|? ? Hd Hds]. unfold is_digit in Hd.
    destruct (Z.eqb_spec d 110), (Z.eqb_spec d 34), (Z.eqb_spec d 91), (Z.eqb_spec d 123); try lia.
    assert (digit d = true) as -> by (apply in_range_spec; lia).
    change (d :: ds ++ rest) with ((d :: ds) ++ rest). rewrite readDigits_app by (by try constructor).
    rewrite <- E. by rewrite (proj1 (Sprint_d_spec n Hj)).
  - cbn [print] in *. destruct (readString_quote s (pred (length (quote s ++ rest))) rest Hj) as (t & E & Ht).
    { rewrite length_app. cbn. lia. }
    rewrite E in *. cbn [readValue]. cbn [length] in Ht. cbn [pred] in Ht. change (34 =? 110) with false.
    change (34 =? 34) with true. cbn iota. by rewrite Ht.
  - cbn [print app json_valid] in *. cbn [readValue]. rewrite <- app_assoc. change (91 =? 110) with false.
    change (91 =? 34) with false. change (91 =? 91) with true. cbn iota. cbn [app].
    rewrite (readList_commas _ 93 ltac:(done) ltac:(done) _ (json_valid <$> l)); [done|].
    apply foldr_and in Hj. rewrite Forall_forall in IH, Hj. cbn [length] in Hf. rewrite length_app in Hf.
    rewrite Forall2_fmap. apply Forall_Forall2_diag, Forall_forall. intros j Hin.
    pose proof (length_commas_item print j l Hin) as Hl. split.
    + destruct (print_head j) as (b & t & -> & Hb & _); [by apply Hj|]. by exists b, t.
    + intros s Hs _. apply IH; [done|by apply Hj|done|]. cbn in Hf. lia.
  - cbn [print app json_valid] in *. cbn [readValue]. rewrite <- app_assoc. change (123 =? 110) with false.
    change (123 =? 34) with false. change (123 =? 91) with false. change (123 =? 123) with true. cbn iota. cbn [app].
    rewrite (readList_commas _ 125 ltac:(done) ltac:(done) _ (prod_map id json_valid <$> l)); [done|].
    apply foldr_and in Hj. rewrite Forall_forall in IH, Hj. cbn [length] in Hf. rewrite length_app in Hf.
    rewrite Forall2_fmap. apply Forall_Forall2_diag, Forall_forall. intros [k j] Hin.
    pose proof (length_commas_item (fun kv => quote (lit kv.1) ++ 58 :: print kv.2) _ l Hin) as Hl.
    destruct (Hj _ Hin) as [Hk Hj']. cbn [fst snd] in *. rewrite length_app in Hl. split.
    + by eexists _, _.
    + intros s Hs _. destruct (readString_quote (lit k) (pred (length (quote (lit k) ++ 58 :: print j ++ s)))
        (58 :: print j ++ s) (lit_nonneg k)) as (t & E & Ht).
      { rewrite length_app. cbn. lia. }
      rewrite <- app_assoc. cbn [app]. rewrite E in *. cbn [readField length] in *. cbn [pred] in Ht.
      rewrite Ht. cbn. rewrite (IH _ Hin); [|done|done|cbn in *; lia]. cbn. by rewrite Hk.
Qed.

Lemma readJson_print j : json_ok j -> readJson (print j) = Some (json_valid j).
Proof.
  intros Hj. unfold readJson. pose proof (readValue_print j (length (print j)) [] Hj I ltac:(done)) as H.
  rewrite app_nil_r in H. by rewrite H.
Qed.
