(* ===== verification/Messages.v ===== *)
(** * Forwarded messages

    What [json.Marshal] makes of a [ForwardMsg]: the value each struct of
    [packet.go] becomes under [encoding/json]'s rules (field names or tags as
    keys, [nil] as null, bytes in base64, times by [MarshalJSON]).  The text determines
    the message but for ill-formed UTF-8 ([marshal_faithful]), and every message the
    server decodes can be written ([decoded_marshals]). *)
From S2P Require Import Prelude.
From S2P Require Import GoTime.
From S2P Require Import Text.
From S2P Require Import CodecWire.
From S2P Require Import Packet.
From S2P Require Import Framing.
From S2P Require Import Stream.
From S2P Require Import Payload.
From S2P Require Import Realtime.
From S2P Require Import Json.

(** ** The values *)

Definition JErr : goerr :=
  Errorf "json: error calling MarshalJSON for type time.Time: Time.MarshalJSON: year outside of range [0,9999]" [].
Definition JZoneErr : goerr :=
  Errorf "json: error calling MarshalJSON for type time.Time: Time.MarshalJSON: timezone hour outside of range [0,23]" [].

(** [Time.MarshalJSON] *)
Definition json_Time (t : Time) : json + goerr :=
  if (Year t <? 0) || (9999 <? Year t) then inr JErr
  else if 24 <=? zoneMinutes t / 60 then inr JZoneErr
  else inl (JStr (RFC3339 t)).

(** A byte slice that is not [nil]; a slice that is [nil] when it is empty, the
    others of the messages being appended to element by element; a pointer. *)
Definition json_bytes (b : bytes) : json := JStr (base64 b).
Definition json_slice {A} (f : A -> json) (l : list A) : json :=
  match l with [] => JNull | _ => JArr (f <$> l) end.
Definition json_ptr {A} (f : A -> json) (o : option A) : json := from_option f JNull o.

Definition json_ConfigField (d : ConfigField) : json :=
  JObj [("ID"%string, JNum (cf_ID d)); ("Length"%string, JNum (cf_Length d));
        ("Value"%string, json_bytes (cf_Value d))].

Definition json_VehicleBaseInfo (d : VehicleBaseInfo) : json :=
  JObj [("VehicleStatus"%string, JNum (vb_VehicleStatus d));
        ("ChargingStatus"%string, JNum (vb_ChargingStatus d));
        ("RunMode"%string, JNum (vb_RunMode d));
        ("Speed"%string, JNum (vb_Speed d));
        ("Odometer"%string, JNum (vb_Odometer d));
        ("TotalVoltage"%string, JNum (vb_TotalVoltage d));
        ("TotalCurrent"%string, JNum (vb_TotalCurrent d));
        ("SOC"%string, JNum (vb_SOC d));
        ("DCStatus"%string, JNum (vb_DCStatus d));
        ("Gear"%string, JNum (vb_Gear d));
        ("InsulationRes"%string, JNum (vb_InsulationRes d))].

Definition json_MotorInfo (d : MotorInfo) : json :=
  JObj [("MotorSeq"%string, JNum (mo_MotorSeq d));
        ("MotorStatus"%string, JNum (mo_MotorStatus d));
        ("ControllerTemp"%string, JNum (mo_ControllerTemp d));
        ("MotorSpeed"%string, JNum (mo_MotorSpeed d));
        ("MotorTorque"%string, JNum (mo_MotorTorque d));
        ("MotorTemp"%string, JNum (mo_MotorTemp d));
        ("MotorVoltage"%string, JNum (mo_MotorVoltage d));
        ("MotorCurrent"%string, JNum (mo_MotorCurrent d))].

Definition json_FuelCellInfo (d : FuelCellInfo) : json :=
  JObj [("CellVoltage"%string, JNum (fc_CellVoltage d));
        ("CellCurrent"%string, JNum (fc_CellCurrent d));
        ("FuelConsumption"%string, JNum (fc_FuelConsumption d));
        ("ProbeCount"%string, JNum (fc_ProbeCount d));
        ("ProbeTemps"%string, json_bytes (fc_ProbeTemps d));
        ("H2MaxTemp"%string, JNum (fc_H2MaxTemp d));
        ("H2MaxTempProbe"%string, JNum (fc_H2MaxTempProbe d));
        ("H2MaxConcentration"%string, JNum (fc_H2MaxConcentration d));
        ("H2MaxConcentrationSensor"%string, JNum (fc_H2MaxConcentrationSensor d));
        ("H2PressureMax"%string, JNum (fc_H2PressureMax d));
        ("H2PressureMaxSensor"%string, JNum (fc_H2PressureMaxSensor d));
        ("H2PressureMin"%string, JNum (fc_H2PressureMin d));
        ("H2PressureMinSensor"%string, JNum (fc_H2PressureMinSensor d));
        ("DCDCStatus"%string, JNum (fc_DCDCStatus d))].

Definition json_EngineInfo (d : EngineInfo) : json :=
  JObj [("EngineStatus"%string, JNum (en_EngineStatus d));
        ("CrankSpeed"%string, JNum (en_CrankSpeed d));
        ("FuelRate"%string, JNum (en_FuelRate d))].

Definition json_PositionInfo (d : PositionInfo) : json :=
  JObj [("Longitude"%string, JNum (po_Longitude d)); ("Latitude"%string, JNum (po_Latitude d))].

Definition json_ExtremeInfo (d : ExtremeInfo) : json :=
  JObj [("MaxBatteryVoltage"%string, JNum (ex_MaxBatteryVoltage d));
        ("MaxBatteryVoltageCode"%string, JNum (ex_MaxBatteryVoltageCode d));
        ("MinBatteryVoltage"%string, JNum (ex_MinBatteryVoltage d));
        ("MinBatteryVoltageCode"%string, JNum (ex_MinBatteryVoltageCode d));
        ("MaxTemp"%string, JNum (ex_MaxTemp d));
        ("MaxTempCode"%string, JNum (ex_MaxTempCode d));
        ("MinTemp"%string, JNum (ex_MinTemp d));
        ("MinTempCode"%string, JNum (ex_MinTempCode d))].

Definition json_AlarmInfo (d : AlarmInfo) : json :=
  JObj [("MaxLevel"%string, JNum (al_MaxLevel d));
        ("AlarmByteLen"%string, JNum (al_AlarmByteLen d));
        ("AlarmBytes"%string, json_bytes (al_AlarmBytes d))].

Definition json_CellInfo (d : CellInfo) : json :=
  JObj [("Voltage"%string, JNum (ci_Voltage d)); ("Temp"%string, JNum (ci_Temp d))].

Definition json_CellVoltage (d : CellVoltage) : json :=
  JObj [("CellNo"%string, JNum (cv_CellNo d)); ("CellInfo"%string, json_CellInfo (cv_CellInfo d))].

Definition json_SubsystemVoltage (d : SubsystemVoltage) : json :=
  JObj [("SubsysNo"%string, JNum (sv_SubsysNo d));
        ("Voltage"%string, JNum (sv_Voltage d));
        ("Current"%string, JNum (sv_Current d));
        ("CellCount"%string, JNum (sv_CellCount d));
        ("Cells"%string, json_slice json_CellVoltage (sv_Cells d))].

Definition json_VoltageInfo (d : VoltageInfo) : json :=
  JObj [("SubsysCount"%string, JNum (vi_SubsysCount d));
        ("SubsystemVoltages"%string, json_slice json_SubsystemVoltage (vi_SubsystemVoltages d))].

(** Values that can fail, for their times. *)
Definition sbind {A B} (m : A + goerr) (k : A -> B + goerr) : B + goerr :=
  match m with inl a => k a | inr e => inr e end.
Notation "'let?' x := m 'in' k" := (sbind m (fun x => k))
  (at level 10, x binder, m at level 100, k at level 200) : go_scope.

Fixpoint smap {A B} (f : A -> B + goerr) (l : list A) : list B + goerr :=
  match l with
  | [] => inl []
  | a :: l => let? b := f a in let? bs := smap f l in inl (b :: bs)
  end.

Definition json_RealtimeMessage (d : RealtimeMessage) : json + goerr :=
  let? t := json_Time (rt_InfoTime d) in
  inl (JObj [("InfoTime"%string, t);
        ("VehicleData"%string, json_ptr json_VehicleBaseInfo (rt_VehicleData d));
        ("MotorData"%string, json_slice json_MotorInfo (rt_MotorData d));
        ("FuelCellData"%string, json_ptr json_FuelCellInfo (rt_FuelCellData d));
        ("EngineData"%string, json_ptr json_EngineInfo (rt_EngineData d));
        ("PositionData"%string, json_ptr json_PositionInfo (rt_PositionData d));
        ("ExtremeData"%string, json_ptr json_ExtremeInfo (rt_ExtremeData d));
        ("AlarmData"%string, json_ptr json_AlarmInfo (rt_AlarmData d));
        ("VoltageData"%string, json_ptr json_VoltageInfo (rt_VoltageData d))]).

(** [DataItems] is made with [make] and never [nil]. *)
Definition json_ReissueMessage (d : ReissueMessage) : json + goerr :=
  let? t := json_Time (ri_InfoTime d) in
  let? items := smap json_RealtimeMessage (ri_DataItems d) in
  inl (JObj [("InfoTime"%string, t); ("DataItems"%string, JArr items)]).

Definition json_VehicleLoginData (d : VehicleLoginData) : json + goerr :=
  let? t := json_Time (vl_LoginTime d) in
  inl (JObj [("LoginTime"%string, t);
        ("Sequence"%string, JNum (vl_Sequence d));
        ("ICCID"%string, JStr (vl_ICCID d));
        ("ConfigDataCnt"%string, JNum (vl_ConfigDataCnt d));
        ("ConfigData"%string, json_slice json_ConfigField (vl_ConfigData d))]).

Definition json_VehicleLogoutData (d : VehicleLogoutData) : json + goerr :=
  let? t := json_Time (vo_LogoutTime d) in
  inl (JObj [("LogoutTime"%string, t); ("Sequence"%string, JNum (vo_Sequence d))]).

Definition json_ForwardData (d : ForwardData) : json + goerr :=
  match d with
  | FwdLogin d => json_VehicleLoginData d
  | FwdLogout d => json_VehicleLogoutData d
  | FwdRealtime d => json_RealtimeMessage d
  | FwdReissue d => json_ReissueMessage d
  end.

Definition json_ForwardMsg (m : ForwardMsg) : json + goerr :=
  let? d := json_ForwardData (fm_Data m) in
  inl (JObj [("type"%string, JStr (lit (fm_Type m))); ("vin"%string, JStr (fm_VIN m)); ("data"%string, d)]).

(** [json.Marshal(msg)] *)
Definition Marshal (m : ForwardMsg) : bytes + goerr :=
  let? j := json_ForwardMsg m in inl (print j).

(** ** What is well-formed *)

(** The fields have the values of their Go types; times are those of the wire. *)
Definition typed_ConfigField (d : ConfigField) : Prop :=
  is_byte (cf_ID d) /\ is_byte (cf_Length d) /\ all_bytes (cf_Value d).

Definition typed_VehicleBaseInfo (d : VehicleBaseInfo) : Prop :=
  is_byte (vb_VehicleStatus d) /\ is_byte (vb_ChargingStatus d) /\ is_byte (vb_RunMode d) /\
  is_uint16 (vb_Speed d) /\ is_uint32 (vb_Odometer d) /\ is_uint16 (vb_TotalVoltage d) /\
  is_uint16 (vb_TotalCurrent d) /\ is_byte (vb_SOC d) /\ is_byte (vb_DCStatus d) /\
  is_byte (vb_Gear d) /\ is_uint16 (vb_InsulationRes d).

Definition typed_MotorInfo (d : MotorInfo) : Prop :=
  is_byte (mo_MotorSeq d) /\ is_byte (mo_MotorStatus d) /\ is_byte (mo_ControllerTemp d) /\
  is_uint16 (mo_MotorSpeed d) /\ is_uint16 (mo_MotorTorque d) /\ is_byte (mo_MotorTemp d) /\
  is_uint16 (mo_MotorVoltage d) /\ is_uint16 (mo_MotorCurrent d).

Definition typed_FuelCellInfo (d : FuelCellInfo) : Prop :=
  is_uint16 (fc_CellVoltage d) /\ is_uint16 (fc_CellCurrent d) /\ is_uint16 (fc_FuelConsumption d) /\
  is_uint16 (fc_ProbeCount d) /\ all_bytes (fc_ProbeTemps d) /\ is_uint16 (fc_H2MaxTemp d) /\
  is_byte (fc_H2MaxTempProbe d) /\ is_uint16 (fc_H2MaxConcentration d) /\
  is_byte (fc_H2MaxConcentrationSensor d) /\ is_uint16 (fc_H2PressureMax d) /\
  is_byte (fc_H2PressureMaxSensor d) /\ is_uint16 (fc_H2PressureMin d) /\
  is_byte (fc_H2PressureMinSensor d) /\ is_byte (fc_DCDCStatus d).

Definition typed_EngineInfo (d : EngineInfo) : Prop :=
  is_byte (en_EngineStatus d) /\ is_uint16 (en_CrankSpeed d) /\ is_uint16 (en_FuelRate d).

Definition typed_PositionInfo (d : PositionInfo) : Prop :=
  is_uint32 (po_Longitude d) /\ is_uint32 (po_Latitude d).

Definition typed_ExtremeInfo (d : ExtremeInfo) : Prop :=
  is_uint16 (ex_MaxBatteryVoltage d) /\ is_byte (ex_MaxBatteryVoltageCode d) /\
  is_uint16 (ex_MinBatteryVoltage d) /\ is_byte (ex_MinBatteryVoltageCode d) /\
  is_byte (ex_MaxTemp d) /\ is_byte (ex_MaxTempCode d) /\ is_byte (ex_MinTemp d) /\ is_byte (ex_MinTempCode d).

Definition typed_AlarmInfo (d : AlarmInfo) : Prop :=
  is_byte (al_MaxLevel d) /\ is_uint32 (al_AlarmByteLen d) /\ all_bytes (al_AlarmBytes d).

Definition typed_CellVoltage (d : CellVoltage) : Prop :=
  is_byte (cv_CellNo d) /\ is_uint16 (ci_Voltage (cv_CellInfo d)) /\ is_byte (ci_Temp (cv_CellInfo d)).

Definition typed_SubsystemVoltage (d : SubsystemVoltage) : Prop :=
  is_byte (sv_SubsysNo d) /\ is_uint16 (sv_Voltage d) /\ is_uint16 (sv_Current d) /\
  is_uint16 (sv_CellCount d) /\ Forall typed_CellVoltage (sv_Cells d).

Definition typed_VoltageInfo (d : VoltageInfo) : Prop :=
  is_uint16 (vi_SubsysCount d) /\ Forall typed_SubsystemVoltage (vi_SubsystemVoltages d).

Definition if_some {A} (P : A -> Prop) (o : option A) : Prop := from_option P True o.

Definition typed_RealtimeMessage (d : RealtimeMessage) : Prop :=
  stampable (rt_InfoTime d) /\ if_some typed_VehicleBaseInfo (rt_VehicleData d) /\
  Forall typed_MotorInfo (rt_MotorData d) /\ if_some typed_FuelCellInfo (rt_FuelCellData d) /\
  if_some typed_EngineInfo (rt_EngineData d) /\ if_some typed_PositionInfo (rt_PositionData d) /\
  if_some typed_ExtremeInfo (rt_ExtremeData d) /\ if_some typed_AlarmInfo (rt_AlarmData d) /\
  if_some typed_VoltageInfo (rt_VoltageData d).

Definition typed_ForwardData (d : ForwardData) : Prop :=
  match d with
  | FwdLogin d =>
      stampable (vl_LoginTime d) /\ is_uint16 (vl_Sequence d) /\ all_bytes (vl_ICCID d) /\
      is_byte (vl_ConfigDataCnt d) /\ Forall typed_ConfigField (vl_ConfigData d)
  | FwdLogout d => stampable (vo_LogoutTime d) /\ is_uint16 (vo_Sequence d)
  | FwdRealtime d => typed_RealtimeMessage d
  | FwdReissue d => stampable (ri_InfoTime d) /\ Forall typed_RealtimeMessage (ri_DataItems d)
  end.

(** The name each kind of message is forwarded under. *)
Definition kind (d : ForwardData) : string :=
  match d with
  | FwdLogin _ => "login" | FwdLogout _ => "logout"
  | FwdRealtime _ => "realtime" | FwdReissue _ => "reissue"
  end.

Definition typed_ForwardMsg (m : ForwardMsg) : Prop :=
  fm_Type m = kind (fm_Data m) /\ all_bytes (fm_VIN m) /\ typed_ForwardData (fm_Data m).

(** What the far end can see of a message: its free texts as valid UTF-8. *)
Definition clean_data (d : ForwardData) : ForwardData :=
  match d with
  | FwdLogin d =>
      FwdLogin (mkVehicleLoginData (vl_LoginTime d) (vl_Sequence d) (valid (vl_ICCID d))
        (vl_ConfigDataCnt d) (vl_ConfigData d))
  | d => d
  end.
Definition clean (m : ForwardMsg) : ForwardMsg :=
  mkForwardMsg (fm_Type m) (valid (fm_VIN m)) (clean_data (fm_Data m)).

(** ** Lemmas *)

(** A value that is well-formed, is not null and reads as it was written. *)
Definition plain (j : json) : Prop := json_ok j /\ json_valid j = j.

(** A writer of values: plain on the values that satisfy [P], never null, and
    telling them apart. *)
Record writes {A} (P : A -> Prop) (f : A -> json) : Prop := {
  wr_plain : forall a, P a -> plain (f a);
  wr_value : forall a, f a <> JNull;
  wr_inj : forall a b, P a -> P b -> f a = f b -> a = b
}.

Lemma valid_ascii s : Forall (fun b => 0 <= b < 128) s -> valid s = s.
Proof.
  unfold valid. induction 1 as [|b s Hb _ IH]; [done|]. cbn [length toValid].
  rewrite decodeRune_ascii by lia. assert ((b =? RuneError) = false) as -> by (apply Z.eqb_neq; unfold RuneError; lia).
  cbn. by rewrite drop_0, IH.
Qed.

Lemma base64_chars b : all_bytes b -> Forall (fun c => 0 <= c < 128) (base64 b).
Proof.
  intros Hb. pose proof (fun n H => proj1 (base64Char_range n H)) as Hr.
  assert (forall n, 0 <= n < 64 -> 0 <= base64Char n < 128) as Hc by (intros n Hn; specialize (Hr n Hn); lia).
  induction b as [|x|x y|x y z b IH] using triples_ind; cbn [base64]; [constructor|..];
    repeat match goal with H : all_bytes (_ :: _) |- _ => inversion_clear H end; unfold is_byte in *;
    repeat (constructor; [first [lia|apply Hc; zdm; lia]|]); [constructor..|]. by apply IH.
Qed.

Lemma RFC3339_chars t : stampable t -> Forall (fun c => 0 <= c < 128) (RFC3339 t).
Proof.
  intros (N & O & Y). unfold RFC3339. rewrite N, O.
  pose proof (Month_range t). pose proof (Day_range t). pose proof (Hour_range t).
  pose proof (Minute_range t). pose proof (Second_range t).
  assert (forall n w, 0 <= n -> Forall (fun c => 0 <= c < 128) (appendInt n w)) as Ha.
  { intros n w Hn. eapply Forall_impl; [by apply appendInt_chars|]. unfold is_digit. lia. }
  repeat first [apply Ha; lia | apply Forall_nil_2 | apply Forall_cons_2; [lia|] | apply Forall_app_2].
Qed.

Lemma ascii_nonneg s : Forall (fun c => 0 <= c < 128) s -> Forall (Z.le 0) s.
Proof. intros H. eapply Forall_impl; [exact H|]. cbn. lia. Qed.

Lemma plain_bytes b : all_bytes b -> plain (json_bytes b).
Proof.
  intros Hb. pose proof (base64_chars b Hb). split; [by apply ascii_nonneg|].
  cbn. by rewrite valid_ascii.
Qed.

Lemma json_Time_ok t : stampable t -> json_Time t = inl (JStr (RFC3339 t)) /\ plain (JStr (RFC3339 t)).
Proof.
  intros Ht. pose proof (RFC3339_chars t Ht). pose proof Ht as (N & O & Y). split; [|split].
  - unfold json_Time, zoneMinutes. rewrite O. destruct (Z.ltb_spec (Year t) 0), (Z.ltb_spec 9999 (Year t)); try lia. done.
  - by apply ascii_nonneg.
  - cbn. by rewrite valid_ascii.
Qed.

Lemma plain_arr l : Forall plain l -> plain (JArr l).
Proof.
  intros Hl. split; cbn.
  - apply foldr_and. eapply Forall_impl; [exact Hl|]. by intros j [? _].
  - f_equal. induction Hl as [|j l [_ Hj] _ IH]; [done|]. by rewrite fmap_cons, Hj, IH.
Qed.

Lemma plain_obj l : Forall (fun kv => key_ok kv.1 /\ plain kv.2) l -> plain (JObj l).
Proof.
  intros Hl. split; cbn.
  - apply foldr_and. eapply Forall_impl; [exact Hl|]. by intros j [? [? _]].
  - f_equal. induction Hl as [|[k j] l [_ [_ Hj]] _ IH]; [done|]. cbn in *. by rewrite Hj, IH.
Qed.

Lemma plain_slice {A} P (f : A -> json) l : writes P f -> Forall P l -> plain (json_slice f l).
Proof.
  intros Hw Hl. destruct l as [|a l]; [by split|]. apply plain_arr, Forall_fmap.
  eapply Forall_impl; [exact Hl|]. apply (wr_plain _ _ Hw).
Qed.

Lemma plain_ptr {A} P (f : A -> json) o : writes P f -> if_some P o -> plain (json_ptr f o).
Proof. intros Hw Ho. destruct o; [by apply (wr_plain _ _ Hw)|by split]. Qed.

Lemma map_inj {A} P (f : A -> json) l1 : writes P f -> forall l2,
  Forall P l1 -> Forall P l2 -> f <$> l1 = f <$> l2 -> l1 = l2.
Proof.
  intros Hw. induction l1 as [|a l1 IH]; intros [|b l2] H1 H2; try done.
  rewrite !fmap_cons. intros [= Ha Hl]. apply Forall_cons in H1 as [? ?], H2 as [? ?].
  f_equal; [by apply (wr_inj _ _ Hw)|by apply IH].
Qed.

Lemma json_slice_inj {A} P (f : A -> json) l1 l2 :
  writes P f -> Forall P l1 -> Forall P l2 -> json_slice f l1 = json_slice f l2 -> l1 = l2.
Proof.
  intros Hw H1 H2 He. destruct l1 as [|a l1], l2 as [|b l2]; try done.
  injection He as Ha Hl. by apply (map_inj P f); [..|cbn; f_equal].
Qed.

Lemma json_ptr_inj {A} P (f : A -> json) o1 o2 :
  writes P f -> if_some P o1 -> if_some P o2 -> json_ptr f o1 = json_ptr f o2 -> o1 = o2.
Proof.
  intros Hw H1 H2 He. destruct o1 as [a|], o2 as [b|]; cbn in *; try done.
  - f_equal. by apply (wr_inj _ _ Hw).
  - by apply (wr_value _ _ Hw) in He.
  - symmetry in He. by apply (wr_value _ _ Hw) in He.
Qed.

(** *** The structs *)

Lemma plain_num n : 0 <= n -> plain (JNum n).
Proof. by split. Qed.

Ltac fields H := repeat match type of H with _ /\ _ => let H1 := fresh in destruct H as [H1 H] end.

(** An object whose values are [plain]; one by one. *)
Ltac plain_fields :=
  apply plain_obj;
  repeat (apply Forall_cons_2; [split; [vm_compute; reflexivity|]|]); try apply Forall_nil_2;
  cbn [snd];
  try (apply plain_num; cbn; width_lia); try (apply plain_bytes; assumption);
  eauto using plain_slice, plain_ptr.

(** Equal objects have equal fields. *)
Ltac same_fields :=
  repeat match goal with
  | H : base64 _ = base64 _ |- _ => apply base64_inj in H; [|assumption..]
  | H : json_slice ?f _ = json_slice ?f _ |- _ =>
      eapply json_slice_inj in H; [|solve [eauto]|eassumption|eassumption]
  | H : json_ptr ?f _ = json_ptr ?f _ |- _ =>
      eapply json_ptr_inj in H; [|solve [eauto]|eassumption|eassumption]
  end.

Ltac writes_struct typed :=
  split;
  [ intros d Hd; unfold typed in Hd; fields Hd; plain_fields
  | done
  | intros a b Ha Hb He; destruct a, b; unfold typed in Ha, Hb; cbn in Ha, Hb; fields Ha; fields Hb;
    injection He; intros; same_fields; subst; reflexivity ].

Lemma writes_ConfigField : writes typed_ConfigField json_ConfigField.
Proof. writes_struct typed_ConfigField. Qed.
Lemma writes_VehicleBaseInfo : writes typed_VehicleBaseInfo json_VehicleBaseInfo.
Proof. writes_struct typed_VehicleBaseInfo. Qed.
Lemma writes_MotorInfo : writes typed_MotorInfo json_MotorInfo.
Proof. writes_struct typed_MotorInfo. Qed.
Lemma writes_FuelCellInfo : writes typed_FuelCellInfo json_FuelCellInfo.
Proof. writes_struct typed_FuelCellInfo. Qed.
Lemma writes_EngineInfo : writes typed_EngineInfo json_EngineInfo.
Proof. writes_struct typed_EngineInfo. Qed.
Lemma writes_PositionInfo : writes typed_PositionInfo json_PositionInfo.
Proof. writes_struct typed_PositionInfo. Qed.
Lemma writes_ExtremeInfo : writes typed_ExtremeInfo json_ExtremeInfo.
Proof. writes_struct typed_ExtremeInfo. Qed.
Lemma writes_AlarmInfo : writes typed_AlarmInfo json_AlarmInfo.
Proof. writes_struct typed_AlarmInfo. Qed.
#[export] Hint Resolve writes_ConfigField writes_VehicleBaseInfo writes_MotorInfo writes_FuelCellInfo
  writes_EngineInfo writes_PositionInfo writes_ExtremeInfo writes_AlarmInfo : core.

Lemma writes_CellVoltage : writes typed_CellVoltage json_CellVoltage.
Proof.
  split; [|done|].
  - intros [no [v t]] (H1 & H2 & H3). cbn in *. plain_fields. unfold json_CellInfo. plain_fields.
  - intros [? []] [? []] _ _ [=]. by subst.
Qed.
#[export] Hint Resolve writes_CellVoltage : core.

Lemma writes_SubsystemVoltage : writes typed_SubsystemVoltage json_SubsystemVoltage.
Proof. writes_struct typed_SubsystemVoltage. Qed.
#[export] Hint Resolve writes_SubsystemVoltage : core.

Lemma writes_VoltageInfo : writes typed_VoltageInfo json_VoltageInfo.
Proof. writes_struct typed_VoltageInfo. Qed.
#[export] Hint Resolve writes_VoltageInfo : core.

#[local] Arguments json_ptr : simpl never.
#[local] Arguments if_some : simpl never.

(** The value of a realtime message, whose time can be written. *)
Definition realtime_value (d : RealtimeMessage) : json :=
  match json_RealtimeMessage d with inl j => j | inr _ => JNull end.

Lemma realtime_value_ok d : stampable (rt_InfoTime d) -> json_RealtimeMessage d = inl (realtime_value d).
Proof.
  intros Ht. unfold realtime_value, json_RealtimeMessage. by rewrite (proj1 (json_Time_ok _ Ht)).
Qed.

Lemma writes_RealtimeMessage :
  (forall d, typed_RealtimeMessage d -> plain (realtime_value d)) /\
  (forall a b, typed_RealtimeMessage a -> typed_RealtimeMessage b ->
     realtime_value a = realtime_value b -> a = b).
Proof.
  split.
  - intros d Hd. unfold typed_RealtimeMessage in Hd. fields Hd.
    unfold realtime_value, json_RealtimeMessage. destruct (json_Time_ok _ H) as [-> Ht]. cbn [sbind].
    plain_fields.
  - intros a b Ha Hb. destruct a, b. unfold typed_RealtimeMessage in Ha, Hb. cbn in Ha, Hb.
    fields Ha. fields Hb. unfold realtime_value, json_RealtimeMessage. cbn.
    rewrite !(fun t H => proj1 (json_Time_ok t H)) by done. cbn. intros He. injection He. intros.
    same_fields. subst. f_equal. by apply RFC3339_inj.
Qed.

Lemma smap_realtime l : Forall typed_RealtimeMessage l ->
  smap json_RealtimeMessage l = inl (realtime_value <$> l).
Proof.
  induction 1 as [|d l [Hd _] _ IH]; [done|]. cbn [smap]. by rewrite realtime_value_ok, IH by done.
Qed.

Lemma lit_inj k1 k2 : lit k1 = lit k2 -> k1 = k2.
Proof.
  unfold lit. intros He. rewrite <- (String.string_of_list_ascii_of_string k1),
    <- (String.string_of_list_ascii_of_string k2). f_equal. revert He.
  generalize (String.list_ascii_of_string k1), (String.list_ascii_of_string k2).
  intros l1. induction l1 as [|c l1 IH]; intros [|c2 l2]; cbn; try done. intros [= Hc Hl].
  f_equal; [|by apply IH]. apply Nat2Z.inj in Hc.
  by rewrite <- (Ascii.ascii_nat_embedding c), Hc, Ascii.ascii_nat_embedding.
Qed.

Definition data_value (d : ForwardData) : json :=
  match json_ForwardData d with inl j => j | inr _ => JNull end.

Lemma data_value_ok d : typed_ForwardData d -> json_ForwardData d = inl (data_value d).
Proof.
  intros Hd. unfold data_value. destruct d as [d|d|d|d]; cbn in *.
  - unfold json_VehicleLoginData. by rewrite (proj1 (json_Time_ok _ (proj1 Hd))).
  - unfold json_VehicleLogoutData. by rewrite (proj1 (json_Time_ok _ (proj1 Hd))).
  - by rewrite (realtime_value_ok _ (proj1 Hd)).
  - unfold json_ReissueMessage. destruct Hd as [Ht Hd]. by rewrite (proj1 (json_Time_ok _ Ht)), (smap_realtime _ Hd).
Qed.

Lemma bytes_nonneg s : all_bytes s -> Forall (Z.le 0) s.
Proof. intros H. eapply Forall_impl; [exact H|]. unfold is_byte. cbn. lia. Qed.

Lemma json_valid_slice {A} P (f : A -> json) l : writes P f -> Forall P l ->
  json_valid (json_slice f l) = json_slice f l.
Proof. intros Hw Hl. by apply (plain_slice P). Qed.

Lemma data_value_read d : typed_ForwardData d ->
  json_ok (data_value d) /\ json_valid (data_value d) = data_value (clean_data d).
Proof.
  unfold data_value. destruct d as [d|d|d|d]; cbn [typed_ForwardData clean_data json_ForwardData]; intros Hd.
  - destruct Hd as (Ht & Hs & Hi & Hc & Hf). unfold json_VehicleLoginData. cbn [vl_LoginTime].
    destruct (json_Time_ok _ Ht) as [-> [Ht1 Ht2]]. cbn [sbind]. split.
    + apply foldr_and. repeat (apply Forall_cons_2; [split; [vm_compute; reflexivity|]|]); cbn [snd].
      * done.
      * apply Hs.
      * by apply bytes_nonneg.
      * apply Hc.
      * by apply (plain_slice typed_ConfigField).
      * constructor.
    + injection Ht2 as Ht2. cbn [json_valid fmap list_fmap prod_map id fst snd].
      rewrite (json_valid_slice typed_ConfigField) by done. by rewrite Ht2.
  - destruct Hd as (Ht & Hs). unfold json_VehicleLogoutData. destruct (json_Time_ok _ Ht) as [-> Hp]. cbn [sbind].
    assert (plain (JObj [("LogoutTime"%string, JStr (RFC3339 (vo_LogoutTime d)));
      ("Sequence"%string, JNum (vo_Sequence d))])) as Hpl by plain_fields. exact Hpl.
  - apply (proj1 writes_RealtimeMessage _ Hd).
  - destruct Hd as (Ht & Hd). unfold json_ReissueMessage. destruct (json_Time_ok _ Ht) as [-> Hp]. cbn [sbind].
    rewrite (smap_realtime _ Hd). cbn [sbind].
    assert (plain (JArr (realtime_value <$> ri_DataItems d))) as Ha.
    { apply plain_arr, Forall_fmap. eapply Forall_impl; [exact Hd|]. apply writes_RealtimeMessage. }
    assert (plain (JObj [("InfoTime"%string, JStr (RFC3339 (ri_InfoTime d)));
      ("DataItems"%string, JArr (realtime_value <$> ri_DataItems d))])) as Hpl by plain_fields. exact Hpl.
Qed.

Lemma kind_clean d : kind (clean_data d) = kind d.
Proof. by destruct d. Qed.

Lemma realtime_values_inj l1 : forall l2, Forall typed_RealtimeMessage l1 -> Forall typed_RealtimeMessage l2 ->
  realtime_value <$> l1 = realtime_value <$> l2 -> l1 = l2.
Proof.
  induction l1 as [|a l1 IH]; intros [|b l2] H1 H2; try done. rewrite !fmap_cons. intros [= Ha Hl].
  apply Forall_cons in H1 as [? ?], H2 as [? ?]. f_equal; [by apply writes_RealtimeMessage|by apply IH].
Qed.

Lemma realtime_value_obj d : stampable (rt_InfoTime d) -> exists v vs,
  realtime_value d = JObj (("InfoTime"%string, JStr (RFC3339 (rt_InfoTime d))) :: ("VehicleData"%string, v) :: vs).
Proof.
  intros Ht. unfold realtime_value, json_RealtimeMessage. rewrite (proj1 (json_Time_ok _ Ht)). by eexists _, _.
Qed.

(** The value the far end reads, kind by kind. *)
Lemma data_value_clean d : typed_ForwardData d ->
  data_value (clean_data d) =
  match d with
  | FwdLogin d =>
      JObj [("LoginTime"%string, JStr (RFC3339 (vl_LoginTime d)));
            ("Sequence"%string, JNum (vl_Sequence d)); ("ICCID"%string, JStr (valid (vl_ICCID d)));
            ("ConfigDataCnt"%string, JNum (vl_ConfigDataCnt d));
            ("ConfigData"%string, json_slice json_ConfigField (vl_ConfigData d))]
  | FwdLogout d =>
      JObj [("LogoutTime"%string, JStr (RFC3339 (vo_LogoutTime d))); ("Sequence"%string, JNum (vo_Sequence d))]
  | FwdRealtime d => realtime_value d
  | FwdReissue d =>
      JObj [("InfoTime"%string, JStr (RFC3339 (ri_InfoTime d)));
            ("DataItems"%string, JArr (realtime_value <$> ri_DataItems d))]
  end.
Proof.
  unfold data_value. destruct d as [d|d|d|d]; cbn [typed_ForwardData clean_data json_ForwardData]; intros Hd.
  - unfold json_VehicleLoginData. cbn [vl_LoginTime]. by rewrite (proj1 (json_Time_ok _ (proj1 Hd))).
  - unfold json_VehicleLogoutData. by rewrite (proj1 (json_Time_ok _ (proj1 Hd))).
  - done.
  - unfold json_ReissueMessage. destruct Hd as [Ht Hd]. by rewrite (proj1 (json_Time_ok _ Ht)), (smap_realtime _ Hd).
Qed.

Lemma clean_data_ok d : typed_ForwardData d ->
  json_ForwardData (clean_data d) = inl (data_value (clean_data d)).
Proof.
  intros Hd. destruct d as [d|d|d|d]; try by apply data_value_ok. unfold data_value.
  cbn [clean_data json_ForwardData]. unfold json_VehicleLoginData. cbn [vl_LoginTime].
  by rewrite (proj1 (json_Time_ok _ (proj1 Hd))).
Qed.

Lemma data_value_inj d1 d2 : typed_ForwardData d1 -> typed_ForwardData d2 ->
  data_value (clean_data d1) = data_value (clean_data d2) -> clean_data d1 = clean_data d2.
Proof.
  intros H1 H2. rewrite !data_value_clean by done. destruct d1 as [d1|d1|d1|d1], d2 as [d2|d2|d2|d2];
    cbn [typed_ForwardData clean_data] in *;
    try (destruct (realtime_value_obj d1 (proj1 H1)) as (? & ? & E1));
    try (destruct (realtime_value_obj d2 (proj1 H2)) as (? & ? & E2));
    intros He; try (rewrite ?E1, ?E2 in He; discriminate He).
  - destruct d1, d2, H1 as (? & ? & ? & ? & ?), H2 as (? & ? & ? & ? & ?). cbn in *. injection He. intros.
    same_fields. subst. f_equal. f_equal; [by apply RFC3339_inj|done].
  - destruct d1, d2, H1, H2. cbn in *. injection He. intros. subst. do 2 f_equal. by apply RFC3339_inj.
  - f_equal. by apply writes_RealtimeMessage.
  - destruct d1, d2, H1, H2. cbn in *. injection He as Ht Hi. f_equal. f_equal; [by apply RFC3339_inj|].
    by apply realtime_values_inj.
Qed.

(** *** Decoded bodies *)

Lemma stored_typed m v : typed_RealtimeMessage m -> value_ok v -> typed_RealtimeMessage (stored m v).
Proof.
  intros Hm Hv. destruct m. unfold typed_RealtimeMessage in *. cbn in Hm. fields Hm.
  unfold stored. destruct v; cbn in *; split_and!; try assumption; unfold if_some; cbn [from_option].
  all: try (hnf in Hv; fields Hv; by split_and!).
  - apply Forall_app. split; [done|]. apply Forall_fmap. eapply Forall_impl; [apply Hv|].
    intros x (? & ? & ? & ? & ? & ? & ? & ?). by split_and!.
  - destruct Hv as (? & ? & Hs). split; [done|]. cbn. apply Forall_fmap. eapply Forall_impl; [exact Hs|].
    intros x (? & ? & ? & ? & ? & Hc). split_and!; try done. cbn. apply Forall_fmap.
    eapply Forall_impl; [exact Hc|]. intros c (? & ? & Ht). split_and!; try done. cbn. by rewrite Ht.
Qed.

Lemma built_typed t m : stampable t -> built t m -> typed_RealtimeMessage m.
Proof.
  intros Ht (vs & Hvs & ->). assert (typed_RealtimeMessage (newMessage t)) as Hm by (by repeat (split; [done || constructor|])).
  revert Hm. generalize (newMessage t). induction Hvs as [|v vs Hv _ IH]; intros m Hm; [done|].
  cbn. apply IH. by apply stored_typed.
Qed.

Section decoded.
Context (data : bytes) (Hb : all_bytes data).

Lemma realtime_typed d m : Decoder_DecodeRealtimeData d data = Ok m -> typed_RealtimeMessage m.
Proof.
  intros E. pose proof (realtime_decides d data Hb) as H. rewrite E in H.
  destruct (Z.ltb_spec (len data) 6); [done|]. destruct H as (t & vs & Ht & Hvs & [= ->]).
  apply (built_typed t); [|by exists vs].
  eapply decodeTime6_stampable; [|  |exact Ht]; [by apply all_bytes_sub|rewrite len_sub; lia].
Qed.

Lemma reissue_typed d m : Decoder_DecodeReissueData d data = Ok m ->
  stampable (ri_InfoTime m) /\ Forall typed_RealtimeMessage (ri_DataItems m).
Proof.
  intros E. pose proof (reissue_ok d data Hb) as H. rewrite E in H.
  destruct (Z.ltb_spec (len data) 8); [done|]. destruct H as (n & msg & _ & [= <-] & Ht & _ & Hi). split.
  - eapply decodeTime6_stampable; [|  |exact Ht]; [by apply all_bytes_sub|rewrite len_sub; lia].
  - eapply Forall_impl; [exact Hi|]. intros m' (t & ? & ?). by apply (built_typed t).
Qed.

Lemma login_typed d m : Decoder_DecodeLoginData d data = Ok m -> typed_ForwardData (FwdLogin m).
Proof.
  intros E. pose proof (login_ok d data Hb) as Hok. rewrite E in Hok.
  destruct Hok as (n & _ & _ & Hi & Hs & Hc & _ & Hf).
  assert (ensures (Decoder_DecodeLoginData d data) (fun v => stampable (vl_LoginTime v))) as Ht.
  { unfold Decoder_DecodeLoginData. cbv zeta. go_step; [done|]. body_safe.
    - apply yields_post. eapply post_mono; [|apply decodeConfig_ok; [done|width_lia|constructor]].
      intros cs _. cbn. eapply decodeTime6_stampable; [..|eassumption]; [done|lia].
    - eapply decodeTime6_stampable; [..|eassumption]; [done|lia]. }
  rewrite E in Ht. split; [exact Ht|]. split_and!; try done; [rewrite Hi; by apply all_bytes_sub|].
  eapply Forall_impl; [exact Hf|]. by intros c (? & ? & _ & ?).
Qed.

Lemma logout_typed d m : Decoder_DecodeLogoutData d data = Ok m -> typed_ForwardData (FwdLogout m).
Proof.
  intros E. unfold Decoder_DecodeLogoutData in E.
  assert (ensures (Decoder_DecodeLogoutData d data) (fun v => stampable (vo_LogoutTime v) /\ is_uint16 (vo_Sequence v))) as Ht.
  { unfold Decoder_DecodeLogoutData. go_step; [done|]. body_safe. split; [|done].
    eapply decodeTime6_stampable; [..|eassumption]; [done|lia]. }
  unfold Decoder_DecodeLogoutData in Ht. by rewrite E in Ht.
Qed.

(** The body of a forwarded message was decoded from [data]. *)
Definition decoded_from (d : ForwardData) : Prop :=
  match d with
  | FwdLogin m => DecodeLoginData data = Ok m
  | FwdLogout m => DecodeLogoutData data = Ok m
  | FwdRealtime m => DecodeRealtimeData data = Ok m
  | FwdReissue m => DecodeReissueData data = Ok m
  end.

Lemma decoded_typed vin d : all_bytes vin -> decoded_from d ->
  typed_ForwardMsg (newForwardMsg (kind d) vin d).
Proof.
  intros Hv Hd. split; [done|]. split; [done|]. cbn [fm_Data newForwardMsg]. destruct d.
  - by eapply login_typed.
  - by eapply logout_typed.
  - by eapply realtime_typed.
  - by eapply reissue_typed.
Qed.
End decoded.

(** *** Messages *)

Definition msg_value (m : ForwardMsg) : json :=
  match json_ForwardMsg m with inl j => j | inr _ => JNull end.

Lemma msg_value_clean m : typed_ForwardMsg m ->
  msg_value (clean m) = JObj [("type"%string, JStr (lit (kind (fm_Data m))));
    ("vin"%string, JStr (valid (fm_VIN m))); ("data"%string, data_value (clean_data (fm_Data m)))].
Proof.
  intros (Htype & _ & Hdata). unfold msg_value, json_ForwardMsg, clean. cbn [fm_Type fm_VIN fm_Data].
  by rewrite (clean_data_ok _ Hdata), Htype.
Qed.

Lemma marshals m : typed_ForwardMsg m ->
  exists body, Marshal m = inl body /\ readJson body = Some (msg_value (clean m)).
Proof.
  intros Hm. rewrite (msg_value_clean _ Hm). destruct Hm as (Htype & Hvin & Hdata).
  unfold Marshal, json_ForwardMsg. rewrite (data_value_ok _ Hdata), Htype. cbn [sbind].
  eexists. split; [reflexivity|]. destruct (data_value_read _ Hdata) as [Hok Hv]. rewrite readJson_print.
  - cbn [json_valid fmap list_fmap prod_map id fst snd]. rewrite Hv.
    assert (valid (lit (kind (fm_Data m))) = lit (kind (fm_Data m))) as -> by by destruct (fm_Data m). done.
  - apply foldr_and. repeat (apply Forall_cons_2; [split; [vm_compute; reflexivity|]|]); cbn [snd].
    + apply lit_nonneg.
    + by apply bytes_nonneg.
    + done.
    + constructor.
Qed.

(** ** Properties *)

(** C22: A message of decoded bodies can be written as JSON, the text is JSON,
    and reading it gives the value of the message with ill-formed UTF-8 in the VIN and the
    ICCID replaced; nothing else is lost, since two messages with the same text agree
    in everything but that. *)
Theorem marshal_faithful m (Hm : typed_ForwardMsg m) :
  exists body, Marshal m = inl body /\ readJson body = Some (msg_value (clean m)) /\
    forall m', typed_ForwardMsg m' -> Marshal m' = inl body -> clean m' = clean m.
Proof.
  destruct (marshals m Hm) as (body & Hb & Hr). exists body. split_and!; [done|done|].
  intros m' Hm' Hb'. destruct (marshals m' Hm') as (body' & E & Hr').
  assert (body' = body) as -> by congruence. rewrite Hr, !msg_value_clean in Hr' by done.
  injection Hr' as Hk Hvin Hd. apply lit_inj in Hk.
  destruct Hm as (Ht & _ & Hdata), Hm' as (Ht' & _ & Hdata').
  unfold clean. rewrite Ht, Ht', Hk, Hvin. f_equal. symmetry. by apply data_value_inj.
Qed.

Definition sample_login : ForwardMsg :=
  newForwardMsg "login" (lit "LTEST00000000000" ++ [255])
    (FwdLogin (mkVehicleLoginData (Date 2026 5 14 14 48 0 0) 1 (lit "89860<0>") 1 [mkConfigField 1 4 [1; 2; 3; 255]])).

Lemma sample_login_typed : typed_ForwardMsg sample_login.
Proof.
  split; [reflexivity|]. split; [check_bytes|]. split_and!.
  - split; [reflexivity|]. split; [reflexivity|]. split; vm_compute; discriminate.
  - split; vm_compute; [discriminate|reflexivity].
  - check_bytes.
  - split; vm_compute; [discriminate|reflexivity].
  - apply Forall_cons_2; [|constructor]. split; [|split; [|check_bytes]]; split; vm_compute; first [discriminate|reflexivity].
Qed.

(** Text with apostrophes for quotation marks. *)
Definition quoted (s : string) : bytes := (fun b => if b =? 39 then 34 else b) <$> lit s.

(** The replacement is a loss: the server does not check the VIN it forwards, and two
    VINs that differ in bytes that are not UTF-8 get the same text. *)
Lemma vins_merged : exists d,
  Marshal (newForwardMsg "logout" [76; 254] d) = Marshal (newForwardMsg "logout" [76; 255] d).
Proof. exists (FwdLogout (mkVehicleLogoutData (Date 2026 5 14 14 48 0 0) 1)). by vm_compute. Qed.

Lemma marshal_faithful_witness :
  Marshal sample_login = inl (quoted "{'type':'login','vin':'LTEST00000000000\ufffd','data':{'LoginTime':'2026-05-14T14:48:00Z','Sequence':1,'ICCID':'89860\u003c0\u003e','ConfigDataCnt':1,'ConfigData':[{'ID':1,'Length':4,'Value':'AQID/w=='}]}}") /\
  exists body, Marshal sample_login = inl body /\ readJson body = Some (msg_value (clean sample_login)).
Proof.
  split; [vm_compute; reflexivity|].
  destruct (marshal_faithful sample_login sample_login_typed) as (body & H1 & H2 & _).
  exists body. exact (conj H1 H2).
Defined.
