(* ===== verification/Aes.v ===== *)
(** * AES-128 (package [crypto/aes])

    The block cipher of the Go standard library that [crypto.go] calls, after
    FIPS 197: key expansion, encryption and decryption of a 16-byte block,
    and the proof that they are inverse.  The class [BlockCipher] is all that the
    CBC mode and [crypto.go] rely on. *)
From S2P Require Import Prelude.
From Stdlib Require Import Btauto.

(** ** Blocks *)

Definition BlockSize : int := 16.
Definition is_block (b : bytes) : Prop := length b = 16%nat /\ all_bytes b.

Definition xorBytes (a b : bytes) : bytes := zip_with Z.lxor a b.

(** What a mode of operation needs of a cipher. *)
Class BlockCipher (Encrypt Decrypt : bytes -> bytes) := {
  Encrypt_block : forall b, is_block b -> is_block (Encrypt b);
  Decrypt_block : forall b, is_block b -> is_block (Decrypt b);
  Decrypt_Encrypt : forall b, is_block b -> Decrypt (Encrypt b) = b
}.

(** ** The cipher *)

Definition sbox : list Z :=
  [
99; 124; 119; 123; 242; 107; 111; 197; 48; 1; 103; 43; 254; 215; 171; 118;
   202; 130; 201; 125; 250; 89; 71; 240; 173; 212; 162; 175; 156; 164; 114; 192;
   183; 253; 147; 38; 54; 63; 247; 204; 52; 165; 229; 241; 113; 216; 49; 21;
   4; 199; 35; 195; 24; 150; 5; 154; 7; 18; 128; 226; 235; 39; 178; 117;
   9; 131; 44; 26; 27; 110; 90; 160; 82; 59; 214; 179; 41; 227; 47; 132;
   83; 209; 0; 237; 32; 252; 177; 91; 106; 203; 190; 57; 74; 76; 88; 207;
   208; 239; 170; 251; 67; 77; 51; 133; 69; 249; 2; 127; 80; 60; 159; 168;
   81; 163; 64; 143; 146; 157; 56; 245; 188; 182; 218; 33; 16; 255; 243; 210;
   205; 12; 19; 236; 95; 151; 68; 23; 196; 167; 126; 61; 100; 93; 25; 115;
   96; 129; 79; 220; 34; 42; 144; 136; 70; 238; 184; 20; 222; 94; 11; 219;
   224; 50; 58; 10; 73; 6; 36; 92; 194; 211; 172; 98; 145; 149; 228; 121;
   231; 200; 55; 109; 141; 213; 78; 169; 108; 86; 244; 234; 101; 122; 174; 8;
   186; 120; 37; 46; 28; 166; 180; 198; 232; 221; 116; 31; 75; 189; 139; 138;
   112; 62; 181; 102; 72; 3; 246; 14; 97; 53; 87; 185; 134; 193; 29; 158;
   225; 248; 152; 17; 105; 217; 142; 148; 155; 30; 135; 233; 206; 85; 40; 223;
   140; 161; 137; 13; 191; 230; 66; 104; 65; 153; 45; 15; 176; 84; 187; 22].

Definition sbox_inv : list Z :=
  [
82; 9; 106; 213; 48; 54; 165; 56; 191; 64; 163; 158; 129; 243; 215; 251;
   124; 227; 57; 130; 155; 47; 255; 135; 52; 142; 67; 68; 196; 222; 233; 203;
   84; 123; 148; 50; 166; 194; 35; 61; 238; 76; 149; 11; 66; 250; 195; 78;
   8; 46; 161; 102; 40; 217; 36; 178; 118; 91; 162; 73; 109; 139; 209; 37;
   114; 248; 246; 100; 134; 104; 152; 22; 212; 164; 92; 204; 93; 101; 182; 146;
   108; 112; 72; 80; 253; 237; 185; 218; 94; 21; 70; 87; 167; 141; 157; 132;
   144; 216; 171; 0; 140; 188; 211; 10; 247; 228; 88; 5; 184; 179; 69; 6;
   208; 44; 30; 143; 202; 63; 15; 2; 193; 175; 189; 3; 1; 19; 138; 107;
   58; 145; 17; 65; 79; 103; 220; 234; 151; 242; 207; 206; 240; 180; 230; 115;
   150; 172; 116; 34; 231; 173; 53; 133; 226; 249; 55; 232; 28; 117; 223; 110;
   71; 241; 26; 113; 29; 41; 197; 137; 111; 183; 98; 14; 170; 24; 190; 27;
   252; 86; 62; 75; 198; 210; 121; 32; 154; 219; 192; 254; 120; 205; 90; 244;
   31; 221; 168; 51; 136; 7; 199; 49; 177; 18; 16; 89; 39; 128; 236; 95;
   96; 81; 127; 169; 25; 181; 74; 13; 45; 229; 122; 159; 147; 201; 156; 239;
   160; 224; 59; 77; 174; 42; 245; 176; 200; 235; 187; 60; 131; 83; 153; 97;
   23; 43; 4; 126; 186; 119; 214; 38; 225; 105; 20; 99; 85; 33; 12; 125].

Definition sub_byte (b : byte) : byte := nth (Z.to_nat b) sbox 0.
Definition inv_sub_byte (b : byte) : byte := nth (Z.to_nat b) sbox_inv 0.

(** The state in column order: byte [r + 4 * c] is row [r], column [c]. *)
Definition permute (p : list nat) (s : bytes) : bytes := (fun i => nth i s 0) <$> p.
Definition ShiftRows : bytes -> bytes :=
  permute [0; 5; 10; 15; 4; 9; 14; 3; 8; 13; 2; 7; 12; 1; 6; 11]%nat.
Definition InvShiftRows : bytes -> bytes :=
  permute [0; 13; 10; 7; 4; 1; 14; 11; 8; 5; 2; 15; 12; 9; 6; 3]%nat.

(** Multiplication by [x] in GF(2^8), and by the constants of the matrices. *)
Definition xtime (b : byte) : byte :=
  Z.lxor (Z.land (Z.shiftl b 1) 0xFF) (if 128 <=? b then 0x1B else 0).
Definition mul3 (b : byte) : byte := Z.lxor (xtime b) b.
Definition mul9 (b : byte) : byte := Z.lxor (xtime (xtime (xtime b))) b.
Definition mul11 (b : byte) : byte := Z.lxor (mul9 b) (xtime b).
Definition mul13 (b : byte) : byte := Z.lxor (mul9 b) (xtime (xtime b)).
Definition mul14 (b : byte) : byte :=
  Z.lxor (xtime (xtime (xtime b))) (Z.lxor (xtime (xtime b)) (xtime b)).

Definition column : Type := Z * Z * Z * Z.

(** A circulant matrix over a column, its first row given. *)
Definition circulant (f0 f1 f2 f3 : Z -> Z) (a : column) : column :=
  let '(a0, a1, a2, a3) := a in
  let row x0 x1 x2 x3 := Z.lxor (Z.lxor (f0 x0) (f1 x1)) (Z.lxor (f2 x2) (f3 x3)) in
  (row a0 a1 a2 a3, row a1 a2 a3 a0, row a2 a3 a0 a1, row a3 a0 a1 a2).

Definition MixColumn : column -> column := circulant xtime mul3 (fun b => b) (fun b => b).
Definition InvMixColumn : column -> column := circulant mul14 mul11 mul13 mul9.

(** A column transformation on every column of the state. *)
Fixpoint onColumns (f : column -> column) (s : bytes) : bytes :=
  match s with
  | a0 :: a1 :: a2 :: a3 :: s =>
      let '(b0, b1, b2, b3) := f (a0, a1, a2, a3) in
      b0 :: b1 :: b2 :: b3 :: onColumns f s
  | _ => []
  end.

Definition round (s k : bytes) : bytes :=
  xorBytes (onColumns MixColumn (ShiftRows (sub_byte <$> s))) k.
Definition inv_round (s k : bytes) : bytes :=
  inv_sub_byte <$> InvShiftRows (onColumns InvMixColumn (xorBytes s k)).

Definition last_round (s k : bytes) : bytes := xorBytes (ShiftRows (sub_byte <$> s)) k.
Definition inv_last_round (s k : bytes) : bytes := inv_sub_byte <$> InvShiftRows (xorBytes s k).

(** One step of the key schedule. *)
Definition next_key (rcon : byte) (k : bytes) : bytes :=
  let w i := take 4 (drop (4 * i) k) in
  let rot := drop 1 (w 3%nat) ++ take 1 (w 3%nat) in
  let t := xorBytes (sub_byte <$> rot) [rcon; 0; 0; 0] in
  let w0 := xorBytes (w 0%nat) t in
  let w1 := xorBytes (w 1%nat) w0 in
  let w2 := xorBytes (w 2%nat) w1 in
  let w3 := xorBytes (w 3%nat) w2 in
  w0 ++ w1 ++ w2 ++ w3.

Fixpoint expand (rcons : list Z) (k : bytes) : list bytes :=
  match rcons with
  | [] => []
  | r :: rcons => let k := next_key r k in k :: expand rcons k
  end.

(** The round keys: of the nine middle rounds and of the last. *)
Definition middle_keys (key : bytes) : list bytes := expand [1; 2; 4; 8; 16; 32; 64; 128; 27] key.
Definition last_key (key : bytes) : bytes := next_key 54 (List.last (middle_keys key) key).

Definition aesEncrypt (key b : bytes) : bytes :=
  last_round (fold_left round (middle_keys key) (xorBytes b key)) (last_key key).

Definition aesDecrypt (key b : bytes) : bytes :=
  xorBytes (fold_left inv_round (rev (middle_keys key)) (inv_last_round b (last_key key))) key.

(** The example of FIPS 197, appendix B. *)
Example fips197_encrypt :
  aesEncrypt [43; 126; 21; 22; 40; 174; 210; 166; 171; 247; 21; 136; 9; 207; 79; 60]
             [50; 67; 246; 168; 136; 90; 48; 141; 49; 49; 152; 162; 224; 55; 7; 52] =
    [57; 37; 132; 29; 2; 220; 9; 251; 220; 17; 133; 151; 25; 106; 11; 50].
Proof. vm_compute. reflexivity. Qed.

(** ** Tables *)

Definition all_256 (f : Z -> bool) : bool := forallb f (seqZ 0 256).

Lemma all_256_spec f b : all_256 f = true -> is_byte b -> f b = true.
Proof.
  unfold all_256. rewrite forallb_forall. intros H [? ?]. apply H.
  apply list_elem_of_In, elem_of_seqZ. lia.
Qed.

(** [by_table] proves an equation about one byte by its 256 instances. *)
Ltac by_table b Hb :=
  lazymatch goal with
  | |- @eq Z _ _ => apply Z.eqb_eq
  | |- @eq bool _ _ => idtac
  | |- is_byte _ => apply is_byteb_spec
  | |- _ => refine (bool_decide_eq_true_1 _ _)
  end;
  lazymatch goal with
  | |- ?t = true =>
      lazymatch (eval pattern b in t) with
      | ?f _ => apply (all_256_spec f b); [vm_compute; reflexivity | exact Hb]
      end
  end.

Lemma sub_byte_byte b : is_byte b -> is_byte (sub_byte b).
Proof. intros Hb. by_table b Hb. Qed.
Lemma inv_sub_byte_byte b : is_byte b -> is_byte (inv_sub_byte b).
Proof. intros Hb. by_table b Hb. Qed.
Lemma inv_sub_sub b : is_byte b -> inv_sub_byte (sub_byte b) = b.
Proof. intros Hb. by_table b Hb. Qed.

(** ** Exclusive or *)

Lemma lxor_byte a b : is_byte a -> is_byte b -> is_byte (Z.lxor a b).
Proof.
  unfold is_byte. intros [? ?] [? ?].
  assert (0 <= Z.lxor a b) by (apply Z.lxor_nonneg; lia). split; [done|].
  destruct (Z.eq_dec (Z.lxor a b) 0) as [->|]; [lia|].
  apply Z.log2_lt_cancel. change (Z.log2 256) with 8.
  eapply Z.le_lt_trans; [apply Z.log2_lxor; lia|].
  assert (Z.log2 a < 8) by (destruct (Z.eq_dec a 0) as [->|]; [done|apply Z.log2_lt_pow2; lia]).
  assert (Z.log2 b < 8) by (destruct (Z.eq_dec b 0) as [->|]; [done|apply Z.log2_lt_pow2; lia]).
  lia.
Qed.

(** [xor_ac] decides equations between exclusive ors. *)
Ltac xor_ac :=
  apply Z.bits_inj'; intros ? _; rewrite ?Z.lxor_spec; btauto.

Lemma xorBytes_length a b : length a = length b -> length (xorBytes a b) = length a.
Proof. intros H. unfold xorBytes. rewrite length_zip_with. lia. Qed.

Lemma xorBytes_bytes a b : all_bytes a -> all_bytes b -> all_bytes (xorBytes a b).
Proof.
  intros Ha. revert b. induction Ha as [|x a Hx Ha IH]; intros b Hb; [constructor|].
  destruct Hb as [|y b Hy Hb]; [constructor|]. constructor; [by apply lxor_byte|]. by apply IH.
Qed.

Lemma xorBytes_block a b : is_block a -> is_block b -> is_block (xorBytes a b).
Proof.
  intros [Ha ?] [Hb ?]. split; [rewrite xorBytes_length; congruence | by apply xorBytes_bytes].
Qed.

Lemma xorBytes_cancel a b : length a = length b -> xorBytes (xorBytes a b) b = a.
Proof.
  revert b. induction a as [|x a IH]; intros [|y b] H; try done. cbn.
  f_equal; [xor_ac|]. apply IH. by injection H.
Qed.

Lemma xorBytes_comm a b : xorBytes a b = xorBytes b a.
Proof.
  revert b. induction a as [|x a IH]; intros [|y b]; try done. cbn. f_equal; [apply Z.lxor_comm|].
  apply IH.
Qed.

(** ** The columns *)

(** Additive maps on bytes, and how they compose. *)
Definition additive (f : Z -> Z) : Prop :=
  (forall a, is_byte a -> is_byte (f a)) /\
  (forall a b, is_byte a -> is_byte b -> f (Z.lxor a b) = Z.lxor (f a) (f b)).

Lemma additive_id : additive (fun b => b).
Proof. done. Qed.

Lemma additive_xor f g : additive f -> additive g -> additive (fun b => Z.lxor (f b) (g b)).
Proof.
  intros [Hf Hf'] [Hg Hg']. split; [auto using lxor_byte|].
  intros a b Ha Hb. rewrite Hf', Hg' by done. xor_ac.
Qed.

Lemma additive_comp f g : additive f -> additive g -> additive (fun b => f (g b)).
Proof. intros [Hf Hf'] [Hg Hg']. split; [auto|]. intros a b Ha Hb. rewrite Hg', Hf'; auto. Qed.

Lemma additive_xtime : additive xtime.
Proof.
  split; [intros a Ha; by_table a Ha|].
  intros a b Ha Hb.
  assert (all_256 (fun b => xtime (Z.lxor a b) =? Z.lxor (xtime a) (xtime b)) = true) as H.
  { by_table a Ha. }
  by apply Z.eqb_eq, (all_256_spec _ b H).
Qed.

Create HintDb gf256 discriminated.
#[local] Hint Resolve additive_id additive_xtime additive_xor additive_comp : gf256.

Lemma additive_muls : additive mul3 /\ additive mul9 /\ additive mul11 /\ additive mul13 /\ additive mul14.
Proof.
  assert (additive (fun b => xtime (xtime b))) as H4 by (apply (additive_comp xtime xtime); eauto with gf256).
  assert (additive (fun b => xtime (xtime (xtime b)))) as H8
    by (apply (additive_comp xtime (fun b => xtime (xtime b))); eauto with gf256).
  pose proof additive_xtime as H2.
  assert (additive mul9) as H9 by (by apply (additive_xor (fun b => xtime (xtime (xtime b))) (fun b => b))).
  split_and!; [|done|..].
  - by apply (additive_xor xtime (fun b => b)).
  - by apply (additive_xor mul9 xtime).
  - by apply (additive_xor mul9 (fun b => xtime (xtime b))).
  - apply (additive_xor (fun b => xtime (xtime (xtime b)))
             (fun b => Z.lxor (xtime (xtime b)) (xtime b))); [done|].
    by apply (additive_xor (fun b => xtime (xtime b)) xtime).
Qed.

Definition vxor (a b : column) : column :=
  let '(a0, a1, a2, a3) := a in
  let '(b0, b1, b2, b3) := b in
  (Z.lxor a0 b0, Z.lxor a1 b1, Z.lxor a2 b2, Z.lxor a3 b3).
Definition is_column (a : column) : Prop :=
  let '(a0, a1, a2, a3) := a in is_byte a0 /\ is_byte a1 /\ is_byte a2 /\ is_byte a3.

Section circulant.
Context (f0 f1 f2 f3 : Z -> Z).
Context (H0 : additive f0) (H1 : additive f1) (H2 : additive f2) (H3 : additive f3).

Lemma circulant_column a : is_column a -> is_column (circulant f0 f1 f2 f3 a).
Proof.
  destruct a as [[[a0 a1] a2] a3], H0, H1, H2, H3. cbn. intros (? & ? & ? & ?).
  split_and!; repeat apply lxor_byte; auto.
Qed.

Lemma circulant_vxor a b :
  is_column a -> is_column b ->
  circulant f0 f1 f2 f3 (vxor a b) = vxor (circulant f0 f1 f2 f3 a) (circulant f0 f1 f2 f3 b).
Proof.
  destruct a as [[[a0 a1] a2] a3], b as [[[b0 b1] b2] b3].
  destruct H0 as [_ E0], H1 as [_ E1], H2 as [_ E2], H3 as [_ E3].
  cbn. intros (? & ? & ? & ?) (? & ? & ? & ?).
  rewrite !E0, !E1, !E2, !E3 by done.
  repeat match goal with |- (_, _) = (_, _) => f_equal end; xor_ac.
Qed.
End circulant.

Lemma MixColumn_column a : is_column a -> is_column (MixColumn a).
Proof. destruct additive_muls as (? & _). apply circulant_column; eauto with gf256. Qed.
Lemma InvMixColumn_column a : is_column a -> is_column (InvMixColumn a).
Proof. destruct additive_muls as (? & ? & ? & ? & ?). apply circulant_column; eauto with gf256. Qed.

(** The matrices are inverse: on the columns with one non-zero byte by their
    256 instances, hence by additivity on all. *)
Lemma InvMix_Mix a : is_column a -> InvMixColumn (MixColumn a) = a.
Proof.
  destruct a as [[[a0 a1] a2] a3]. intros (B0 & B1 & B2 & B3).
  assert (is_byte 0) as B by (unfold is_byte; lia).
  assert (InvMixColumn (MixColumn (a0, 0, 0, 0)) = (a0, 0, 0, 0)) as E0.
  { by_table a0 B0. }
  assert (InvMixColumn (MixColumn (0, a1, 0, 0)) = (0, a1, 0, 0)) as E1.
  { by_table a1 B1. }
  assert (InvMixColumn (MixColumn (0, 0, a2, 0)) = (0, 0, a2, 0)) as E2.
  { by_table a2 B2. }
  assert (InvMixColumn (MixColumn (0, 0, 0, a3)) = (0, 0, 0, a3)) as E3.
  { by_table a3 B3. }
  destruct additive_muls as (M3 & M9 & M11 & M13 & M14).
  assert (forall u v, is_column u -> is_column v ->
    InvMixColumn (MixColumn (vxor u v)) = vxor (InvMixColumn (MixColumn u)) (InvMixColumn (MixColumn v))) as Hadd.
  { intros u v Hu Hv. unfold MixColumn at 1. rewrite circulant_vxor by eauto with gf256.
    apply circulant_vxor; auto using MixColumn_column. }
  replace (a0, a1, a2, a3) with
    (vxor (vxor (a0, 0, 0, 0) (0, a1, 0, 0)) (vxor (0, 0, a2, 0) (0, 0, 0, a3)))
    by (cbn; rewrite !Z.lxor_0_r, ?Z.lxor_0_l; done).
  rewrite !Hadd by (cbn; rewrite ?Z.lxor_0_r, ?Z.lxor_0_l; done). by rewrite E0, E1, E2, E3.
Qed.

Lemma onColumns_length f s n : length s = (4 * n)%nat -> length (onColumns f s) = (4 * n)%nat.
Proof.
  revert s. induction n as [|n IH]; intros s Hl; [by destruct s|].
  destruct s as [|a0 [|a1 [|a2 [|a3 s]]]]; try (cbn in Hl; lia). cbn [onColumns].
  destruct (f _) as [[[b0 b1] b2] b3]. cbn [length] in *. rewrite IH; lia.
Qed.

Lemma onColumns_bytes f s :
  (forall a, is_column a -> is_column (f a)) -> all_bytes s -> all_bytes (onColumns f s).
Proof.
  intros Hf. remember (length s) as n eqn:Hn. revert s Hn.
  induction n as [n IH] using lt_wf_ind. intros s -> Hs.
  destruct s as [|a0 [|a1 [|a2 [|a3 s]]]]; cbn [onColumns]; try constructor.
  decompose_Forall. specialize (Hf (a0, a1, a2, a3) ltac:(done)).
  destruct (f _) as [[[b0 b1] b2] b3]. destruct Hf as (? & ? & ? & ?).
  repeat apply Forall_cons_2; try done. eapply IH; [|done..]. cbn. lia.
Qed.

Lemma onColumns_inv f g s n :
  (forall a, is_column a -> g (f a) = a) -> all_bytes s -> length s = (4 * n)%nat ->
  onColumns g (onColumns f s) = s.
Proof.
  intros Hfg. revert s. induction n as [|n IH]; intros s Hs Hl; [by destruct s|].
  destruct s as [|a0 [|a1 [|a2 [|a3 s]]]]; try (cbn in Hl; lia). cbn [onColumns].
  decompose_Forall. specialize (Hfg (a0, a1, a2, a3) ltac:(done)).
  destruct (f _) as [[[b0 b1] b2] b3]. cbn [onColumns]. rewrite Hfg. by rewrite IH by (done || (cbn in Hl; lia)).
Qed.

(** ** Rounds *)

Lemma permute_block p s :
  length p = 16%nat -> Forall (fun i => i < 16)%nat p -> is_block s -> is_block (permute p s).
Proof.
  intros Hl Hp [Hs Hb]. unfold permute. split; [by rewrite length_fmap|].
  apply Forall_fmap. eapply Forall_impl; [exact Hp|]. intros i Hi. cbn in Hi |- *.
  rewrite Forall_forall in Hb. apply Hb, list_elem_of_In, nth_In. lia.
Qed.

Lemma ShiftRows_block s : is_block s -> is_block (ShiftRows s).
Proof. apply permute_block; [done|]. repeat constructor. Qed.
Lemma InvShiftRows_block s : is_block s -> is_block (InvShiftRows s).
Proof. apply permute_block; [done|]. repeat constructor. Qed.

Lemma InvShift_Shift s : is_block s -> InvShiftRows (ShiftRows s) = s.
Proof.
  intros [Hl _]. do 16 (destruct s as [|? s]; [discriminate Hl|]). by destruct s.
Qed.

Lemma fmap_block f s : (forall b, is_byte b -> is_byte (f b)) -> is_block s -> is_block (f <$> s).
Proof.
  intros Hf [Hl Hb]. split; [by rewrite length_fmap|]. apply Forall_fmap.
  eapply Forall_impl; [exact Hb|]. exact Hf.
Qed.

Lemma onColumns_block f s :
  (forall a, is_column a -> is_column (f a)) -> is_block s -> is_block (onColumns f s).
Proof.
  intros Hf [Hl Hb]. split; [by apply (onColumns_length _ _ 4)|by apply onColumns_bytes].
Qed.

Create HintDb aes discriminated.
#[export] Hint Resolve xorBytes_block ShiftRows_block InvShiftRows_block fmap_block
  onColumns_block sub_byte_byte inv_sub_byte_byte MixColumn_column InvMixColumn_column : aes.

Lemma inv_sub_all s : is_block s -> inv_sub_byte <$> (sub_byte <$> s) = s.
Proof.
  intros [_ Hb]. rewrite <- list_fmap_compose. rewrite <- (list_fmap_id s) at 2.
  apply list_fmap_ext. intros i b Hi. apply inv_sub_sub. by eapply Forall_lookup_1.
Qed.

Lemma round_block s k : is_block s -> is_block k -> is_block (round s k).
Proof. unfold round. auto 6 with aes. Qed.
Lemma inv_round_block s k : is_block s -> is_block k -> is_block (inv_round s k).
Proof. unfold inv_round. auto 6 with aes. Qed.
Lemma last_round_block s k : is_block s -> is_block k -> is_block (last_round s k).
Proof. unfold last_round. auto 6 with aes. Qed.
Lemma inv_last_round_block s k : is_block s -> is_block k -> is_block (inv_last_round s k).
Proof. unfold inv_last_round. auto 6 with aes. Qed.

Lemma block_lengths a b : is_block a -> is_block b -> length a = length b.
Proof. intros [] []. congruence. Qed.
#[export] Hint Resolve round_block inv_round_block last_round_block inv_last_round_block
  block_lengths : aes.

Lemma inv_round_round s k : is_block s -> is_block k -> inv_round (round s k) k = s.
Proof.
  intros Hs Hk. unfold inv_round, round. rewrite xorBytes_cancel by auto 7 with aes.
  rewrite (onColumns_inv _ _ _ 4); [|exact InvMix_Mix| |].
  - rewrite InvShift_Shift by auto with aes. by apply inv_sub_all.
  - apply ShiftRows_block. auto with aes.
  - apply ShiftRows_block. auto with aes.
Qed.

Lemma inv_last_round_last s k : is_block s -> is_block k -> inv_last_round (last_round s k) k = s.
Proof.
  intros Hs Hk. unfold inv_last_round, last_round. rewrite xorBytes_cancel by auto 6 with aes.
  rewrite InvShift_Shift by auto with aes. by apply inv_sub_all.
Qed.

Lemma rounds_block f ks : forall s,
  (forall s k, is_block s -> is_block k -> is_block (f s k)) ->
  Forall is_block ks -> is_block s -> is_block (fold_left f ks s).
Proof. induction ks as [|k ks IH]; intros s Hf Hks Hs; [done|]. inversion_clear Hks. cbn. auto. Qed.

Lemma inv_rounds ks : forall s,
  Forall is_block ks -> is_block s -> fold_left inv_round (rev ks) (fold_left round ks s) = s.
Proof.
  induction ks as [|k ks IH]; intros s Hks Hs; [done|]. inversion_clear Hks.
  cbn [fold_left rev]. rewrite fold_left_app, IH by auto with aes. cbn. by apply inv_round_round.
Qed.

Lemma next_key_block r k : is_byte r -> is_block k -> is_block (next_key r k).
Proof.
  intros Hr [Hl Hb]. do 16 (destruct k as [|? k]; [discriminate Hl|]). destruct k; [|discriminate Hl].
  decompose_Forall. split; [done|]. cbn -[sub_byte Z.lxor]. rewrite !Z.lxor_0_r.
  repeat apply Forall_cons_2; try apply Forall_nil_2; repeat apply lxor_byte; auto using sub_byte_byte.
Qed.

Lemma expand_blocks rcons : forall k,
  all_bytes rcons -> is_block k -> Forall is_block (expand rcons k).
Proof.
  induction rcons as [|r rcons IH]; intros k Hr Hk; [constructor|]. inversion_clear Hr.
  cbn [expand]. cbv zeta. apply Forall_cons_2; [|apply IH]; auto using next_key_block.
Qed.

Lemma last_blocks ks : forall k, Forall is_block ks -> is_block k -> is_block (List.last ks k).
Proof.
  induction ks as [|k' ks IH]; intros k Hks Hk; [done|]. inversion_clear Hks.
  destruct ks; [done|]. by apply IH.
Qed.

Lemma middle_keys_blocks key : is_block key -> Forall is_block (middle_keys key).
Proof. apply expand_blocks. check_bytes. Qed.
Lemma last_key_block key : is_block key -> is_block (last_key key).
Proof.
  intros Hk. apply next_key_block; [unfold is_byte; lia|].
  apply last_blocks; [by apply middle_keys_blocks|done].
Qed.

Section aes128.
Context (key : bytes) (Hkey : is_block key).

Lemma aesDecrypt_Encrypt b : is_block b -> aesDecrypt key (aesEncrypt key b) = b.
Proof.
  intros Hb. unfold aesDecrypt, aesEncrypt.
  pose proof (middle_keys_blocks key Hkey) as Hm. pose proof (last_key_block key Hkey) as Hlk.
  rewrite inv_last_round_last by (try apply rounds_block; auto with aes).
  rewrite inv_rounds by auto with aes. apply xorBytes_cancel. auto with aes.
Qed.

Lemma aesEncrypt_block b : is_block b -> is_block (aesEncrypt key b).
Proof.
  intros Hb. apply last_round_block; [|by apply last_key_block].
  apply rounds_block; auto using middle_keys_blocks with aes.
Qed.

Lemma aesDecrypt_block b : is_block b -> is_block (aesDecrypt key b).
Proof.
  intros Hb. apply xorBytes_block; [|done]. apply rounds_block; [auto with aes| |].
  - apply Forall_rev, middle_keys_blocks, Hkey.
  - apply inv_last_round_block; [done|by apply last_key_block].
Qed.

(** AES-128 with a 16-byte key is a block cipher. *)
#[export] Instance aes128 : BlockCipher (aesEncrypt key) (aesDecrypt key) :=
  {| Encrypt_block := aesEncrypt_block; Decrypt_block := aesDecrypt_block;
     Decrypt_Encrypt := aesDecrypt_Encrypt |}.
End aes128.
