(* ===== verification/Crypto.v ===== *)
(** * Session encryption ([crypto.go])

    AES-128 in CBC mode with PKCS#7 padding; the key is the token of the login
    response and also the initialisation vector.  CBC is defined over any block
    cipher ([Aes.BlockCipher]), as [crypto/cipher] has it. *)
From S2P Require Import Prelude.
From S2P Require Import Aes.

(** ** CBC ([crypto/cipher]) *)

(** The blocks of [src] one by one, [n] of them. *)
Fixpoint cbcEncrypt (E : bytes -> bytes) (n : nat) (iv src : bytes) : bytes :=
  match n with
  | O => []
  | S n =>
      let c := E (xorBytes iv (take 16 src)) in
      c ++ cbcEncrypt E n c (drop 16 src)
  end.

Fixpoint cbcDecrypt (D : bytes -> bytes) (n : nat) (iv src : bytes) : bytes :=
  match n with
  | O => []
  | S n => xorBytes (D (take 16 src)) iv ++ cbcDecrypt D n (take 16 src) (drop 16 src)
  end.

(** [mode.CryptBlocks(dst, src)]: panics on part of a block and on a [dst]
    shorter than [src]. *)
Definition CryptBlocks (crypt : nat -> bytes -> bytes -> bytes) (iv dst src : bytes) : outcome bytes :=
  if negb (len src mod BlockSize =? 0) then Panic
  else if len dst <? len src then Panic
  else Ok (crypt (Z.to_nat (len src / BlockSize)) iv src ++ drop (length src) dst).

(** ** The program *)

Definition DeriveAESKey (token : bytes) : bytes :=
  copy (replicate (Z.to_nat BlockSize) 0) token.

(** [append(data, pad...)] with a pad of [padLen] bytes [padLen]. *)
Definition pkcs7Pad (data : bytes) (blockSize : int) : bytes :=
  let padLen := blockSize - len data mod blockSize in
  data ++ replicate (Z.to_nat padLen) (to_byte padLen).

(** Only the last byte of the padding is looked at. *)
Definition pkcs7Unpad (data : bytes) : outcome bytes :=
  if len data =? 0 then Err (Errorf "empty data" []) else
  let! padLen := index data (len data - 1) in
  if (len data <? padLen) || (padLen =? 0) || (BlockSize <? padLen) then
    Err (Errorf "invalid padding" [])
  else slice data 0 (len data - padLen).

(** [aes.NewCipher] accepts a key of 16 bytes. *)
Definition EncryptAES128 (data key : bytes) : outcome bytes :=
  if len key <? BlockSize then Err ErrKeyTooShort else
  let! k := slice key 0 BlockSize in
  let padded := pkcs7Pad data BlockSize in
  let! encrypted := make (len padded) in
  let! iv := slice key 0 BlockSize in
  CryptBlocks (cbcEncrypt (aesEncrypt k)) iv encrypted padded.

Definition DecryptAES128 (data key : bytes) : outcome bytes :=
  if len key <? BlockSize then Err ErrKeyTooShort else
  if negb (len data mod BlockSize =? 0) then Err ErrDecrypt else
  let! k := slice key 0 BlockSize in
  let! decrypted := make (len data) in
  let! iv := slice key 0 BlockSize in
  let! decrypted := CryptBlocks (cbcDecrypt (aesDecrypt k)) iv decrypted data in
  match pkcs7Unpad decrypted with
  | Ok unpadded => Ok unpadded
  | Err _ => Err ErrDecrypt
  | Panic => Panic
  | OutOfFuel => OutOfFuel
  end.

(** ** CBC over a block cipher *)

Section cbc.
Context (E D : bytes -> bytes) `{BlockCipher E D}.

Lemma take16_block l n : (length l = 16 * S n)%nat -> all_bytes l -> is_block (take 16 l).
Proof. intros Hl Hb. split; [rewrite length_take; lia | by apply Forall_take]. Qed.

Lemma cbcEncrypt_blocks n : forall iv src,
  is_block iv -> (length src = 16 * n)%nat -> all_bytes src ->
  (length (cbcEncrypt E n iv src) = 16 * n)%nat /\ all_bytes (cbcEncrypt E n iv src).
Proof.
  induction n as [|n IH]; intros iv src Hiv Hl Hb; [split; [done | constructor]|].
  cbn [cbcEncrypt]. cbv zeta. set (c := E _).
  assert (is_block c) as Hc by (apply Encrypt_block, xorBytes_block; eauto using take16_block).
  destruct (IH c (drop 16 src)) as [Hl' Hb'];
    [done | rewrite length_drop; lia | by apply Forall_drop|].
  split; [rewrite length_app, Hl'; destruct Hc; lia | by apply Forall_app_2; [apply Hc|]].
Qed.

Lemma cbcDecrypt_blocks n : forall iv src,
  is_block iv -> (length src = 16 * n)%nat -> all_bytes src ->
  (length (cbcDecrypt D n iv src) = 16 * n)%nat /\ all_bytes (cbcDecrypt D n iv src).
Proof.
  induction n as [|n IH]; intros iv src Hiv Hl Hb; [split; [done | constructor]|].
  cbn [cbcDecrypt]. pose proof (take16_block src n Hl Hb) as Ht.
  assert (is_block (xorBytes (D (take 16 src)) iv)) as Hc
    by (apply xorBytes_block; [by apply Decrypt_block|done]).
  destruct (IH (take 16 src) (drop 16 src)) as [Hl' Hb'];
    [done | rewrite length_drop; lia | by apply Forall_drop|].
  split; [rewrite length_app, Hl'; destruct Hc; lia | by apply Forall_app_2; [apply Hc|]].
Qed.

(** Decryption undoes encryption, block by block, under the same vector. *)
Lemma cbc_roundtrip n : forall iv src,
  is_block iv -> (length src = 16 * n)%nat -> all_bytes src ->
  cbcDecrypt D n iv (cbcEncrypt E n iv src) = src.
Proof.
  induction n as [|n IH]; intros iv src Hiv Hl Hb; [by destruct src|].
  cbn [cbcEncrypt cbcDecrypt]. cbv zeta. set (c := E _).
  pose proof (take16_block src n Hl Hb) as Ht.
  assert (is_block (xorBytes iv (take 16 src))) as Hx by auto using xorBytes_block.
  assert (is_block c) as Hc by (by apply Encrypt_block).
  assert (length c = 16%nat) as Hlc by apply Hc.
  rewrite take_app_length', drop_app_length' by done.
  unfold c at 1. rewrite (Decrypt_Encrypt (Encrypt := E) (Decrypt := D)) by done.
  rewrite (xorBytes_comm iv), xorBytes_cancel by (by apply block_lengths).
  rewrite IH; [apply take_drop | done | rewrite length_drop; lia | by apply Forall_drop].
Qed.
End cbc.

(** ** Padding *)

Lemma pkcs7Pad_length data :
  len (pkcs7Pad data BlockSize) = 16 * (len data / 16 + 1).
Proof.
  unfold pkcs7Pad, BlockSize. pose proof (len_nonneg data).
  rewrite len_app, len_replicate by (zdm; lia). zdm. lia.
Qed.

Lemma pkcs7Unpad_Pad data : pkcs7Unpad (pkcs7Pad data BlockSize) = Ok data.
Proof.
  pose proof (pkcs7Pad_length data) as Hl. pose proof (len_nonneg data).
  unfold pkcs7Unpad. unfold BlockSize in *.
  destruct (Z.eqb_spec (len (pkcs7Pad data 16)) 0); [zdm; lia|].
  assert (1 <= 16 - len data mod 16 <= 16) as Hp by (zdm; lia).
  set (p := 16 - len data mod 16) in *.
  assert (pkcs7Pad data 16 = (data ++ replicate (Z.to_nat (p - 1)) p) ++ [p]) as Hs.
  { unfold pkcs7Pad. fold p. rewrite to_byte_small by (unfold is_byte; lia).
    rewrite <- app_assoc. f_equal. rewrite <- replicate_S_end. f_equal. lia. }
  assert (len (pkcs7Pad data 16) = len data + p) as Hlp.
  { unfold pkcs7Pad. fold p. rewrite len_app, len_replicate; lia. }
  rewrite (index_at _ _ p []).
  - cbn [bind]. destruct (Z.ltb_spec (len (pkcs7Pad data 16)) p); [lia|].
    destruct (Z.eqb_spec p 0); [lia|]. unfold BlockSize. destruct (Z.ltb_spec 16 p); [lia|].
    cbn [orb]. apply (slice_at _ _ _ data (replicate (Z.to_nat p) (to_byte p))); [|lia].
    exists []. done.
  - exists (data ++ replicate (Z.to_nat (p - 1)) p). split; [done|].
    rewrite Hlp, len_app, len_replicate; lia.
Qed.

(** ** The key *)

(** The first 16 bytes of the token, padded with zeros. *)
Lemma DeriveAESKey_eq token :
  DeriveAESKey token = take 16 token ++ replicate (16 - length token) 0.
Proof.
  unfold DeriveAESKey, copy. rewrite length_replicate. change (Z.to_nat BlockSize) with 16%nat.
  f_equal. apply drop_replicate.
Qed.

Lemma DeriveAESKey_block token : all_bytes token -> is_block (DeriveAESKey token).
Proof.
  intros Hb. rewrite DeriveAESKey_eq. split.
  - rewrite length_app, length_take, length_replicate. lia.
  - apply Forall_app_2; [by apply Forall_take|]. apply Forall_replicate. unfold is_byte. lia.
Qed.

(** ** The two calls, unfolded *)

Section calls.
Context (data key : bytes) (Hdata : all_bytes data) (Hkey : all_bytes key).

Lemma key_block : 16 <= len key -> is_block (sub key 0 16).
Proof.
  intros Hl. split; [|by apply all_bytes_sub].
  assert (len (sub key 0 16) = 16) by (rewrite len_sub; lia). unfold len in *. lia.
Qed.

Lemma pkcs7Pad_bytes : all_bytes (pkcs7Pad data BlockSize).
Proof.
  apply Forall_app_2; [done|]. apply Forall_replicate. apply is_byte_to_byte.
Qed.

Lemma length_blocks (l : bytes) n : len l = 16 * n -> 0 <= n -> length l = (16 * Z.to_nat n)%nat.
Proof. unfold len. lia. Qed.

Lemma EncryptAES128_eq :
  16 <= len key ->
  EncryptAES128 data key =
    Ok (cbcEncrypt (aesEncrypt (sub key 0 16)) (Z.to_nat (len data / 16 + 1)) (sub key 0 16)
          (pkcs7Pad data BlockSize)).
Proof.
  intros Hl. unfold EncryptAES128. change (len key <? BlockSize) with (len key <? 16).
  destruct (Z.ltb_spec (len key) 16); [lia|].
  rewrite !slice_ok by (unfold BlockSize; lia). cbn [bind]. cbv zeta. rewrite pkcs7Pad_length.
  pose proof (len_nonneg data). rewrite make_ok by (zdm; lia). cbn [bind].
  unfold CryptBlocks. rewrite pkcs7Pad_length. change BlockSize with 16 at 1 3.
  replace (16 * (len data / 16 + 1)) with ((len data / 16 + 1) * 16) by lia.
  rewrite Z.mod_mul, Z.div_mul, len_replicate by (zdm; lia). cbn [Z.eqb negb].
  destruct (Z.ltb_spec ((len data / 16 + 1) * 16) ((len data / 16 + 1) * 16)); [lia|].
  rewrite drop_ge; [by rewrite app_nil_r|]. rewrite length_replicate.
  pose proof (pkcs7Pad_length data). unfold len in *. lia.
Qed.

Lemma DecryptAES128_eq n :
  16 <= len key -> len data = 16 * n -> 0 <= n ->
  DecryptAES128 data key =
    match pkcs7Unpad (cbcDecrypt (aesDecrypt (sub key 0 16)) (Z.to_nat n) (sub key 0 16) data) with
    | Ok u => Ok u | Err _ => Err ErrDecrypt | Panic => Panic | OutOfFuel => OutOfFuel
    end.
Proof.
  intros Hl Hn Hn'. unfold DecryptAES128, BlockSize. destruct (Z.ltb_spec (len key) 16); [lia|].
  rewrite !slice_ok by lia. cbn [bind]. cbv zeta. rewrite Hn.
  replace (16 * n) with (n * 16) by lia. rewrite Z.mod_mul by lia. cbn [Z.eqb negb].
  rewrite make_ok by lia. cbn [bind]. unfold CryptBlocks, BlockSize. rewrite Hn, len_replicate by lia.
  replace (16 * n) with (n * 16) by lia. rewrite Z.mod_mul, Z.div_mul by lia. cbn [Z.eqb negb].
  destruct (Z.ltb_spec (n * 16) (n * 16)); [lia|]. cbn [bind].
  rewrite drop_ge; [by rewrite app_nil_r|]. rewrite length_replicate. unfold len in *. lia.
Qed.

Lemma pkcs7Unpad_post d :
  all_bytes d ->
  post (pkcs7Unpad d) (fun u => len d - 16 <= len u < len d /\ all_bytes u) (fun _ => True).
Proof.
  intros Hd. unfold pkcs7Unpad. pose proof (len_nonneg d).
  destruct (Z.eqb_spec (len d) 0); [done|]. do 2 go_step.
  destruct (Z.ltb_spec (len d) b); [done|]. destruct (Z.eqb_spec b 0); [done|].
  unfold BlockSize. destruct (Z.ltb_spec 16 b); [done|]. cbn [orb]. go_step. split; [width_lia|done].
Qed.
End calls.

(** Decryption with a long enough key. *)
Lemma DecryptAES128_post data key :
  all_bytes data -> all_bytes key -> 16 <= len key ->
  (len data mod 16 <> 0 \/ len data = 0 -> DecryptAES128 data key = Err ErrDecrypt) /\
  post (DecryptAES128 data key) (fun u => len data - 16 <= len u < len data /\ all_bytes u)
    (fun e => e = ErrDecrypt).
Proof.
  intros Hdata Hkey Hl. destruct (Z.eq_dec (len data mod 16) 0) as [Hm|Hm].
  - pose proof (len_nonneg data). set (n := len data / 16).
    assert (len data = 16 * n) as Hn by (unfold n; zdm; lia).
    assert (0 <= n) as Hn' by lia. rewrite (DecryptAES128_eq _ _ n) by done.
    set (k := sub key 0 16). pose proof (key_block key Hkey Hl) as Hk. fold k in Hk.
    pose proof (aes128 k Hk) as Hcipher. pose proof (length_blocks _ n Hn Hn') as Hnl.
    destruct (cbcDecrypt_blocks _ _ (Z.to_nat n) k data Hk Hnl Hdata) as [Hcl Hcb].
    set (d := cbcDecrypt _ _ _ _) in *. assert (len d = len data) as Hd by (unfold len; lia).
    pose proof (pkcs7Unpad_post d Hcb) as Hu. rewrite Hd in Hu. split.
    + intros [?|H0]; [done|]. unfold pkcs7Unpad. by rewrite Hd, H0.
    + by destruct (pkcs7Unpad d).
  - assert (DecryptAES128 data key = Err ErrDecrypt) as ->; [|done].
    unfold DecryptAES128, BlockSize. destruct (Z.ltb_spec (len key) 16); [lia|].
    by destruct (Z.eqb_spec (len data mod 16) 0).
Qed.

(** Encryption with a long enough key succeeds and is undone. *)
Lemma encrypt_decrypt data key :
  all_bytes data -> all_bytes key -> 16 <= len key ->
  exists c, EncryptAES128 data key = Ok c /\ len c = 16 * (len data / 16 + 1) /\ all_bytes c /\
    DecryptAES128 c key = Ok data.
Proof.
  intros Hdata Hkey Hl.   rewrite EncryptAES128_eq by done. eexists. split; [done|].
  set (k := sub key 0 16). set (n := len data / 16 + 1).
  pose proof (key_block key Hkey Hl) as Hk. fold k in Hk.
  pose proof (pkcs7Pad_bytes data Hdata) as Hp. pose proof (pkcs7Pad_length data) as Hpl.
  fold n in Hpl. pose proof (len_nonneg data). assert (0 <= n) as Hn by (unfold n; zdm; lia).
  pose proof (length_blocks _ n Hpl Hn) as Hpn.
  pose proof (aes128 k Hk) as Hcipher.
  destruct (cbcEncrypt_blocks _ _ (Z.to_nat n) k _ Hk Hpn Hp) as [Hcl Hcb].
  assert (len (cbcEncrypt (aesEncrypt k) (Z.to_nat n) k (pkcs7Pad data BlockSize)) = 16 * n) as Hc
    by (unfold len; lia).
  split; [done|]. split; [done|]. rewrite (DecryptAES128_eq _ _ n) by done. fold k.
  rewrite (cbc_roundtrip _ _ (Z.to_nat n) k _ Hk Hpn Hp). by rewrite pkcs7Unpad_Pad.
Qed.

(** ** Properties *)

(** C14: Encryption round-trips: for a key of 16 bytes or more, [EncryptAES128]
    succeeds on any data, the empty one included, writes whole blocks, at least
    one byte of them padding, and [DecryptAES128] with the same key returns
    the data. *)
Theorem encrypt_decrypt_roundtrip data key
    (Hdata : all_bytes data) (Hkey : all_bytes key) (Hl : 16 <= len key) :
  exists c, EncryptAES128 data key = Ok c /\ len c = 16 * (len data / 16 + 1) /\
    DecryptAES128 c key = Ok data.
Proof.
  destruct (encrypt_decrypt data key) as (c & ? & ? & _ & ?); [done..|]. by exists c.
Qed.

Lemma encrypt_decrypt_roundtrip_witness :
  exists c, EncryptAES128 [1; 2; 3] (DeriveAESKey [116; 111; 107]) = Ok c /\ len c = 16 /\
    DecryptAES128 c (DeriveAESKey [116; 111; 107]) = Ok [1; 2; 3].
Proof.
  apply (encrypt_decrypt_roundtrip [1; 2; 3] (DeriveAESKey [116; 111; 107]));
    [check_bytes | check_bytes | vm_compute; discriminate].
Defined.

(** Every branch of the two calls: a key under 16 bytes is refused with
    [ErrKeyTooShort], data that is not whole blocks and data whose padding is
    invalid with [ErrDecrypt]; nothing panics, and what decrypts is 1 to 16
    bytes shorter than the data. *)
Theorem crypto_errors data key (Hdata : all_bytes data) (Hkey : all_bytes key) :
  (EncryptAES128 data key = Err ErrKeyTooShort <-> len key < 16) /\
  (len key < 16 -> DecryptAES128 data key = Err ErrKeyTooShort) /\
  (16 <= len key -> len data mod 16 <> 0 \/ len data = 0 -> DecryptAES128 data key = Err ErrDecrypt) /\
  post (DecryptAES128 data key) (fun u => len data - 16 <= len u < len data /\ all_bytes u)
    (fun e => e = ErrKeyTooShort /\ len key < 16 \/ e = ErrDecrypt /\ 16 <= len key).
Proof.
  destruct (Z.lt_ge_cases (len key) 16) as [Hl|Hl].
  { unfold EncryptAES128, DecryptAES128, BlockSize. destruct (Z.ltb_spec (len key) 16); [|lia].
    split_and!; try done; [lia | by left]. }
  split; [rewrite EncryptAES128_eq by done; split; [done|lia]|]. split; [lia|].
  destruct (DecryptAES128_post data key Hdata Hkey Hl) as [H1 H2]. split; [auto|].
  eapply post_err; [|exact H2]. intros e ->. by right.
Qed.

Lemma crypto_errors_witness :
  DecryptAES128 [] (replicate 16 7) = Err ErrDecrypt /\
  EncryptAES128 [1] [2; 3] = Err ErrKeyTooShort.
Proof.
  split.
  - apply (crypto_errors [] (replicate 16 7));
      [constructor | check_bytes | vm_compute; discriminate | by right].
  - apply (crypto_errors [1] [2; 3]); [check_bytes | check_bytes | done].
Defined.

