(* ===== verification/Registry.v ===== *)
(** * The VIN registry ([vin_registry.go]) and the whitelist ([auth/auth.go])

    The server's index from VINs to connections, most recent last, and the
    [Authenticator]s the package [auth] ships.  Connections are pointers:
    the registry compares them by identity.  Every operation takes the lock for
    its whole body, so an operation is one step. *)
From stdpp Require Import gmap sets.
From S2P Require Import Prelude.

(** A [*Connection]. *)
Abbreviation ptr := positive (only parsing).

(** ** Registry *)

Abbreviation vinRegistry := (gmap gostring (list ptr)) (only parsing).

Definition newVinRegistry : vinRegistry := ∅.

(** The entry of a key; a missing key reads as the [nil] slice. *)
Definition entry (r : vinRegistry) (vin : gostring) : list ptr := default [] (r !! vin).

Definition add (r : vinRegistry) (vin : gostring) (c : ptr) : vinRegistry :=
  <[vin := entry r vin ++ [c]]> r.

(** The first index at which the loop of [remove] finds the connection. *)
Fixpoint findConn (conns : list ptr) (c : ptr) : option nat :=
  match conns with
  | [] => None
  | conn :: conns => if decide (conn = c) then Some O else S <$> findConn conns c
  end.

Definition remove (r : vinRegistry) (vin : gostring) (c : ptr) : vinRegistry :=
  match r !! vin with
  | None => r
  | Some conns =>
      let r :=
        match findConn conns c with
        | Some i => <[vin := take i conns ++ drop (i + 1) conns]> r
        | None => r
        end in
      if len (entry r vin) =? 0 then delete vin r else r
  end.

Definition get (r : vinRegistry) (vin : gostring) : option ptr :=
  match r !! vin with
  | Some (c :: _) => Some c
  | _ => None
  end.

Definition getAll (r : vinRegistry) (vin : gostring) : list ptr :=
  match r !! vin with
  | Some conns => [] ++ conns
  | None => []
  end.

Definition count (r : vinRegistry) : int := Z.of_nat (size r).

(** ** Whitelist *)

Abbreviation VINWhitelist := (gset gostring) (only parsing).

Definition NewVINWhitelist (vins : list gostring) : VINWhitelist :=
  fold_left (fun set v => {[v]} ∪ set) vins ∅.
Definition Add (w : VINWhitelist) (vin : gostring) : VINWhitelist := {[vin]} ∪ w.
Definition Remove (w : VINWhitelist) (vin : gostring) : VINWhitelist := w ∖ {[vin]}.

(** The answer of an [Authenticator]: a verdict or an error. *)
Definition Authenticate (w : VINWhitelist) (vin : gostring) : bool + goerr :=
  inl (bool_decide (vin ∈ w)).

Definition AllowAll_Authenticate (vin : gostring) : bool + goerr := inl true.

(** ** Specification

    A registry is, for each VIN, the connections added under it and not yet
    removed, in order; [replay] says which those are after a run of operations. *)
Inductive reg_op := OpAdd (vin : gostring) (c : ptr) | OpRemove (vin : gostring) (c : ptr).

Definition reg_step (r : vinRegistry) (o : reg_op) : vinRegistry :=
  match o with OpAdd vin c => add r vin c | OpRemove vin c => remove r vin c end.

(** A list without the first occurrence of an element. *)
Fixpoint without (l : list ptr) (c : ptr) : list ptr :=
  match l with
  | [] => []
  | x :: l => if decide (x = c) then l else x :: without l c
  end.

Fixpoint replay (ops : list reg_op) (vin : gostring) (l : list ptr) : list ptr :=
  match ops with
  | [] => l
  | OpAdd v c :: ops => replay ops vin (if decide (v = vin) then l ++ [c] else l)
  | OpRemove v c :: ops => replay ops vin (if decide (v = vin) then without l c else l)
  end.

(** No key is left without connections. *)
Definition registry_wf (r : vinRegistry) : Prop := forall vin, r !! vin <> Some [].

(** ** Lemmas *)

Lemma findConn_without conns c :
  match findConn conns c with
  | Some i => take i conns ++ drop (i + 1) conns = without conns c
  | None => without conns c = conns
  end.
Proof.
  induction conns as [|x conns IH]; [done|]. cbn [findConn without].
  destruct (decide (x = c)); [by cbn; rewrite drop_0|].
  destruct (findConn conns c) as [i|]; cbn; [|by rewrite IH].
  by rewrite IH.
Qed.

Lemma entry_insert r vin v l : entry (<[vin := l]> r) v = if decide (vin = v) then l else entry r v.
Proof.
  unfold entry. destruct (decide (vin = v)) as [->|Hn]; [by rewrite lookup_insert_eq|].
  by rewrite lookup_insert_ne.
Qed.

Lemma entry_add r vin c v :
  entry (add r vin c) v = if decide (vin = v) then entry r v ++ [c] else entry r v.
Proof. unfold add. rewrite entry_insert. by destruct (decide (vin = v)) as [->|]. Qed.

(** [remove] drops the first occurrence and nothing else. *)
Lemma entry_remove r vin c v :
  entry (remove r vin c) v = if decide (vin = v) then without (entry r v) c else entry r v.
Proof.
  unfold remove. destruct (r !! vin) as [conns|] eqn:E.
  2:{ destruct (decide (vin = v)) as [<-|]; [|done]. unfold entry. by rewrite E. }
  pose proof (findConn_without conns c) as Hf. cbv zeta.
  set (r' := match findConn conns c with
             | Some i => <[vin := take i conns ++ drop (i + 1) conns]> r | None => r end).
  assert (entry r' v = if decide (vin = v) then without (entry r v) c else entry r v) as Hr.
  { unfold r'. destruct (findConn conns c) as [i|].
    - rewrite entry_insert. destruct (decide (vin = v)) as [<-|]; [|done].
      unfold entry. by rewrite E.
    - destruct (decide (vin = v)) as [<-|]; [|done]. unfold entry. rewrite E. cbn. by rewrite Hf. }
  clearbody r'. destruct (Z.eqb_spec (len (entry r' vin)) 0) as [H0|]; [|done].
  apply len_0_nil in H0. unfold entry at 1.
  destruct (decide (vin = v)) as [<-|Hn].
  - rewrite lookup_delete_eq. cbn. by rewrite <- Hr, H0.
  - by rewrite lookup_delete_ne, <- Hr.
Qed.

Lemma registry_wf_empty : registry_wf newVinRegistry.
Proof. intros vin. unfold newVinRegistry. by rewrite lookup_empty. Qed.

Lemma add_wf r vin c : registry_wf r -> registry_wf (add r vin c).
Proof.
  intros Hr v. unfold add. destruct (decide (vin = v)) as [<-|Hn].
  - rewrite lookup_insert_eq. by destruct (entry r vin).
  - by rewrite lookup_insert_ne.
Qed.

Lemma remove_wf r vin c : registry_wf r -> registry_wf (remove r vin c).
Proof.
  intros Hr v. unfold remove. destruct (r !! vin) as [conns|] eqn:E; [|done].
  cbv zeta.
  set (r' := match findConn conns c with
             | Some i => <[vin := take i conns ++ drop (i + 1) conns]> r | None => r end).
  assert (vin <> v -> r' !! v = r !! v) as Hne.
  { intros Hn. unfold r'. destruct (findConn conns c); [|done]. by rewrite lookup_insert_ne. }
  destruct (Z.eqb_spec (len (entry r' vin)) 0) as [H0|H0].
  - destruct (decide (vin = v)) as [<-|Hn]; [by rewrite lookup_delete_eq|].
    by rewrite lookup_delete_ne, Hne.
  - destruct (decide (vin = v)) as [<-|Hn]; [|by rewrite Hne].
    intros Hv. unfold entry in H0. by rewrite Hv in H0.
Qed.

Lemma step_wf r o : registry_wf r -> registry_wf (reg_step r o).
Proof. destruct o; [apply add_wf | apply remove_wf]. Qed.

Lemma steps_wf ops : forall r, registry_wf r -> registry_wf (fold_left reg_step ops r).
Proof. induction ops as [|o ops IH]; intros r Hr; [done|]. apply IH. by apply step_wf. Qed.

Lemma steps_entry ops : forall r vin, entry (fold_left reg_step ops r) vin = replay ops vin (entry r vin).
Proof.
  induction ops as [|[v c|v c] ops IH]; intros r vin; [done|..]; cbn [fold_left replay reg_step];
    rewrite IH, ?entry_add, ?entry_remove; done.
Qed.

Lemma getAll_entry r vin : getAll r vin = entry r vin.
Proof. unfold getAll, entry. by destruct (r !! vin). Qed.

Lemma get_head r vin : get r vin = head (entry r vin).
Proof. unfold get, entry. by destruct (r !! vin) as [[|]|]. Qed.

(** ** Properties *)

(** C30: The registry refines its specification: after any run of [add] and
    [remove] the connections of a VIN are those added and not removed, oldest
    first; [get] is the oldest; [count] is the number of VINs that have a
    connection, since no empty entry is left behind. *)
Theorem registry_refines ops :
  let r := fold_left reg_step ops newVinRegistry in
  (forall vin, getAll r vin = replay ops vin []) /\
  (forall vin, get r vin = head (replay ops vin [])) /\
  (forall vin, vin ∈ dom r <-> replay ops vin [] <> []) /\
  count r = Z.of_nat (size (dom r)).
Proof.
  intros r. assert (forall vin, entry r vin = replay ops vin []) as He
    by (intros vin; apply (steps_entry ops newVinRegistry vin)).
  assert (registry_wf r) as Hwf by apply steps_wf, registry_wf_empty.
  split_and!.
  - intros vin. by rewrite getAll_entry, He.
  - intros vin. by rewrite get_head, He.
  - intros vin. rewrite <- He, elem_of_dom. unfold entry. specialize (Hwf vin).
    destruct (r !! vin) as [l|]; cbn; [|split; [by intros []|done]].
    split; [congruence|by eexists].
  - unfold count. by rewrite size_dom.
Qed.

(** The whitelist authenticates a VIN exactly if it was among the initial
    VINs or added later, and not removed since; it never errs. *)
Theorem whitelist_spec vins vin v :
  Authenticate (NewVINWhitelist vins) vin = inl (bool_decide (vin ∈ vins)) /\
  (forall w, Authenticate (Add w v) vin =
     if decide (v = vin) then inl true else Authenticate w vin) /\
  (forall w, Authenticate (Remove w v) vin =
     if decide (v = vin) then inl false else Authenticate w vin).
Proof.
  unfold Authenticate, Add, Remove. split_and!.
  - f_equal. apply bool_decide_ext. unfold NewVINWhitelist.
    assert (forall s : gset gostring, vin ∈ fold_left (fun set v => {[v]} ∪ set) vins s <-> vin ∈ vins \/ vin ∈ s) as H.
    { induction vins as [|x vins IH]; intros s; cbn; [set_solver|]. rewrite IH. set_solver. }
    rewrite H. set_solver.
  - intros w. destruct (decide (v = vin)) as [->|]; f_equal.
    + apply bool_decide_eq_true. set_solver.
    + apply bool_decide_ext. set_solver.
  - intros w. destruct (decide (v = vin)) as [->|]; f_equal.
    + apply bool_decide_eq_false. set_solver.
    + apply bool_decide_ext. set_solver.
Qed.
