(* ===== verification/World.v ===== *)
(** * The state of a server and the callbacks of its user

    What [Server] and [Connection] keep ([server.go], [conn.go]), the effects
    that leave the process, and a state monad for the operations on them.  The
    user's code (the interfaces of [events.go] and [interfaces.go]) is any
    program over the exported methods: it can do to a connection or the server
    only what those methods do. *)
From stdpp Require Import gmap.
From S2P Require Import Prelude.
From S2P Require Import GoTime.
From S2P Require Import Packet.
From S2P Require Import Framing.
From S2P Require Import Registry.

(** ** Data *)

Inductive ConnectionState := ConnNew | ConnLoggedIn | ConnClosed.
#[export] Instance ConnectionState_eq_dec : EqDecision ConnectionState.
Proof. solve_decision. Defined.

(** [conn] is [c_netClosed], [ctx] is [c_ctxDone]: all the program asks of
    either is whether it was closed or cancelled. *)
Record Connection := mkConnection {
  c_id : gostring;
  c_state : ConnectionState;
  c_vin : gostring;
  c_iccid : gostring;
  c_createdAt : Time;
  c_lastSeen : int;
  c_decoder : Decoder;
  c_encryptKey : option bytes;
  c_ctxDone : bool;
  c_netClosed : bool
}.

(** What the exported methods of a connection tell: [ID], [VIN], [ICCID],
    [State], [CreatedAt] and [LastSeen] (in seconds). *)
Record ConnInfo := mkConnInfo {
  ci_ID : gostring;
  ci_VIN : gostring;
  ci_ICCID : gostring;
  ci_State : ConnectionState;
  ci_CreatedAt : Time;
  ci_LastSeen : int
}.

Definition info_of (c : Connection) : ConnInfo :=
  mkConnInfo (c_id c) (c_vin c) (c_iccid c) (c_state c) (c_createdAt c) (c_lastSeen c).

(** What the user is asked: one constructor per method of [Handler],
    [TimeProvider], [PlatformHandler], [ParamHandler] and [Authenticator]. *)
Inductive callback :=
  | OnVehicleLogin (msg : VehicleLoginData)
  | OnVehicleLogout (msg : VehicleLogoutData)
  | OnRealtimeData (msg : RealtimeMessage)
  | OnReissueData (msg : ReissueMessage)
  | OnHeartbeat
  | OnTimeCalibration
  | OnPlatformLoginRequest (msg : PlatformLoginData)
  | OnPlatLoginResponse (msg : PlatformLoginData)
  | OnPlatLogoutResponse (msg : PlatformLogoutData)
  | OnParamQuery (msg : ParamQueryData)
  | OnParamQueryAck (msg : ParamQueryData)
  | OnParamSettingAck (msg : ParamSettingData)
  | OnAuthenticate (vin : gostring).

(** The results, an error beside each. *)
Definition answer (cb : callback) : Type :=
  match cb with
  | OnVehicleLogin _ => option LoginResponse
  | OnTimeCalibration => Time
  | OnParamQuery _ => option ParamQueryResponse
  | OnAuthenticate _ => bool
  | _ => unit
  end + goerr.

(** What leaves the process, and the calls of user code. *)
Inductive event :=
  | EvWrite (c : ptr) (pkt : bytes)
  | EvNetClose (c : ptr)
  | EvForward (forwarder : nat) (msg : ForwardMsg)
  | EvCallback (c : ptr) (cb : callback).

(** The connections of the process, the fields of [Server] that change, the
    clock, the results the next writes to the network will have (success when
    the list is used up) and the trace, latest first. *)
Record World := mkWorld {
  w_heap : gmap ptr Connection;
  w_connections : gmap gostring ptr;
  w_connCount : int;
  w_vinRegistry : vinRegistry;
  w_stopped : bool;
  w_now : Time;
  w_net : list (option goerr);
  w_trace : list event
}.

(** ** The monad *)

Definition M (A : Type) : Type := World -> outcome (A * World).

Definition ret {A} (a : A) : M A := fun w => Ok (a, w).
Definition bindM {A B} (m : M A) (k : A -> M B) : M B :=
  fun w => let! '(a, w) := m w in k a w.

Notation "'let*' x := m 'in' k" := (bindM m (fun x => k))
  (at level 10, x binder, m at level 100, k at level 200) : go_scope.
Notation "m ;; k" := (bindM m (fun _ => k)) (at level 100, right associativity) : go_scope.

(** A call whose error the caller looks at. *)
Definition try {A} (m : outcome A) : M (A + goerr) := fun w =>
  match m with
  | Ok a => Ok (inl a, w)
  | Err e => Ok (inr e, w)
  | Panic => Panic
  | OutOfFuel => OutOfFuel
  end.

Definition lift {A} (m : outcome A) : M A := fun w => let! a := m in Ok (a, w).

Definition set_heap (w : World) (h : gmap ptr Connection) : World :=
  mkWorld h (w_connections w) (w_connCount w) (w_vinRegistry w) (w_stopped w) (w_now w)
    (w_net w) (w_trace w).
Definition set_index (w : World) (m : gmap gostring ptr) (n : int) : World :=
  mkWorld (w_heap w) m n (w_vinRegistry w) (w_stopped w) (w_now w) (w_net w) (w_trace w).
Definition set_registry (w : World) (r : vinRegistry) : World :=
  mkWorld (w_heap w) (w_connections w) (w_connCount w) r (w_stopped w) (w_now w)
    (w_net w) (w_trace w).
Definition set_stopped (w : World) : World :=
  mkWorld (w_heap w) (w_connections w) (w_connCount w) (w_vinRegistry w) true (w_now w)
    (w_net w) (w_trace w).
Definition set_now (w : World) (t : Time) : World :=
  mkWorld (w_heap w) (w_connections w) (w_connCount w) (w_vinRegistry w) (w_stopped w) t
    (w_net w) (w_trace w).
Definition set_net (w : World) (n : list (option goerr)) : World :=
  mkWorld (w_heap w) (w_connections w) (w_connCount w) (w_vinRegistry w) (w_stopped w) (w_now w)
    n (w_trace w).
Definition set_trace (w : World) (t : list event) : World :=
  mkWorld (w_heap w) (w_connections w) (w_connCount w) (w_vinRegistry w) (w_stopped w) (w_now w)
    (w_net w) t.

(** The connection behind a pointer; there is none behind [nil]. *)
Definition conn (p : ptr) : M Connection := fun w =>
  match w_heap w !! p with Some c => Ok (c, w) | None => Panic end.
Definition put_conn (p : ptr) (c : Connection) : M unit := fun w =>
  Ok (tt, set_heap w (<[p := c]> (w_heap w))).
Definition on_conn (p : ptr) (f : Connection -> Connection) : M unit :=
  let* c := conn p in put_conn p (f c).

Definition now : M Time := fun w => Ok (w_now w, w).
Definition emit (e : event) : M unit := fun w => Ok (tt, set_trace w (e :: w_trace w)).

(** Assignments to one field. *)
Definition with_state (s : ConnectionState) (c : Connection) : Connection :=
  mkConnection (c_id c) s (c_vin c) (c_iccid c) (c_createdAt c) (c_lastSeen c) (c_decoder c)
    (c_encryptKey c) (c_ctxDone c) (c_netClosed c).
Definition with_vin (vin : gostring) (c : Connection) : Connection :=
  mkConnection (c_id c) (c_state c) vin (c_iccid c) (c_createdAt c) (c_lastSeen c) (c_decoder c)
    (c_encryptKey c) (c_ctxDone c) (c_netClosed c).
Definition with_iccid (iccid : gostring) (c : Connection) : Connection :=
  mkConnection (c_id c) (c_state c) (c_vin c) iccid (c_createdAt c) (c_lastSeen c) (c_decoder c)
    (c_encryptKey c) (c_ctxDone c) (c_netClosed c).
Definition with_lastSeen (s : int) (c : Connection) : Connection :=
  mkConnection (c_id c) (c_state c) (c_vin c) (c_iccid c) (c_createdAt c) s (c_decoder c)
    (c_encryptKey c) (c_ctxDone c) (c_netClosed c).
Definition with_decoder (d : Decoder) (c : Connection) : Connection :=
  mkConnection (c_id c) (c_state c) (c_vin c) (c_iccid c) (c_createdAt c) (c_lastSeen c) d
    (c_encryptKey c) (c_ctxDone c) (c_netClosed c).
Definition with_key (k : option bytes) (c : Connection) : Connection :=
  mkConnection (c_id c) (c_state c) (c_vin c) (c_iccid c) (c_createdAt c) (c_lastSeen c)
    (c_decoder c) k (c_ctxDone c) (c_netClosed c).
Definition with_ctxDone (c : Connection) : Connection :=
  mkConnection (c_id c) (c_state c) (c_vin c) (c_iccid c) (c_createdAt c) (c_lastSeen c)
    (c_decoder c) (c_encryptKey c) true (c_netClosed c).
Definition with_netClosed (c : Connection) : Connection :=
  mkConnection (c_id c) (c_state c) (c_vin c) (c_iccid c) (c_createdAt c) (c_lastSeen c)
    (c_decoder c) (c_encryptKey c) (c_ctxDone c) true.

(** ** User code *)

(** The exported methods of [Connection] and [Server] a callback may call, by
    the type of what they return. *)
Inductive api : Type -> Type :=
  | ApiSend (c : ptr) (command : byte) (data : bytes) : api (option goerr)
  | ApiSendPlatLogin (c : ptr) (t : Time) (username password : gostring) : api (option goerr)
  | ApiSendPlatLogout (c : ptr) (t : Time) : api (option goerr)
  | ApiSendParamQuery (c : ptr) (ids : list uint32) : api (option goerr)
  | ApiSendParamSetting (c : ptr) (ps : list ParamItem) : api (option goerr)
  | ApiClose (c : ptr) : api unit
  | ApiConnInfo (c : ptr) : api ConnInfo
  | ApiConnectionByVIN (vin : gostring) : api (option ptr)
  | ApiConnectionByID (id : gostring) : api (option ptr)
  | ApiConnCount : api int.

Inductive prog (A : Type) : Type :=
  | Ret (a : A)
  | Call {B : Type} (a : api B) (k : B -> prog A).
Arguments Ret {A} a.
Arguments Call {A B} a k.

(** The options of a server: which interfaces are set, how each method behaves
    (it may depend on all that happened before), and the numbers.  A duration is
    in nanoseconds. *)
Record Config := mkConfig {
  cfg_handler : bool;
  cfg_auth : bool;
  cfg_timeProvider : bool;
  cfg_platformHandler : bool;
  cfg_paramHandler : bool;
  cfg_forwarders : nat;
  cfg_timeCodec : TimeCodec;
  cfg_bccIncludeStart : bool;
  cfg_maxConns : int;
  cfg_idleTimeout : int;
  cfg_user : list event -> ptr -> forall cb : callback, prog (answer cb)
}.
