(* ===== verification/Options.v ===== *)
(** * Building a server ([options.go], [NewServer] of [server.go])

    The fields of [Server] that the options assign, the defaults, and the
    configuration the rest of the development runs on.  The listener, the context
    and the wait group are [Shutdown]'s. *)
From S2P Require Import Prelude.
From S2P Require Import GoTime.
From S2P Require Import Registry.
From S2P Require Import World.

(** A value of one of the user's interfaces: what its methods do.  Only the
    methods of the interface it is given as are ever called. *)
Definition iface : Type := list event -> ptr -> forall cb : callback, prog (answer cb).

(** Durations are in nanoseconds; forwarders are known by name, the crypto
    provider, which nothing calls, by its presence. *)
Record Server := mkServer {
  s_addr : string;
  s_handler : option iface;
  s_auth : option iface;
  s_forwarders : list string;
  s_timeProvider : option iface;
  s_cryptoProvider : bool;
  s_platformHandler : option iface;
  s_paramHandler : option iface;
  s_timeCodec : TimeCodec;
  s_bccIncludeStart : bool;
  s_maxConns : int;
  s_readTimeout : int;
  s_writeTimeout : int;
  s_idleTimeout : int;
  s_logLevel : int
}.

(** One constructor per option function; [nil] is a value of an interface. *)
Inductive Option :=
  | WithListenAddr (addr : string)
  | WithMaxConnections (n : int)
  | WithReadTimeout (d : int)
  | WithWriteTimeout (d : int)
  | WithIdleTimeout (d : int)
  | WithHandler (h : option iface)
  | WithAuthenticator (a : option iface)
  | WithForwarder (f : list string)
  | WithTimeProvider (tp : option iface)
  | WithCryptoProvider (cp : bool)
  | WithPlatformHandler (ph : option iface)
  | WithParamHandler (pmh : option iface)
  | WithTimeCodec (tc : TimeCodec)
  | WithBCCIncludeStart (b : bool).

(** The functions the options return: each assigns one field. *)
Definition apply_option (s : Server) (o : Option) : Server :=
  let '(mkServer addr h a fs tp cp ph pmh tc bcc n rt wt it lv) := s in
  match o with
  | WithListenAddr addr => mkServer addr h a fs tp cp ph pmh tc bcc n rt wt it lv
  | WithMaxConnections n => mkServer addr h a fs tp cp ph pmh tc bcc n rt wt it lv
  | WithReadTimeout rt => mkServer addr h a fs tp cp ph pmh tc bcc n rt wt it lv
  | WithWriteTimeout wt => mkServer addr h a fs tp cp ph pmh tc bcc n rt wt it lv
  | WithIdleTimeout it => mkServer addr h a fs tp cp ph pmh tc bcc n rt wt it lv
  | WithHandler h => mkServer addr h a fs tp cp ph pmh tc bcc n rt wt it lv
  | WithAuthenticator a => mkServer addr h a fs tp cp ph pmh tc bcc n rt wt it lv
  | WithForwarder f => mkServer addr h a (fs ++ f) tp cp ph pmh tc bcc n rt wt it lv
  | WithTimeProvider tp => mkServer addr h a fs tp cp ph pmh tc bcc n rt wt it lv
  | WithCryptoProvider cp => mkServer addr h a fs tp cp ph pmh tc bcc n rt wt it lv
  | WithPlatformHandler ph => mkServer addr h a fs tp cp ph pmh tc bcc n rt wt it lv
  | WithParamHandler pmh => mkServer addr h a fs tp cp ph pmh tc bcc n rt wt it lv
  | WithTimeCodec tc => mkServer addr h a fs tp cp ph pmh tc bcc n rt wt it lv
  | WithBCCIncludeStart bcc => mkServer addr h a fs tp cp ph pmh tc bcc n rt wt it lv
  end.

Definition time_Second : int := 1000000000.
Definition time_Minute : int := 60 * time_Second.

(** [slog.LevelInfo] *)
Definition LevelInfo : int := 0.

Definition defaults : Server :=
  mkServer ":32960" None None [] None false None None TimeCodecBCD false
    10000 (5 * time_Minute) (10 * time_Second) (10 * time_Minute) LevelInfo.

Definition NewServer (opts : list Option) : Server := fold_left apply_option opts defaults.

(** Only what the logger prints depends on the level. *)
Definition SetLogLevel (s : Server) (level : int) : Server :=
  let '(mkServer addr h a fs tp cp ph pmh tc bcc n rt wt it _) := s in
  mkServer addr h a fs tp cp ph pmh tc bcc n rt wt it level.

(** ** The configuration of a server *)

(** Which interface a method belongs to ([events.go], [interfaces.go]). *)
Definition iface_of (s : Server) (cb : callback) : option iface :=
  match cb with
  | OnVehicleLogin _ | OnVehicleLogout _ | OnRealtimeData _ | OnReissueData _ | OnHeartbeat =>
      s_handler s
  | OnTimeCalibration => s_timeProvider s
  | OnPlatformLoginRequest _ | OnPlatLoginResponse _ | OnPlatLogoutResponse _ => s_platformHandler s
  | OnParamQuery _ | OnParamQueryAck _ | OnParamSettingAck _ => s_paramHandler s
  | OnAuthenticate _ => s_auth s
  end.

Definition is_set {A} (o : option A) : bool := match o with Some _ => true | None => false end.

(** A method of an interface that was not given is never called. *)
Definition config_of (s : Server) : Config :=
  mkConfig (is_set (s_handler s)) (is_set (s_auth s)) (is_set (s_timeProvider s))
    (is_set (s_platformHandler s)) (is_set (s_paramHandler s)) (length (s_forwarders s))
    (s_timeCodec s) (s_bccIncludeStart s) (s_maxConns s) (s_idleTimeout s)
    (fun hist p cb =>
       match iface_of s cb with
       | Some i => i hist p cb
       | None => Ret (inr ErrClosed)
       end).

(** ** What a list of options means *)

(** The value the last option of a kind gives. *)
Definition last_set {A} (kind : Option -> option A) (opts : list Option) (d : A) : A :=
  default d (last (omap kind opts)).

Definition is_WithListenAddr o := match o with WithListenAddr x => Some x | _ => None end.
Definition is_WithMaxConnections o := match o with WithMaxConnections x => Some x | _ => None end.
Definition is_WithReadTimeout o := match o with WithReadTimeout x => Some x | _ => None end.
Definition is_WithWriteTimeout o := match o with WithWriteTimeout x => Some x | _ => None end.
Definition is_WithIdleTimeout o := match o with WithIdleTimeout x => Some x | _ => None end.
Definition is_WithHandler o := match o with WithHandler x => Some x | _ => None end.
Definition is_WithAuthenticator o := match o with WithAuthenticator x => Some x | _ => None end.
Definition is_WithForwarder o := match o with WithForwarder x => Some x | _ => None end.
Definition is_WithTimeProvider o := match o with WithTimeProvider x => Some x | _ => None end.
Definition is_WithCryptoProvider o := match o with WithCryptoProvider x => Some x | _ => None end.
Definition is_WithPlatformHandler o := match o with WithPlatformHandler x => Some x | _ => None end.
Definition is_WithParamHandler o := match o with WithParamHandler x => Some x | _ => None end.
Definition is_WithTimeCodec o := match o with WithTimeCodec x => Some x | _ => None end.
Definition is_WithBCCIncludeStart o := match o with WithBCCIncludeStart x => Some x | _ => None end.

Lemma last_set_snoc {A} (kind : Option -> option A) opts o d :
  last_set kind (opts ++ [o]) d = match kind o with Some a => a | None => last_set kind opts d end.
Proof.
  unfold last_set. rewrite omap_app. cbn. destruct (kind o); [by rewrite last_snoc | by rewrite app_nil_r].
Qed.

(** The options are independent: each field is what the last option of its kind
    says, the default where there is none, whatever options stand between;
    forwarders add up in the order given. *)
Theorem new_server_options opts :
  NewServer opts =
    mkServer (last_set is_WithListenAddr opts ":32960") (last_set is_WithHandler opts None)
      (last_set is_WithAuthenticator opts None) (concat (omap is_WithForwarder opts))
      (last_set is_WithTimeProvider opts None) (last_set is_WithCryptoProvider opts false)
      (last_set is_WithPlatformHandler opts None) (last_set is_WithParamHandler opts None)
      (last_set is_WithTimeCodec opts TimeCodecBCD) (last_set is_WithBCCIncludeStart opts false)
      (last_set is_WithMaxConnections opts 10000) (last_set is_WithReadTimeout opts (5 * time_Minute))
      (last_set is_WithWriteTimeout opts (10 * time_Second))
      (last_set is_WithIdleTimeout opts (10 * time_Minute)) LevelInfo.
Proof.
  induction opts as [|o opts IH] using rev_ind; [done|].
  unfold NewServer in *. rewrite fold_left_app, IH. rewrite !last_set_snoc, omap_app, concat_app.
  destruct o; cbn; by rewrite ?app_nil_r.
Qed.
