(* ===== verification/Connection.v ===== *)
(** * Connections ([conn.go])

    Sending, closing, and what a connection does with a packet.  Each operation
    is one step of the [World] monad: it runs as the source runs it on one
    goroutine, and other goroutines act between operations ([Server]); [Interleave]
    cuts [Close] and a login into their statements, [Writers] does so with [Send]. *)
From stdpp Require Import gmap.
From S2P Require Import Prelude.
From S2P Require Import GoTime.
From S2P Require Import Constant.
From S2P Require Import Packet.
From S2P Require Import Framing.
From S2P Require Import Payload.
From S2P Require Import Realtime.
From S2P Require Import Crypto.
From S2P Require Import Registry.
From S2P Require Import World.

(** ** Sending *)

(** [c.conn.Write(pkt)]: a closed [net.Conn] refuses; otherwise the network
    decides. *)
Definition netWrite (p : ptr) (pkt : bytes) : M (option goerr) :=
  let* c := conn p in
  if c_netClosed c then ret (Some ErrClosed) else
  fun w =>
    match w_net w with
    | Some err :: rest => Ok (Some err, set_net w rest)
    | None :: rest => (emit (EvWrite p pkt);; ret None) (set_net w rest)
    | [] => (emit (EvWrite p pkt);; ret None) w
    end.

(** [Send] as one step, when [writeMu] is free, its deadline does not pass and the network
    takes the frame as a whole or not at all.  It has its statements, the wait for the lock,
    the deadline and writes that are cut short in Writers.v, where [send_alone] shows that
    this is what they do with no one in between, and [senders_take_turns] and [torn_frame]
    what they do otherwise; where the time it takes matters, in Idle.v, that is a parameter. *)
Definition Send (p : ptr) (command : byte) (data : bytes) : M (option goerr) :=
  let* c := conn p in
  if decide (c_state c = ConnClosed) then ret (Some ErrClosed) else
  let* r :=
    match c_encryptKey c with
    | Some key =>
        if 0 <? len data then
          let* r := try (EncryptAES128 data key) in
          match r with
          | inl data => ret (inl (data, EncAES128))
          | inr err => ret (inr err)
          end
        else ret (inl (data, EncNone))
    | None => ret (inl (data, EncNone))
    end in
  match r with
  | inr err => ret (Some err)
  | inl (data, encType) =>
      let* r := try (EncodeResponse command (c_vin c) encType data) in
      match r with
      | inr err => ret (Some err)
      | inl pkt => netWrite p pkt
      end
  end.

Definition sendLoginResponse (p : ptr) (resp : LoginResponse) : M (option goerr) :=
  Send p CmdLogin (EncodeLoginResponse resp).

Definition SendPlatLogin (p : ptr) (loginTime : Time) (username password : gostring)
  : M (option goerr) :=
  let* data := lift (platLoginBody loginTime username password) in
  Send p CmdPlatLogin data.

Definition SendPlatLogout (p : ptr) (logoutTime : Time) : M (option goerr) :=
  Send p CmdPlatLogout (platLogoutBody logoutTime).

Definition SendParamQuery (p : ptr) (paramIDs : list uint32) : M (option goerr) :=
  let* t := now in
  Send p CmdParamQuery (paramQueryBody t paramIDs).

Definition SendParamSetting (p : ptr) (params : list ParamItem) : M (option goerr) :=
  let* t := now in
  Send p CmdParamSetting (paramSettingBody t params).

Definition sendParamQueryResponse (p : ptr) (resp : ParamQueryResponse) : M (option goerr) :=
  Send p CmdParamQueryResp (paramQueryRespBody resp).

(** ** Closing *)

(** [Server.unregister] (server.go). *)
Definition unregister (p : ptr) : M unit :=
  let* c := conn p in
  (fun w => Ok (tt, set_index w (delete (c_id c) (w_connections w)) (w_connCount w - 1)));;
  if decide (c_vin c = []) then ret tt
  else fun w => Ok (tt, set_registry w (remove (w_vinRegistry w) (c_vin c) p)).

(** [c.conn.Close()]; closing again is an error nobody looks at. *)
Definition netClose (p : ptr) : M unit :=
  let* c := conn p in
  if c_netClosed c then ret tt else (on_conn p with_netClosed;; emit (EvNetClose p)).

Definition Connection_Close (p : ptr) : M unit :=
  let* c := conn p in
  if decide (c_state c = ConnClosed) then ret tt else
  (on_conn p (with_state ConnClosed);;
   on_conn p with_ctxDone;;
   on_conn p (fun c => with_decoder (Close (c_decoder c)) c);;
   netClose p;;
   unregister p).

(** ** Calling the user *)

Definition run_api {A} (a : api A) : M A :=
  match a with
  | ApiSend c command data => Send c command data
  | ApiSendPlatLogin c t u pw => SendPlatLogin c t u pw
  | ApiSendPlatLogout c t => SendPlatLogout c t
  | ApiSendParamQuery c ids => SendParamQuery c ids
  | ApiSendParamSetting c ps => SendParamSetting c ps
  | ApiClose c => Connection_Close c
  | ApiConnInfo c => let* c := conn c in ret (info_of c)
  | ApiConnectionByVIN vin => fun w => Ok (get (w_vinRegistry w) vin, w)
  | ApiConnectionByID id => fun w => Ok (w_connections w !! id, w)
  | ApiConnCount => fun w => Ok (w_connCount w, w)
  end.

Fixpoint run_prog {A} (pr : prog A) : M A :=
  match pr with
  | Ret a => ret a
  | Call a k => let* b := run_api a in run_prog (k b)
  end.

Section handlers.
Context (cfg : Config).

(** A method of the user's interfaces, called for connection [p]. *)
Definition ask (p : ptr) (cb : callback) : M (answer cb) :=
  emit (EvCallback p cb);;
  fun w => run_prog (cfg_user cfg (w_trace w) p cb) w.

(** [Server.forward] (server.go) starts one goroutine per forwarder. *)
Definition forward (msg : ForwardMsg) : M unit := fun w =>
  Ok (tt, set_trace w (rev ((fun k => EvForward k msg) <$> seq 0 (cfg_forwarders cfg)) ++ w_trace w)).

Definition UTC (t : Time) : Time := mkTime (t_unix t) (t_nsec t) 0.

(** ** [handlePacket], case by case *)

Definition handleLogin (p : ptr) (pkt : Packet) : M unit :=
  let* ok :=
    if cfg_auth cfg then
      let* r := ask p (OnAuthenticate (p_VIN pkt)) in
      match r with
      | inl true => ret true
      | _ => Connection_Close p;; ret false
      end
    else ret true in
  if negb ok then ret tt else
  let* r := try (DecodeLoginData (p_Data pkt)) in
  match r with
  | inr _ => ret tt
  | inl loginData =>
      on_conn p (with_vin (p_VIN pkt));;
      on_conn p (with_iccid (vl_ICCID loginData));;
      on_conn p (with_state ConnLoggedIn);;
      (fun w => Ok (tt, set_registry w (add (w_vinRegistry w) (p_VIN pkt) p)));;
      let* go :=
        if cfg_handler cfg then
          let* r := ask p (OnVehicleLogin loginData) in
          match r with
          | inr _ => ret false
          | inl None => ret true
          | inl (Some resp) =>
              let resp :=
                if IsZero (lr_LoginTime resp)
                then mkLoginResponse (vl_LoginTime loginData) (lr_Sequence resp)
                       (lr_Result resp) (lr_Token resp)
                else resp in
              sendLoginResponse p resp;;
              (if 0 <? len (lr_Token resp)
               then on_conn p (with_key (Some (DeriveAESKey (lr_Token resp))))
               else ret tt);;
              ret true
          end
        else ret true in
      if go : bool then forward (newForwardMsg "login" (p_VIN pkt) (FwdLogin loginData))
      else ret tt
  end.

Definition handleLogout (p : ptr) (pkt : Packet) : M unit :=
  let* r := try (DecodeLogoutData (p_Data pkt)) in
  match r with
  | inr _ => ret tt
  | inl logoutData =>
      (if cfg_handler cfg then ask p (OnVehicleLogout logoutData);; ret tt else ret tt);;
      on_conn p (with_key None);;
      forward (newForwardMsg "logout" (p_VIN pkt) (FwdLogout logoutData))
  end.

Definition handleRealtime (p : ptr) (pkt : Packet) : M unit :=
  let* r := try (DecodeRealtimeData (p_Data pkt)) in
  match r with
  | inr _ => ret tt
  | inl msg =>
      (if cfg_handler cfg then ask p (OnRealtimeData msg);; ret tt else ret tt);;
      forward (newForwardMsg "realtime" (p_VIN pkt) (FwdRealtime msg))
  end.

Definition handleReissue (p : ptr) (pkt : Packet) : M unit :=
  let* r := try (DecodeReissueData (p_Data pkt)) in
  match r with
  | inr _ => ret tt
  | inl msg =>
      (if cfg_handler cfg then ask p (OnReissueData msg);; ret tt else ret tt);;
      forward (newForwardMsg "reissue" (p_VIN pkt) (FwdReissue msg))
  end.

Definition handleHeartbeat (p : ptr) : M unit :=
  (if cfg_handler cfg then ask p OnHeartbeat;; ret tt else ret tt);;
  let* t := now in
  Send p CmdHeartbeat (encodeBCDTime (UTC t));;
  ret tt.

Definition handleTimeCalibr (p : ptr) : M unit :=
  let* tp :=
    if cfg_timeProvider cfg then
      let* r := ask p OnTimeCalibration in
      match r with
      | inl tp => ret tp
      | inr _ => let* t := now in ret (UTC t)
      end
    else let* t := now in ret (UTC t) in
  Send p CmdTimeCalibr (encodeTime6 tp);;
  ret tt.

Definition handlePlatLogin (p : ptr) (pkt : Packet) : M unit :=
  if negb (cfg_platformHandler cfg) then ret tt else
  let* r := try (DecodePlatLoginResponse (p_Data pkt)) in
  match r with
  | inr _ => ret tt
  | inl msg =>
      if p_Response pkt =? ReqRequest then ask p (OnPlatformLoginRequest msg);; ret tt
      else ask p (OnPlatLoginResponse msg);; ret tt
  end.

Definition handlePlatLogout (p : ptr) (pkt : Packet) : M unit :=
  if negb (cfg_platformHandler cfg) then ret tt else
  let* r := try (DecodePlatLogoutResponse (p_Data pkt)) in
  match r with
  | inr _ => ret tt
  | inl msg => ask p (OnPlatLogoutResponse msg);; ret tt
  end.

Definition handleParamQuery (p : ptr) (pkt : Packet) : M unit :=
  if negb (cfg_paramHandler cfg) then ret tt else
  let* r := try (DecodeParamQueryData (p_Data pkt)) in
  match r with
  | inr _ => ret tt
  | inl msg =>
      let* r := ask p (OnParamQuery msg) in
      match r with
      | inr _ => ret tt
      | inl None => ret tt
      | inl (Some resp) => sendParamQueryResponse p resp;; ret tt
      end
  end.

Definition handleParamQueryResp (p : ptr) (pkt : Packet) : M unit :=
  if negb (cfg_paramHandler cfg) then ret tt else
  let* r := try (DecodeParamQueryData (p_Data pkt)) in
  match r with
  | inr _ => ret tt
  | inl msg => ask p (OnParamQueryAck msg);; ret tt
  end.

Definition handleParamSetting (p : ptr) (pkt : Packet) : M unit :=
  if negb (cfg_paramHandler cfg) then ret tt else
  let* r := try (DecodeParamSettingData (p_Data pkt)) in
  match r with
  | inr _ => ret tt
  | inl msg => ask p (OnParamSettingAck msg);; ret tt
  end.

(** The [switch] on the command. *)
Definition dispatch (p : ptr) (pkt : Packet) : M unit :=
  let cmd := p_Command pkt in
  if cmd =? CmdLogin then handleLogin p pkt
  else if cmd =? CmdLogout then handleLogout p pkt
  else if cmd =? CmdRealtime then handleRealtime p pkt
  else if cmd =? CmdReissue then handleReissue p pkt
  else if cmd =? CmdHeartbeat then handleHeartbeat p
  else if cmd =? CmdTimeCalibr then handleTimeCalibr p
  else if cmd =? CmdPlatLogin then handlePlatLogin p pkt
  else if cmd =? CmdPlatLogout then handlePlatLogout p pkt
  else if cmd =? CmdParamQuery then handleParamQuery p pkt
  else if cmd =? CmdParamQueryResp then handleParamQueryResp p pkt
  else if cmd =? CmdParamSetting then handleParamSetting p pkt
  else ret tt.

Definition with_data (pkt : Packet) (data : bytes) : Packet :=
  mkPacket (p_Command pkt) (p_Response pkt) (p_VIN pkt) (p_EncryptType pkt) data (p_Length pkt).

Definition handlePacket (p : ptr) (pkt : Packet) : M unit :=
  let* c := conn p in
  match (if p_EncryptType pkt =? EncAES128 then c_encryptKey c else None) with
  | Some key =>
      let* r := try (DecryptAES128 (p_Data pkt) key) in
      match r with
      | inr _ => ret tt
      | inl data => dispatch p (with_data pkt data)
      end
  | None => dispatch p pkt
  end.

(** ** The read loop *)

(** Every packet takes a byte or more of the buffer. *)
Fixpoint processPackets_loop (fuel : nat) (p : ptr) : M unit :=
  match fuel with
  | O => fun _ => OutOfFuel
  | S fuel =>
      let* c := conn p in
      let* '(pkt, d) := lift (Decode (c_decoder c)) in
      on_conn p (with_decoder d);;
      match pkt with
      | None => ret tt
      | Some pkt => handlePacket p pkt;; processPackets_loop fuel p
      end
  end.

Definition processPackets (p : ptr) : M unit :=
  let* c := conn p in
  let d := c_decoder c in
  processPackets_loop (S (Z.to_nat (d_limit d - d_pos d))) p.

(** What [conn.Read] returned. *)
Inductive readResult := ReadBytes (b : bytes) | ReadError.

(** One iteration of [run]; [false] when it returned, which closes the
    connection. *)
Definition runOnce (p : ptr) (r : readResult) : M bool :=
  let* c := conn p in
  if c_ctxDone c then Connection_Close p;; ret false else
  match r with
  | ReadError => Connection_Close p;; ret false
  | ReadBytes b =>
      if 0 <? len b then
        let* t := now in
        on_conn p (with_lastSeen (t_unix t));;
        let* c := conn p in
        let* d := lift (Feed (c_decoder c) b) in
        on_conn p (with_decoder d);;
        processPackets p;;
        ret true
      else ret true
  end.

(** [run] on the reads the network delivers, until it returns. *)
Fixpoint run (p : ptr) (reads : list readResult) : M unit :=
  match reads with
  | [] => ret tt
  | r :: reads =>
      let* go := runOnce p r in
      if go : bool then run p reads else ret tt
  end.
End handlers.
