(* ===== verification/Memory.v ===== *)
(** * Slices that share arrays ([buffer.go], [conn.go], [crypto.go])

    Elsewhere in this library a slice is the list of its elements.  Two places
    of the SDK work on memory somebody else can see, and are modelled here with
    slices as Go has them, a window of an array in a store: the read buffers
    the connections take from a pool ([getBuffer], [putBuffer]), and
    [pkcs7Pad], whose [append] writes into the array behind the caller's data. *)
From stdpp Require Import gmap.
From S2P Require Import Prelude.
From S2P Require Import GoTime.
From S2P Require Import Constant.
From S2P Require Import Packet.
From S2P Require Import Framing.
From S2P Require Import FramingSpec.
From S2P Require Import Aes.
From S2P Require Import Crypto.
From S2P Require Import Registry.

(** ** Slices *)

(** Arrays by address, and windows of them. *)
Abbreviation arrays := (gmap positive bytes) (only parsing).

Record Slice := mkSlice { sl_array : positive; sl_off : int; sl_len : int; sl_cap : int }.

Definition array (st : arrays) (a : positive) : bytes := default [] (st !! a).

Definition elems (st : arrays) (s : Slice) : bytes :=
  sub (array st (sl_array s)) (sl_off s) (sl_off s + sl_len s).

Definition slice_ok (st : arrays) (s : Slice) : Prop :=
  exists l, st !! sl_array s = Some l /\ 0 <= sl_off s /\ 0 <= sl_len s <= sl_cap s /\
    sl_off s + sl_cap s <= len l.

(** A list with the bytes from [i] on replaced. *)
Definition splice (l : bytes) (i : int) (d : bytes) : bytes :=
  take (Z.to_nat i) l ++ d ++ drop (Z.to_nat (i + len d)) l.

(** [copy(s[i:], d)] where [d] fits the array. *)
Definition write (st : arrays) (s : Slice) (i : int) (d : bytes) : arrays :=
  <[sl_array s := splice (array st (sl_array s)) (sl_off s + i) d]> st.

(** [make] and a [copy] of everything: a new array. *)
Definition newSlice (st : arrays) (l : bytes) : Slice * arrays :=
  let a := fresh (dom st) in (mkSlice a 0 (len l) (len l), <[a := l]> st).

(** [s[:n]] *)
Definition prefix (s : Slice) (n : int) : Slice := mkSlice (sl_array s) (sl_off s) n (sl_cap s).

Section append.
(** How far the runtime grows an array that is full. *)
Context (grow : int -> int).

(** [append(s, d...)] *)
Definition append (st : arrays) (s : Slice) (d : bytes) : Slice * arrays :=
  let n := sl_len s + len d in
  if n <=? sl_cap s then (prefix s n, write st s (sl_len s) d)
  else
    let cap := Z.max n (grow n) in
    let '(s', st) := newSlice st (elems st s ++ d ++ replicate (Z.to_nat (cap - n)) 0) in
    (prefix s' n, st).

(** ** Padding ([crypto.go]) *)

Definition mem_pkcs7Pad (st : arrays) (data : Slice) (blockSize : int) : Slice * arrays :=
  let padLen := blockSize - sl_len data mod blockSize in
  append st data (replicate (Z.to_nat padLen) (to_byte padLen)).

(** [EncryptAES128] on the caller's slice: what it returns, and memory behind it. *)
Definition mem_EncryptAES128 (st : arrays) (data : Slice) (key : bytes) : outcome bytes * arrays :=
  if len key <? BlockSize then (Err ErrKeyTooShort, st) else
  let '(padded, st) := mem_pkcs7Pad st data BlockSize in
  (let! k := slice key 0 BlockSize in
   let! encrypted := make (sl_len padded) in
   let! iv := slice key 0 BlockSize in
   CryptBlocks (cbcEncrypt (aesEncrypt k)) iv encrypted (elems st padded), st).
End append.

(** ** Lemmas *)

Lemma len_splice l i d : 0 <= i -> i + len d <= len l -> len (splice l i d) = len l.
Proof. intros. unfold splice. llia. Qed.

(** Reading a window that holds the splice, and one that ends before it. *)
Lemma sub_splice l i j d :
  0 <= i <= j -> j + len d <= len l -> sub (splice l j d) i (j + len d) = sub l i j ++ d.
Proof.
  intros Hi Hj. pose proof (len_nonneg d). unfold splice.
  rewrite (split_at (take (Z.to_nat j) l) i j) by (rewrite ?len_take; lia).
  assert (drop (Z.to_nat j) (take (Z.to_nat j) l) = []) as -> by (apply drop_ge; llia).
  assert (sub (take (Z.to_nat j) l) i j = sub l i j) as ->.
  { unfold sub. rewrite skipn_firstn_comm, take_take. f_equal. lia. }
  rewrite app_nil_r, <- !app_assoc, (app_assoc (sub l i j) d). apply sub_app.
  - rewrite len_take; rewrite ?len_take; lia.
  - rewrite len_app, len_sub by lia. lia.
Qed.

Lemma sub_splice_before l i j d :
  0 <= i <= j -> j + len d <= len l -> sub (splice l j d) i j = sub l i j.
Proof.
  intros Hi Hj. pose proof (len_nonneg d). unfold splice, sub.
  rewrite drop_app_le by llia. rewrite take_app_le by llia.
  rewrite skipn_firstn_comm, take_take. f_equal. lia.
Qed.

Lemma array_insert st a l : array (<[a := l]> st) a = l.
Proof. unfold array. by rewrite lookup_insert_eq. Qed.

Lemma array_insert_ne st a b l : a <> b -> array (<[a := l]> st) b = array st b.
Proof. intros. unfold array. by rewrite lookup_insert_ne. Qed.

Lemma array_some st a l : st !! a = Some l -> array st a = l.
Proof. unfold array. by intros ->. Qed.

Lemma newSlice_spec st l :
  let '(s, st') := newSlice st l in
  st !! sl_array s = None /\ elems st' s = l /\ slice_ok st' s /\
  forall a, a <> sl_array s -> st' !! a = st !! a.
Proof.
  cbn. set (a := fresh (dom st)). pose proof (len_nonneg l). split_and!.
  - apply not_elem_of_dom, is_fresh.
  - unfold elems. cbn. rewrite array_insert. apply sub_all.
  - exists l. cbn. rewrite lookup_insert_eq. split_and!; done || lia.
  - intros b Hb. by apply lookup_insert_ne.
Qed.

Lemma elems_len st s : slice_ok st s -> len (elems st s) = sl_len s.
Proof.
  intros (l & Hl & ? & ? & ?). unfold elems. rewrite (array_some _ _ _ Hl), len_sub; lia.
Qed.

(** What [append] does to memory. *)
Lemma append_spec grow st s d :
  slice_ok st s ->
  let '(s', st') := append grow st s d in
  elems st' s' = elems st s ++ d /\ sl_len s' = sl_len s + len d /\ elems st' s = elems st s /\
  (if sl_len s + len d <=? sl_cap s then st' = write st s (sl_len s) d
   else forall a l, st !! a = Some l -> st' !! a = Some l).
Proof.
  intros (l & Hl & Ho & Hn & Hc). unfold append. destruct (Z.leb_spec (sl_len s + len d) (sl_cap s)).
  - unfold elems, write. cbn [prefix sl_array sl_off sl_len sl_cap].
    rewrite array_insert, (array_some _ _ _ Hl).
    split_and!; [|done| |done].
    + rewrite Z.add_assoc. apply sub_splice; lia.
    + apply sub_splice_before; lia.
  - pose proof (newSlice_spec st (elems st s ++ d ++
      replicate (Z.to_nat (Z.max (sl_len s + len d) (grow (sl_len s + len d)) - (sl_len s + len d))) 0)) as Hnew.
    destruct (newSlice st _) as [s' st']. destruct Hnew as (Hf & He & (l' & Hl' & Ho' & Hn' & Hc') & Hk).
    assert (sl_array s <> sl_array s') as Hne by congruence.
    assert (len (elems st s) = sl_len s) as Hel
      by (apply elems_len; exists l; split_and!; done || lia).
    split_and!.
    + unfold elems at 1. cbn [prefix sl_array sl_off sl_len].
      assert (sl_len s' = len (elems st' s')) as Hs' by (symmetry; apply elems_len; exists l'; split_and!; done || lia).
      assert (array st' (sl_array s') = l') as Ha by by apply array_some.
      rewrite He, !len_app, len_replicate in Hs' by lia.
      unfold elems at 1 in He. rewrite Ha in He |- *.
      assert (sub l' (sl_off s') (sl_off s' + (sl_len s + len d)) =
        take (Z.to_nat (sl_len s + len d)) (sub l' (sl_off s') (sl_off s' + sl_len s'))) as ->.
      { unfold sub. rewrite take_take. f_equal. pose proof (len_nonneg d). lia. }
      rewrite He, app_assoc, <- Hel, <- len_app. apply take_len_app.
    + done.
    + unfold elems, array. by rewrite Hk.
    + intros a la Ha. rewrite Hk; [done|]. intros ->. congruence.
Qed.

Lemma pad_len n : 0 <= n -> 0 < 16 - n mod 16 <= 16.
Proof. intros. zdm. lia. Qed.

(** Encrypting a slice, on the caller's memory: the result is that of
    [EncryptAES128] on its elements, which stay as they are.  But when the slice has
    spare capacity for the padding, the bytes behind it in the caller's array are
    overwritten with the padding (a [Send] of [buf[:n]] changes [buf[n:]]);
    otherwise no array there was changes. *)
Theorem encrypt_writes_behind grow st data key (Hs : slice_ok st data) (Hk : 16 <= len key) :
  let pad := 16 - sl_len data mod 16 in
  let '(r, st') := mem_EncryptAES128 grow st data key in
  r = EncryptAES128 (elems st data) key /\ elems st' data = elems st data /\
  if sl_len data + pad <=? sl_cap data then
    forall behind, sl_array behind = sl_array data -> sl_off behind = sl_off data + sl_len data ->
      sl_len behind = pad -> elems st' behind = replicate (Z.to_nat pad) pad
  else forall a l, st !! a = Some l -> st' !! a = Some l.
Proof.
  cbv zeta. unfold mem_EncryptAES128. change BlockSize with 16.
  destruct (Z.ltb_spec (len key) 16); [lia|]. unfold mem_pkcs7Pad.
  pose proof Hs as (l & Hl & Ho & Hn & Hc). pose proof (pad_len (sl_len data) ltac:(lia)) as Hpad.
  set (pad := 16 - sl_len data mod 16) in *.
  assert (to_byte pad = pad) as Hb by (unfold to_byte; apply Z.mod_small; lia). rewrite Hb.
  set (d := replicate (Z.to_nat pad) pad). assert (len d = pad) as Hd by (apply len_replicate; lia).
  pose proof (append_spec grow st data d Hs) as Ha. destruct (append grow st data d) as [padded st'].
  destruct Ha as (He & Hlen & Hsame & Hst). split_and!; [|done|].
  - assert (elems st' padded = pkcs7Pad (elems st data) 16) as Hp.
    { rewrite He. unfold pkcs7Pad. rewrite (elems_len _ _ Hs). fold pad. by rewrite Hb. }
    unfold EncryptAES128. change BlockSize with 16. destruct (Z.ltb_spec (len key) 16); [lia|].
    assert (sl_len padded = len (pkcs7Pad (elems st data) 16)) as ->.
    { rewrite <- Hp, He, len_app, (elems_len _ _ Hs). done. }
    by rewrite Hp.
  - rewrite Hd in Hst. destruct (Z.leb_spec (sl_len data + pad) (sl_cap data)); [|exact Hst].
    intros behind Ha Hoff Hlb. rewrite Hst. unfold elems, write.
    rewrite Ha, array_insert, Hoff, Hlb, (array_some _ _ _ Hl).
    pose proof (sub_splice l (sl_off data + sl_len data) (sl_off data + sl_len data) d) as Hsub.
    rewrite Hd in Hsub. rewrite Hsub by lia. unfold sub. by rewrite Z.sub_diag.
Qed.

(** Four bytes of a buffer of 32: the next twelve are lost. *)
Lemma encrypt_writes_behind_witness :
  let buf := Z.of_nat <$> seq 1 32 in
  let st := {[ 1%positive := buf ]} in
  let st' := (mem_EncryptAES128 (fun n => 2 * n) st (mkSlice 1 0 4 32) (replicate 16 5)).2 in
  elems st (mkSlice 1 4 12 12) = Z.of_nat <$> seq 5 12 /\
  elems st' (mkSlice 1 4 12 12) = replicate 12 12.
Proof.
  cbv zeta. set (st := {[ _ := _ ]}).
  assert (slice_ok st (mkSlice 1 0 4 32)) as Hs
    by (eexists; split; [reflexivity|]; cbn; split_and!; vm_compute; discriminate).
  pose proof (encrypt_writes_behind (fun n => 2 * n) st (mkSlice 1 0 4 32) (replicate 16 5) Hs
    ltac:(vm_compute; discriminate)) as H.
  destruct (mem_EncryptAES128 _ st _ _) as [r st']. destruct H as (_ & _ & H).
  split; [reflexivity|]. exact (H (mkSlice 1 4 12 12) eq_refl eq_refl eq_refl).
Defined.

(** ** The read buffers ([buffer.go]) *)

Definition readBufSize : int := 4096.

(** A decoder whose buffer is in memory. *)
Record mdecoder := mkMdecoder {
  md_buf : option Slice;
  md_pos : int;
  md_limit : int;
  md_timeCodec : TimeCodec;
  md_bccIncludeStart : bool
}.

(** The decoder of [Framing] it stands for. *)
Definition abs (st : arrays) (d : mdecoder) : Decoder :=
  mkDecoder (elems st <$> md_buf d) (md_pos d) (md_limit d) (md_timeCodec d) (md_bccIncludeStart d).

Definition mset_buf (d : mdecoder) (b : option Slice) (pos limit : int) : mdecoder :=
  mkMdecoder b pos limit (md_timeCodec d) (md_bccIncludeStart d).

(** [Feed]: every branch copies into a new array. *)
Definition mem_Feed (st : arrays) (d : mdecoder) (data : Slice) : mdecoder * arrays :=
  match md_buf d with
  | None =>
      let '(buf, st) := newSlice st (elems st data) in (mset_buf d (Some buf) 0 (sl_len buf), st)
  | Some old =>
      let remaining := md_limit d - md_pos d in
      if 0 <? remaining then
        let tail := drop (Z.to_nat (md_pos d)) (elems st old) in
        let '(newBuf, st) := newSlice st (tail ++ elems st data) in
        (mset_buf d (Some newBuf) 0 (sl_len newBuf), st)
      else
        let '(buf, st) := newSlice st (elems st data) in (mset_buf d (Some buf) 0 (sl_len buf), st)
  end.

(** [Decode] reads the buffer, moves in it or drops it; the data of a packet is a copy. *)
Definition mem_Decode (st : arrays) (d : mdecoder) : outcome (option Packet * mdecoder) :=
  let! '(pkt, d') := Decode (abs st d) in
  Ok (pkt, mset_buf d (match d_buf d' with Some _ => md_buf d | None => None end) (d_pos d') (d_limit d')).

(** A connection in its read loop: its buffer, how many bytes of it were read
    and not yet fed, its decoder; and, for the specification, the bytes the
    network delivered and the decoder that was fed those. *)
Record mconn := mkMconn {
  mc_buf : Slice;
  mc_n : option int;
  mc_dec : mdecoder;
  mc_read : bytes;
  mc_spec : Decoder
}.

Record mstate := mkMstate { m_st : arrays; m_pool : list Slice; m_conns : gmap ptr mconn }.

Definition new_mconn (buf : Slice) (tc : TimeCodec) (incl : bool) : mconn :=
  mkMconn buf None (mkMdecoder None 0 0 tc incl) [] (newDecoderWithConfig tc incl).

Definition spec_Feed (d : Decoder) (data : bytes) : Decoder :=
  match Feed d data with Ok d' => d' | _ => d end.
Definition spec_Decode (d : Decoder) : Decoder :=
  match Decode d with Ok (_, d') => d' | _ => d end.

(** [bufferPool]: what its [New] makes, what [Get] may give (any buffer put back,
    or a new one) and what [Put] leaves. *)
Definition newBuffer (st : arrays) : Slice * arrays :=
  newSlice st (replicate (Z.to_nat readBufSize) 0).

Inductive getBuffer (st : arrays) (pool : list Slice) : Slice -> arrays -> list Slice -> Prop :=
  | get_pooled i buf : pool !! i = Some buf -> getBuffer st pool buf st (delete i pool)
  | get_new buf st' : newBuffer st = (buf, st') -> getBuffer st pool buf st' pool.

Definition putBuffer (pool : list Slice) (buf : Slice) : list Slice := buf :: pool.

(** One step of one read loop ([run]): taking a buffer from the pool, the runtime
    dropping one that is in it, [conn.Read] into it, [Feed] of what was
    read, [Decode], and giving the buffer back. *)
Inductive pool_step : mstate -> mstate -> Prop :=
  | ps_get m p buf st pool tc incl :
      m_conns m !! p = None -> getBuffer (m_st m) (m_pool m) buf st pool ->
      pool_step m (mkMstate st pool (<[p := new_mconn buf tc incl]> (m_conns m)))
  | ps_collect m i : pool_step m (mkMstate (m_st m) (delete i (m_pool m)) (m_conns m))
  | ps_read m p c data :
      m_conns m !! p = Some c -> mc_n c = None -> all_bytes data -> len data <= sl_len (mc_buf c) ->
      pool_step m (mkMstate (write (m_st m) (mc_buf c) 0 data) (m_pool m)
        (<[p := mkMconn (mc_buf c) (Some (len data)) (mc_dec c) data (mc_spec c)]> (m_conns m)))
  | ps_feed m p c n d st :
      m_conns m !! p = Some c -> mc_n c = Some n ->
      mem_Feed (m_st m) (mc_dec c) (prefix (mc_buf c) n) = (d, st) ->
      pool_step m (mkMstate st (m_pool m)
        (<[p := mkMconn (mc_buf c) None d (mc_read c) (spec_Feed (mc_spec c) (mc_read c))]> (m_conns m)))
  | ps_decode m p c pkt d :
      m_conns m !! p = Some c -> mem_Decode (m_st m) (mc_dec c) = Ok (pkt, d) ->
      pool_step m (mkMstate (m_st m) (m_pool m)
        (<[p := mkMconn (mc_buf c) (mc_n c) d (mc_read c) (spec_Decode (mc_spec c))]> (m_conns m)))
  | ps_put m p c :
      m_conns m !! p = Some c ->
      pool_step m (mkMstate (m_st m) (putBuffer (m_pool m) (mc_buf c)) (delete p (m_conns m))).

Inductive pool_reachable : mstate -> Prop :=
  | pr_start st : pool_reachable (mkMstate st [] ∅)
  | pr_step m m' : pool_reachable m -> pool_step m m' -> pool_reachable m'.

(** ** Isolation *)

Definition buffer_ok (st : arrays) (s : Slice) : Prop :=
  slice_ok st s /\ sl_off s = 0 /\ sl_len s = readBufSize.

(** A connection whose decoder is the one that was fed what the network delivered. *)
Definition mconn_ok (st : arrays) (c : mconn) : Prop :=
  buffer_ok st (mc_buf c) /\ abs st (mc_dec c) = mc_spec c /\ decoder_wf (mc_spec c) /\
  (forall b, md_buf (mc_dec c) = Some b -> slice_ok st b /\ sl_array b <> sl_array (mc_buf c)) /\
  (forall n, mc_n c = Some n -> n = len (mc_read c) /\ 0 <= n <= readBufSize /\
     all_bytes (mc_read c) /\ elems st (prefix (mc_buf c) n) = mc_read c).

(** The arrays a connection reads. *)
Definition uses (c : mconn) (a : positive) : Prop :=
  a = sl_array (mc_buf c) \/ exists b, md_buf (mc_dec c) = Some b /\ a = sl_array b.

Record pool_inv (m : mstate) : Prop := {
  pi_conns : forall p c, m_conns m !! p = Some c -> mconn_ok (m_st m) c;
  pi_pool : Forall (buffer_ok (m_st m)) (m_pool m);
  pi_nodup : NoDup (sl_array <$> m_pool m);
  pi_pooled : forall p c a, m_conns m !! p = Some c -> uses c a -> a ∉ (sl_array <$> m_pool m);
  pi_apart : forall p q c d, m_conns m !! p = Some c -> m_conns m !! q = Some d ->
    p <> q -> ~ uses d (sl_array (mc_buf c))
}.

(** ** Lemmas *)

Lemma Feed_eq d data :
  decoder_wf d -> all_bytes data ->
  Feed d data = Ok (set_buf d (Some (unread d ++ data)) 0 (len (unread d ++ data))).
Proof.
  intros Hwf Hd. destruct (Feed_refines d data Hwf Hd) as (d' & HF & _ & _ & Hu). rewrite HF.
  assert (exists b, d' = set_buf d (Some b) 0 (len b)) as [b ->].
  { unfold Feed in HF. destruct (make_copy data) as (buf & Hm & Hc). rewrite Hm in HF. cbn [bind] in HF.
    destruct (d_buf d) as [old|]; [destruct (0 <? _)|]; [|injection HF as <-; by eexists..].
    destruct (make _); try done. cbn [bind] in HF. destruct (slice old _ _); try done. cbn [bind] in HF.
    destruct (copy_into _ _ _ _); try done. injection HF as <-. by eexists. }
  assert (b = unread d ++ data) as ->; [|done]. rewrite <- Hu. by rewrite <- (drop_0 b) at 1.
Qed.

(** [Feed] in memory is [Feed] of the elements, in a new array. *)
Lemma mem_Feed_abs st d data d' st' :
  decoder_wf (abs st d) -> all_bytes (elems st data) -> mem_Feed st d data = (d', st') ->
  abs st' d' = spec_Feed (abs st d) (elems st data) /\
  (exists b, md_buf d' = Some b /\ st !! sl_array b = None /\ slice_ok st' b) /\
  forall a l, st !! a = Some l -> st' !! a = Some l.
Proof.
  intros Hwf Hd HF. unfold spec_Feed. rewrite Feed_eq by done.
  assert (exists b st1, newSlice st (unread (abs st d) ++ elems st data) = (b, st1) /\
    d' = mset_buf d (Some b) 0 (sl_len b) /\ st1 = st') as (b & st1 & Hn & -> & ->).
  { unfold mem_Feed in HF. unfold unread, bufBytes. cbn.
    destruct Hwf as ([? ?] & Hl & _). cbn in Hl. unfold bufBytes in Hl. cbn in Hl.
    destruct (md_buf d) as [old|]; cbn in *.
    - destruct (Z.ltb_spec 0 (md_limit d - md_pos d)).
      + injection HF as <- <-. by eexists _, _.
      + injection HF as <- <-. rewrite (drop_ge (elems st old)) by llia. by eexists _, _.
    - injection HF as <- <-. rewrite drop_nil. by eexists _, _. }
  pose proof (newSlice_spec st (unread (abs st d) ++ elems st data)) as Hs. rewrite Hn in Hs.
  destruct Hs as (Hf & He & Hok & Hk). split_and!.
  - unfold abs. cbn. unfold set_buf. cbn. by rewrite <- (elems_len _ _ Hok), He.
  - by exists b.
  - intros a l Ha. rewrite Hk; [done|]. intros ->. congruence.
Qed.

(** [Decode] keeps its buffer or drops it. *)
Lemma Decode_keeps d p d' :
  Decode d = Ok (p, d') ->
  (d_buf d' = d_buf d \/ d_buf d' = None) /\ d_timeCodec d' = d_timeCodec d /\
  d_bccIncludeStart d' = d_bccIncludeStart d.
Proof.
  unfold Decode. generalize (S (Z.to_nat (d_limit d - d_pos d))). intros fuel. revert d.
  induction fuel as [|fuel IH]; intros d; [done|]. cbn [Decode_loop].
  destruct (findStartMarker d) as [i| | |]; cbn [bind]; try done.
  destruct (i <? 0); [intros [= <- <-]; cbn; auto|].
  destruct (_ <? HeaderSize); [intros [= <- <-]; cbn; auto|].
  destruct (slice _ _ _) as [h| | |]; cbn [bind]; try done.
  destruct (index h 2); cbn [bind]; try done. destruct (index h 3); cbn [bind]; try done.
  destruct (slice h 4 21); cbn [bind]; try done. destruct (index h 21); cbn [bind]; try done.
  destruct (read16 h 22) as [n| | |]; cbn [bind]; try done.
  destruct (_ <? n); [intros [= <- <-]; cbn; auto|].
  destruct (slice _ _ _); cbn [bind]; try done. destruct (index _ _); cbn [bind]; try done.
  destruct (verifyBCC _ _ _ _) as [ok| | |]; cbn [bind]; try done.
  destruct (negb ok); [|intros [= <- <-]; cbn; auto]. intros H. by apply IH in H.
Qed.

(** [Decode] in memory is [Decode]. *)
Lemma mem_Decode_abs st d pkt d' :
  mem_Decode st d = Ok (pkt, d') ->
  abs st d' = spec_Decode (abs st d) /\ (md_buf d' = md_buf d \/ md_buf d' = None).
Proof.
  unfold mem_Decode, spec_Decode. destruct (Decode (abs st d)) as [[p s]| | |] eqn:E; try done.
  intros [= <- <-]. pose proof (Decode_keeps _ _ _ E) as (Hb & Htc & Hi). split.
  - unfold abs. cbn. destruct s as [b pos lim tc incl]. cbn in *. subst.
    destruct Hb as [->| ->]; [|done]. by destruct (md_buf d).
  - cbn. destruct (d_buf s); [by left|by right].
Qed.

Lemma elems_kept st st' s : st' !! sl_array s = st !! sl_array s -> elems st' s = elems st s.
Proof. unfold elems, array. by intros ->. Qed.

Lemma slice_ok_kept st st' s : st' !! sl_array s = st !! sl_array s -> slice_ok st s -> slice_ok st' s.
Proof. unfold slice_ok. by intros ->. Qed.

(** A connection sees only the arrays it uses. *)
Lemma mconn_ok_kept st st' c :
  (forall a, uses c a -> st' !! a = st !! a) -> mconn_ok st c -> mconn_ok st' c.
Proof.
  intros Hk ((Hb & Hb0 & Hbn) & Ha & Hwf & Hd & Hr).
  assert (st' !! sl_array (mc_buf c) = st !! sl_array (mc_buf c)) as Hkb by (apply Hk; by left).
  split; [split; [by eapply slice_ok_kept|done]|]. split_and!; [|done| |].
  - rewrite <- Ha. unfold abs. f_equal. destruct (md_buf (mc_dec c)) as [b|] eqn:E; [|done].
    cbn. f_equal. apply elems_kept, Hk. right. eauto.
  - intros b E. destruct (Hd b E) as [? ?]. split; [|done]. eapply slice_ok_kept; [|done].
    apply Hk. right. eauto.
  - intros n E. destruct (Hr n E) as (? & ? & ? & He). split_and!; try done; [lia..|].
    rewrite <- He. by apply elems_kept.
Qed.

Lemma uses_some st c a : mconn_ok st c -> uses c a -> is_Some (st !! a).
Proof.
  intros (((l & Hl & _) & _) & _ & _ & Hd & _) [->|(b & Hb & ->)]; [by exists l|].
  destruct (Hd b Hb) as [(l' & ? & _) _]. by exists l'.
Qed.

Lemma new_mconn_ok st buf tc incl : buffer_ok st buf -> mconn_ok st (new_mconn buf tc incl).
Proof.
  intros Hb. split; [done|]. by split_and!.
Qed.

Lemma new_uses buf tc incl a : uses (new_mconn buf tc incl) a -> a = sl_array buf.
Proof. by intros [?|(b & ? & _)]. Qed.

(** Replacing the connection [p], with memory that keeps what the others and
    the pool use. *)
Lemma pool_inv_conn m st p c c' :
  pool_inv m -> m_conns m !! p = Some c -> mconn_ok st c' -> sl_array (mc_buf c') = sl_array (mc_buf c) ->
  (forall a, a <> sl_array (mc_buf c) -> is_Some (m_st m !! a) -> st !! a = m_st m !! a) ->
  Forall (buffer_ok st) (m_pool m) ->
  (forall a, uses c' a -> uses c a \/ m_st m !! a = None) ->
  pool_inv (mkMstate st (m_pool m) (<[p := c']> (m_conns m))).
Proof.
  intros [H1 H2 H3 H4 H5] Hc Hok Hbuf Hk Hpool Hu.
  assert (forall q d a, m_conns m !! q = Some d -> p <> q -> uses d a -> a <> sl_array (mc_buf c)) as Hoff.
  { intros q d a Hd Hne Ha ->. exact (H5 p q c d Hc Hd Hne Ha). }
  split; cbn; try done.
  - intros q d. rewrite lookup_insert_Some. intros [[<- <-]|[Hne Hd]]; [done|].
    eapply mconn_ok_kept; [|by eapply H1]. intros a Ha. apply Hk; [by eapply Hoff|].
    eapply uses_some; [by eapply H1|done].
  - intros q d a. rewrite lookup_insert_Some. intros [[<- <-]|[Hne Hd]] Ha; [|by eapply H4].
    destruct (Hu a Ha) as [?|Hn]; [by eapply H4|]. intros (s & -> & Hs)%list_elem_of_fmap.
    destruct (proj1 (Forall_forall _ _) H2 s Hs) as [(l & Hl & _) _]. congruence.
  - intros q r d e. rewrite !lookup_insert_Some.
    intros [[<- <-]|[Hq Hd]] [[<- <-]|[Hr He]] Hne Ha; [done| | |exact (H5 q r d e Hd He Hne Ha)].
    + rewrite Hbuf in Ha. exact (H5 p r c e Hc He Hne Ha).
    + destruct (Hu _ Ha) as [Hx|Hn]; [exact (H5 q p d c Hd Hc Hne Hx)|].
      destruct (H1 q d Hd) as (((l & Hl & _) & _) & _). congruence.
Qed.

Lemma write_ok st s d : slice_ok st s -> sl_off s = 0 -> len d <= sl_len s ->
  slice_ok (write st s 0 d) s /\ elems (write st s 0 d) (prefix s (len d)) = d.
Proof.
  intros (l & Hl & ? & ? & ?) Hoff Hd. unfold write. rewrite Hoff, (array_some _ _ _ Hl). split.
  - eexists. rewrite lookup_insert_eq. split; [done|]. rewrite len_splice by lia. lia.
  - unfold elems. cbn. rewrite array_insert, Hoff.
    pose proof (sub_splice l 0 0 d ltac:(lia) ltac:(lia)) as Hs. cbn in Hs |- *. exact Hs.
Qed.

Lemma slice_ok_write st s s' i d :
  slice_ok st s' -> 0 <= sl_off s + i -> sl_off s + i + len d <= len (array st (sl_array s)) ->
  slice_ok (write st s i d) s'.
Proof.
  intros (l & Hl & ? & ? & ?) Hi Hd. unfold write, slice_ok.
  destruct (decide (sl_array s = sl_array s')) as [He|Hne].
  - rewrite <- He, lookup_insert_eq. eexists. split; [done|]. rewrite len_splice by done.
    rewrite He, (array_some _ _ _ Hl). lia.
  - rewrite lookup_insert_ne by done. by exists l.
Qed.

(** Starting a connection on a buffer nobody has. *)
Lemma pool_inv_start m st pool p buf tc incl :
  pool_inv m -> m_conns m !! p = None -> buffer_ok st buf ->
  (forall a, is_Some (m_st m !! a) -> st !! a = m_st m !! a) ->
  Forall (buffer_ok st) pool -> NoDup (sl_array <$> pool) ->
  sl_array buf ∉ (sl_array <$> pool) -> (forall a, a ∈ (sl_array <$> pool) -> a ∈ (sl_array <$> m_pool m)) ->
  (forall q d, m_conns m !! q = Some d -> ~ uses d (sl_array buf)) ->
  pool_inv (mkMstate st pool (<[p := new_mconn buf tc incl]> (m_conns m))).
Proof.
  intros [H1 H2 H3 H4 H5] Hp Hb Hk Hpool Hnd Hbuf Hsub Hno. split; cbn; try done.
  - intros q d. rewrite lookup_insert_Some. intros [[<- <-]|[Hne Hd]]; [by apply new_mconn_ok|].
    eapply mconn_ok_kept; [|by eapply H1]. intros a Ha. apply Hk. eapply uses_some; [by eapply H1|done].
  - intros q d a. rewrite lookup_insert_Some. intros [[<- <-]|[Hne Hd]] Ha.
    + by apply new_uses in Ha as ->.
    + intros Hin. by eapply H4, Hsub.
  - intros q r d e. rewrite !lookup_insert_Some.
    intros [[<- <-]|[Hq Hd]] [[<- <-]|[Hr He]] Hne Ha; [done| | |exact (H5 q r d e Hd He Hne Ha)].
    + by apply (Hno r e He).
    + apply new_uses in Ha. apply (Hno q d Hd). left. done.
Qed.

Lemma pool_inv_delete m i : pool_inv m -> pool_inv (mkMstate (m_st m) (delete i (m_pool m)) (m_conns m)).
Proof.
  intros [H1 H2 H3 H4 H5]. split; cbn; try done.
  - by apply Forall_delete.
  - rewrite list_fmap_delete. eapply sublist_NoDup; [exact H3|]. apply sublist_delete.
  - intros p c a Hc Ha Hin. eapply H4; [done|done|]. rewrite list_fmap_delete in Hin.
    by eapply list_elem_of_delete_inv.
Qed.

Lemma buffer_ok_kept st st' s : st' !! sl_array s = st !! sl_array s -> buffer_ok st s -> buffer_ok st' s.
Proof. intros Hk [? ?]. split; [by eapply slice_ok_kept|done]. Qed.

(** The pool's buffers when memory keeps what there is. *)
Lemma pool_kept m st :
  pool_inv m -> (forall a, is_Some (m_st m !! a) -> st !! a = m_st m !! a) ->
  Forall (buffer_ok st) (m_pool m).
Proof.
  intros Hm Hk. eapply Forall_impl; [exact (pi_pool _ Hm)|]. intros s Hs.
  eapply buffer_ok_kept; [|exact Hs]. destruct Hs as [(l & Hl & _) _]. apply Hk. by exists l.
Qed.

(** [conn.Read] *)
Lemma read_inv m p c data :
  pool_inv m -> m_conns m !! p = Some c -> all_bytes data -> len data <= sl_len (mc_buf c) ->
  pool_inv (mkMstate (write (m_st m) (mc_buf c) 0 data) (m_pool m)
    (<[p := mkMconn (mc_buf c) (Some (len data)) (mc_dec c) data (mc_spec c)]> (m_conns m))).
Proof.
  intros Hm Hc Hd Hl. pose proof (pi_conns _ Hm p c Hc) as ((Hb & Hb0 & Hbn) & Ha & Hwf & Hdec & _).
  destruct (write_ok (m_st m) (mc_buf c) data Hb Hb0 Hl) as [Hb' He].
  assert (forall a, a <> sl_array (mc_buf c) -> write (m_st m) (mc_buf c) 0 data !! a = m_st m !! a) as Hk
    by (intros a Hne; unfold write; by rewrite lookup_insert_ne).
  apply (pool_inv_conn m _ p c); try done; [|by auto| |by intros a Hu; left].
  - split; [done|]. cbn. split_and!; [|done| |].
    + rewrite <- Ha. unfold abs. f_equal. destruct (md_buf (mc_dec c)) as [b|] eqn:E; [|done].
      cbn. f_equal. apply elems_kept, Hk. by apply Hdec.
    + intros b E. destruct (Hdec b E) as [? Hne]. split; [|done]. eapply slice_ok_kept; [|done]. by apply Hk.
    + intros n [= <-]. pose proof (len_nonneg data). split_and!; try done; lia.
  - eapply Forall_impl; [exact (pi_pool _ Hm)|]. intros s [Hs ?]. split; [|done].
    destruct Hb as (l & Hbl & ? & ? & ?). apply slice_ok_write; [done|lia|].
    rewrite (array_some _ _ _ Hbl). lia.
Qed.

(** [Feed] of what was read. *)
Lemma feed_inv m p c n d st :
  pool_inv m -> m_conns m !! p = Some c -> mc_n c = Some n ->
  mem_Feed (m_st m) (mc_dec c) (prefix (mc_buf c) n) = (d, st) ->
  pool_inv (mkMstate st (m_pool m)
    (<[p := mkMconn (mc_buf c) None d (mc_read c) (spec_Feed (mc_spec c) (mc_read c))]> (m_conns m))).
Proof.
  intros Hm Hc Hn HF. pose proof (pi_conns _ Hm p c Hc) as (Hb & Ha & Hwf & Hdec & Hr).
  destruct (Hr n Hn) as (_ & _ & Hbytes & He).
  destruct (mem_Feed_abs _ _ _ _ _ ltac:(by rewrite Ha) ltac:(by rewrite He) HF)
    as (Hd & (b & Hdb & Hf & Hbo) & Hkeep). rewrite Ha, He in Hd.
  assert (forall a, is_Some (m_st m !! a) -> st !! a = m_st m !! a) as Hk.
  { intros a [l Hal]. rewrite Hal. by apply Hkeep. }
  assert (is_Some (m_st m !! sl_array (mc_buf c))) as Hbs by (by destruct Hb as [(l & ? & _) _]; exists l).
  apply (pool_inv_conn m st p c); try done; [|by auto| |].
  - split; [eapply buffer_ok_kept; [by apply Hk|done]|]. cbn. split_and!; [done| | |done].
    + unfold spec_Feed. destruct (Feed_refines _ _ Hwf Hbytes) as (d2 & -> & ? & _). done.
    + intros b' Hb'. assert (b' = b) as -> by congruence. split; [done|]. intros Heq.
      rewrite <- Heq, Hf in Hbs. by destruct Hbs.
  - by apply pool_kept.
  - intros a [->|(b' & Hb' & ->)]; [left; by left|]. right. cbn in Hb'. by assert (b' = b) as -> by congruence.
Qed.

Lemma decode_inv m p c pkt d :
  pool_inv m -> m_conns m !! p = Some c -> mem_Decode (m_st m) (mc_dec c) = Ok (pkt, d) ->
  pool_inv (mkMstate (m_st m) (m_pool m)
    (<[p := mkMconn (mc_buf c) (mc_n c) d (mc_read c) (spec_Decode (mc_spec c))]> (m_conns m))).
Proof.
  intros Hm Hc HD. pose proof (pi_conns _ Hm p c Hc) as (Hb & Ha & Hwf & Hdec & Hr).
  destruct (mem_Decode_abs _ _ _ _ HD) as [Hd Hbuf]. rewrite Ha in Hd.
  assert (forall b, md_buf d = Some b -> md_buf (mc_dec c) = Some b) as Hsub
    by (intros b E; destruct Hbuf; congruence).
  apply (pool_inv_conn m _ p c); try done; [| |].
  - split; [done|]. cbn. split_and!; [done| | |done].
    + unfold spec_Decode. pose proof (Decode_refines _ Hwf) as Hs. unfold simulates in Hs.
      destruct (Decode (mc_spec c)) as [[q s]| | |]; try done. by destruct Hs as (_ & ? & _).
    + intros b E. by apply Hdec, Hsub.
  - apply Hm.
  - intros a [->|(b & E & ->)]; left; [by left|right]. exists b. split; [by apply Hsub|done].
Qed.

Lemma put_inv m p c :
  pool_inv m -> m_conns m !! p = Some c ->
  pool_inv (mkMstate (m_st m) (mc_buf c :: m_pool m) (delete p (m_conns m))).
Proof.
  intros [H1 H2 H3 H4 H5] Hc. split; cbn.
  - intros q d [_ Hd]%lookup_delete_Some. by eapply H1.
  - constructor; [apply (H1 p c Hc)|done].
  - constructor; [|done]. apply (H4 p c); [done|by left].
  - intros q d a [Hne Hd]%lookup_delete_Some Ha [->|Hin]%elem_of_cons; [by apply (H5 p q c d)|].
    by eapply (H4 q d).
  - intros q r d e [_ Hd]%lookup_delete_Some [_ He]%lookup_delete_Some. by eapply H5.
Qed.

Lemma pool_step_inv m m' : pool_inv m -> pool_step m m' -> pool_inv m'.
Proof.
  intros Hm Hs. destruct Hs as [m p ? ? ? tc incl Hp [i buf Hi|buf st Hn]|m i|m p c data Hc Hn Hd Hl
    |m p c n d st Hc Hn HF|m p c pkt d Hc HD|m p c Hc].
  - pose proof Hm as [H1 H2 H3 H4 H5].
    pose proof (fmap_Permutation sl_array _ _ (delete_Permutation _ _ _ Hi)) as Hperm.
    rewrite Hperm in H3. apply NoDup_cons in H3 as [Hnin Hnd].
    apply (pool_inv_start m); try done.
    + by apply (proj1 (Forall_forall _ _) H2), (list_elem_of_lookup_2 _ i).
    + by apply Forall_delete.
    + intros a Ha. rewrite Hperm. by apply list_elem_of_further.
    + intros q d Hq Hu. apply (H4 q d _ Hq Hu). rewrite Hperm. apply list_elem_of_here.
  - pose proof (newSlice_spec (m_st m) (replicate (Z.to_nat readBufSize) 0)) as Hs.
    fold (newBuffer (m_st m)) in Hs. rewrite Hn in Hs.
    destruct Hs as (Hf & He & Hok & Hk). pose proof Hm as [H1 H2 H3 H4 H5].
    assert (forall a, is_Some (m_st m !! a) -> st !! a = m_st m !! a) as Hkeep.
    { intros a [l Ha]. apply Hk. congruence. }
    apply (pool_inv_start m); try done.
    + split; [done|]. unfold newBuffer in Hn. cbn in Hn. injection Hn as <- _. done.
    + by apply pool_kept.
    + intros (s & Hs & Hin)%list_elem_of_fmap.
      destruct (proj1 (Forall_forall _ _) H2 s Hin) as [(l & Hl & _) _]. congruence.
    + intros q c Hc Hu. destruct (uses_some _ _ _ (H1 q c Hc) Hu) as [l ?]. congruence.
  - by apply pool_inv_delete.
  - by apply read_inv.
  - by eapply feed_inv.
  - by eapply decode_inv.
  - by apply put_inv.
Qed.

Lemma pool_reachable_inv m : pool_reachable m -> pool_inv m.
Proof.
  induction 1 as [st|m m' _ IH Hs]; [|by eapply pool_step_inv].
  split; cbn; try done; constructor.
Qed.

(** C10: The read buffers are recycled among the connections, and no connection
    sees that: whatever the interleaving of the read loops, and whichever buffer the
    pool hands out, the bytes a connection has read and not yet fed are those the
    network delivered to it, no two connections hold one buffer, and its decoder is at all
    times the one that was fed these bytes and nothing else, so that it returns the same
    packets (or panics where that one does). *)
Theorem read_buffers_isolated m p c (Hm : pool_reachable m) (Hc : m_conns m !! p = Some c) :
  abs (m_st m) (mc_dec c) = mc_spec c /\
  (forall n, mc_n c = Some n -> elems (m_st m) (prefix (mc_buf c) n) = mc_read c) /\
  (forall q d, m_conns m !! q = Some d -> p <> q -> sl_array (mc_buf c) <> sl_array (mc_buf d)) /\
  match mem_Decode (m_st m) (mc_dec c) with
  | Ok (pkt, d) => Decode (mc_spec c) = Ok (pkt, abs (m_st m) d)
  | Panic => Decode (mc_spec c) = Panic
  | _ => False
  end.
Proof.
  pose proof (pool_reachable_inv m Hm) as Hi. pose proof (pi_conns _ Hi p c Hc) as (_ & Ha & Hwf & _ & Hr).
  split_and!; [done|by intros n Hn; apply Hr| |].
  - intros q d Hd Hne He. apply (pi_apart _ Hi p q c d Hc Hd Hne). by left.
  - destruct (mem_Decode (m_st m) (mc_dec c)) as [[pkt d]|e| |] eqn:E.
    + destruct (mem_Decode_abs _ _ _ _ E) as [Hd _]. rewrite Hd, Ha. unfold mem_Decode in E. rewrite Ha in E.
      unfold spec_Decode. destruct (Decode (mc_spec c)) as [[q s]| | |]; try done. by injection E as -> _.
    + unfold mem_Decode in E. rewrite Ha in E. pose proof (Decode_refines _ Hwf) as Hs.
      destruct (Decode (mc_spec c)) as [[]| | |]; done.
    + unfold mem_Decode in E. rewrite Ha in E. by destruct (Decode (mc_spec c)) as [[]| | |].
    + unfold mem_Decode in E. rewrite Ha in E. pose proof (Decode_refines _ Hwf) as Hs.
      destruct (Decode (mc_spec c)) as [[]| | |]; done.
Qed.

(** A buffer that came back from one connection, read into by the next. *)
Lemma read_buffers_isolated_witness :
  exists m c, pool_reachable m /\ m_conns m !! 2%positive = Some c /\
    elems (m_st m) (prefix (mc_buf c) 3) = [1; 2; 3].
Proof.
  destruct (newSlice ∅ (replicate (Z.to_nat readBufSize) 0)) as [buf st] eqn:E.
  assert (sl_len buf = readBufSize) as Hl by (cbn in E; by injection E as <- _).
  set (m1 := mkMstate st [] (<[1%positive := new_mconn buf TimeCodecBCD false]> ∅)).
  assert (pool_reachable m1) as H1
    by (eapply pr_step; [apply (pr_start ∅)|]; by apply (ps_get (mkMstate ∅ [] ∅) 1 buf st []); [|apply get_new]).
  set (m2 := mkMstate st [buf] (delete 1%positive (m_conns m1))).
  assert (pool_reachable m2) as H2.
  { eapply pr_step; [exact H1|]. by apply (ps_put m1 1%positive (new_mconn buf TimeCodecBCD false)). }
  set (m3 := mkMstate st [] (<[2%positive := new_mconn buf TimeCodecBCD false]> (m_conns m2))).
  assert (pool_reachable m3) as H3.
  { eapply pr_step; [exact H2|]. by apply (ps_get m2 2%positive buf st []); [|apply (get_pooled st [buf] 0)]. }
  set (c := mkMconn buf (Some 3) (mkMdecoder None 0 0 TimeCodecBCD false) [1; 2; 3]
    (newDecoderWithConfig TimeCodecBCD false)).
  set (m4 := mkMstate (write st buf 0 [1; 2; 3]) [] (<[2%positive := c]> (m_conns m3))).
  assert (pool_reachable m4) as H4.
  { eapply pr_step; [exact H3|].
    apply (ps_read m3 2%positive (new_mconn buf TimeCodecBCD false) [1; 2; 3]);
      [by apply lookup_insert_eq|done|check_bytes|cbn; rewrite Hl; vm_compute; discriminate]. }
  exists m4, c. assert (m_conns m4 !! 2%positive = Some c) as Hc by apply lookup_insert_eq.
  split; [exact H4|]. split; [exact Hc|].
  destruct (read_buffers_isolated m4 2%positive c H4 Hc) as (_ & H & _). by apply H.
Defined.
