(* ===== verification/Server.v ===== *)
(** * The server ([server.go]) as a transition system

    Accepting, stopping and the idle check, and the steps a running server
    takes: one accept, one read of a connection, one half of an idle check, one
    call of an exported method by the user, in any order.  *)
From stdpp Require Import gmap.
From S2P Require Import Prelude.
From S2P Require Import GoTime.
From S2P Require Import Constant.
From S2P Require Import Packet.
From S2P Require Import Framing.
From S2P Require Import FramingSpec.
From S2P Require Import Payload.
From S2P Require Import Realtime.
From S2P Require Import Messages.
From S2P Require Import Aes.
From S2P Require Import Crypto.
From S2P Require Import Registry.
From S2P Require Import World.
From S2P Require Import Connection.

Section server.
Context (cfg : Config).

(** [newConnection] (conn.go), at the time [t]. *)
Definition newConnection (id : gostring) (t : Time) : Connection :=
  mkConnection id ConnNew [] [] t (t_unix t)
    (newDecoderWithConfig (cfg_timeCodec cfg) (cfg_bccIncludeStart cfg)) None false false.

(** The body of [Start]'s accept loop, for the identifier [id] that
    [generateConnID] draws and the pointer [p] of the new object; [false] when
    the connection limit is reached. *)
Definition accept (id : gostring) (p : ptr) : M bool := fun w =>
  if cfg_maxConns cfg <=? w_connCount w then Ok (false, w) else
  let w := set_heap w (<[p := newConnection id (w_now w)]> (w_heap w)) in
  Ok (true, set_index w (<[id := p]> (w_connections w)) (w_connCount w + 1)).

Fixpoint closeAll (ps : list ptr) : M unit :=
  match ps with
  | [] => ret tt
  | p :: ps => Connection_Close p;; closeAll ps
  end.

(** [Stop], up to waiting for the goroutines and closing the forwarders. *)
Definition Stop : M unit := fun w =>
  closeAll ((map_to_list (w_connections w)).*2) (set_stopped w).

Definition ConnCount : M int := fun w => Ok (w_connCount w, w).
Definition Connections : M (list ptr) := fun w => Ok ((map_to_list (w_connections w)).*2, w).
Definition GetConnectionByVIN (vin : gostring) : M (option ptr) := fun w =>
  Ok (get (w_vinRegistry w) vin, w).
Definition GetConnection (id : gostring) : M (option ptr) := fun w =>
  Ok (w_connections w !! id, w).

(** [time.Since(c.LastSeen())], in nanoseconds. *)
Definition sinceLastSeen (c : Connection) (t : Time) : int :=
  (t_unix t - c_lastSeen c) * 1000000000 + t_nsec t.

(** The body of [idleCheckLoop] for one connection: up to its [time.Sleep]
    ([true] when it sleeps), and after it. *)
Definition idleProbe (p : ptr) : M bool :=
  let* c := conn p in
  if decide (c_state c = ConnClosed) then ret false else
  let* t := now in
  if sinceLastSeen c t <=? cfg_idleTimeout cfg then ret false else
  let* err := Send p CmdHeartbeat (encodeBCDTime (UTC t)) in
  match err with
  | Some _ => Connection_Close p;; ret false
  | None => ret true
  end.

Definition idleRecheck (p : ptr) : M unit :=
  let* c := conn p in
  let* t := now in
  if decide (c_state c <> ConnClosed) then
    if cfg_idleTimeout cfg + 3000000000 <? sinceLastSeen c t then Connection_Close p else ret tt
  else ret tt.

(** ** Steps *)

(** What a network connection can deliver: bytes while it is open. *)
Definition deliverable (w : World) (p : ptr) (r : readResult) : Prop :=
  exists c, w_heap w !! p = Some c /\
    match r with ReadBytes b => all_bytes b /\ c_netClosed c = false | ReadError => True end.

Inductive step : World -> World -> Prop :=
  | step_accept id p ok w w' :
      w_heap w !! p = None -> (forall q c, w_heap w !! q = Some c -> c_id c <> id) ->
      accept id p w = Ok (ok, w') -> step w w'
  | step_run p r go w w' :
      deliverable w p r -> runOnce cfg p r w = Ok (go, w') -> step w w'
  | step_probe p sleeps w w' :
      0 < cfg_idleTimeout cfg -> idleProbe p w = Ok (sleeps, w') -> step w w'
  | step_recheck p w w' :
      0 < cfg_idleTimeout cfg -> idleRecheck p w = Ok (tt, w') -> step w w'
  | step_stop w w' : Stop w = Ok (tt, w') -> step w w'
  | step_user {A} (a : api A) b w w' : run_api a w = Ok (b, w') -> step w w'
  | step_clock t w : step w (set_now w t)
  | step_network n w : step w (set_net w n).

(** A server that has just started. *)
Definition initial (t : Time) : World := mkWorld ∅ ∅ 0 newVinRegistry false t [] [].

Inductive reachable : World -> Prop :=
  | reach_start t : reachable (initial t)
  | reach_step w w' : reachable w -> step w w' -> reachable w'.
End server.

(** ** Invariant *)

(** A connection: its decoder is well-formed, its key is an AES-128 key, it was
    closed as a whole, and its VIN is empty or has 17 bytes. *)
Definition conn_ok (c : Connection) : Prop :=
  decoder_wf (c_decoder c) /\
  (forall k, c_encryptKey c = Some k -> is_block k) /\
  c_ctxDone c = c_netClosed c /\
  (c_state c = ConnClosed -> c_netClosed c = true) /\
  (c_state c = ConnNew -> c_netClosed c = false) /\
  (c_vin c = [] \/ len (c_vin c) = VINLength).

(** A forwarded message has fields of their Go types, under its kind's name. *)
Definition event_typed (e : event) : Prop :=
  match e with EvForward _ msg => typed_ForwardMsg msg | _ => True end.

Definition inv (w : World) : Prop :=
  (forall p c, w_heap w !! p = Some c -> conn_ok c) /\
  (forall p q c d, w_heap w !! p = Some c -> w_heap w !! q = Some d -> c_id c = c_id d -> p = q) /\
  (forall id p, w_connections w !! id = Some p <->
     exists c, w_heap w !! p = Some c /\ c_id c = id /\ c_netClosed c = false) /\
  w_connCount w <= Z.of_nat (size (w_connections w)) /\
  Forall event_typed (w_trace w).

(** What no operation outside the read loop changes: the clock; connections stay,
    with their identifier, their decoder and when they were last seen, and a
    closed one stays closed. *)
Definition later (c c' : Connection) : Prop :=
  c_id c' = c_id c /\ c_decoder c' = c_decoder c /\ c_lastSeen c' = c_lastSeen c /\
  (c_netClosed c = true -> c_netClosed c' = true).

Definition extends (w w' : World) : Prop :=
  w_now w' = w_now w /\
  forall p c, w_heap w !! p = Some c -> exists c', w_heap w' !! p = Some c' /\ later c c'.

(** [calm pan p m P]: with [p] a connection, [m] keeps the invariant and
    [extends]; it returns a value that satisfies [P], or panics where [pan] allows. *)
Definition calm (pan : Prop) (p : ptr) {A} (m : M A) (P : A -> Prop) : Prop :=
  forall w, inv w -> pan \/ is_Some (w_heap w !! p) ->
  match m w with
  | Ok (a, w') => P a /\ inv w' /\ extends w w'
  | Panic => pan
  | Err _ | OutOfFuel => False
  end.

#[export] Instance later_preorder : PreOrder later.
Proof.
  split; [done|]. intros c1 c2 c3 (? & ? & ? & ?) (? & ? & ? & ?). split_and!; (congruence || auto).
Qed.

#[export] Instance extends_preorder : PreOrder extends.
Proof.
  split.
  - intros w. split; [done|]. intros p c H. by exists c.
  - intros w1 w2 w3 [T12 H12] [T23 H23]. split; [congruence|]. intros p c H.
    destruct (H12 p c H) as (c2 & H2 & L2). destruct (H23 p c2 H2) as (c3 & H3 & L3).
    exists c3. split; [done|]. by etrans.
Qed.

Lemma extends_some w w' p : extends w w' -> is_Some (w_heap w !! p) -> is_Some (w_heap w' !! p).
Proof. intros [_ He] [c Hc]. destruct (He p c Hc) as (c' & ? & _). by exists c'. Qed.

Section calm.
Context (pan : Prop) (p : ptr).

Lemma calm_ret {A} (a : A) (P : A -> Prop) : P a -> calm pan p (ret a) P.
Proof. intros HP w Hw _. by split_and!. Qed.

Lemma calm_bind {A B} (m : M A) (k : A -> M B) Q (P : B -> Prop) :
  calm pan p m Q -> (forall a, Q a -> calm pan p (k a) P) -> calm pan p (bindM m k) P.
Proof.
  intros Hm Hk w Hw Hp. specialize (Hm w Hw Hp). unfold bindM.
  destruct (m w) as [[a w1]| | |]; cbn; try done. destruct Hm as (Ha & Hw1 & He1).
  assert (pan \/ is_Some (w_heap w1 !! p)) as Hp1
    by (destruct Hp as [?|?]; [by left|right; by eapply extends_some]).
  specialize (Hk a Ha w1 Hw1 Hp1). destruct (k a w1) as [[b w2]| | |]; try done.
  destruct Hk as (? & ? & ?). split_and!; try done. by etrans.
Qed.

Lemma calm_mono {A} (m : M A) (P Q : A -> Prop) :
  (forall a, P a -> Q a) -> calm pan p m P -> calm pan p m Q.
Proof.
  intros HPQ Hm w Hw Hp. specialize (Hm w Hw Hp). destruct (m w) as [[a w1]| | |]; try done.
  destruct Hm as (? & ? & ?). auto.
Qed.

Lemma calm_conn : calm pan p (conn p) conn_ok.
Proof.
  intros w Hw Hp. unfold conn. destruct (w_heap w !! p) as [c|] eqn:E.
  - split_and!; [by eapply Hw | done | done].
  - destruct Hp as [?|[c Hc]]; [done|congruence].
Qed.

(** A change of one connection that keeps it well-formed, its identifier, its
    decoder and whether it is open. *)
Lemma on_conn_inv w c f :
  inv w -> w_heap w !! p = Some c -> conn_ok (f c) -> c_id (f c) = c_id c ->
  c_netClosed (f c) = c_netClosed c -> inv (set_heap w (<[p := f c]> (w_heap w))).
Proof.
  intros (H1 & H2 & H3 & H4 & H5) Hc Hok Hid Hn. unfold inv. cbn. split_and!; [..|done|done].
  - intros q d. destruct (decide (p = q)) as [<-|Hne].
    + rewrite lookup_insert_eq. by intros [= <-].
    + rewrite lookup_insert_ne by done. apply H1.
  - intros q r d e. rewrite !lookup_insert_Some.
    intros [[<- <-]|[? Hd]] [[<- <-]|[? He]] Heq; [done | | | by eapply H2].
    + eapply H2; [exact Hc | exact He | congruence].
    + eapply H2; [exact Hd | exact Hc | congruence].
  - intros id q. rewrite H3. split.
    + intros (d & Hd & ? & ?). destruct (decide (p = q)) as [<-|Hne].
      * exists (f c). rewrite lookup_insert_eq. split_and!; [done|congruence|congruence].
      * exists d. by rewrite lookup_insert_ne.
    + intros (d & Hd & ? & ?). apply lookup_insert_Some in Hd as [[<- <-]|[? Hd]].
      * exists c. split_and!; [done|congruence|congruence].
      * by exists d.
Qed.

Lemma calm_on_conn f :
  (forall c, conn_ok c -> conn_ok (f c)) -> (forall c, c_id (f c) = c_id c) ->
  (forall c, c_netClosed (f c) = c_netClosed c) -> (forall c, c_decoder (f c) = c_decoder c) ->
  (forall c, c_lastSeen (f c) = c_lastSeen c) ->
  calm pan p (on_conn p f) (fun _ => True).
Proof.
  intros Hok Hid Hn Hd Hl w Hw Hp. unfold on_conn, bindM, conn, put_conn.
  destruct (w_heap w !! p) as [c|] eqn:E; cbn.
  - split_and!; [done| |].
    + apply on_conn_inv; auto. apply Hok. by eapply Hw.
    + split; [done|]. intros q d Hq. cbn. destruct (decide (p = q)) as [<-|Hne].
      * rewrite lookup_insert_eq. assert (d = c) as -> by congruence. exists (f c).
        split; [done|]. split_and!; auto. by rewrite Hn.
      * rewrite lookup_insert_ne by done. by exists d.
  - destruct Hp as [?|[c Hc]]; [done|congruence].
Qed.

(** A step that touches neither the connections nor their index. *)
Lemma calm_frame {A} (m : M A) (P : A -> Prop) :
  (forall w, exists a w', m w = Ok (a, w') /\ P a /\ w_heap w' = w_heap w /\
     w_connections w' = w_connections w /\ w_connCount w' = w_connCount w /\ w_now w' = w_now w /\
     (Forall event_typed (w_trace w) -> Forall event_typed (w_trace w'))) ->
  calm pan p m P.
Proof.
  intros Hm w (H1 & H2 & H3 & H4 & H5) _. destruct (Hm w) as (a & w' & -> & HP & Hh & Hc & Hn & Ht & Hev).
  split; [done|]. unfold inv. rewrite Hh, Hc, Hn.
  split; [split_and!; auto|]. split; [done|]. intros q c Hq. rewrite Hh. by exists c.
Qed.

Lemma calm_try {A} (m : outcome A) (P : A -> Prop) :
  ensures m P -> calm pan p (try m) (fun r => match r with inl a => P a | inr _ => True end).
Proof. intros Hm w Hw _. unfold try. destruct m; try done; by split_and!. Qed.

Lemma calm_lift {A} (m : outcome A) (P : A -> Prop) : yields m P -> calm pan p (lift m) P.
Proof. intros Hm w Hw _. unfold lift. destruct m; try done; by split_and!. Qed.

Lemma calm_if {A} (b : bool) (m1 m2 : M A) P :
  calm pan p m1 P -> calm pan p m2 P -> calm pan p (if b then m1 else m2) P.
Proof. by destruct b. Qed.
End calm.

(** ** Sending and closing *)

Section conn_ops.
Context (pan : Prop) (p : ptr).
Abbreviation any := (fun _ => True).

Lemma calm_any {A} (m : M A) P : calm pan p m P -> calm pan p m any.
Proof. by apply calm_mono. Qed.

Lemma calm_emit e : event_typed e -> calm pan p (emit e) any.
Proof.
  intros He. apply calm_frame. intros w. eexists _, _. split; [done|]. split_and!; try done.
  by constructor.
Qed.

Lemma calm_now : calm pan p now any.
Proof. apply calm_frame. intros w. by eexists _, _. Qed.

Lemma calm_registry f : calm pan p (fun w => Ok (tt, set_registry w (f w))) any.
Proof. apply calm_frame. intros w. by eexists _, _. Qed.

Lemma calm_forward cfg msg : typed_ForwardMsg msg -> calm pan p (forward cfg msg) any.
Proof.
  intros Hm. apply calm_frame. intros w. eexists _, _. split; [done|]. split_and!; try done.
  intros Hw. apply Forall_app. split; [|done]. apply Forall_rev, Forall_fmap, Forall_true. by intros k.
Qed.

Lemma calm_netWrite pkt : calm pan p (netWrite p pkt) any.
Proof.
  eapply calm_bind; [apply calm_conn|]. intros c _. apply calm_if; [by apply calm_ret|].
  apply calm_frame. intros w. destruct (w_net w) as [|[e|] rest]; eexists _, _;
    (split; [done|]); split_and!; try done; by constructor.
Qed.

Lemma EncodeResponse_ensures cmd vin e data : ensures (EncodeResponse cmd vin e data) any.
Proof. rewrite EncodeResponse_frame. by destruct (_ =? _). Qed.

Lemma EncryptAES128_ensures data k : is_block k -> ensures (EncryptAES128 data k) any.
Proof.
  intros [Hl _]. rewrite EncryptAES128_eq; [done|]. unfold len. lia.
Qed.

Lemma calm_Send command data : calm pan p (Send p command data) any.
Proof.
  eapply calm_bind; [apply calm_conn|]. intros c (_ & Hk & _).
  destruct (decide _); [by apply calm_ret|].
  eapply (calm_bind _ _ _ _ any).
  - destruct (c_encryptKey c) as [k|]; [|by apply calm_ret].
    apply calm_if; [|by apply calm_ret].
    eapply calm_bind; [by apply calm_try, EncryptAES128_ensures, Hk|].
    intros [d|e] _; by apply calm_ret.
  - intros [[d e]|e] _; [|by apply calm_ret].
    eapply calm_bind; [apply calm_try, EncodeResponse_ensures|].
    intros [pkt|err] _; [apply calm_netWrite | by apply calm_ret].
Qed.

Lemma platLoginBody_yields t u pw : yields (platLoginBody t u pw) any.
Proof. unfold platLoginBody. by rewrite !EncodeParamString_ok. Qed.

(** What [Connection_Close] does to the world, for an open or a reopened
    connection. *)
Definition closed_conn (c : Connection) : Connection :=
  mkConnection (c_id c) ConnClosed (c_vin c) (c_iccid c) (c_createdAt c) (c_lastSeen c)
    (c_decoder c) (c_encryptKey c) true true.

Definition closed_world (c : Connection) (w : World) : World :=
  mkWorld (<[p := closed_conn c]> (w_heap w)) (delete (c_id c) (w_connections w))
    (w_connCount w - 1)
    (if decide (c_vin c = []) then w_vinRegistry w else remove (w_vinRegistry w) (c_vin c) p)
    (w_stopped w) (w_now w) (w_net w)
    (if c_netClosed c then w_trace w else EvNetClose p :: w_trace w).

Lemma Connection_Close_eq w c :
  w_heap w !! p = Some c -> conn_ok c ->
  Connection_Close p w =
    Ok (tt, if decide (c_state c = ConnClosed) then w else closed_world c w).
Proof.
  intros Hc (_ & _ & Hctx & _). unfold Connection_Close, bindM, conn. rewrite Hc. cbn.
  destruct (decide (c_state c = ConnClosed)); [done|].
  unfold on_conn, netClose, unregister, closed_world, emit, bindM, conn, put_conn, ret.
  repeat (cbn; first [rewrite Hc | rewrite lookup_insert_eq]). cbn.
  destruct c as [id st vin icc cr ls dec key ctx nc]; cbn in *. subst ctx. destruct nc;
    repeat (unfold on_conn, emit, bindM, conn, put_conn; cbn; rewrite lookup_insert_eq);
    cbn; rewrite ?insert_insert_eq; by destruct (decide (vin = [])).
Qed.
End conn_ops.

Lemma closed_conn_ok c : conn_ok c -> conn_ok (closed_conn c).
Proof. intros (? & ? & ? & ? & ? & ?). unfold conn_ok. by cbn. Qed.

Lemma closed_world_extends p c w : w_heap w !! p = Some c -> extends w (closed_world p c w).
Proof.
  intros Hc. split; [done|]. intros q d Hq. cbn. destruct (decide (p = q)) as [<-|Hne].
  - rewrite lookup_insert_eq. assert (d = c) as -> by congruence. by exists (closed_conn c).
  - rewrite lookup_insert_ne by done. by exists d.
Qed.

(** Closing keeps the invariant: an open connection leaves the index with the
    count; closing one that had been reopened only lowers the count. *)
Lemma closed_world_inv p c w : inv w -> w_heap w !! p = Some c -> inv (closed_world p c w).
Proof.
  intros (H1 & H2 & H3 & H4 & H5) Hc. unfold inv. cbn. split_and!.
  - intros q d. rewrite lookup_insert_Some. intros [[<- <-]|[_ Hd]]; [|by eapply H1].
    apply closed_conn_ok. by eapply H1.
  - intros q r d e. rewrite !lookup_insert_Some.
    intros [[<- <-]|[? Hd]] [[<- <-]|[? He]] Heq; [done | | | by eapply H2].
    + by eapply H2; [exact Hc | exact He|].
    + by eapply H2; [exact Hd | exact Hc|].
  - intros id q. rewrite lookup_delete_Some, H3. split.
    + intros [Hne (d & Hd & ? & ?)]. exists d. split; [|done].
      rewrite lookup_insert_ne; [done|]. intros <-. congruence.
    + intros (d & Hd & ? & Hn). apply lookup_insert_Some in Hd as [[<- <-]|[Hne Hd]]; [done|].
      split; [|by exists d]. intros He. apply Hne. eapply H2; [exact Hc | exact Hd | congruence].
  - pose proof (map_size_delete (c_id c) (w_connections w)) as Hs.
    rewrite Hs. destruct (w_connections w !! c_id c) eqn:E; [|unfold id; lia].
    assert (size (w_connections w) <> 0%nat); [|lia].
    rewrite map_size_ne_0_lookup. exists (c_id c). by eexists.
  - destruct (c_netClosed c); [done|by constructor].
Qed.

Section calls.
Context (pan : Prop) (p : ptr).
Abbreviation any := (fun _ => True).

Lemma calm_Close : calm pan p (Connection_Close p) any.
Proof.
  intros w Hw Hp. destruct (w_heap w !! p) as [c|] eqn:Hc.
  - pose proof (proj1 Hw p c Hc) as Hok. rewrite (Connection_Close_eq p w c) by done.
    destruct (decide _); [by split_and!|].
    split_and!; [done | by apply closed_world_inv | by apply closed_world_extends].
  - destruct Hp as [?|[c ?]]; [|congruence].
    unfold Connection_Close, bindM, conn. by rewrite Hc.
Qed.
End calls.

(** The exported methods, on whatever pointer, and programs over them. *)
Lemma calm_run_api p {A} (a : api A) : calm True p (run_api a) (fun _ => True).
Proof.
  assert (forall q {B} (m : M B) P, calm True q m P -> calm True p m P) as Hq.
  { intros q B m P Hm w Hw _. apply Hm; [done|by left]. }
  destruct a as [q cmd data|q t u pw|q t|q ids|q ps|q|q|vin|id|]; cbn [run_api];
    try (apply (Hq q); solve [apply calm_Send | apply calm_Close]);
    try (apply calm_frame; intros w; by eexists _, _).
  - apply (Hq q). eapply calm_bind; [apply calm_lift, platLoginBody_yields|].
    intros data _. apply calm_Send.
  - apply (Hq q). eapply calm_bind; [apply calm_now|]. intros t _. apply calm_Send.
  - apply (Hq q). eapply calm_bind; [apply calm_now|]. intros t _. apply calm_Send.
  - apply (Hq q). eapply calm_bind; [apply calm_conn|]. intros c _. by apply calm_ret.
Qed.

(** Every value a program may return satisfies [P]. *)
Fixpoint prog_all {A} (P : A -> Prop) (pr : prog A) : Prop :=
  match pr with
  | Ret a => P a
  | Call a k => forall b, prog_all P (k b)
  end.

Lemma calm_run_prog p {A} (P : A -> Prop) (pr : prog A) :
  prog_all P pr -> calm True p (run_prog pr) P.
Proof.
  induction pr as [a|B a k IH]; intros Hp; cbn [run_prog]; [by apply calm_ret|].
  eapply calm_bind; [apply calm_run_api|]. intros b _. apply IH, Hp.
Qed.

(** User code as Go types it (a token is a slice of bytes) that does not panic. *)
Definition well_typed (cb : callback) : answer cb -> Prop :=
  match cb with
  | OnVehicleLogin _ => fun r =>
      match r with inl (Some resp) => all_bytes (lr_Token resp) | _ => True end
  | _ => fun _ => True
  end.

Definition user_ok (cfg : Config) : Prop :=
  (forall hist p cb, prog_all (well_typed cb) (cfg_user cfg hist p cb)) /\
  (forall hist p cb w, inv w -> is_Some (w_heap w !! p) ->
     run_prog (cfg_user cfg hist p cb) w <> Panic).

(** ** Packets *)

Section packets.
Context (cfg : Config) (Huser : user_ok cfg) (p : ptr).
Abbreviation any := (fun _ => True).

Lemma calm_ask cb : calm False p (ask cfg p cb) (well_typed cb).
Proof.
  eapply calm_bind; [by apply calm_emit|]. intros _ _ w Hw Hp.
  destruct Huser as [Ht Hn]. assert (is_Some (w_heap w !! p)) as Hs by (by destruct Hp).
  pose proof (calm_run_prog p _ _ (Ht (w_trace w) p cb) w Hw (or_introl I)) as Hc.
  specialize (Hn (w_trace w) p cb w Hw Hs).
  destruct (run_prog _ w) as [[a w']| | |]; done.
Qed.

Lemma calm_asked cb : calm False p (ask cfg p cb;; ret tt) any.
Proof. eapply calm_bind; [apply calm_ask|]. intros; by apply calm_ret. Qed.

Lemma calm_Send_ignored command data : calm False p (Send p command data;; ret tt) any.
Proof. eapply calm_bind; [apply calm_Send|]. intros; by apply calm_ret. Qed.

(** A body decoder that returns, in front of its case. *)
Lemma calm_decode {A B} (m : outcome A) (k : A -> M B) (P : A -> Prop) b :
  ensures m P -> (forall a, P a -> calm False p (k a) any) ->
  calm False p (let* r := try m in match r with inr _ => ret b | inl a => k a end) any.
Proof.
  intros Hm Hk. eapply calm_bind; [by eapply calm_try|].
  intros [a|e] Ha; [by apply Hk | by apply calm_ret].
Qed.

(** The same, with what the decoder's value is. *)
Lemma calm_decoded {A B} (m : outcome A) (k : A -> M B) b :
  ensures m any -> (forall a, m = Ok a -> calm False p (k a) any) ->
  calm False p (let* r := try m in match r with inr _ => ret b | inl a => k a end) any.
Proof.
  intros Hm Hk. apply (calm_decode m k (fun a => m = Ok a)); [|exact Hk].
  by destruct m.
Qed.

Lemma calm_then {A B} (m : M A) (k : M B) :
  calm False p m any -> calm False p k any -> calm False p (m;; k) any.
Proof. intros Hm Hk. by eapply calm_bind. Qed.

Lemma ensures_any {A} (m : outcome A) P : ensures m P -> ensures m any.
Proof. by apply post_mono. Qed.

Lemma calm_on_key k :
  (forall b, k = Some b -> is_block b) -> calm False p (on_conn p (with_key k)) any.
Proof.
  intros Hk. apply calm_on_conn; try done. intros c (? & ? & ? & ? & ? & ?). unfold conn_ok. by cbn.
Qed.

Context (pkt : Packet) (Hdata : all_bytes (p_Data pkt)) (Hvin : len (p_VIN pkt) = VINLength).
Context (Hvinb : all_bytes (p_VIN pkt)).

Ltac calm_step :=
  lazymatch goal with
  | |- calm _ _ (ret _) _ => by apply calm_ret
  | |- calm _ _ (if _ then _ else _) _ => apply calm_if
  | |- calm _ _ (ask _ _ _;; ret tt) _ => apply calm_asked
  | |- calm _ _ (Send _ _ _;; ret tt) _ => apply calm_Send_ignored
  | |- calm _ _ (forward _ (newForwardMsg _ _ ?d)) _ => apply calm_forward, (decoded_typed _ Hdata _ d Hvinb); assumption
  | |- calm _ _ (bindM (try _) _) _ => eapply calm_decoded; [|intros ? ?]
  | |- calm _ _ (_;; _) _ => apply calm_then
  end.

Lemma calm_handleLogin : calm False p (handleLogin cfg p pkt) any.
Proof.
  unfold handleLogin. eapply (calm_bind _ _ _ _ any).
  { apply calm_if; [|by apply calm_ret]. eapply calm_bind; [apply calm_ask|].
    intros [[|]|e] _; [by apply calm_ret|..]; (apply calm_then; [apply calm_Close | by apply calm_ret]). }
  intros ok _. apply calm_if; [by apply calm_ret|].
  eapply calm_decoded; [eapply ensures_any, post_err; [|by apply login_ok]; done|]. intros loginData Hlogin.
  apply calm_then.
  { apply calm_on_conn; try done. intros c (? & ? & ? & ? & ? & ?). unfold conn_ok. cbn.
    split_and!; auto. }
  apply calm_then; [by apply calm_on_conn|].
  apply calm_then.
  { apply calm_on_conn; try done. intros c (? & ? & ? & ? & ? & ?). unfold conn_ok. by cbn. }
  apply calm_then; [apply calm_registry|].
  eapply (calm_bind _ _ _ _ any); [|intros go _; apply calm_if; [calm_step | by apply calm_ret]].
  apply calm_if; [|by apply calm_ret]. eapply calm_bind; [apply calm_ask|].
  intros [[resp|]|e] Ht; [|by apply calm_ret..]. cbn in Ht. cbv zeta. set (resp' := if IsZero _ then _ else _).
  assert (all_bytes (lr_Token resp')) as Ht' by (unfold resp'; by destruct (IsZero _)).
  apply calm_then; [apply calm_Send|]. apply calm_then; [|by apply calm_ret].
  apply calm_if; [|by apply calm_ret]. apply calm_on_key. intros b [= <-]. by apply DeriveAESKey_block.
Qed.

Lemma calm_handlers :
  calm False p (handleLogout cfg p pkt) any /\ calm False p (handleRealtime cfg p pkt) any /\
  calm False p (handleReissue cfg p pkt) any /\ calm False p (handleHeartbeat cfg p) any /\
  calm False p (handleTimeCalibr cfg p) any /\ calm False p (handlePlatLogin cfg p pkt) any /\
  calm False p (handlePlatLogout cfg p pkt) any /\ calm False p (handleParamQuery cfg p pkt) any /\
  calm False p (handleParamQueryResp cfg p pkt) any /\
  calm False p (handleParamSetting cfg p pkt) any.
Proof.
  split_and!.
  - unfold handleLogout. calm_step; [eapply ensures_any, decided_ensures, logout_decided, Hdata|].
    repeat calm_step. by apply calm_on_key.
  - unfold handleRealtime. calm_step; [by apply realtime_ensures|]. repeat calm_step.
  - unfold handleReissue. calm_step; [by apply reissue_ensures|]. repeat calm_step.
  - unfold handleHeartbeat. calm_step; [repeat calm_step|].
    eapply calm_bind; [apply calm_now|]. intros t _. calm_step.
  - unfold handleTimeCalibr. eapply (calm_bind _ _ _ _ any); [|intros tp _; calm_step].
    calm_step; [|eapply calm_bind; [apply calm_now|]; intros t _; calm_step].
    eapply calm_bind; [apply calm_ask|]. intros [tp|e] _; [calm_step|].
    eapply calm_bind; [apply calm_now|]; intros t _; calm_step.
  - unfold handlePlatLogin. calm_step; [calm_step|].
    calm_step; [eapply ensures_any, decided_ensures, plat_login_decided, Hdata|]. repeat calm_step.
  - unfold handlePlatLogout. calm_step; [calm_step|].
    calm_step; [eapply ensures_any, decided_ensures, plat_logout_decided, Hdata|]. repeat calm_step.
  - unfold handleParamQuery. calm_step; [calm_step|].
    calm_step; [eapply ensures_any, decided_ensures, param_query_decided, Hdata|].
    eapply calm_bind; [apply calm_ask|]. intros [[resp|]|e] _; [|calm_step..].
    calm_step; [apply calm_Send | calm_step].
  - unfold handleParamQueryResp. calm_step; [calm_step|].
    calm_step; [eapply ensures_any, decided_ensures, param_query_decided, Hdata|]. repeat calm_step.
  - unfold handleParamSetting. calm_step; [calm_step|].
    calm_step; [eapply ensures_any, decided_ensures, param_setting_decided, Hdata|]. repeat calm_step.
Qed.

Lemma calm_dispatch : calm False p (dispatch cfg p pkt) any.
Proof.
  destruct calm_handlers as (? & ? & ? & ? & ? & ? & ? & ? & ? & ?).
  unfold dispatch. repeat (apply calm_if; [first [assumption | apply calm_handleLogin]|]).
  by apply calm_ret.
Qed.
End packets.

Lemma calm_handlePacket cfg p pkt :
  user_ok cfg -> all_bytes (p_Data pkt) -> len (p_VIN pkt) = VINLength -> all_bytes (p_VIN pkt) ->
  calm False p (handlePacket cfg p pkt) (fun _ => True).
Proof.
  intros Hu Hd Hv Hvb. unfold handlePacket. eapply calm_bind; [apply calm_conn|].
  intros c (_ & Hk & _). destruct (if p_EncryptType pkt =? EncAES128 then c_encryptKey c else None)
    as [key|] eqn:E; [|by apply calm_dispatch].
  assert (is_block key) as [Hl Hb] by (apply Hk; by destruct (p_EncryptType pkt =? EncAES128)).
  eapply calm_decode; [|intros d Hdd; apply (calm_dispatch cfg Hu p (with_data pkt d)); [exact Hdd|done|done]].
  eapply post_mono; [|eapply post_err; [|apply DecryptAES128_post; [done|done|unfold len; lia]]].
  - by intros u [_ ?].
  - done.
Qed.

(** ** The read loop *)

Lemma len_unread d : decoder_wf d -> len (unread d) = d_limit d - d_pos d.
Proof. intros ([? ?] & Hl & _). unfold unread. rewrite len_drop; lia. Qed.

Section reads.
Context (cfg : Config) (Huser : user_ok cfg) (p : ptr).

(** A new decoder in a connection of a good world. *)
Lemma with_decoder_inv w c d :
  inv w -> w_heap w !! p = Some c -> decoder_wf d ->
  inv (set_heap w (<[p := with_decoder d c]> (w_heap w))).
Proof.
  intros Hw Hc Hd. apply (on_conn_inv p w c); [done..| | |]; try done.
  destruct (proj1 Hw p c Hc) as (? & ? & ? & ? & ? & ?). unfold conn_ok. by cbn.
Qed.

(** The loop handles every packet of the buffer and ends; it panics only
    where [Decode] does. *)
Lemma processPackets_loop_ok fuel : forall w c,
  inv w -> w_heap w !! p = Some c -> (length (unread (c_decoder c)) < fuel)%nat ->
  match processPackets_loop cfg fuel p w with
  | Ok (_, w') => inv w' /\ is_Some (w_heap w' !! p)
  | Panic => True
  | Err _ | OutOfFuel => False
  end.
Proof.
  induction fuel as [|fuel IH]; intros w c Hw Hc Hf; [lia|]. cbn [processPackets_loop].
  pose proof (proj1 Hw p c Hc) as (Hwf & _).
  unfold bindM at 1, conn at 1. rewrite Hc. cbn [bind]. unfold bindM at 1, lift.
  pose proof (Decode_refines _ Hwf) as Hr. unfold simulates in Hr.
  destruct (Decode (c_decoder c)) as [[pkt d]| | |]; [|done..]. destruct Hr as (Hs & Hd & _).
  cbn [bind]. unfold bindM at 1, on_conn, bindM at 1, conn at 1. rewrite Hc. cbn [bind put_conn].
  set (w1 := set_heap _ _). assert (w_heap w1 !! p = Some (with_decoder d c)) as Hc1
    by (unfold w1; cbn; by rewrite lookup_insert_eq).
  assert (inv w1) as Hw1 by (by apply with_decoder_inv).
  destruct pkt as [pkt|]; [|by split; [|eexists]].
  destruct Hwf as (_ & _ & Hb).
  destruct (scan_sound _ _ _ (Forall_drop _ _ _ Hb) Hs) as (sk & Hu & Hp).
  pose proof (len_packet_frame pkt Hp) as Hl. pose proof (len_nonneg (p_Data pkt)).
  pose proof (f_equal len Hu) as Hul. rewrite !len_app in Hul. pose proof (len_nonneg sk).
  unfold bindM at 1. destruct Hp as (Hv & _ & _ & _ & _ & Hvb & _ & Hpd).
  pose proof (calm_handlePacket cfg p pkt Huser Hpd Hv Hvb w1 Hw1 (or_intror (mk_is_Some _ _ Hc1))) as Hh.
  destruct (handlePacket cfg p pkt w1) as [[[] w2]| | |]; cbn [bind]; [|done..].
  destruct Hh as (_ & Hw2 & He). destruct (proj2 He p _ Hc1) as (c2 & Hc2 & _ & Hd2 & _).
  apply (IH w2 c2 Hw2 Hc2). rewrite Hd2. cbn. unfold len in *. unfold unread in *. lia.
Qed.

Lemma runOnce_ok r w :
  inv w -> deliverable w p r ->
  match runOnce cfg p r w with
  | Ok (_, w') => inv w' /\ is_Some (w_heap w' !! p)
  | Panic => True
  | Err _ | OutOfFuel => False
  end.
Proof.
  intros Hw (c & Hc & Hr). unfold runOnce.
  assert (forall (b : bool), match (Connection_Close p;; ret b) w with
    | Ok (_, w') => inv w' /\ is_Some (w_heap w' !! p) | Panic => True | _ => False end) as Hclose.
  { intros b. assert (calm False p (Connection_Close p;; ret b) (fun _ => True)) as Hcl.
    { eapply calm_bind; [apply calm_Close|]. intros; by apply calm_ret. }
    specialize (Hcl w Hw (or_intror (mk_is_Some _ _ Hc))).
    destruct ((Connection_Close p;; ret b) w) as [[a w']| | |]; try done.
    destruct Hcl as (_ & ? & He). split; [done|]. by eapply extends_some; [|eexists]. }
  unfold bindM at 1, conn at 1. rewrite Hc. cbn [bind].
  destruct (c_ctxDone c); [apply Hclose|]. destruct r as [b|]; [|apply Hclose].
  destruct Hr as [Hb _]. destruct (0 <? len b); [|by split; [|eexists]].
  unfold now, bindM at 1. cbn [bind]. unfold bindM at 1, on_conn at 1, bindM at 1, conn at 1.
  rewrite Hc. cbn [bind put_conn]. set (c1 := with_lastSeen _ c). set (w1 := set_heap w _).
  assert (w_heap w1 !! p = Some c1) as Hc1 by (unfold w1; cbn; by rewrite lookup_insert_eq).
  assert (inv w1) as Hw1.
  { apply (on_conn_inv p w c); [done..| | |]; try done.
    destruct (proj1 Hw p c Hc) as (? & ? & ? & ? & ? & ?). unfold conn_ok. by cbn. }
  unfold bindM at 1, conn at 1. rewrite Hc1. cbn [bind].
  pose proof (proj1 Hw1 p c1 Hc1) as (Hwf & _).
  destruct (Feed_refines (c_decoder c1) b Hwf Hb) as (d & Hf & Hd & _).
  unfold bindM at 1, lift. rewrite Hf. cbn [bind].
  unfold bindM at 1, on_conn, bindM at 1, conn at 1. rewrite Hc1. cbn [bind put_conn].
  set (w2 := set_heap w1 _). set (c2 := with_decoder d c1) in *.
  assert (w_heap w2 !! p = Some c2) as Hc2 by (unfold w2; cbn; by rewrite lookup_insert_eq).
  assert (inv w2) as Hw2 by (by apply with_decoder_inv).
  unfold bindM at 1, processPackets, bindM at 1, conn at 1. rewrite Hc2. cbn [bind].
  pose proof (processPackets_loop_ok (S (Z.to_nat (d_limit (c_decoder c2) - d_pos (c_decoder c2))))
    w2 c2 Hw2 Hc2) as Hp.
  destruct (processPackets_loop _ _ _ _) as [[[] w3]| | |]; cbn [bind ret];
    apply Hp; rewrite <- len_unread by done; unfold len; lia.
Qed.
End reads.

(** ** Steps *)

Lemma inv_initial t : inv (initial t).
Proof.
  unfold inv, initial. cbn. split_and!.
  - intros p c. by rewrite lookup_empty.
  - intros p q c d. by rewrite lookup_empty.
  - intros id p. rewrite lookup_empty. split; [done|]. intros (c & Hc & _). by rewrite lookup_empty in Hc.
  - rewrite map_size_empty. lia.
  - constructor.
Qed.

Lemma newConnection_ok cfg id t : conn_ok (newConnection cfg id t).
Proof.
  unfold conn_ok, newConnection. cbn. split; [|split_and!; try done; by left].
  unfold decoder_wf. cbn. split_and!; try done; lia || constructor.
Qed.

Lemma accept_inv cfg id p ok w w' :
  inv w -> w_heap w !! p = None -> (forall q c, w_heap w !! q = Some c -> c_id c <> id) ->
  accept cfg id p w = Ok (ok, w') -> inv w'.
Proof.
  intros Hw Hp Hid. unfold accept. destruct (cfg_maxConns cfg <=? w_connCount w); [by intros [= <- <-]|].
  intros [= <- <-]. destruct Hw as (H1 & H2 & H3 & H4 & H5). unfold inv. cbn. split_and!.
  - intros q c. rewrite lookup_insert_Some. intros [[<- <-]|[_ Hc]]; [|by eapply H1].
    apply newConnection_ok.
  - intros q r c d. rewrite !lookup_insert_Some.
    intros [[<- <-]|[? Hc]] [[<- <-]|[? Hd]] Heq; [done | | | by eapply H2]; cbn in Heq.
    + by destruct (Hid r d Hd).
    + by destruct (Hid q c Hc).
  - intros id' q. destruct (decide (id = id')) as [<-|Hne].
    + rewrite lookup_insert_eq. split.
      * intros [= <-]. eexists. by rewrite lookup_insert_eq.
      * intros (c & Hc & Hcid & _). apply lookup_insert_Some in Hc as [[<- _]|[_ Hc]]; [done|].
        by destruct (Hid q c Hc).
    + rewrite lookup_insert_ne by done. rewrite H3. split.
      * intros (c & Hc & ? & ?). exists c. rewrite lookup_insert_ne; [done|congruence].
      * intros (c & Hc & Hcid & ?). apply lookup_insert_Some in Hc as [[<- <-]|[_ Hc]]; [done|].
        by exists c.
  - rewrite map_size_insert_None; [lia|].
    destruct (w_connections w !! id) as [q|] eqn:E; [|done].
    apply H3 in E as (c & Hc & Hcid & _). by destruct (Hid q c Hc).
  - done.
Qed.

(** A call that is calm on some pointer takes good worlds to good worlds. *)
Lemma calm_inv p {A} (m : M A) P a w w' : calm True p m P -> inv w -> m w = Ok (a, w') -> inv w'.
Proof.
  intros Hm Hw Heq. specialize (Hm w Hw (or_introl I)). rewrite Heq in Hm. by destruct Hm as (_ & ? & _).
Qed.

Lemma calm_closeAll p ps : calm True p (closeAll ps) (fun _ => True).
Proof.
  induction ps as [|q ps IH]; [by apply calm_ret|]. cbn [closeAll].
  eapply calm_bind; [apply (calm_run_api p (ApiClose q))|]. by intros.
Qed.

Lemma calm_idleProbe cfg p : calm True p (idleProbe cfg p) (fun _ => True).
Proof.
  eapply calm_bind; [apply calm_conn|]. intros c _. destruct (decide _); [by apply calm_ret|].
  eapply calm_bind; [apply calm_now|]. intros t _. apply calm_if; [by apply calm_ret|].
  eapply calm_bind; [apply calm_Send|]. intros [e|] _; [|by apply calm_ret].
  eapply calm_bind; [apply calm_Close|]. intros; by apply calm_ret.
Qed.

Lemma calm_idleRecheck cfg p : calm True p (idleRecheck cfg p) (fun _ => True).
Proof.
  eapply calm_bind; [apply calm_conn|]. intros c _. eapply calm_bind; [apply calm_now|]. intros t _.
  destruct (decide _); [|by apply calm_ret]. apply calm_if; [apply calm_Close | by apply calm_ret].
Qed.

Lemma step_inv cfg w w' : user_ok cfg -> inv w -> step cfg w w' -> inv w'.
Proof.
  intros Hu Hw Hs. destruct Hs as [id p ok w w' Hp Hid Ha|p r go w w' Hd Hr|p s w w' _ Hp|p w w' _ Hp
    |w w' Hp|A a b w w' Ha|t w|n w].
  - by eapply accept_inv.
  - pose proof (runOnce_ok cfg Hu p r w Hw Hd) as H. rewrite Hr in H. apply H.
  - by eapply calm_inv; [apply calm_idleProbe| |].
  - by eapply calm_inv; [apply calm_idleRecheck| |].
  - by eapply (calm_inv 1%positive); [apply calm_closeAll| |exact Hp].
  - by eapply (calm_inv 1%positive); [apply calm_run_api| |].
  - done.
  - done.
Qed.

Lemma reachable_inv cfg w : user_ok cfg -> reachable cfg w -> inv w.
Proof. intros Hu. induction 1 as [t|w w' _ IH Hs]; [apply inv_initial | by eapply step_inv]. Qed.
