(* ===== verification/Effects.v ===== *)
(** * What every operation does ([conn.go], [server.go])

    Any relation of worlds that the primitive effects respect (a field of a
    connection, the index, the registry, the network, an event) is respected by
    every operation of a connection and of the server, user code included.  The
    relation is an instance of [Effect]; the lemmas go through the operations
    once for all of them. *)
From stdpp Require Import gmap.
From S2P Require Import Prelude.
From S2P Require Import GoTime.
From S2P Require Import Constant.
From S2P Require Import Packet.
From S2P Require Import Framing.
From S2P Require Import Registry.
From S2P Require Import World.
From S2P Require Import Connection.
From S2P Require Import Server.

(** ** The interface *)

(** Forwarded messages go to the forwarders there are. *)
Definition event_ok (cfg : Config) (e : event) : Prop :=
  match e with EvForward f _ => (f < cfg_forwarders cfg)%nat | _ => True end.

(** What an assignment to a connection leaves: its identity, and that it was
    closed.  Only the read loop of a connection sets when it was last seen:
    [effect_seen] are the connections whose reads the relation allows.  Likewise
    [effect_allows] are the events it allows: what goes to the network always, and
    what an operation that calls the user or the forwarders needs besides is a
    hypothesis of its lemma. *)
Definition same_conn (c c' : Connection) : Prop :=
  c_id c' = c_id c /\ c_createdAt c' = c_createdAt c /\
  (c_ctxDone c = true -> c_ctxDone c' = true) /\
  (c_netClosed c = true -> c_netClosed c' = true).

Class Effect (cfg : Config) (R : World -> World -> Prop) := {
  effect_seen : ptr -> Prop;
  effect_allows : event -> Prop;
  effect_preorder :: PreOrder R;
  effect_conn w p c c' :
    w_heap w !! p = Some c -> same_conn c c' -> (effect_seen p \/ c_lastSeen c' = c_lastSeen c) ->
    R w (set_heap w (<[p := c']> (w_heap w)));
  effect_index w m n : R w (set_index w m n);
  effect_registry w r : R w (set_registry w r);
  effect_net w n : R w (set_net w n);
  effect_write p pkt : effect_allows (EvWrite p pkt);
  effect_close p : effect_allows (EvNetClose p);
  effect_event w e : effect_allows e -> R w (set_trace w (e :: w_trace w))
}.

(** ** The operations *)

Definition has_effect (R : World -> World -> Prop) {A} (m : M A) : Prop :=
  forall w, match m w with Ok (_, w') => R w w' | _ => True end.

Lemma has_effect_ok R {A} (m : M A) w a w' : has_effect R m -> m w = Ok (a, w') -> R w w'.
Proof. intros Hm E. specialize (Hm w). by rewrite E in Hm. Qed.

Section effects.
Context (cfg : Config) (R : World -> World -> Prop) `{!Effect cfg R}.

Lemma effect_ret {A} (a : A) : has_effect R (ret a).
Proof. intros w. cbn. reflexivity. Qed.

Lemma effect_bind {A B} (m : M A) (k : A -> M B) :
  has_effect R m -> (forall a, has_effect R (k a)) -> has_effect R (bindM m k).
Proof.
  intros Hm Hk w. unfold bindM. specialize (Hm w). destruct (m w) as [[a w1]| | |]; cbn; try done.
  specialize (Hk a w1). destruct (k a w1) as [[b w2]| | |]; try done. by etrans.
Qed.

(** Operations that only read. *)
Lemma effect_reads {A} (m : M A) :
  (forall w a w', m w = Ok (a, w') -> w' = w) -> has_effect R m.
Proof. intros H w. destruct (m w) as [[a w']| | |] eqn:E; try done. by rewrite (H w a w'). Qed.

Lemma effect_conn_read p : has_effect R (conn p).
Proof. apply effect_reads. intros w a w'. unfold conn. destruct (w_heap w !! p); [|done]. by intros [= _ <-]. Qed.

Lemma effect_on_seen p f :
  (forall c, same_conn c (f c) /\ (effect_seen p \/ c_lastSeen (f c) = c_lastSeen c)) ->
  has_effect R (on_conn p f).
Proof.
  intros Hf w. unfold on_conn, bindM, conn, put_conn. destruct (w_heap w !! p) as [c|] eqn:Hc; [|done].
  cbn. eapply effect_conn; [exact Hc|apply Hf..].
Qed.

Lemma effect_on_conn p f :
  (forall c, same_conn c (f c)) -> (forall c, c_lastSeen (f c) = c_lastSeen c) -> has_effect R (on_conn p f).
Proof. intros H1 H2. apply effect_on_seen. auto. Qed.

Lemma effect_try {A} (m : outcome A) : has_effect R (try m).
Proof. apply effect_reads. intros w a w'. unfold try. by destruct m; intros [= _ <-]. Qed.

Lemma effect_lift {A} (m : outcome A) : has_effect R (lift m).
Proof. apply effect_reads. intros w a w'. unfold lift. destruct m; try done. by intros [= _ <-]. Qed.

Lemma effect_now : has_effect R now.
Proof. apply effect_reads. by intros w a w' [= _ <-]. Qed.

Lemma effect_emit e : effect_allows e -> has_effect R (emit e).
Proof. intros He w. by eapply effect_event. Qed.

Lemma effect_if {A} (b : bool) (m1 m2 : M A) :
  has_effect R m1 -> has_effect R m2 -> has_effect R (if b then m1 else m2).
Proof. by destruct b. Qed.

Lemma effect_decide {A} P `{Decision P} (m1 m2 : M A) :
  has_effect R m1 -> has_effect R m2 -> has_effect R (if decide P then m1 else m2).
Proof. by destruct (decide P). Qed.

Lemma effect_events l : Forall effect_allows l -> forall w, R w (set_trace w (l ++ w_trace w)).
Proof.
  induction 1 as [|e l He _ IH]; intros w.
  - rewrite app_nil_l. destruct w. cbn. reflexivity.
  - etrans; [apply (IH w)|]. by apply (effect_event (set_trace w (l ++ w_trace w)) e).
Qed.

Lemma effect_set_index f g : has_effect R (fun w => Ok (tt, set_index w (f w) (g w))).
Proof. intros w. apply effect_index. Qed.

Lemma effect_set_registry f : has_effect R (fun w => Ok (tt, set_registry w (f w))).
Proof. intros w. apply effect_registry. Qed.

Ltac effect_step :=
  first
    [ apply effect_ret | apply effect_conn_read | apply effect_try | apply effect_now
    | apply effect_on_conn; by intros ?
    | apply effect_on_seen; split; [by intros|by left]
    | apply effect_lift
    | apply effect_set_index | apply effect_set_registry
    | apply effect_emit; apply effect_close
    | apply effect_if | apply effect_decide
    | apply effect_bind
    | progress cbv zeta
    | match goal with |- forall r : _ + _, _ => intros [?|?] end
    | match goal with |- forall r : option _, _ => intros [?|] end
    | match goal with |- forall r : _ * _, _ => intros [? ?] end
    | match goal with |- forall r : _, _ => intros ? end
    | match goal with |- has_effect _ (match ?r with _ => _ end) => destruct r end ].

Lemma effect_netWrite p pkt : has_effect R (netWrite p pkt).
Proof.
  unfold netWrite. repeat effect_step. intros w. destruct (w_net w) as [|[err|] rest]; cbn.
  - by apply effect_event, effect_write.
  - apply effect_net.
  - etrans; [apply (effect_net w rest)|]. by apply (effect_event (set_net w rest)), effect_write.
Qed.

Lemma effect_Send p command data : has_effect R (Send p command data).
Proof. unfold Send. repeat first [apply effect_netWrite | effect_step]. Qed.

Lemma effect_Close p : has_effect R (Connection_Close p).
Proof. unfold Connection_Close, netClose, unregister. repeat effect_step. Qed.

Lemma effect_run_api {A} (a : api A) : has_effect R (run_api a).
Proof.
  destruct a; cbn [run_api]; unfold SendPlatLogin, SendPlatLogout, SendParamQuery, SendParamSetting;
    repeat first [apply effect_Send | apply effect_Close | effect_step];
    apply effect_reads; by intros w b w' [= _ <-].
Qed.

Lemma effect_run_prog {A} (pr : prog A) : has_effect R (run_prog pr).
Proof.
  induction pr as [a|B a k IH]; cbn [run_prog]; [apply effect_ret|].
  apply effect_bind; [|exact IH]. apply effect_run_api.
Qed.

Lemma effect_ask p cb : effect_allows (EvCallback p cb) -> has_effect R (ask cfg p cb).
Proof. intros He. apply effect_bind; [by apply effect_emit|]. intros _ w. apply effect_run_prog. Qed.

Lemma effect_handlePacket p pkt :
  (forall data, has_effect R (dispatch cfg p (with_data pkt data))) -> has_effect R (handlePacket cfg p pkt).
Proof.
  intros Hd. unfold handlePacket. apply effect_bind; [apply effect_conn_read|]. intros c.
  destruct (if _ =? _ then _ else _).
  - apply effect_bind; [apply effect_try|]. intros [data|?]; [apply Hd|apply effect_ret].
  - pose proof (Hd (p_Data pkt)) as H. by destruct pkt.
Qed.

Lemma effect_idleProbe p : has_effect R (idleProbe cfg p).
Proof. unfold idleProbe. repeat first [apply effect_Send | apply effect_Close | effect_step]. Qed.

Lemma effect_idleRecheck p : has_effect R (idleRecheck cfg p).
Proof. unfold idleRecheck. repeat first [apply effect_Close | effect_step]. Qed.
Lemma effect_closeAll ps : has_effect R (closeAll ps).
Proof.
  induction ps as [|q ps IH]; [apply effect_ret|].
  apply effect_bind; [apply effect_Close|done].
Qed.

(** The read loop, over what handling a packet does. *)
Section loop.
Context (p : ptr) (Hhandle : forall pkt, has_effect R (handlePacket cfg p pkt)).

Lemma effect_processPackets_loop fuel : has_effect R (processPackets_loop cfg fuel p).
Proof.
  induction fuel as [|fuel IH]; cbn [processPackets_loop]; [done|].
  repeat first [apply Hhandle | exact IH | effect_step].
Qed.

Lemma effect_runOnce r : effect_seen p -> has_effect R (runOnce cfg p r).
Proof.
  intros Hseen. unfold runOnce, processPackets.
  repeat first [apply effect_processPackets_loop | apply effect_Close | effect_step].
Qed.
End loop.

(** The packets that are not reported to the forwarders, over the calls they make. *)
Section quiet.
Context (p : ptr).
Context (Hquiet : forall cb, match cb with
  | OnVehicleLogin _ | OnVehicleLogout _ | OnRealtimeData _ | OnReissueData _ => True
  | _ => effect_allows (EvCallback p cb) end).

Lemma effect_quiet pkt :
  p_Command pkt ∉ [CmdLogin; CmdLogout; CmdRealtime; CmdReissue] -> has_effect R (dispatch cfg p pkt).
Proof.
  intros Hn. unfold dispatch.
  repeat match goal with |- has_effect _ (if p_Command pkt =? ?k then _ else _) =>
    destruct (Z.eqb_spec (p_Command pkt) k) as [Hk|_]; [try (destruct Hn; rewrite Hk; set_solver)|] end;
    unfold handleHeartbeat, handleTimeCalibr, handlePlatLogin, handlePlatLogout, handleParamQuery,
      handleParamQueryResp, handleParamSetting, sendParamQueryResponse;
    repeat first [apply effect_ask; match goal with |- effect_allows (EvCallback _ ?cb) => exact (Hquiet cb) end
      | apply effect_Send | apply effect_Close | effect_step].
Qed.
End quiet.

(** Every operation, where calls and forwarded messages are allowed. *)
Section all.
Context (Hall : forall e, event_ok cfg e -> effect_allows e).

Lemma effect_forward msg : has_effect R (forward cfg msg).
Proof.
  intros w. unfold forward. apply effect_events, Forall_rev, Forall_fmap, Forall_forall.
  intros k [_ Hk]%elem_of_seq. by apply Hall.
Qed.

Lemma effect_dispatch p pkt : has_effect R (dispatch cfg p pkt).
Proof.
  unfold dispatch, handleLogin, handleLogout, handleRealtime, handleReissue, handleHeartbeat,
    handleTimeCalibr, handlePlatLogin, handlePlatLogout, handleParamQuery, handleParamQueryResp,
    handleParamSetting, sendLoginResponse, sendParamQueryResponse.
  repeat first [apply effect_ask; by apply Hall | apply effect_forward | apply effect_Send
    | apply effect_Close | effect_step].
Qed.

Lemma effect_read_loop fuel p : has_effect R (processPackets_loop cfg fuel p).
Proof. apply effect_processPackets_loop. intros pkt. apply effect_handlePacket. intros data. apply effect_dispatch. Qed.

Lemma effect_one_read p r : effect_seen p -> has_effect R (runOnce cfg p r).
Proof. apply effect_runOnce. intros pkt. apply effect_handlePacket. intros data. apply effect_dispatch. Qed.
End all.
End effects.
