(* ===== verification/Sessions.v ===== *)
(** * Sessions: what a connection's user relies on

    The theorems about connections and the server: the invariant of every
    reachable state, sending and closing on every branch, login, the encrypted
    session it opens, and the two ways the index of connections goes wrong. *)
From stdpp Require Import gmap.
From S2P Require Import Prelude.
From S2P Require Import GoTime.
From S2P Require Import Constant.
From S2P Require Import Packet.
From S2P Require Import Framing.
From S2P Require Import FramingSpec.
From S2P Require Import Stream.
From S2P Require Import Payload.
From S2P Require Import Realtime.
From S2P Require Import Aes.
From S2P Require Import Crypto.
From S2P Require Import Registry.
From S2P Require Import World.
From S2P Require Import Connection.
From S2P Require Import Server.

(** ** A sample server

    It has a handler that answers a login with the token [5; 5] and an
    authenticator that refuses one VIN. *)
Definition vinA : gostring := replicate 17 65.
Definition vinB : gostring := replicate 17 66.
Definition refused_vin : gostring := replicate 17 82.

Definition sample_user (hist : list event) (p : ptr) (cb : callback) : prog (answer cb) :=
  match cb with
  | OnVehicleLogin _ => Ret (inl (Some (mkLoginResponse zeroTime 1 LoginSuccess [5; 5])))
  | OnTimeCalibration => Ret (inr ErrClosed)
  | OnParamQuery _ => Ret (inl None)
  | OnAuthenticate vin => Ret (inl (bool_decide (vin <> refused_vin)))
  | _ => Ret (inl tt)
  end.

Definition sample_config : Config :=
  mkConfig true true false false false 1 TimeCodecBCD false 100 600000000000 sample_user.

Definition sample_start : World := initial (Date 2024 1 1 0 0 0 0).

(** The server behind its first accept. *)
Definition sample_world : World :=
  match accept sample_config [105; 100] 1%positive sample_start with
  | Ok (_, w) => w
  | _ => sample_start
  end.

Definition login_packet (vin : gostring) : Packet :=
  mkPacket CmdLogin ReqRequest vin EncNone
    (enc_login (Date 2024 1 1 0 0 0 0) 1 [49; 50] []) 12.

Lemma sample_user_ok : user_ok sample_config.
Proof.
  split.
  - intros hist p cb. destruct cb; cbn; try done. check_bytes.
  - intros hist p cb w _ _. by destruct cb.
Qed.

Lemma sample_reachable : reachable sample_config sample_world.
Proof.
  apply reach_step with (w := sample_start); [apply reach_start|].
  apply (step_accept _ [105; 100] 1%positive true); [reflexivity| |reflexivity].
  intros q c. change (w_heap sample_start) with (∅ : gmap positive Connection).
  by rewrite lookup_empty.
Qed.

(** ** Lemmas *)

Section send.
Context (p : ptr) (w : World) (c : Connection) (Hc : w_heap w !! p = Some c).

(** The body and the encryption type a message leaves with. *)
Definition sealed (data : bytes) : outcome (bytes * byte) :=
  match c_encryptKey c with
  | Some key =>
      if 0 <? len data then let! d := EncryptAES128 data key in Ok (d, EncAES128)
      else Ok (data, EncNone)
  | None => Ok (data, EncNone)
  end.

Lemma sealed_ok data : conn_ok c -> exists body e, sealed data = Ok (body, e) /\ e <> 0.
Proof.
  intros (_ & Hk & _). unfold sealed. destruct (c_encryptKey c) as [k|]; [|by exists data, EncNone].
  destruct (0 <? len data); [|by exists data, EncNone].
  destruct (Hk k eq_refl) as [Hl _]. rewrite EncryptAES128_eq by (unfold len; lia).
  by eexists _, EncAES128.
Qed.

(** [Send], unfolded: its guards in order, then one write. *)
Lemma Send_eq command data body e :
  conn_ok c -> sealed data = Ok (body, e) -> e <> 0 ->
  Send p command data w =
    if decide (c_state c = ConnClosed) then Ok (Some ErrClosed, w)
    else if len (c_vin c) =? VINLength then
      netWrite p (frame command RespSuccess (c_vin c) e body) w
    else Ok (Some ErrInvalidVIN, w).
Proof.
  intros Hok Hs He. unfold Send, bindM at 1, conn. rewrite Hc. cbn [bind].
  destruct (decide _); [done|]. unfold bindM at 1.
  assert ((match c_encryptKey c with
           | Some key => if 0 <? len data then
               let* r := try (EncryptAES128 data key) in
               match r with inl data => ret (inl (data, EncAES128)) | inr err => ret (inr err) end
             else ret (inl (data, EncNone))
           | None => ret (inl (data, EncNone)) end : M ((bytes * byte) + goerr)) w
          = Ok (inl (body, e), w)) as ->.
  { unfold sealed in Hs. destruct (c_encryptKey c) as [k|]; [|by injection Hs as -> ->].
    destruct (0 <? len data); [|by injection Hs as -> ->].
    destruct (EncryptAES128 data k); [|done..]. by injection Hs as -> ->. }
  cbn [bind]. unfold bindM at 1, try. rewrite EncodeResponse_frame.
  destruct (Z.eqb_spec e 0); [done|]. by destruct (len (c_vin c) =? VINLength).
Qed.

Lemma netWrite_eq pkt :
  netWrite p pkt w =
    if c_netClosed c then Ok (Some ErrClosed, w)
    else match w_net w with
         | Some err :: rest => Ok (Some err, set_net w rest)
         | None :: rest => Ok (None, set_trace (set_net w rest) (EvWrite p pkt :: w_trace w))
         | [] => Ok (None, set_trace w (EvWrite p pkt :: w_trace w))
         end.
Proof.
  unfold netWrite, bindM, conn. rewrite Hc. cbn. destruct (c_netClosed c); [done|].
  by destruct (w_net w) as [|[]].
Qed.
End send.

(** ** Properties *)

(** C5: In every state a server can reach, by accepts, reads of any bytes in any
    pieces, idle checks, a stop and calls by user code, in any order: the index
    holds exactly the open connections, each under its identifier; a connection
    in state closed has its context cancelled and its network connection closed;
    its decoder and its session key are well-formed; [ConnCount] never
    exceeds the number of open connections; and every forwarded message is that of its
    kind, its fields within their Go types. *)
Theorem server_invariant cfg w (Hu : user_ok cfg) (Hr : reachable cfg w) : inv w.
Proof. by eapply reachable_inv. Qed.

Lemma server_invariant_witness : reachable sample_config sample_world /\ inv sample_world.
Proof.
  split; [exact sample_reachable|].
  exact (server_invariant sample_config sample_world sample_user_ok sample_reachable).
Defined.

(** A read is handled to its end: in a good state, whatever bytes arrive,
    the packet loop terminates and leaves a good state; it can only panic. *)
Theorem read_terminates cfg p r w
    (Hu : user_ok cfg) (Hw : inv w) (Hd : deliverable w p r) :
  match runOnce cfg p r w with
  | Ok (_, w') => inv w' /\ is_Some (w_heap w' !! p)
  | Panic => True
  | Err _ | OutOfFuel => False
  end.
Proof. by apply runOnce_ok. Qed.

Lemma read_terminates_witness :
  exists w', runOnce sample_config 1%positive (ReadBytes (packet_frame (login_packet vinA))) sample_world
    = Ok (true, w') /\ inv w'.
Proof.
  pose proof (read_terminates sample_config 1%positive (ReadBytes (packet_frame (login_packet vinA)))
    sample_world sample_user_ok) as H.
  destruct (runOnce _ _ _ _) as [[b w']| | |] eqn:E; [|vm_compute in E; discriminate..].
  exists w'. split.
  - assert (b = true) as -> by (vm_compute in E; congruence). reflexivity.
  - apply H.
    + apply reachable_inv with (cfg := sample_config); [exact sample_user_ok | exact sample_reachable].
    + eexists. split; [vm_compute; reflexivity|]. split; [check_bytes|reflexivity].
Defined.

(** C15: [Send] on every branch.  On a closed connection it returns
    [net.ErrClosed]; before a login, when the VIN is empty, [ErrInvalidVIN],
    and either way nothing is written.  Otherwise exactly one frame goes to the
    network, with the connection's VIN and, if there is a session key and a body,
    the body encrypted; the network's answer is returned. *)
Theorem send_spec p w c command data
    (Hc : w_heap w !! p = Some c) (Hok : conn_ok c) :
  exists body e, sealed c data = Ok (body, e) /\
    Send p command data w =
      if decide (c_state c = ConnClosed) then Ok (Some ErrClosed, w)
      else if decide (c_vin c = []) then Ok (Some ErrInvalidVIN, w)
      else if c_netClosed c then Ok (Some ErrClosed, w)
      else let pkt := frame command RespSuccess (c_vin c) e body in
           match w_net w with
           | Some err :: rest => Ok (Some err, set_net w rest)
           | None :: rest => Ok (None, set_trace (set_net w rest) (EvWrite p pkt :: w_trace w))
           | [] => Ok (None, set_trace w (EvWrite p pkt :: w_trace w))
           end.
Proof.
  destruct (sealed_ok c data Hok) as (body & e & Hs & He). exists body, e. split; [done|].
  rewrite (Send_eq p w c Hc command data body e) by done. destruct (decide _); [done|].
  destruct Hok as (_ & _ & _ & _ & _ & [Hv|Hv]).
  - rewrite Hv. by destruct (decide _).
  - destruct (decide (c_vin c = [])) as [Hn|]; [by rewrite Hn in Hv|].
    rewrite Hv. cbn [Z.eqb]. by rewrite (netWrite_eq p w c Hc).
Qed.

Lemma send_spec_witness :
  Send 1%positive CmdHeartbeat [1] sample_world = Ok (Some ErrInvalidVIN, sample_world).
Proof.
  set (c := newConnection sample_config [105; 100] (Date 2024 1 1 0 0 0 0)).
  pose proof (newConnection_ok _ _ _ : conn_ok c) as Hok.
  destruct (send_spec 1%positive sample_world c CmdHeartbeat [1] eq_refl Hok) as (b & e & _ & H).
  exact H.
Defined.

(** C16: [Close] on every branch.  On a connection in state closed it does
    nothing.  Otherwise the connection is closed as a whole, leaves the index
    and, under its VIN, the registry (once), the count goes down by one, and a
    second [Close] does nothing. *)
Theorem close_spec p w c (Hw : inv w) (Hc : w_heap w !! p = Some c) :
  (c_state c = ConnClosed -> Connection_Close p w = Ok (tt, w)) /\
  (c_state c <> ConnClosed -> exists w',
     Connection_Close p w = Ok (tt, w') /\ Connection_Close p w' = Ok (tt, w') /\
     w_heap w' = <[p := closed_conn c]> (w_heap w) /\
     w_connections w' = delete (c_id c) (w_connections w) /\
     w_connCount w' = w_connCount w - 1 /\
     (forall vin, entry (w_vinRegistry w') vin =
        if decide (vin = c_vin c /\ vin <> []) then without (entry (w_vinRegistry w) vin) p
        else entry (w_vinRegistry w) vin)).
Proof.
  pose proof (proj1 Hw p c Hc) as Hok. rewrite (Connection_Close_eq p w c) by done.
  split; intros Hs; destruct (decide (c_state c = ConnClosed)); try done.
  exists (closed_world p c w). split_and!; try done.
  - rewrite (Connection_Close_eq p _ (closed_conn c)); [done| |by apply closed_conn_ok].
    cbn. by rewrite lookup_insert_eq.
  - intros vin. cbn. destruct (decide (c_vin c = [])) as [He|He].
    + by destruct (decide (vin = c_vin c /\ vin <> [])) as [[-> ?]|].
    + rewrite entry_remove. destruct (decide (c_vin c = vin)) as [<-|].
      * by rewrite decide_True.
      * rewrite decide_False; [done|]. by intros [-> _].
Qed.

Lemma close_spec_witness :
  exists w', Connection_Close 1%positive sample_world = Ok (tt, w') /\
    Connection_Close 1%positive w' = Ok (tt, w') /\ w_connCount w' = 0.
Proof.
  set (c := newConnection sample_config [105; 100] (Date 2024 1 1 0 0 0 0)).
  pose proof (reachable_inv sample_config sample_world sample_user_ok sample_reachable) as Hw.
  destruct (proj2 (close_spec 1%positive sample_world c Hw eq_refl) ltac:(discriminate))
    as (w' & H1 & H2 & _ & _ & H3 & _).
  exists w'. split; [exact H1|]. split; [exact H2|]. rewrite H3. reflexivity.
Defined.

(** ** Login *)

(** A method that comes back with [a] and changes nothing of the server; it may look at
    its connection, whatever has happened before. *)
Definition answers (cfg : Config) (cb : callback) (a : answer cb) : Prop :=
  forall hist p w, is_Some (w_heap w !! p) -> run_prog (cfg_user cfg hist p cb) w = Ok (a, w).

Lemma ask_answers cfg p cb a w :
  answers cfg cb a -> is_Some (w_heap w !! p) ->
  ask cfg p cb w = Ok (a, set_trace w (EvCallback p cb :: w_trace w)).
Proof. intros Ha Hp. unfold ask, bindM, emit. cbn [bind]. by apply Ha. Qed.

Lemma on_conn_eq p f w c :
  w_heap w !! p = Some c -> on_conn p f w = Ok (tt, set_heap w (<[p := f c]> (w_heap w))).
Proof. intros Hc. unfold on_conn, bindM, conn. by rewrite Hc. Qed.

Lemma bindM_ok {A B} (m : M A) (k : A -> M B) w a w' :
  m w = Ok (a, w') -> bindM m k w = k a w'.
Proof. intros H. unfold bindM. by rewrite H. Qed.

(** Without a session key every packet is dispatched as it is. *)
Lemma handlePacket_plain cfg p pkt w c :
  w_heap w !! p = Some c -> c_encryptKey c = None ->
  handlePacket cfg p pkt w = dispatch cfg p pkt w.
Proof.
  intros Hc Hk. unfold handlePacket. rewrite (bindM_ok _ _ _ c w) by (unfold conn; by rewrite Hc).
  rewrite Hk. by destruct (_ =? _).
Qed.

Section login.
Context (cfg : Config) (p : ptr) (pkt : Packet) (w : World) (c : Connection).
Context (Hc : w_heap w !! p = Some c) (Hok : conn_ok c).

(** The connection behind a login, and the response that is sent. *)
Definition logged_in (d : VehicleLoginData) (resp : LoginResponse) : Connection :=
  mkConnection (c_id c) ConnLoggedIn (p_VIN pkt) (vl_ICCID d) (c_createdAt c) (c_lastSeen c)
    (c_decoder c)
    (if 0 <? len (lr_Token resp) then Some (DeriveAESKey (lr_Token resp)) else c_encryptKey c)
    (c_ctxDone c) (c_netClosed c).

Definition stamped (d : VehicleLoginData) (resp : LoginResponse) : LoginResponse :=
  if IsZero (lr_LoginTime resp)
  then mkLoginResponse (vl_LoginTime d) (lr_Sequence resp) (lr_Result resp) (lr_Token resp)
  else resp.

Lemma stamped_token d resp : lr_Token (stamped d resp) = lr_Token resp.
Proof. unfold stamped. by destruct (IsZero _). Qed.

Definition auth_events : list event :=
  if cfg_auth cfg then [EvCallback p (OnAuthenticate (p_VIN pkt))] else [].
Definition forward_events (msg : ForwardMsg) : list event :=
  rev ((fun k => EvForward k msg) <$> seq 0 (cfg_forwarders cfg)).

Lemma handleLogin_accepted d resp :
  c_netClosed c = false -> c_encryptKey c = None -> w_net w = [] ->
  len (p_VIN pkt) = VINLength ->
  (cfg_auth cfg = true -> answers cfg (OnAuthenticate (p_VIN pkt)) (inl true)) ->
  cfg_handler cfg = true -> DecodeLoginData (p_Data pkt) = Ok d ->
  answers cfg (OnVehicleLogin d) (inl (Some resp)) ->
  handleLogin cfg p pkt w =
    Ok (tt, mkWorld (<[p := logged_in d resp]> (w_heap w)) (w_connections w) (w_connCount w)
              (add (w_vinRegistry w) (p_VIN pkt) p) (w_stopped w) (w_now w) (w_net w)
              (forward_events (newForwardMsg "login" (p_VIN pkt) (FwdLogin d)) ++
               EvWrite p (frame CmdLogin RespSuccess (p_VIN pkt) EncNone
                            (EncodeLoginResponse (stamped d resp))) ::
               EvCallback p (OnVehicleLogin d) :: auth_events ++ w_trace w)).
Proof.
  intros Hopen Hkey Hnet Hv Hauth Hh Hd Hl. unfold handleLogin.
  set (w1 := set_trace w (auth_events ++ w_trace w)).
  rewrite (bindM_ok _ _ _ true w1).
  2:{ unfold w1, auth_events. destruct (cfg_auth cfg); [|by destruct w].
      by rewrite (bindM_ok _ _ _ _ _ (ask_answers _ _ _ _ _ (Hauth eq_refl) (mk_is_Some _ _ Hc))). }
  assert (w_heap w1 !! p = Some c) as Hc1 by done. cbn [negb].
  rewrite (bindM_ok _ _ _ (inl d) w1) by (unfold try; by rewrite Hd).
  rewrite (bindM_ok _ _ _ _ _ (on_conn_eq _ _ _ _ Hc1)).
  erewrite (bindM_ok (on_conn p _)) by (apply on_conn_eq; cbn; apply lookup_insert_eq).
  erewrite (bindM_ok (on_conn p _)) by (apply on_conn_eq; cbn; apply lookup_insert_eq).
  erewrite bindM_ok by reflexivity. rewrite Hh.
  cbn [w_heap set_heap set_registry w_vinRegistry]. rewrite !insert_insert_eq.
  set (c2 := with_state ConnLoggedIn _).
  set (w2 := mkWorld (<[p := c2]> (w_heap w)) (w_connections w) (w_connCount w)
               (add (w_vinRegistry w) (p_VIN pkt) p) (w_stopped w) (w_now w) (w_net w)
               (auth_events ++ w_trace w)).
  change (set_registry _ _) with w2.
  set (w3 := set_trace w2 (EvCallback p (OnVehicleLogin d) :: w_trace w2)).
  set (w4 := set_trace w3 (EvWrite p (frame CmdLogin RespSuccess (p_VIN pkt) EncNone
               (EncodeLoginResponse (stamped d resp))) :: w_trace w3)).
  assert (w_heap w3 !! p = Some c2) as Hc3 by apply lookup_insert_eq.
  assert (sendLoginResponse p (stamped d resp) w3 = Ok (None, w4)) as Hsend.
  { unfold sendLoginResponse.
    rewrite (Send_eq p w3 c2 Hc3 _ _ (EncodeLoginResponse (stamped d resp)) EncNone); [|
      |unfold sealed; cbn; by rewrite Hkey|done].
    - cbn [c_state c2 with_state]. destruct (decide _); [done|]. cbn [c_vin with_state with_iccid with_vin c2].
      rewrite Hv. cbn [Z.eqb]. rewrite (netWrite_eq p w3 c2 Hc3). cbn. by rewrite Hopen, Hnet.
    - destruct Hok as (? & ? & ? & ? & ? & ?). unfold conn_ok. cbn. split_and!; auto; discriminate. }
  erewrite (bindM_ok (bindM (ask _ _ _) _)).
  2:{ rewrite (bindM_ok _ _ _ _ _ (ask_answers _ _ _ _ _ Hl (mk_is_Some _ _ (lookup_insert_eq _ _ _)))). fold w3 (stamped d resp).
      rewrite (bindM_ok _ _ _ _ _ Hsend), stamped_token. unfold ret at 2.
      rewrite (bindM_ok _ _ _ tt (set_heap w4 (<[p := logged_in d resp]> (w_heap w)))); [reflexivity|].
      unfold logged_in. destruct (0 <? len (lr_Token resp)).
      - rewrite (on_conn_eq _ _ _ c2) by done. cbn. by rewrite insert_insert_eq.
      - done. }
  reflexivity.
Qed.

(** A refused login: the connection is closed and nothing else happens. *)
Lemma handleLogin_refused r :
  cfg_auth cfg = true -> answers cfg (OnAuthenticate (p_VIN pkt)) r -> r <> inl true ->
  let w1 := set_trace w (EvCallback p (OnAuthenticate (p_VIN pkt)) :: w_trace w) in
  handleLogin cfg p pkt w =
    Ok (tt, if decide (c_state c = ConnClosed) then w1 else closed_world p c w1).
Proof.
  intros Ha Hr Hn w1. unfold handleLogin. rewrite Ha.
  assert (w_heap w1 !! p = Some c) as Hc1 by done.
  rewrite (bindM_ok _ _ _ false (if decide (c_state c = ConnClosed) then w1 else closed_world p c w1));
    [done|].
  rewrite (bindM_ok _ _ _ _ _ (ask_answers _ _ _ _ _ Hr (mk_is_Some _ _ Hc))). fold w1.
  assert ((Connection_Close p;; ret false) w1 =
    Ok (false, if decide (c_state c = ConnClosed) then w1 else closed_world p c w1)) as Hcl
    by (by rewrite (bindM_ok _ _ _ _ _ (Connection_Close_eq p w1 c Hc1 Hok))).
  by destruct r as [[]|].
Qed.
End login.

Lemma dispatch_login cfg p pkt :
  p_Command pkt = CmdLogin -> dispatch cfg p pkt = handleLogin cfg p pkt.
Proof. intros H. unfold dispatch. by rewrite H. Qed.

(** C12: An accepted login, in full: on an open connection without a session, a
    login packet whose VIN is authenticated and whose body decodes makes the
    connection logged in under that VIN and ICCID, adds it to the registry, asks
    the handler once, writes one unencrypted response frame with the handler's
    answer (its time filled in from the request if zero), takes the session key
    from the token, and hands the login to every forwarder; nothing else
    changes. *)
Theorem login_accepted cfg p pkt w c d resp
    (Hc : w_heap w !! p = Some c) (Hok : conn_ok c)
    (Hopen : c_netClosed c = false) (Hkey : c_encryptKey c = None) (Hnet : w_net w = [])
    (Hcmd : p_Command pkt = CmdLogin) (Hv : len (p_VIN pkt) = VINLength)
    (Hauth : cfg_auth cfg = true -> answers cfg (OnAuthenticate (p_VIN pkt)) (inl true))
    (Hh : cfg_handler cfg = true) (Hd : DecodeLoginData (p_Data pkt) = Ok d)
    (Hl : answers cfg (OnVehicleLogin d) (inl (Some resp))) :
  handlePacket cfg p pkt w =
    Ok (tt, mkWorld (<[p := logged_in pkt c d resp]> (w_heap w)) (w_connections w) (w_connCount w)
              (add (w_vinRegistry w) (p_VIN pkt) p) (w_stopped w) (w_now w) (w_net w)
              (forward_events cfg (newForwardMsg "login" (p_VIN pkt) (FwdLogin d)) ++
               EvWrite p (frame CmdLogin RespSuccess (p_VIN pkt) EncNone
                            (EncodeLoginResponse (stamped d resp))) ::
               EvCallback p (OnVehicleLogin d) :: auth_events cfg p pkt ++ w_trace w)).
Proof.
  rewrite (handlePacket_plain _ _ _ _ c), dispatch_login by done. by apply handleLogin_accepted.
Qed.

Lemma login_accepted_witness :
  exists w, handlePacket sample_config 1%positive (login_packet vinA) sample_world = Ok (tt, w) /\
    get (w_vinRegistry w) vinA = Some 1%positive.
Proof.
  set (c := newConnection sample_config [105; 100] (Date 2024 1 1 0 0 0 0)).
  eexists. split.
  - apply (login_accepted sample_config 1%positive (login_packet vinA) sample_world c
      (mkVehicleLoginData (Date 2024 1 1 0 0 0 0) 1 [49; 50] 0 [])
      (mkLoginResponse zeroTime 1 LoginSuccess [5; 5])); try reflexivity.
    + apply newConnection_ok.
    + intros _ hist p w _. reflexivity.
    + intros hist p w _. reflexivity.
  - vm_compute. reflexivity.
Defined.

(** C35: A login that is not authenticated, by a refusal or an error, closes the
    connection; the login handler is not asked, nothing is written, registered or
    forwarded. *)
Theorem login_refused cfg p pkt w c r
    (Hc : w_heap w !! p = Some c) (Hok : conn_ok c) (Hkey : c_encryptKey c = None)
    (Hcmd : p_Command pkt = CmdLogin) (Ha : cfg_auth cfg = true)
    (Hr : answers cfg (OnAuthenticate (p_VIN pkt)) r) (Hn : r <> inl true) :
  let w1 := set_trace w (EvCallback p (OnAuthenticate (p_VIN pkt)) :: w_trace w) in
  handlePacket cfg p pkt w =
    Ok (tt, if decide (c_state c = ConnClosed) then w1 else closed_world p c w1).
Proof.
  rewrite (handlePacket_plain _ _ _ _ c), dispatch_login by done. by eapply handleLogin_refused.
Qed.

Lemma login_refused_witness :
  exists w, handlePacket sample_config 1%positive (login_packet refused_vin) sample_world = Ok (tt, w) /\
    w_connCount w = 0 /\ w_connections w = ∅.
Proof.
  set (c := newConnection sample_config [105; 100] (Date 2024 1 1 0 0 0 0)).
  eexists. split.
  - apply (login_refused sample_config 1%positive (login_packet refused_vin) sample_world c (inl false));
      try reflexivity.
    + apply newConnection_ok.
    + intros hist p w _. reflexivity.
    + discriminate.
  - split; vm_compute; reflexivity.
Defined.

(** C13: The session is confidential and faithful end to end: what [Send] writes
    on a logged-in connection with a session key is one frame that any decoder with
    nothing left unread takes as an AES-128 packet of that command and VIN, with
    nothing left behind, whose body is not the data but decrypts to it under the key. *)
Theorem encrypted_session p w c key command data
    (Hc : w_heap w !! p = Some c) (Hok : conn_ok c)
    (Hs : c_state c <> ConnClosed) (Hopen : c_netClosed c = false) (Hnet : w_net w = [])
    (Hv : len (c_vin c) = VINLength) (Hvb : all_bytes (c_vin c))
    (Hk : c_encryptKey c = Some key) (Hcmd : is_byte command)
    (Hd : all_bytes data) (Hl : 0 < len data < 65520) :
  exists pkt body,
    Send p command data w = Ok (None, set_trace w (EvWrite p pkt :: w_trace w)) /\
    (forall d, decoder_wf d -> unread d = [] ->
     exists d1 d2, Feed d pkt = Ok d1 /\
       Decode d1 = Ok (Some (mkPacket command RespSuccess (c_vin c) EncAES128 body (len body)), d2) /\
       unread d2 = []) /\
    body <> data /\ len data < len body /\ DecryptAES128 body key = Ok data.
Proof.
  pose proof Hok as (_ & Hkey & _). destruct (Hkey key Hk) as [Hkl Hkb].
  destruct (encrypt_decrypt data key) as (body & He & Hbl & Hbb & Hdec); [done|done|unfold len; lia|].
  set (P := mkPacket command RespSuccess (c_vin c) EncAES128 body (len body)).
  assert (packet_wf P) as HP.
  { unfold packet_wf, P, RespSuccess, EncAES128, is_byte, is_uint16 in *. cbn.
    split_and!; try done; try lia; rewrite Hbl; zdm; lia. }
  assert (len data < len body) as Hlt by (rewrite Hbl; zdm; lia).
  exists (packet_frame P), body. split; [|split; [|split; [intros ->; lia|done]]].
  - rewrite (Send_eq p w c Hc command data body EncAES128); [|done| |done].
    + destruct (decide _); [done|]. rewrite Hv. cbn [Z.eqb]. rewrite (netWrite_eq p w c Hc).
      by rewrite Hopen, Hnet.
    + unfold sealed. rewrite Hk. destruct (Z.ltb_spec 0 (len data)); [|lia]. by rewrite He.
  - intros d Hdwf Hu. destruct (frame_read d P Hdwf Hu HP) as (d1 & d2 & HF & HD & Hu2). by exists d1, d2.
Qed.

(** The sample server behind the login of [vinA]. *)
Definition sample_session : World :=
  match handlePacket sample_config 1%positive (login_packet vinA) sample_world with
  | Ok (_, w) => w
  | _ => sample_world
  end.

(** Its connection. *)
Definition sample_conn : Connection :=
  match w_heap sample_session !! 1%positive with
  | Some c => c
  | None => newConnection sample_config [] zeroTime
  end.

Lemma sample_conn_eq : w_heap sample_session !! 1%positive = Some sample_conn.
Proof. vm_compute. reflexivity. Qed.

Lemma sample_conn_ok : conn_ok sample_conn.
Proof.
  unfold conn_ok, decoder_wf. split_and!; try done; try lia.
  - intros k Hk. vm_compute in Hk. injection Hk as <-. split; [reflexivity|check_bytes].
  - by right.
Qed.

Lemma sample_session_inv : inv sample_session.
Proof.
  pose proof (reachable_inv _ _ sample_user_ok sample_reachable) as Hw.
  pose proof (calm_handlePacket sample_config 1%positive (login_packet vinA) sample_user_ok) as H.
  unfold sample_session. destruct (handlePacket _ _ _ _) as [[a w]| | |] eqn:E;
    [|vm_compute in E; discriminate..].
  specialize (H ltac:(check_bytes) eq_refl ltac:(check_bytes) sample_world Hw). rewrite E in H. apply H. right. by eexists.
Qed.

Lemma encrypted_session_witness :
  exists pkt d1 d2 body,
    Send 1%positive CmdHeartbeat [9] sample_session =
      Ok (None, set_trace sample_session (EvWrite 1%positive pkt :: w_trace sample_session)) /\
    Feed NewDecoder pkt = Ok d1 /\
    Decode d1 = Ok (Some (mkPacket CmdHeartbeat RespSuccess vinA EncAES128 body (len body)), d2) /\
    DecryptAES128 body (DeriveAESKey [5; 5]) = Ok [9].
Proof.
  destruct (encrypted_session 1%positive sample_session sample_conn (DeriveAESKey [5; 5]) CmdHeartbeat [9])
    as (pkt & body & H1 & H2 & _ & _ & H4).
  - exact sample_conn_eq.
  - exact sample_conn_ok.
  - vm_compute. discriminate.
  - vm_compute. reflexivity.
  - vm_compute. reflexivity.
  - vm_compute. reflexivity.
  - check_bytes.
  - vm_compute. reflexivity.
  - unfold is_byte, CmdHeartbeat. lia.
  - check_bytes.
  - unfold len. cbn. lia.
  - destruct (H2 NewDecoder NewDecoder_wf eq_refl) as (d1 & d2 & HF & HD & _).
    exists pkt, d1, d2, body. exact (conj H1 (conj HF (conj HD H4))).
Defined.

(** A refused connection comes back: a single read holding a refused login
    and then an accepted one closes the connection and goes on with the packets
    behind it, so the closed connection is logged in and registered again; when
    its read loop ends it is closed a second time and [ConnCount], of a server
    with no connection left, is -1. *)
Theorem closed_connection_revived :
  let bytes := packet_frame (login_packet refused_vin) ++ packet_frame (login_packet vinB) in
  exists w1 w2 c,
    runOnce sample_config 1%positive (ReadBytes bytes) sample_world = Ok (true, w1) /\
    w_heap w1 !! 1%positive = Some c /\ c_state c = ConnLoggedIn /\ c_netClosed c = true /\
    w_connections w1 = ∅ /\ get (w_vinRegistry w1) vinB = Some 1%positive /\
    runOnce sample_config 1%positive ReadError w1 = Ok (false, w2) /\ w_connCount w2 = -1.
Proof.
  cbv zeta. eexists _, _, _. split; [vm_compute; reflexivity|]. split; [vm_compute; reflexivity|].
  split_and!; vm_compute; reflexivity.
Qed.

(** A second login under another VIN leaves the first one behind: after the
    connection is closed the registry still answers the first VIN with it. *)
Theorem stale_registration :
  let bytes := packet_frame (login_packet vinA) ++ packet_frame (login_packet vinB) in
  exists w1 w2 c,
    runOnce sample_config 1%positive (ReadBytes bytes) sample_world = Ok (true, w1) /\
    runOnce sample_config 1%positive ReadError w1 = Ok (false, w2) /\
    w_heap w2 !! 1%positive = Some c /\ c_state c = ConnClosed /\
    get (w_vinRegistry w2) vinA = Some 1%positive /\ get (w_vinRegistry w2) vinB = None.
Proof.
  cbv zeta. eexists _, _, _. split; [vm_compute; reflexivity|]. split; [vm_compute; reflexivity|].
  split_and!; vm_compute; reflexivity.
Qed.
