(* ===== verification/Start.v ===== *)
(** * Serving ([Start] of [server.go], [generateConnID] of [conn.go])

    The accept loop over the results of [Accept], the identifiers it gives its
    connections, and what it can still do once [Stop] has been called. *)
From stdpp Require Import gmap.
From S2P Require Import Prelude.
From S2P Require Import Text.
From S2P Require Import GoTime.
From S2P Require Import Constant.
From S2P Require Import Packet.
From S2P Require Import Framing.
From S2P Require Import Registry.
From S2P Require Import World.
From S2P Require Import Connection.
From S2P Require Import Server.
From S2P Require Import Sessions.

(** ** Identifiers *)

(** What [rand.Read] gives: eight bytes, or an error at a time in nanoseconds. *)
Inductive randRead := RandBytes (b : bytes) | RandError (unixNano : int).

Definition generateConnID (r : randRead) : gostring :=
  match r with
  | RandError t => EncodeToString (Sprint_d t)
  | RandBytes b => EncodeToString b
  end.

(** ** The accept loop *)

(** What [Accept] returns: an error, or a network connection, for which the
    identifier [id] is drawn and the object [p] made. *)
Inductive arrival := AcceptError | Accepted (id : gostring) (p : ptr).

(** [Start] is still in its loop, or it returned. *)
Inductive serving := Serving | Returned (err : option goerr).

Section start.
Context (cfg : Config).

Fixpoint acceptLoop (arrivals : list arrival) : M serving :=
  match arrivals with
  | [] => ret Serving
  | AcceptError :: arrivals => fun w =>
      if w_stopped w then Ok (Returned None, w) else acceptLoop arrivals w
  | Accepted id p :: arrivals => accept cfg id p;; acceptLoop arrivals
  end.

Definition Start (listen : option goerr) (arrivals : list arrival) : M serving :=
  match listen with
  | Some err => ret (Returned (Some err))
  | None => acceptLoop arrivals
  end.
End start.

(** ** Properties *)

(** What the two sources give: eight random bytes, or a time after the first
    tenth of a second of 1970. *)
Definition drawn (r : randRead) : Prop :=
  match r with
  | RandBytes b => all_bytes b /\ length b = 8%nat
  | RandError t => 10 ^ 8 <= t < 2 ^ 63
  end.

(** Connections whose draws differ have different identifiers, a fallback to
    the clock included: [accept]'s fresh identifier is a fresh draw. *)
Theorem conn_id_fresh r1 r2 (H1 : drawn r1) (H2 : drawn r2)
    (He : generateConnID r1 = generateConnID r2) : r1 = r2.
Proof.
  assert (forall b t, drawn (RandBytes b) -> drawn (RandError t) ->
    generateConnID (RandBytes b) <> generateConnID (RandError t)) as Hmix.
  { intros b t [_ Hb] [Ht _] E. apply (f_equal length) in E. cbn in E.
    rewrite !length_EncodeToString, Hb in E.
    assert (t < 10 ^ Z.of_nat 8); [|lia]. unfold Sprint_d in E. destruct (Z.ltb_spec t 0); [lia|].
    eapply digits_short; [|split; [lia|]]; [by rewrite Nat.mul_cancel_l in E by done; rewrite <- E|].
    rewrite Nat2Z.inj_succ, Z2Nat.id by apply Z.log2_nonneg. apply Z.log2_spec. lia. }
  destruct r1 as [b1|t1], r2 as [b2|t2].
  - destruct H1, H2. f_equal. by apply EncodeToString_inj.
  - by destruct (Hmix b1 t2).
  - by destruct (Hmix b2 t1).
  - cbn in H1, H2. destruct (Sprint_d_spec t1 ltac:(lia)) as [E1 B1], (Sprint_d_spec t2 ltac:(lia)) as [E2 B2].
    apply EncodeToString_inj in He; [|done|done]. f_equal. by rewrite <- E1, <- E2, He.
Qed.

Lemma conn_id_fresh_witness :
  generateConnID (RandBytes [0; 1; 2; 3; 4; 5; 6; 255]) <> generateConnID (RandError 1704067200000000000).
Proof.
  intros He. pose proof (conn_id_fresh (RandBytes [0; 1; 2; 3; 4; 5; 6; 255]) (RandError 1704067200000000000)
    ltac:(split; [check_bytes|done]) ltac:(cbn; lia) He). done.
Defined.

(** The connections that arrive, in order. *)
Definition arrived (arrivals : list arrival) : list (gostring * ptr) :=
  omap (fun a => match a with Accepted id p => Some (id, p) | AcceptError => None end) arrivals.

(** Identifiers and objects nobody has. *)
Definition new_to (w : World) (conns : list (gostring * ptr)) : Prop :=
  NoDup conns.*1 /\ NoDup conns.*2 /\
  Forall (fun a => w_connections w !! a.1 = None /\ w_heap w !! a.2 = None) conns.

Lemma accept_eq cfg id p w :
  exists w', accept cfg id p w = Ok (w_connCount w <? cfg_maxConns cfg, w') /\
    w_stopped w' = w_stopped w /\
    if w_connCount w <? cfg_maxConns cfg then
      w_connCount w' = w_connCount w + 1 /\ w_connections w' = <[id := p]> (w_connections w) /\
      w_heap w' = <[p := newConnection cfg id (w_now w)]> (w_heap w)
    else w' = w.
Proof.
  unfold accept. destruct (Z.leb_spec (cfg_maxConns cfg) (w_connCount w)).
  - exists w. by rewrite (proj2 (Z.ltb_ge _ _)) by done.
  - eexists. rewrite (proj2 (Z.ltb_lt _ _)) by done. by split_and!.
Qed.

(** How many of [n] connections there is room for. *)
Definition room (cfg : Config) (w : World) (n : Z) : Z :=
  Z.min n (Z.max 0 (cfg_maxConns cfg - w_connCount w)).

Lemma room_step cfg w n : 0 <= n ->
  (w_connCount w < cfg_maxConns cfg -> forall w1, w_connCount w1 = w_connCount w + 1 ->
     room cfg w (1 + n) = 1 + room cfg w1 n) /\
  (cfg_maxConns cfg <= w_connCount w -> forall n, 0 <= n -> room cfg w n = 0).
Proof. unfold room. split; [intros ? w1 ->|intros ? m ?]; lia. Qed.

Lemma acceptLoop_takes cfg arrivals : forall w,
  w_stopped w = false -> new_to w (arrived arrivals) ->
  let taken := take (Z.to_nat (room cfg w (len (arrived arrivals)))) (arrived arrivals) in
  exists w', acceptLoop cfg arrivals w = Ok (Serving, w') /\
    w_connCount w' = w_connCount w + room cfg w (len (arrived arrivals)) /\
    w_connections w' = list_to_map taken ∪ w_connections w /\
    (forall q, q ∉ (arrived arrivals).*2 -> w_heap w' !! q = w_heap w !! q) /\
    Forall (fun a => exists t, w_heap w' !! a.2 = Some (newConnection cfg a.1 t)) taken.
Proof.
  cbv zeta. induction arrivals as [|[|id p] arrivals IH]; intros w Hs Hn.
  - exists w. change (len (arrived [])) with 0. unfold room. rewrite Z.min_l, Z.add_0_r by lia.
    change (arrived []) with (@nil (gostring * ptr)). rewrite take_nil. split_and!; try done.
    change (list_to_map (M := gmap gostring ptr) []) with (∅ : gmap gostring ptr).
    by rewrite (left_id_L ∅ (∪)).
  - cbn [acceptLoop]. rewrite Hs. by apply IH.
  - change (arrived (Accepted id p :: arrivals)) with ((id, p) :: arrived arrivals) in *.
    set (conns := arrived arrivals) in *. rewrite len_cons. pose proof (len_nonneg conns) as Hl.
    destruct (room_step cfg w (len conns) Hl) as [Hroom Hfull].
    destruct Hn as (Hid & Hp & Hnew). apply NoDup_cons in Hid as [Hid1 Hid2], Hp as [Hp1 Hp2].
    inversion_clear Hnew as [|?? [Hi Hh] Hnew']. cbn in Hi, Hh, Hid1, Hp1.
    cbn [acceptLoop]. destruct (accept_eq cfg id p w) as (w1 & Ha & Hs1 & Hw1). unfold bindM. rewrite Ha. cbn [bind].
    destruct (Z.ltb_spec (w_connCount w) (cfg_maxConns cfg)) as [Hlt|Hge].
    + destruct Hw1 as (Hc1 & Hx1 & Hh1).
      destruct (IH w1) as (w' & Hrun & Hc & Hx & Hhp & Hall); [congruence| |].
      { split_and!; [done..|]. rewrite Hx1, Hh1. apply Forall_forall. intros [i q] Hin.
        pose proof (proj1 (Forall_forall _ _) Hnew' _ Hin) as [? ?].
        rewrite !lookup_insert_ne; [done| |]; cbn; intros <-;
          first [solve [apply Hp1, list_elem_of_fmap; by eexists (_, _)]
                |apply Hid1, list_elem_of_fmap; by eexists (_, _)]. }
      exists w'. split; [exact Hrun|]. rewrite (Hroom Hlt w1 Hc1).
      assert (0 <= room cfg w1 (len conns)) as Hr0 by (unfold room; lia).
      rewrite Z2Nat.inj_add by lia. change (Z.to_nat 1) with 1%nat. cbn [Nat.add take].
      split_and!.
      * lia.
      * rewrite Hx, Hx1. cbn. rewrite <- insert_union_l. symmetry. apply insert_union_r.
        apply not_elem_of_list_to_map_1. intros Hin. apply Hid1.
        apply list_elem_of_fmap in Hin as (a & -> & Hin). apply list_elem_of_fmap. exists a. split; [done|].
        by eapply subseteq_take.
      * intros q Hq. apply not_elem_of_cons in Hq as [Hq1 Hq2]. rewrite Hhp, Hh1 by done.
        by apply lookup_insert_ne.
      * constructor; [|done]. exists (w_now w). rewrite Hhp, Hh1 by done. apply lookup_insert_eq.
    + subst w1. destruct (IH w) as (w' & Hrun & Hc & Hx & Hhp & Hall); [done|done|].
      exists w'. split; [exact Hrun|]. rewrite (Hfull Hge) in * by lia. split_and!; try done.
      intros q Hq. apply not_elem_of_cons in Hq as [? ?]. by apply Hhp.
Qed.

(** The accept loop of a server that is not stopped: it goes on whatever
    [Accept] returns; it takes the connections in the order they arrive, each
    open, unnamed and in the index, until the limit is reached, and turns the others away;
    errors change nothing.  A listen error is returned, nothing else having happened;
    behind [Stop] the loop returns at the first error. *)
Theorem start_serves cfg arrivals w
    (Hs : w_stopped w = false) (Hn : new_to w (arrived arrivals)) :
  let conns := arrived arrivals in
  let taken := take (Z.to_nat (room cfg w (len conns))) conns in
  (exists w', Start cfg None arrivals w = Ok (Serving, w') /\
    w_connCount w' = w_connCount w + room cfg w (len conns) /\
    w_connections w' = list_to_map taken ∪ w_connections w /\
    Forall (fun a => exists c, w_heap w' !! a.2 = Some c /\ c_id c = a.1 /\ c_state c = ConnNew /\
      c_netClosed c = false) taken) /\
  (forall err, Start cfg (Some err) arrivals w = Ok (Returned (Some err), w)) /\
  Start cfg None (AcceptError :: arrivals) (set_stopped w) = Ok (Returned None, set_stopped w).
Proof.
  cbv zeta. split; [|by split]. destruct (acceptLoop_takes cfg arrivals w Hs Hn) as (w' & ? & ? & ? & _ & Hall).
  exists w'. split_and!; try done. eapply Forall_impl; [exact Hall|]. intros a [t Ht].
  by eexists.
Qed.

(** Three connections, an error among them. *)
Lemma start_serves_witness :
  exists w', Start sample_config None [Accepted [1] 1; AcceptError; Accepted [2] 2; Accepted [3] 3]
    sample_start = Ok (Serving, w') /\ w_connCount w' = 3.
Proof.
  destruct (start_serves sample_config [Accepted [1] 1; AcceptError; Accepted [2] 2; Accepted [3] 3] sample_start)
    as ((w' & H1 & H2 & _) & _); [reflexivity| |].
  - split_and!; [eapply bool_decide_eq_true; vm_compute; reflexivity..|]. by repeat constructor.
  - exists w'. split; [exact H1|exact H2].
Defined.

(** [Stop] cancels the server, closes the listener and then closes the
    connections in the index.  A connection that [Accept] had returned before, and that
    the accept loop stores afterwards, is missed: it is open and served, in the index of a
    stopped server, until its vehicle goes away. *)
Theorem accept_after_stop cfg (Hroom : 0 < cfg_maxConns cfg) :
  exists w c, reachable cfg w /\ w_stopped w = true /\ w_connections w = {[ [7] := 1%positive ]} /\
    w_heap w !! 1%positive = Some c /\ c_netClosed c = false /\ c_ctxDone c = false /\
    forall b, all_bytes b -> deliverable w 1 (ReadBytes b).
Proof.
  set (w0 := initial zeroTime). set (w1 := set_stopped w0).
  assert (Stop w0 = Ok (tt, w1)) as Hstop by reflexivity.
  destruct (accept_eq cfg [7] 1 w1) as (w & Ha & Hs & Hw).
  rewrite (proj2 (Z.ltb_lt _ _)) in Ha, Hw by (cbn; lia). destruct Hw as (_ & Hx & Hh).
  exists w, (newConnection cfg [7] (w_now w1)). rewrite Hx, Hh. split_and!; try done.
  - eapply reach_step; [eapply reach_step; [apply (reach_start cfg zeroTime)|by apply step_stop]|].
    apply (step_accept cfg [7] 1%positive true); [reflexivity| |exact Ha].
    intros q c. change (w_heap w1) with (∅ : gmap positive Connection). by rewrite lookup_empty.
  - intros b Hb. eexists. rewrite Hh. split; [apply lookup_insert_eq|done].
Qed.

Lemma accept_after_stop_witness :
  exists w c, reachable sample_config w /\ w_stopped w = true /\ w_heap w !! 1%positive = Some c.
Proof.
  destruct (accept_after_stop sample_config ltac:(cbn; lia)) as (w & c & H1 & H2 & _ & H4 & _).
  by exists w, c.
Defined.
