(* ===== verification/Interleave.v ===== *)
(** * Goroutines inside one another ([conn.go], [server.go])

    [Close] and [unregister], the bookkeeping of a login and the body of the
    accept loop take no lock: each of their statements is atomic, and statements
    of other goroutines run between them.  Here a goroutine is a program counter
    in one of the three pieces of code and a step of the system executes one
    statement of one goroutine.  What holds once every goroutine is through
    ([closes_interleave]), what the connection limit is worth ([limit_kept]),
    and the two orders in which it goes wrong ([double_close], [login_leak]). *)
From stdpp Require Import gmap.
From S2P Require Import Prelude.
From S2P Require Import GoTime.
From S2P Require Import Constant.
From S2P Require Import Packet.
From S2P Require Import Framing.
From S2P Require Import Payload.
From S2P Require Import Registry.
From S2P Require Import World.
From S2P Require Import Connection.
From S2P Require Import Server.
From S2P Require Import Sessions.

(** ** Program counters and statements *)

(** In front of a statement of [Close] or of [unregister], which it calls. *)
Inductive closePc :=
  | ClState | ClStore | ClCancel | ClDecoder | ClConn | ClDelete | ClCount | ClRemove.

(** In front of an assignment of [handlePacket] to a connection that logs in. *)
Inductive loginPc := LgVIN | LgICCID | LgStore | LgAdd.

(** In front of a statement of the accept loop behind [Accept]. *)
Inductive acceptPc := AcLimit | AcStore | AcCount.

(** One statement of [Close]; [None] where it returns. *)
Definition closeStep (pc : closePc) (p : ptr) : M (option closePc) :=
  match pc with
  | ClState =>
      let* c := conn p in
      ret (if decide (c_state c = ConnClosed) then None else Some ClStore)
  | ClStore => on_conn p (with_state ConnClosed);; ret (Some ClCancel)
  | ClCancel => on_conn p with_ctxDone;; ret (Some ClDecoder)
  | ClDecoder => on_conn p (fun c => with_decoder (Close (c_decoder c)) c);; ret (Some ClConn)
  | ClConn => netClose p;; ret (Some ClDelete)
  | ClDelete =>
      let* c := conn p in
      (fun w => Ok (tt, set_index w (delete (c_id c) (w_connections w)) (w_connCount w)));;
      ret (Some ClCount)
  | ClCount =>
      (fun w => Ok (tt, set_index w (w_connections w) (w_connCount w - 1)));;
      ret (Some ClRemove)
  | ClRemove =>
      let* c := conn p in
      (if decide (c_vin c = []) then ret tt
       else fun w => Ok (tt, set_registry w (remove (w_vinRegistry w) (c_vin c) p)));;
      ret None
  end.

Definition loginStep (pc : loginPc) (p : ptr) (vin iccid : gostring) : M (option loginPc) :=
  match pc with
  | LgVIN => on_conn p (with_vin vin);; ret (Some LgICCID)
  | LgICCID => on_conn p (with_iccid iccid);; ret (Some LgStore)
  | LgStore => on_conn p (with_state ConnLoggedIn);; ret (Some LgAdd)
  | LgAdd => (fun w => Ok (tt, set_registry w (add (w_vinRegistry w) vin p)));; ret None
  end.

(** [newConnection] touches nothing another goroutine can see: it is one
    statement with the [Store] behind it. *)
Definition acceptStep (cfg : Config) (pc : acceptPc) (id : gostring) (p : ptr)
  : M (option acceptPc) :=
  match pc with
  | AcLimit => fun w =>
      Ok (if cfg_maxConns cfg <=? w_connCount w then None else Some AcStore, w)
  | AcStore => fun w =>
      let w := set_heap w (<[p := newConnection cfg id (w_now w)]> (w_heap w)) in
      Ok (Some AcCount, set_index w (<[id := p]> (w_connections w)) (w_connCount w))
  | AcCount => fun w => Ok (None, set_index w (w_connections w) (w_connCount w + 1))
  end.

(** ** Goroutines *)

Inductive code :=
  | Closing (pc : closePc)
  | LoggingIn (pc : loginPc) (vin iccid : gostring)
  | Accepting (pc : acceptPc)
  | Finished.

(** A goroutine at work on a connection; the accept loop works on the one it
    makes at [AcStore]. *)
Record thread := mkThread { t_conn : ptr; t_code : code }.

Definition into {A} (f : A -> code) (pc : option A) : code :=
  match pc with Some pc => f pc | None => Finished end.

(** The next statement of a goroutine; [id] and [q] are what [generateConnID]
    and the allocation give, should it be the accept loop's. *)
Definition advance (cfg : Config) (id : gostring) (q : ptr) (t : thread) : M thread :=
  match t_code t with
  | Closing pc =>
      let* pc := closeStep pc (t_conn t) in ret (mkThread (t_conn t) (into Closing pc))
  | LoggingIn pc vin iccid =>
      let* pc := loginStep pc (t_conn t) vin iccid in
      ret (mkThread (t_conn t) (into (fun pc => LoggingIn pc vin iccid) pc))
  | Accepting pc =>
      let* pc := acceptStep cfg pc id q in
      ret (mkThread (if pc is Some AcCount then q else t_conn t) (into Accepting pc))
  | Finished => ret t
  end.

(** ** The system *)

(** The shared state, the goroutines, and the connections [unregister] was
    called for, latest first (kept for the specification). *)
Record sys := mkSys { s_world : World; s_threads : list thread; s_unregistered : list ptr }.

Definition is_accepting (t : thread) : bool :=
  match t_code t with Accepting _ => true | _ => false end.

Definition is_login (p : ptr) (t : thread) : bool :=
  match t_code t with LoggingIn _ _ _ => bool_decide (t_conn t = p) | _ => false end.

(** An identifier no connection has and an address no connection is at. *)
Definition fresh (w : World) (id : gostring) (p : ptr) : Prop :=
  w_heap w !! p = None /\ map_Forall (fun _ c => c_id c <> id) (w_heap w).

#[export] Instance fresh_dec w id p : Decision (fresh w id p).
Proof. unfold fresh. apply _. Defined.

(** What can happen: a connection arrives at the accept loop; the read loop of a
    connection takes up a login; someone (the user, [Stop], the idle check, the
    read loop's [defer]) calls [Close]; the goroutine [i] executes a statement. *)
Inductive action :=
  | Arrive
  | StartLogin (p : ptr) (vin iccid : gostring)
  | StartClose (p : ptr)
  | Exec (i : nat) (id : gostring) (q : ptr).

Definition spawn (s : sys) (t : thread) : sys :=
  mkSys (s_world s) (s_threads s ++ [t]) (s_unregistered s).

Definition unregisters (t : thread) : list ptr :=
  match t_code t with Closing ClDelete => [t_conn t] | _ => [] end.

Definition draws (t : thread) : bool :=
  match t_code t with Accepting AcStore => true | _ => false end.

Definition perform (cfg : Config) (a : action) (s : sys) : option sys :=
  match a with
  | Arrive =>
      if existsb is_accepting (s_threads s) then None
      else Some (spawn s (mkThread 1 (Accepting AcLimit)))
  | StartLogin p vin iccid =>
      if existsb (is_login p) (s_threads s) then None else
      match w_heap (s_world s) !! p with
      | Some _ => Some (spawn s (mkThread p (LoggingIn LgVIN vin iccid)))
      | None => None
      end
  | StartClose p =>
      match w_heap (s_world s) !! p with
      | Some _ => Some (spawn s (mkThread p (Closing ClState)))
      | None => None
      end
  | Exec i id q =>
      match s_threads s !! i with
      | None => None
      | Some t =>
          if draws t && negb (bool_decide (fresh (s_world s) id q)) then None else
          match advance cfg id q t (s_world s) with
          | Ok (t', w) => Some (mkSys w (<[i := t']> (s_threads s)) (unregisters t ++ s_unregistered s))
          | _ => None
          end
      end
  end.

(** Everything else a server does (sending, feeding decoders, calling the user,
    the clock) leaves what these goroutines share alone. *)
Definition same_lifecycle (c c' : Connection) : Prop :=
  c_id c' = c_id c /\ c_state c' = c_state c /\ c_vin c' = c_vin c /\
  c_ctxDone c' = c_ctxDone c /\ c_netClosed c' = c_netClosed c.

Definition elsewhere (w w' : World) : Prop :=
  (forall p, option_Forall2 same_lifecycle (w_heap w !! p) (w_heap w' !! p)) /\
  w_connections w' = w_connections w /\ w_connCount w' = w_connCount w /\
  w_vinRegistry w' = w_vinRegistry w.

Inductive interleaved (cfg : Config) : sys -> Prop :=
  | il_start t : interleaved cfg (mkSys (initial t) [] [])
  | il_perform a s s' : interleaved cfg s -> perform cfg a s = Some s' -> interleaved cfg s'
  | il_elsewhere w s : interleaved cfg s -> elsewhere (s_world s) w ->
      interleaved cfg (mkSys w (s_threads s) (s_unregistered s)).

(** No goroutine is in the middle of these pieces of code. *)
Definition quiescent (s : sys) : Prop := Forall (fun t => t_code t = Finished) (s_threads s).

(** How often [unregister] was called for a connection it had been called for. *)
Definition repeated (s : sys) : Z :=
  len (s_unregistered s) - len (remove_dups (s_unregistered s)).

(** A run of actions. *)
Fixpoint perform_all (cfg : Config) (acts : list action) (s : sys) : option sys :=
  match acts with
  | [] => Some s
  | a :: acts => match perform cfg a s with Some s => perform_all cfg acts s | None => None end
  end.

(** A goroutine that runs on without another one in between. *)
Fixpoint finish (cfg : Config) (n : nat) (id : gostring) (q : ptr) (t : thread) : M thread :=
  match n with
  | O => ret t
  | S n => let* t := advance cfg id q t in finish cfg n id q t
  end.

(** ** Invariant *)

(** What a goroutine adds to the difference between the count and the index. *)
Definition weight (t : thread) : Z :=
  match t_code t with Closing ClCount => 1 | Accepting AcCount => -1 | _ => 0 end.

Definition tally (ts : list thread) : Z := foldr (fun t n => weight t + n) 0 ts.

(** Between the [Store] of the state and the [Delete] of [unregister]. *)
Definition in_close (t : thread) : bool :=
  match t_code t with
  | Closing (ClCancel | ClDecoder | ClConn | ClDelete) => true
  | _ => false
  end.

Definition pending (ts : list thread) (p : ptr) : Prop :=
  exists i t, ts !! i = Some t /\ t_conn t = p /\ in_close t = true.

(** A connection some [Close] was at. *)
Definition touched (c : Connection) : Prop :=
  c_state c = ConnClosed \/ c_ctxDone c = true \/ c_netClosed c = true.

Definition thread_ok (w : World) (L : list ptr) (t : thread) : Prop :=
  match t_code t with
  | Finished | Accepting (AcLimit | AcStore) => True
  | Accepting AcCount | LoggingIn _ _ _ | Closing (ClState | ClStore | ClCancel) =>
      is_Some (w_heap w !! t_conn t)
  | Closing (ClDecoder | ClConn) =>
      exists c, w_heap w !! t_conn t = Some c /\ c_ctxDone c = true
  | Closing ClDelete =>
      exists c, w_heap w !! t_conn t = Some c /\ c_ctxDone c = true /\ c_netClosed c = true
  | Closing (ClCount | ClRemove) => t_conn t ∈ L
  end.

Record sinv (w : World) (ts : list thread) (L : list ptr) : Prop := {
  si_ids : forall p q c d, w_heap w !! p = Some c -> w_heap w !! q = Some d ->
    c_id c = c_id d -> p = q;
  si_index : forall id p, w_connections w !! id = Some p <->
    exists c, w_heap w !! p = Some c /\ c_id c = id /\ p ∉ L;
  si_gone : forall p, p ∈ L ->
    exists c, w_heap w !! p = Some c /\ c_ctxDone c = true /\ c_netClosed c = true;
  si_touched : forall p c, w_heap w !! p = Some c -> touched c -> p ∈ L \/ pending ts p;
  si_threads : Forall (thread_ok w L) ts;
  si_count : w_connCount w =
    Z.of_nat (size (w_connections w)) + tally ts - (len L - len (remove_dups L))
}.

(** ** Lemmas *)

Lemma tally_app ts ts' : tally (ts ++ ts') = tally ts + tally ts'.
Proof. induction ts as [|t ts IH]; cbn in *; [done|]. unfold tally in *. lia. Qed.

Lemma tally_insert ts i t t' :
  ts !! i = Some t -> tally (<[i := t']> ts) = tally ts - weight t + weight t'.
Proof.
  revert i. induction ts as [|x ts IH]; intros [|i] Hi; try done.
  - injection Hi as ->. unfold tally. cbn. lia.
  - pose proof (IH i Hi) as H.
    change (weight x + tally (<[i := t']> ts) = weight x + tally ts - weight t + weight t'). lia.
Qed.

Lemma tally_finished ts : Forall (fun t => t_code t = Finished) ts -> tally ts = 0.
Proof.
  induction 1 as [|t ts Ht _ IH]; [done|]. change (weight t + tally ts = 0).
  unfold weight. rewrite Ht, IH. done.
Qed.

Lemma pending_insert ts i t t' p :
  ts !! i = Some t -> (t_conn t = p -> in_close t = true -> t_conn t' = p /\ in_close t' = true) ->
  pending ts p -> pending (<[i := t']> ts) p.
Proof.
  intros Hi Ht (j & u & Hj & Hu & Hc). destruct (decide (i = j)) as [<-|Hne].
  - exists i, t'. rewrite list_lookup_insert_eq by (by eapply lookup_lt_Some).
    assert (u = t) as -> by congruence. destruct (Ht Hu Hc). done.
  - exists j, u. by rewrite list_lookup_insert_ne.
Qed.

(** Connections keep their identifiers and stay closed once they are. *)
Definition grows (w w' : World) : Prop :=
  forall p c, w_heap w !! p = Some c -> exists c', w_heap w' !! p = Some c' /\ c_id c' = c_id c /\
    (c_ctxDone c = true -> c_ctxDone c' = true) /\ (c_netClosed c = true -> c_netClosed c' = true).

Lemma thread_ok_grows w w' L L' t :
  grows w w' -> L ⊆ L' -> thread_ok w L t -> thread_ok w' L' t.
Proof.
  intros Hg HL. unfold thread_ok.
  assert (forall p, is_Some (w_heap w !! p) -> is_Some (w_heap w' !! p)) as Hs.
  { intros p [c Hc]. destruct (Hg p c Hc) as (c' & ? & _). by eexists. }
  destruct (t_code t) as [[]|[] v i|[]|]; auto.
  - intros (c & Hc & H1). destruct (Hg _ c Hc) as (c' & ? & _ & ? & _). eauto.
  - intros (c & Hc & H1). destruct (Hg _ c Hc) as (c' & ? & _ & ? & _). eauto.
  - intros (c & Hc & H1 & H2). destruct (Hg _ c Hc) as (c' & ? & _ & ? & ?). eauto 6.
Qed.

Lemma thread_ok_conn w ts L i t :
  sinv w ts L -> ts !! i = Some t -> t_code t <> Finished -> is_accepting t = false ->
  is_Some (w_heap w !! t_conn t).
Proof.
  intros Hs Hi Hf Ha. pose proof (Forall_lookup_1 _ _ _ _ (si_threads _ _ _ Hs) Hi) as Ht.
  unfold thread_ok, is_accepting in *. destruct (t_code t) as [[]|[] v ic|[]|]; try done;
    try (destruct Ht as (c & ? & _); by eexists);
    destruct (si_gone _ _ _ Hs _ Ht) as (c & ? & _); by eexists.
Qed.

(** A step that leaves index, count and [unregister] alone. *)
Lemma sinv_change w w' ts ts' L :
  sinv w ts L -> w_connections w' = w_connections w -> w_connCount w' = w_connCount w ->
  grows w w' -> (forall p, is_Some (w_heap w' !! p) -> is_Some (w_heap w !! p)) ->
  tally ts' = tally ts -> Forall (thread_ok w' L) ts' ->
  (forall p, p ∉ L -> pending ts p -> pending ts' p) ->
  (forall p c c', w_heap w !! p = Some c -> w_heap w' !! p = Some c' -> touched c' -> p ∉ L ->
     touched c \/ pending ts' p) ->
  sinv w' ts' L.
Proof.
  intros [H1 H2 H3 H4 H5 H6] Hi Hn Hg Hd Ht Hok Hp Hto.
  assert (forall p c', w_heap w' !! p = Some c' -> exists c, w_heap w !! p = Some c /\ c_id c' = c_id c) as Hback.
  { intros p c' Hc'. destruct (Hd p (mk_is_Some _ _ Hc')) as [c Hc].
    destruct (Hg p c Hc) as (c2 & Hc2 & ? & _). exists c. split; [done|congruence]. }
  split; rewrite ?Hi, ?Hn, ?Ht; [..|done|done].
  - intros p q c d Hc Hd' He. destruct (Hback _ _ Hc) as (c0 & Hc0 & ?).
    destruct (Hback _ _ Hd') as (d0 & Hd0 & ?). eapply H1; [exact Hc0|exact Hd0|congruence].
  - intros id p. rewrite H2. split.
    + intros (c & Hc & ? & ?). destruct (Hg p c Hc) as (c' & ? & ? & _). exists c'. split_and!; congruence || done.
    + intros (c & Hc & ? & ?). destruct (Hback _ _ Hc) as (c0 & ? & ?). exists c0. split_and!; congruence || done.
  - intros p Hp'. destruct (H3 p Hp') as (c & Hc & ? & ?). destruct (Hg p c Hc) as (c' & ? & _ & ? & ?).
    eauto 6.
  - intros p c' Hc' Htc. destruct (decide (p ∈ L)) as [?|HL]; [by left|]. right.
    destruct (Hback _ _ Hc') as (c & Hc & _). destruct (Hto p c c' Hc Hc' Htc HL) as [Htc0|?]; [|done].
    destruct (H4 p c Hc Htc0) as [?|?]; [done|]. by apply Hp.
Qed.

(** One statement of the goroutine [i] that changes at most its connection. *)
Lemma sinv_own w w' ts L i t t' c c' :
  sinv w ts L -> ts !! i = Some t -> w_heap w !! t_conn t = Some c ->
  w_connections w' = w_connections w -> w_connCount w' = w_connCount w ->
  w_heap w' = <[t_conn t := c']> (w_heap w) ->
  c_id c' = c_id c -> (c_ctxDone c = true -> c_ctxDone c' = true) ->
  (c_netClosed c = true -> c_netClosed c' = true) ->
  weight t' = weight t -> t_conn t' = t_conn t -> thread_ok w' L t' ->
  (in_close t = true -> in_close t' = true) ->
  (touched c' -> touched c \/ in_close t' = true) ->
  sinv w' (<[i := t']> ts) L.
Proof.
  intros Hs Hi Hc Hx Hn Hh Hid Hctx Hnet Hw Hconn Hok Hin Hto.
  assert (grows w w') as Hg.
  { intros p d Hd. rewrite Hh. destruct (decide (t_conn t = p)) as [<-|Hne].
    - rewrite lookup_insert_eq. assert (d = c) as -> by congruence. by exists c'.
    - rewrite lookup_insert_ne by done. by exists d. }
  eapply sinv_change; [exact Hs|done..| | | | |].
  - intros p. rewrite Hh, lookup_insert_is_Some. intros [<-|[_ ?]]; [by eexists|done].
  - rewrite (tally_insert _ _ t) by done. lia.
  - apply Forall_insert; [|done]. eapply Forall_impl; [exact (si_threads _ _ _ Hs)|].
    intros u. by apply thread_ok_grows.
  - intros p _. apply (pending_insert _ _ t); [done|]. intros <- ?. auto.
  - intros p d d' Hd. rewrite Hh, lookup_insert_Some. intros [[<- <-]|[_ Hd']] Ht HL.
    + assert (d = c) as -> by congruence. destruct (Hto Ht) as [?|?]; [by left|right].
      exists i, t'. by rewrite list_lookup_insert_eq by (by eapply lookup_lt_Some).
    + left. by assert (d' = d) as -> by congruence.
Qed.

(** Statements that assign to a field of the connection. *)
Lemma on_conn_run p f w c :
  w_heap w !! p = Some c -> on_conn p f w = Ok (tt, set_heap w (<[p := f c]> (w_heap w))).
Proof. intros Hc. unfold on_conn, bindM, conn, put_conn. by rewrite Hc. Qed.

Lemma netClose_run p w c :
  w_heap w !! p = Some c -> exists w', netClose p w = Ok (tt, w') /\
    w_heap w' = <[p := with_netClosed c]> (w_heap w) /\
    w_connections w' = w_connections w /\ w_connCount w' = w_connCount w.
Proof.
  intros Hc. unfold netClose, bindM, conn. rewrite Hc. cbn.
  destruct (c_netClosed c) eqn:E.
  - exists w. split_and!; try done. rewrite insert_id; [done|]. rewrite Hc. f_equal.
    destruct c. cbn in *. by subst.
  - unfold bindM. rewrite (on_conn_run _ _ _ c) by done. cbn. by eexists.
Qed.

Ltac own c c' :=
  eapply (sinv_own _ _ _ _ _ _ _ c c');
  [eassumption|eassumption|eassumption|done|done|try done|done|done|done|done|done
  | try done | try done | try (unfold touched; cbn; tauto)].

(** [connections.Delete]: it removes the connection unless it was removed before. *)
Lemma sinv_delete w ts L i p c :
  sinv w ts L -> ts !! i = Some (mkThread p (Closing ClDelete)) -> w_heap w !! p = Some c ->
  sinv (set_index w (delete (c_id c) (w_connections w)) (w_connCount w))
    (<[i := mkThread p (Closing ClCount)]> ts) (p :: L).
Proof.
  intros Hs Hi Hc. pose proof (Forall_lookup_1 _ _ _ _ (si_threads _ _ _ Hs) Hi) as Hok.
  destruct Hs as [H1 H2 H3 H4 H5 H6]. split; cbn; try done.
  - intros id q. rewrite lookup_delete_Some, H2. setoid_rewrite not_elem_of_cons. split.
    + intros [Hne (d & ? & ? & ?)]. exists d. split_and!; try done. congruence.
    + intros (d & Hd & ? & Hqp & ?). split; [|by eauto]. intros He. apply Hqp. eapply H1; [done..|congruence].
  - intros q. rewrite elem_of_cons. intros [->|?]; [done|auto].
  - intros q d Hd Ht. destruct (decide (q = p)) as [->|Hne]; [left; apply list_elem_of_here|].
    destruct (H4 q d Hd Ht) as [?|Hp]; [left; by apply list_elem_of_further|right].
    eapply pending_insert; [exact Hi | | exact Hp]. cbn. congruence.
  - apply Forall_insert; [|apply list_elem_of_here]. eapply Forall_impl; [exact H5|].
    intros u. apply thread_ok_grows; [|by intros q; apply list_elem_of_further]. intros q d Hd. by exists d.
  - rewrite (tally_insert _ _ _ _ Hi), H6, map_size_delete. cbn.
    destruct (decide_rel elem_of p L) as [Hin|Hin].
    + destruct (w_connections w !! c_id c) as [q|] eqn:E; [|rewrite len_cons; unfold id, weight; cbn; lia].
      apply H2 in E as (d & Hd & He & Hq). by rewrite (H1 q p d c Hd Hc He) in Hq.
    + assert (w_connections w !! c_id c = Some p) as E by (apply H2; eauto). rewrite E, !len_cons.
      assert (size (w_connections w) <> 0%nat) by (rewrite map_size_ne_0_lookup; eauto).
      unfold weight; cbn. lia.
Qed.

(** [connCount.Add]. *)
Lemma sinv_counted w ts L i t t' :
  sinv w ts L -> ts !! i = Some t -> thread_ok w L t' -> in_close t = false ->
  sinv (set_index w (w_connections w) (w_connCount w + weight t' - weight t))
    (<[i := t']> ts) L.
Proof.
  intros [H1 H2 H3 H4 H5 H6] Hi Hok Hin. split; cbn; try done.
  - intros q d Hd Ht. destruct (H4 q d Hd Ht) as [?|Hp]; [by left|right].
    eapply pending_insert; [exact Hi | congruence | exact Hp].
  - by apply Forall_insert.
  - rewrite (tally_insert _ _ _ _ Hi), H6. lia.
Qed.

Lemma sinv_close w ts L i p pc pc' w' :
  sinv w ts L -> ts !! i = Some (mkThread p (Closing pc)) -> closeStep pc p w = Ok (pc', w') ->
  sinv w' (<[i := mkThread p (into Closing pc')]> ts)
    (unregisters (mkThread p (Closing pc)) ++ L).
Proof.
  intros Hs Hi.
  destruct (thread_ok_conn w ts L i _ Hs Hi) as [c Hc]; [done..|]. cbn in Hc.
  pose proof (Forall_lookup_1 _ _ _ _ (si_threads _ _ _ Hs) Hi) as Hok.
  assert (is_Some (w_heap w !! p)) as Hp by eauto.
  destruct pc; cbn [closeStep unregisters t_code app]; unfold bindM at 1.
  - unfold conn. rewrite Hc. cbn. intros [= <- <-]. destruct (decide _).
    + own c c. by rewrite insert_id.
    + own c c. by rewrite insert_id.
  - rewrite (on_conn_run _ _ _ c) by done. intros [= <- <-]. own c (with_state ConnClosed c).
    exists (with_state ConnClosed c). cbn. by rewrite lookup_insert_eq.
  - rewrite (on_conn_run _ _ _ c) by done. intros [= <- <-]. own c (with_ctxDone c).
    exists (with_ctxDone c). cbn. by rewrite lookup_insert_eq.
  - rewrite (on_conn_run _ _ _ c) by done. intros [= <- <-].
    destruct Hok as (c0 & Hc0 & ?). assert (c0 = c) as -> by (cbn in Hc0; congruence).
    own c (with_decoder (Close (c_decoder c)) c).
    eexists. cbn. rewrite lookup_insert_eq. split; [done|]. done.
  - destruct (netClose_run p w c Hc) as (w1 & -> & Hh & Hx & Hn). intros [= <- <-].
    destruct Hok as (c0 & Hc0 & ?). assert (c0 = c) as -> by (cbn in Hc0; congruence).
    own c (with_netClosed c).
    eexists. cbn. rewrite Hh, lookup_insert_eq. done.
  - unfold conn. rewrite Hc. cbn. intros [= <- <-]. by apply sinv_delete.
  - cbn. intros [= <- <-].
    pose proof (sinv_counted w ts L i _ (mkThread p (Closing ClRemove)) Hs Hi Hok eq_refl) as H.
    unfold weight in H. cbn in H. by rewrite Z.add_0_r in H.
  - unfold conn. rewrite Hc. cbn. destruct (decide _); intros [= <- <-].
    + own c c. by rewrite insert_id.
    + own c c. cbn. by rewrite insert_id.
Qed.

Lemma sinv_login w ts L i p pc vin iccid pc' w' :
  sinv w ts L -> ts !! i = Some (mkThread p (LoggingIn pc vin iccid)) ->
  loginStep pc p vin iccid w = Ok (pc', w') ->
  sinv w' (<[i := mkThread p (into (fun pc => LoggingIn pc vin iccid) pc')]> ts) L.
Proof.
  intros Hs Hi.
  destruct (thread_ok_conn w ts L i _ Hs Hi) as [c Hc]; [done..|]. cbn in Hc.
  destruct pc; cbn [loginStep]; unfold bindM at 1.
  - rewrite (on_conn_run _ _ _ c) by done. intros [= <- <-]. own c (with_vin vin c).
    eexists. cbn. by rewrite lookup_insert_eq.
  - rewrite (on_conn_run _ _ _ c) by done. intros [= <- <-]. own c (with_iccid iccid c).
    eexists. cbn. by rewrite lookup_insert_eq.
  - rewrite (on_conn_run _ _ _ c) by done. intros [= <- <-]. own c (with_state ConnLoggedIn c).
    + eexists. cbn. by rewrite lookup_insert_eq.
    + unfold touched. cbn. intros [?|?]; [done|]. left. by right.
  - intros [= <- <-]. own c c. cbn. by rewrite insert_id.
Qed.

(** A new connection, with the [Store] that publishes it. *)
Lemma sinv_store cfg w ts L i t id q :
  sinv w ts L -> ts !! i = Some t -> t_code t = Accepting AcStore -> fresh w id q ->
  let w' := set_heap w (<[q := newConnection cfg id (w_now w)]> (w_heap w)) in
  sinv (set_index w' (<[id := q]> (w_connections w')) (w_connCount w'))
    (<[i := mkThread q (Accepting AcCount)]> ts) L.
Proof.
  intros [H1 H2 H3 H4 H5 H6] Hi Ht [Hq Hid] w'.
  assert (forall p c, w_heap w !! p = Some c -> p <> q /\ c_id c <> id) as Hfresh.
  { intros p c Hc. split; [congruence|]. exact (Hid p c Hc). }
  assert (q ∉ L) as HqL by (intros (c & Hc & _)%H3; congruence).
  assert (w_connections w !! id = None) as Hnone.
  { destruct (w_connections w !! id) as [p|] eqn:E; [|done]. apply H2 in E as (c & Hc & He & _).
    by destruct (Hfresh p c Hc). }
  split; cbn.
  - intros p r c d. rewrite !lookup_insert_Some.
    intros [[<- <-]|[? Hc]] [[<- <-]|[? Hd]] He; [done| | |by eapply H1]; cbn in He.
    + by destruct (Hfresh r d Hd).
    + by destruct (Hfresh p c Hc).
  - intros id' p. rewrite lookup_insert_Some, H2. split.
    + intros [[<- <-]|(Hne & c & Hc & ? & ?)]; [eexists; by rewrite lookup_insert_eq|].
      exists c. rewrite lookup_insert_ne; [done|]. destruct (Hfresh p c Hc). congruence.
    + intros (c & Hc & Hcid & HpL). apply lookup_insert_Some in Hc as [[<- <-]|[Hne Hc]]; [by left|].
      right. split; [|by eauto]. intros <-. by destruct (Hfresh p c Hc).
  - intros p HpL. destruct (H3 p HpL) as (c & Hc & ?). exists c. rewrite lookup_insert_ne; [done|].
    by destruct (Hfresh p c Hc).
  - intros p c. rewrite lookup_insert_Some. intros [[<- <-]|[? Hc]] Hto; [by destruct Hto as [|[|]]|].
    destruct (H4 p c Hc Hto) as [?|Hp]; [by left|right]. eapply pending_insert; [exact Hi| |exact Hp].
    unfold in_close. rewrite Ht. done.
  - apply Forall_insert.
    + eapply Forall_impl; [exact H5|]. intros u. apply thread_ok_grows; [|done].
      intros p c Hc. exists c. cbn. rewrite lookup_insert_ne; [done|]. by destruct (Hfresh p c Hc).
    + eexists. cbn. by rewrite lookup_insert_eq.
  - rewrite map_size_insert_None by done. rewrite (tally_insert _ _ _ _ Hi), H6.
    unfold weight. rewrite Ht. cbn. lia.
Qed.

Lemma sinv_accept cfg w ts L i p pc id q pc' w' :
  sinv w ts L -> ts !! i = Some (mkThread p (Accepting pc)) -> (pc = AcStore -> fresh w id q) ->
  acceptStep cfg pc id q w = Ok (pc', w') ->
  sinv w' (<[i := mkThread (if pc' is Some AcCount then q else p) (into Accepting pc')]> ts) L.
Proof.
  intros Hs Hi Hf. pose proof (Forall_lookup_1 _ _ _ _ (si_threads _ _ _ Hs) Hi) as Hok.
  destruct pc; cbn [acceptStep].
  - set (t' := mkThread _ _). intros [= Hpc <-].
    assert (thread_ok w L t' /\ weight t' = 0) as [Ht' Hw]
      by (unfold t'; rewrite <- Hpc; by destruct (_ <=? _)).
    pose proof (sinv_counted w ts L i _ t' Hs Hi Ht' eq_refl) as H. rewrite Hw in H.
    unfold weight in H. cbn in H. rewrite Z.add_0_r, Z.sub_0_r in H. by destruct w.
  - intros [= <- <-]. eapply sinv_store; [done|exact Hi|done|by apply Hf].
  - intros [= <- <-].
    pose proof (sinv_counted w ts L i _ (mkThread p Finished) Hs Hi I eq_refl) as H.
    unfold weight in H. cbn in H. rewrite Z.add_0_r in H.
    by replace (w_connCount w - -1) with (w_connCount w + 1) in H by lia.
Qed.

Lemma sinv_advance cfg w ts L i t id q t' w' :
  sinv w ts L -> ts !! i = Some t -> (draws t = true -> fresh w id q) ->
  advance cfg id q t w = Ok (t', w') -> sinv w' (<[i := t']> ts) (unregisters t ++ L).
Proof.
  intros Hs Hi Hf. destruct t as [p [pc|pc vin iccid|pc|]]; cbn [advance t_code t_conn];
    unfold bindM, ret.
  - destruct (closeStep pc p w) as [[pc' w1]| | |] eqn:E; try done. intros [= <- <-].
    by eapply sinv_close.
  - destruct (loginStep pc p vin iccid w) as [[pc' w1]| | |] eqn:E; try done. intros [= <- <-].
    by eapply sinv_login.
  - destruct (acceptStep cfg pc id q w) as [[pc' w1]| | |] eqn:E; try done. intros [= <- <-].
    eapply sinv_accept; [done|done| |done]. intros ->. by apply Hf.
  - intros [= <- <-]. by rewrite list_insert_id.
Qed.

(** A goroutine that starts. *)
Lemma sinv_spawn w ts L t :
  sinv w ts L -> thread_ok w L t -> weight t = 0 -> sinv w (ts ++ [t]) L.
Proof.
  intros Hs Hok Hw. eapply sinv_change; [exact Hs|done..| | | | | |]; try done.
  - intros p c Hc. by exists c.
  - rewrite tally_app. change (tally [t]) with (weight t + 0). lia.
  - apply Forall_app. split; [apply Hs|by constructor].
  - intros p _ (j & u & Hj & ?). exists j, u. by rewrite (lookup_app_l_Some _ _ _ _ Hj).
  - intros p c c' Hc Hc' ? _. left. by assert (c' = c) as -> by congruence.
Qed.

Lemma sinv_perform cfg a s s' :
  sinv (s_world s) (s_threads s) (s_unregistered s) -> perform cfg a s = Some s' ->
  sinv (s_world s') (s_threads s') (s_unregistered s').
Proof.
  intros Hs. destruct a as [|p vin iccid|p|i id q]; cbn [perform].
  - destruct (existsb _ _); [done|]. intros [= <-]. by apply sinv_spawn.
  - destruct (existsb _ _); [done|]. destruct (w_heap _ !! p) as [c|] eqn:E; [|done].
    intros [= <-]. apply sinv_spawn; [done| |done]. by exists c.
  - destruct (w_heap _ !! p) as [c|] eqn:E; [|done].
    intros [= <-]. apply sinv_spawn; [done| |done]. by exists c.
  - destruct (s_threads s !! i) as [t|] eqn:Hi; [|done].
    destruct (draws t && _) eqn:Hd; [done|].
    destruct (advance cfg id q t (s_world s)) as [[t' w']| | |] eqn:E; try done. intros [= <-].
    eapply sinv_advance; [done|done| |done]. intros Hdr. rewrite Hdr in Hd. cbn in Hd.
    by apply negb_false_iff, bool_decide_eq_true in Hd.
Qed.

Lemma sinv_elsewhere w w' ts L : sinv w ts L -> elsewhere w w' -> sinv w' ts L.
Proof.
  intros Hs (Hh & Hx & Hn & _).
  assert (forall p c', w_heap w' !! p = Some c' -> exists c, w_heap w !! p = Some c /\
    same_lifecycle c c') as Hback.
  { intros p c' Hc'. specialize (Hh p). rewrite Hc' in Hh.
    inversion Hh as [c d Hcd Hc|]. subst. by exists c. }
  assert (grows w w') as Hg.
  { intros p c Hc. specialize (Hh p). rewrite Hc in Hh. inversion Hh as [a c' Hcc Ha Hc'|]. subst.
    destruct Hcc as (? & _ & _ & H1 & H2). exists c'. split_and!; congruence || done. }
  eapply sinv_change; [exact Hs|done|done|exact Hg| |done| |done|].
  - intros p [c' Hc']. destruct (Hback p c' Hc') as (c & ? & _). by exists c.
  - eapply Forall_impl; [apply Hs|]. intros u. by apply thread_ok_grows.
  - intros p c c' Hc Hc' Ht _. left. destruct (Hback p c' Hc') as (c0 & Hc0 & ? & Hst & _ & Hx1 & Hx2).
    assert (c0 = c) as -> by congruence. unfold touched in *. by rewrite Hst, Hx1, Hx2 in Ht.
Qed.

Lemma interleaved_inv cfg s :
  interleaved cfg s -> sinv (s_world s) (s_threads s) (s_unregistered s).
Proof.
  induction 1 as [t|a s s' _ IH Hp|w s _ IH He].
  - split; cbn; try done.
    + intros id p. split; [|intros (c & Hc & _)]; by rewrite lookup_empty.
    + by intros p ?%not_elem_of_nil.
  - by eapply sinv_perform.
  - by eapply sinv_elsewhere.
Qed.

Lemma remove_dups_length (l : list ptr) : (length (remove_dups l) <= length l)%nat.
Proof. induction l as [|x l IH]; [done|]. cbn. destruct (decide_rel _ _ _); cbn; lia. Qed.

(** C4: ([Close], [unregister], logins and the accept loop, statement by
    statement, in any interleaving with each other and with the rest of the
    server.)  Once every goroutine is through, each connection is either open
    and in the index under its identifier, or its context is cancelled, its
    network connection closed and it is out of the index, and that is so exactly
    when [unregister] was called for it; a connection in state [ConnClosed]
    is closed as a whole.  The connection count is the size of the index less
    the calls of [unregister] for a connection it had been called for: it is exact
    when no connection was unregistered twice. *)
Theorem closes_interleave cfg s :
  interleaved cfg s -> quiescent s ->
  (forall p c, w_heap (s_world s) !! p = Some c ->
    (p ∈ s_unregistered s <-> c_netClosed c = true) /\ c_ctxDone c = c_netClosed c /\
    (c_state c = ConnClosed -> c_netClosed c = true) /\
    (w_connections (s_world s) !! c_id c = Some p <-> c_netClosed c = false)) /\
  w_connCount (s_world s) = Z.of_nat (size (w_connections (s_world s))) - repeated s /\
  0 <= repeated s.
Proof.
  intros Hs Hq. apply interleaved_inv in Hs. destruct Hs as [H1 H2 H3 H4 H5 H6].
  rewrite (tally_finished _ Hq) in H6. split; [|split; [unfold repeated; lia|]].
  - intros p c Hc.
    assert (touched c -> p ∈ s_unregistered s) as Hto.
    { intros Ht. destruct (H4 p c Hc Ht) as [?|(j & t & Hj & _ & Hin)]; [done|].
      pose proof (Forall_lookup_1 _ _ _ _ Hq Hj) as Hf. cbn in Hf. unfold in_close in Hin. by rewrite Hf in Hin. }
    assert (p ∈ s_unregistered s -> c_ctxDone c = true /\ c_netClosed c = true) as Hgone.
    { intros (d & Hd & ? & ?)%H3. by assert (d = c) as -> by congruence. }
    assert (p ∈ s_unregistered s <-> c_netClosed c = true) as Hiff.
    { split; [by intros [_ ?]%Hgone|]. intros ?. apply Hto. by right; right. }
    split_and!; [done| | |].
    + destruct (c_ctxDone c) eqn:E1, (c_netClosed c) eqn:E2; try done; symmetry.
      * destruct Hgone; [apply Hto; by right; left|done].
      * destruct Hgone; [by apply Hiff|done].
    + intros ?. apply Hiff, Hto. by left.
    + rewrite H2. split.
      * intros (d & Hd & _ & HL). destruct (c_netClosed c); [by destruct HL; apply Hiff|done].
      * intros Hn. exists c. split_and!; [done..|]. rewrite Hiff, Hn. done.
  - unfold repeated, len. pose proof (remove_dups_length (s_unregistered s)). lia.
Qed.

(** ** The connection limit *)

Lemma tally_nonneg ts : (forall i t, ts !! i = Some t -> 0 <= weight t) -> 0 <= tally ts.
Proof.
  induction ts as [|t ts IH]; intros H; [done|]. change (0 <= weight t + tally ts).
  pose proof (H O t eq_refl). pose proof (IH (fun i => H (S i))). lia.
Qed.

(** A statement other than the accept loop's leaves the count and the index
    where they are or lower. *)
Definition shrinks (w w' : World) : Prop :=
  w_connCount w' <= w_connCount w /\ (size (w_connections w') <= size (w_connections w))%nat.

Lemma on_conn_index p f w u w' :
  on_conn p f w = Ok (u, w') -> w_connections w' = w_connections w /\ w_connCount w' = w_connCount w.
Proof. unfold on_conn, bindM, conn, put_conn. destruct (w_heap w !! p); cbn; [by intros [= _ <-]|done]. Qed.

Lemma shrinks_eq w w' :
  w_connections w' = w_connections w /\ w_connCount w' = w_connCount w -> shrinks w w'.
Proof. intros [E1 E2]. unfold shrinks. by rewrite E1, E2. Qed.

Lemma closeStep_shrinks pc p w pc' w' : closeStep pc p w = Ok (pc', w') -> shrinks w w'.
Proof.
  assert (forall f (r : option closePc), (on_conn p f;; ret r) w = Ok (pc', w') -> shrinks w w') as Hf.
  { intros f r. unfold bindM. destruct (on_conn p f w) as [[u w1]| | |] eqn:E; cbn; try done.
    intros [= _ <-]. by eapply shrinks_eq, on_conn_index. }
  destruct pc; cbn [closeStep]; try apply Hf.
  - unfold bindM, conn. destruct (w_heap w !! p); cbn; [|done]. intros [= _ <-]. done.
  - unfold netClose, bindM, conn. destruct (w_heap w !! p) as [c|]; cbn; [|done].
    destruct (c_netClosed c); cbn; [by intros [= _ <-]|].
    unfold bindM. destruct (on_conn p with_netClosed w) as [[u w1]| | |] eqn:E; cbn; try done.
    intros [= _ <-]. apply shrinks_eq. exact (on_conn_index _ _ _ _ _ E).
  - unfold bindM, conn. destruct (w_heap w !! p) as [c|]; cbn; [|done]. intros [= _ <-].
    split; cbn; [done|]. rewrite map_size_delete. unfold id. case_match; lia.
  - intros [= _ <-]. split; cbn; lia.
  - unfold bindM, conn. destruct (w_heap w !! p) as [c|]; cbn; [|done].
    destruct (decide _); by intros [= _ <-].
Qed.

Lemma loginStep_shrinks pc p vin iccid w pc' w' :
  loginStep pc p vin iccid w = Ok (pc', w') -> shrinks w w'.
Proof.
  destruct pc; cbn [loginStep]; unfold bindM at 1;
    try (destruct (on_conn p _ w) as [[u w1]| | |] eqn:E; cbn; try done;
         intros [= _ <-]; by eapply shrinks_eq, on_conn_index).
  by intros [= _ <-].
Qed.

Lemma advance_shrinks cfg id q t t' w w' :
  advance cfg id q t w = Ok (t', w') -> is_accepting t = false ->
  shrinks w w' /\ is_accepting t' = false.
Proof.
  destruct t as [p [pc|pc vin iccid|pc|]]; try done; cbn [advance t_code t_conn]; unfold bindM, ret.
  - destruct (closeStep pc p w) as [[pc' w1]| | |] eqn:E; cbn; try done. intros [= <- <-] _.
    split; [by eapply closeStep_shrinks|by destruct pc'].
  - destruct (loginStep pc p vin iccid w) as [[pc' w1]| | |] eqn:E; cbn; try done. intros [= <- <-] _.
    split; [by eapply loginStep_shrinks|by destruct pc'].
  - by intros [= <- <-] _.
Qed.

Lemma remove_dups_NoDup (l : list ptr) : NoDup l -> remove_dups l = l.
Proof.
  induction 1 as [|x l Hx _ IH]; [done|]. cbn. destruct (decide_rel _ _ _); [done|]. by rewrite IH.
Qed.

(** One accept loop, whose next [Store] keeps to the limit. *)
Definition one_acceptor (ts : list thread) : Prop :=
  forall i j t u, ts !! i = Some t -> ts !! j = Some u ->
  is_accepting t = true -> is_accepting u = true -> i = j.

Record linv (cfg : Config) (s : sys) : Prop := {
  li_one : one_acceptor (s_threads s);
  li_room : NoDup (s_unregistered s) -> forall i t, s_threads s !! i = Some t -> draws t = true ->
    w_connCount (s_world s) < cfg_maxConns cfg;
  li_size : NoDup (s_unregistered s) ->
    Z.of_nat (size (w_connections (s_world s))) <= Z.max 0 (cfg_maxConns cfg)
}.

Lemma draws_accepting t : draws t = true -> is_accepting t = true.
Proof. unfold draws, is_accepting. by destruct (t_code t) as [| |[]|]. Qed.

Lemma one_acceptor_insert ts i t t' :
  one_acceptor ts -> ts !! i = Some t -> (is_accepting t' = true -> is_accepting t = true) ->
  one_acceptor (<[i := t']> ts).
Proof.
  intros H Hi Ht j k u v. rewrite !list_lookup_insert_Some.
  intros [(<- & -> & _)|[? Hj]] [(<- & -> & _)|[? Hk]] Hu Hv; [done|..]; eauto.
Qed.

Lemma one_acceptor_spawn ts t :
  one_acceptor ts -> (is_accepting t = true -> existsb is_accepting ts = false) ->
  one_acceptor (ts ++ [t]).
Proof.
  intros H Ht.
  assert (forall i u, ts !! i = Some u -> is_accepting u = true -> is_accepting t = true -> False) as Hno.
  { intros i u Hi Hu Hat. specialize (Ht Hat). assert (existsb is_accepting ts = true); [|congruence].
    apply existsb_exists. exists u. split; [|done]. by eapply list_elem_of_In, list_elem_of_lookup_2. }
  intros i j u v. rewrite !lookup_app_Some, !list_lookup_singleton_Some.
  intros [Hi|(? & Hi & <-)] [Hj|(? & Hj & <-)] Hu Hv.
  - by eapply H.
  - by destruct (Hno i u).
  - by destruct (Hno j v).
  - lia.
Qed.

(** A statement of the accept loop; behind the check of the limit the count can
    only have gone down. *)
Lemma linv_accept cfg s i t id q t' w' :
  sinv (s_world s) (s_threads s) (s_unregistered s) -> linv cfg s ->
  s_threads s !! i = Some t -> is_accepting t = true ->
  advance cfg id q t (s_world s) = Ok (t', w') ->
  linv cfg (mkSys w' (<[i := t']> (s_threads s)) (unregisters t ++ s_unregistered s)).
Proof.
  intros Hs [H1 H2 H3] Hi Ha E.
  assert (one_acceptor (<[i := t']> (s_threads s))) as Hone by (by eapply one_acceptor_insert).
  assert (forall j u, <[i := t']> (s_threads s) !! j = Some u -> draws u = true -> u = t') as Honly.
  { intros j u Hj Hu%draws_accepting. apply list_lookup_insert_Some in Hj as [(_ & -> & _)|[Hne Hj]]; [done|].
    by destruct (Hne (H1 _ _ _ _ Hi Hj Ha Hu)). }
  destruct t as [p [| |pc|]]; try done. cbn [advance t_code t_conn] in E. unfold bindM, ret in E.
  destruct pc; cbn in E; injection E as Et Ew; subst w'; split; try done; cbn; intros HL.
  - intros j u Hj Hu. rewrite (Honly j u Hj Hu) in Hu. subst t'.
    destruct (Z.leb_spec (cfg_maxConns cfg) (w_connCount (s_world s))); [done|lia].
  - intros j u Hj Hu. rewrite (Honly j u Hj Hu) in Hu. by subst t'.
  - pose proof (H2 HL i _ Hi eq_refl) as Hroom.
    assert (0 <= tally (s_threads s)) as Htally.
    { apply tally_nonneg. intros j u Hj. destruct (is_accepting u) eqn:Hu.
      - assert (u = mkThread p (Accepting AcStore)) as -> by
          (assert (j = i) as -> by (by eapply H1); congruence). done.
      - unfold weight. unfold is_accepting in Hu. by destruct (t_code u) as [[]| |[]|]. }
    pose proof (si_count _ _ _ Hs) as Hn.
    assert (len (remove_dups (s_unregistered s)) = len (s_unregistered s)) as Hd
      by (by rewrite remove_dups_NoDup).
    pose proof (map_size_insert id q (w_connections (s_world s))) as Hsz. rewrite Hsz.
    case_match; unfold Datatypes.id in *; lia.
  - intros j u Hj Hu. rewrite (Honly j u Hj Hu) in Hu. by subst t'.
Qed.

Lemma linv_perform cfg a s s' :
  interleaved cfg s -> linv cfg s -> perform cfg a s = Some s' -> linv cfg s'.
Proof.
  intros Hil [H1 H2 H3]. apply interleaved_inv in Hil.
  assert (forall t, draws t = false -> (is_accepting t = true -> existsb is_accepting (s_threads s) = false) ->
    linv cfg (spawn s t)) as Hspawn.
  { intros t Hd Ha. split; cbn; [by apply one_acceptor_spawn| |done].
    intros HL i u [?|(_ & [_ <-]%list_lookup_singleton_Some)]%lookup_app_Some ?; [by eapply H2|congruence]. }
  destruct a as [|p vin iccid|p|i id q]; cbn [perform].
  - destruct (existsb _ _) eqn:E; [done|]. intros [= <-]. by apply Hspawn.
  - destruct (existsb (is_login p) _); [by intros|]. destruct (w_heap _ !! p); [|done]. intros [= <-]. by apply Hspawn.
  - destruct (w_heap _ !! p); [|done]. intros [= <-]. by apply Hspawn.
  - destruct (s_threads s !! i) as [t|] eqn:Hi; [|done]. destruct (draws t && _); [done|].
    destruct (advance cfg id q t (s_world s)) as [[t' w']| | |] eqn:E; try done. intros [= <-].
    assert (NoDup (unregisters t ++ s_unregistered s) -> NoDup (s_unregistered s)) as HL
      by (rewrite NoDup_app; by intros (_ & _ & ?)).
    destruct (is_accepting t) eqn:Ha.
    + eapply linv_accept; eauto. by split.
    + destruct (advance_shrinks _ _ _ _ _ _ _ E Ha) as [[? ?] Ha']. split; cbn.
      * eapply one_acceptor_insert; [done..|congruence].
      * intros Hn j u. rewrite list_lookup_insert_Some. intros [(<- & -> & _)|[_ Hj]] Hu.
        -- apply draws_accepting in Hu. congruence.
        -- pose proof (H2 (HL Hn) j u Hj Hu). lia.
      * intros Hn. pose proof (H3 (HL Hn)). lia.
Qed.

Lemma interleaved_limit cfg s : interleaved cfg s -> linv cfg s.
Proof.
  induction 1 as [t|a s s' Hs IH Hp|w s Hs [H1 H2 H3] (_ & Hx & Hn & _)].
  - split; cbn; intros; try done. rewrite map_size_empty. lia.
  - by eapply linv_perform.
  - split; cbn; rewrite ?Hx, ?Hn; auto.
Qed.

(** C17: ([Start] with everything that can close connections.)  The limit
    is kept at every point of every interleaving as long as no connection was
    unregistered twice: there are never more than [maxConns] connections in
    the index, although the accept loop checks the count some statements before
    it adds to it. *)
Theorem limit_kept cfg s :
  interleaved cfg s -> NoDup (s_unregistered s) ->
  Z.of_nat (size (w_connections (s_world s))) <= Z.max 0 (cfg_maxConns cfg).
Proof. intros Hs. apply (interleaved_limit cfg s Hs). Qed.

(** ** Run alone, the statements are the operations *)

Ltac run_alone :=
  repeat first
    [ progress cbn
    | progress unfold finish, advance, closeStep, loginStep, on_conn, netClose, unregister, emit,
        bindM, conn, put_conn, ret
    | rewrite lookup_insert_eq ].

(** A goroutine that is not interrupted does what the operation of
    the transition system does in one step: the statements of [Close] make
    [Connection_Close], those of the accept loop make [accept], and the four
    assignments are the ones a login makes before it calls the user. *)
Theorem statements_are_operations cfg id q p c w :
  w_heap w !! p = Some c ->
  finish cfg 8 id q (mkThread p (Closing ClState)) w =
    (let! '(_, w') := Connection_Close p w in Ok (mkThread p Finished, w')) /\
  finish cfg 3 id q (mkThread p (Accepting AcLimit)) w =
    (let! '(ok, w') := accept cfg id q w in Ok (mkThread (if ok : bool then q else p) Finished, w')) /\
  (forall pkt data, cfg_auth cfg = false -> cfg_handler cfg = false ->
    DecodeLoginData (p_Data pkt) = Ok data ->
    handleLogin cfg p pkt w =
      (let! '(_, w') := finish cfg 4 id q (mkThread p (LoggingIn LgVIN (p_VIN pkt) (vl_ICCID data))) w in
       forward cfg (newForwardMsg "login" (p_VIN pkt) (FwdLogin data)) w')).
Proof.
  intros Hc. split_and!.
  - unfold Connection_Close. cbn [finish]. unfold bindM, conn at 1. run_alone.
    unfold conn. rewrite Hc. cbn. destruct (decide (c_state c = ConnClosed)) as [|_]; [done|].
    run_alone. rewrite Hc. run_alone. destruct (c_netClosed c); run_alone;
      destruct (decide (c_vin c = [])); by run_alone.
  - unfold accept. cbn. unfold bindM. cbn. by destruct (cfg_maxConns cfg <=? w_connCount w).
  - intros pkt data Ha Hh Hd. unfold handleLogin. rewrite Ha, Hh. cbn. unfold try, bindM.
    cbn. rewrite Hd. run_alone. rewrite Hc. by run_alone.
Qed.

(** ** The orders that go wrong *)

(** The server of [Sessions] with room for one connection. *)
Definition narrow_config : Config :=
  mkConfig true true false false false 1 TimeCodecBCD false 1 600000000000 sample_user.

Definition sample_sys : sys := mkSys sample_start [] [].

(** Statement after statement of one goroutine. *)
Definition on (i n : nat) (id : gostring) (p : ptr) : list action := replicate n (Exec i id p).

Definition arrival (i : nat) (id : gostring) (p : ptr) : list action := Arrive :: on i 3 id p.

(** Two [Close] of one connection, both past the check before either stores. *)
Definition double_close_run : list action :=
  arrival 0 [1] 1 ++ [StartClose 1; StartClose 1; Exec 1 [] 1; Exec 2 [] 1] ++
  on 1 7 [] 1 ++ on 2 7 [] 1 ++ arrival 3 [2] 2 ++ arrival 4 [3] 3.

Lemma perform_all_interleaved cfg acts s s' :
  interleaved cfg s -> perform_all cfg acts s = Some s' -> interleaved cfg s'.
Proof.
  revert s. induction acts as [|a acts IH]; intros s Hs; cbn; [by intros [= <-]|].
  destruct (perform cfg a s) as [s1|] eqn:E; [|done]. apply IH. by eapply il_perform.
Qed.

Definition quiescentb (s : sys) : bool :=
  forallb (fun t => match t_code t with Finished => true | _ => false end) (s_threads s).

Lemma quiescentb_spec s : quiescentb s = true -> quiescent s.
Proof.
  unfold quiescentb, quiescent. rewrite forallb_forall. intros H. apply Forall_forall.
  intros t Ht%list_elem_of_In. specialize (H t Ht). by destruct (t_code t).
Qed.

(** A run to a state that passes a test. *)
Lemma perform_all_reaches cfg acts s (P : sys -> bool) :
  interleaved cfg s -> (if perform_all cfg acts s is Some s' then P s' else false) = true ->
  exists s', interleaved cfg s' /\ P s' = true.
Proof.
  intros Hs. destruct (perform_all cfg acts s) as [s'|] eqn:E; [|done]. intros HP. exists s'.
  split; [by eapply perform_all_interleaved|done].
Qed.

(** Two goroutines that call [Close] on one connection (the read loop
    and the idle check, say, or [Stop] and the user) can both pass the check of the state:
    the connection is counted out twice, and from then on a server whose limit
    is one connection keeps two. *)
Theorem double_close :
  exists s, interleaved narrow_config s /\ quiescent s /\ repeated s = 1 /\
    w_connCount (s_world s) = 1 /\ size (w_connections (s_world s)) = 2%nat /\
    cfg_maxConns narrow_config = 1.
Proof.
  destruct (perform_all_reaches narrow_config double_close_run sample_sys (fun s => quiescentb s &&
    bool_decide ((repeated s, w_connCount (s_world s), size (w_connections (s_world s))) = (1, 1, 2%nat))))
    as (s & Hs & [Hq [= ? ? ?]%bool_decide_eq_true]%andb_prop); [apply il_start|by vm_compute|].
  exists s. split_and!; try done. by apply quiescentb_spec.
Qed.

(** A [Close] from its first to its last statement in the middle of a login. *)
Definition login_leak_run : list action :=
  arrival 0 [1] 1 ++ StartLogin 1 vinA [49] :: on 1 3 [] 1 ++ StartClose 1 :: on 2 8 [] 1 ++ on 1 1 [] 1.

(** A [Close] between the [state.Store] and the [vinRegistry.add] of a
    login removes a registration that is not there yet; the login then adds it.
    The connection is closed, in no index, and [GetConnectionByVIN] answers
    its VIN with it from then on: closing it again does nothing. *)
Theorem login_leak :
  exists s c, interleaved sample_config s /\ quiescent s /\
    w_heap (s_world s) !! 1%positive = Some c /\ c_state c = ConnClosed /\ c_netClosed c = true /\
    w_connections (s_world s) = ∅ /\
    GetConnectionByVIN vinA (s_world s) = Ok (Some 1%positive, s_world s) /\
    Connection_Close 1%positive (s_world s) = Ok (tt, s_world s).
Proof.
  destruct (perform_all_reaches sample_config login_leak_run sample_sys (fun s => quiescentb s &&
    bool_decide ((get (w_vinRegistry (s_world s)) vinA, w_connections (s_world s),
      (fun c => (c_state c, c_netClosed c)) <$> w_heap (s_world s) !! 1%positive) =
      (Some 1%positive, ∅, Some (ConnClosed, true)))))
    as (s & Hs & [Hq [= Hr Hx Hc]%bool_decide_eq_true]%andb_prop); [apply il_start|by vm_compute|].
  destruct (w_heap (s_world s) !! 1%positive) as [c|] eqn:E; [|done]. injection Hc as Hst Hn.
  exists s, c. split_and!; try done; [by apply quiescentb_spec| |].
  - unfold GetConnectionByVIN. by rewrite Hr.
  - unfold Connection_Close, bindM, conn. rewrite E. cbn. by rewrite decide_True.
Qed.

(** ** Witnesses *)

Lemma closes_interleave_witness :
  exists s, repeated s = 1 /\
    w_connCount (s_world s) = Z.of_nat (size (w_connections (s_world s))) - 1.
Proof.
  destruct (perform_all_reaches narrow_config double_close_run sample_sys (fun s => quiescentb s &&
    bool_decide (repeated s = 1))) as (s & Hs & [Hq Hr%bool_decide_eq_true]%andb_prop);
    [apply il_start|by vm_compute|].
  exists s. split; [done|].
  destruct (closes_interleave narrow_config s Hs (quiescentb_spec s Hq)) as (_ & Hn & _).
  by rewrite Hn, Hr.
Defined.

(** A connection that is replaced while it closes: the second one waits for the count. *)
Lemma limit_kept_witness :
  exists s, s_unregistered s = [1%positive] /\ Z.of_nat (size (w_connections (s_world s))) <= 1.
Proof.
  destruct (perform_all_reaches narrow_config
    (arrival 0 [1] 1 ++ StartClose 1 :: on 1 6 [] 1 ++ arrival 2 [2] 2 ++ on 1 2 [] 1 ++ arrival 3 [3] 3)
    sample_sys (fun s => bool_decide (s_unregistered s = [1%positive])))
    as (s & Hs & Hu%bool_decide_eq_true); [apply il_start|by vm_compute|].
  exists s. split; [done|]. apply (limit_kept narrow_config s Hs). rewrite Hu. apply NoDup_singleton.
Defined.

Lemma statements_are_operations_witness :
  exists t w, finish sample_config 8 [] 1 (mkThread 1 (Closing ClState)) sample_world = Ok (t, w) /\
    w_connCount w = 0.
Proof.
  pose (c := newConnection sample_config [105; 100] (Date 2024 1 1 0 0 0 0)).
  assert (w_heap sample_world !! 1%positive = Some c) as Hc by reflexivity.
  destruct (statements_are_operations sample_config [] 1 1 c sample_world Hc) as (H & _).
  rewrite H, (Connection_Close_eq 1 sample_world c Hc (newConnection_ok _ _ _)). cbn [bind].
  rewrite decide_False by done. by eexists _, _.
Defined.
