(* ===== verification/Writers.v ===== *)
(** * Several senders on one connection ([Send] of [conn.go])

    [Send] holds [writeMu] from its first statement to its last; the user, the read
    loop and the idle check call it at the same time.  Here its statements are
    interleaved with those of other [Send]s on the connection and with whatever the
    rest of the process does to the connection meanwhile, and a write hands its
    bytes to the network piece by piece.  The vehicle gets whole frames, one behind the
    other ([senders_take_turns]); [Connection.Send] is one of the orders
    ([send_alone]); and a write that fails half-way spoils what comes behind it
    ([torn_frame]). *)
From stdpp Require Import gmap.
From S2P Require Import Prelude.
From S2P Require Import GoTime.
From S2P Require Import Constant.
From S2P Require Import Packet.
From S2P Require Import Framing.
From S2P Require Import FramingSpec.
From S2P Require Import Stream.
From S2P Require Import Aes.
From S2P Require Import Crypto.
From S2P Require Import Registry.
From S2P Require Import World.
From S2P Require Import Connection.
From S2P Require Import Server.
From S2P Require Import Sessions.

(** ** Statements *)

(** In front of a statement of [Send], or returned; [SnWrite] has handed the first
    part of its frame to the network and not the second.  The packet is kept for the
    specification. *)
Inductive sendPc :=
  | SnLock
  | SnState
  | SnDeadline
  | SnSeal
  | SnEncrypt
  | SnEncode (body : bytes) (encType : byte)
  | SnWrite (pkt : Packet) (written rest : bytes)
  | SnReturned (pkt : Packet + goerr).

Record sender := mkSender { sn_command : byte; sn_data : bytes; sn_pc : sendPc }.

(** The packet in the frame [EncodeResponse] builds. *)
Definition response (command : byte) (vin : gostring) (encType : byte) (data : bytes) : Packet :=
  mkPacket command RespSuccess vin (if encType =? 0 then EncNone else encType) data (len data).

(** One statement between taking the lock and writing.  The key is read twice, and
    another goroutine may have assigned to it in between. *)
Definition sendStep (c : Connection) (s : sender) : outcome sendPc :=
  match sn_pc s with
  | SnState => Ok (if decide (c_state c = ConnClosed) then SnReturned (inr ErrClosed) else SnDeadline)
  | SnDeadline => Ok SnSeal
  | SnSeal =>
      Ok (match c_encryptKey c with
          | Some _ => if 0 <? len (sn_data s) then SnEncrypt else SnEncode (sn_data s) EncNone
          | None => SnEncode (sn_data s) EncNone
          end)
  | SnEncrypt =>
      match EncryptAES128 (sn_data s) (default [] (c_encryptKey c)) with
      | Ok body => Ok (SnEncode body EncAES128)
      | Err err => Ok (SnReturned (inr err))
      | Panic => Panic
      | OutOfFuel => OutOfFuel
      end
  | SnEncode body encType =>
      match EncodeResponse (sn_command s) (c_vin c) encType body with
      | Ok pkt => Ok (SnWrite (response (sn_command s) (c_vin c) encType body) [] pkt)
      | Err err => Ok (SnReturned (inr err))
      | Panic => Panic
      | OutOfFuel => OutOfFuel
      end
  | pc => Ok pc
  end.

(** ** The system *)

(** The connection, the clock and the write deadline in nanoseconds, the holder of
    [writeMu], the calls of [Send], and the bytes the network has taken; for the
    specification the packets written, in order, and whether a write failed half-way. *)
Record wsys := mkWsys {
  ws_conn : Connection;
  ws_now : Z;
  ws_deadline : option Z;
  ws_holder : option nat;
  ws_senders : list sender;
  ws_wire : bytes;
  ws_sent : list Packet;
  ws_torn : bool
}.

Section writers.
Context (writeTimeout : int).

(** A call whose body fits the length field, encrypted or not. *)
Definition call_ok (command : byte) (data : bytes) : Prop :=
  is_byte command /\ all_bytes data /\ len data + 16 < 65536.

(** What the rest of the process may make of the connection. *)
Definition sendable (c : Connection) : Prop := conn_ok c /\ all_bytes (c_vin c).

Definition at_pc (s : sender) (pc : sendPc) : sender := mkSender (sn_command s) (sn_data s) pc.

(** The deferred unlock goes with the return. *)
Definition holder_after (i : nat) (pc : sendPc) : option nat :=
  match pc with SnReturned _ => None | _ => Some i end.

Definition newDeadline (pc : sendPc) (now : Z) (d : option Z) : option Z :=
  match pc with
  | SnDeadline => if 0 <? writeTimeout then Some (now + writeTimeout) else d
  | _ => d
  end.

Inductive wstep : wsys -> wsys -> Prop :=
  | ws_call c t d h ss wire sent torn command data :
      call_ok command data ->
      wstep (mkWsys c t d h ss wire sent torn)
        (mkWsys c t d h (ss ++ [mkSender command data SnLock]) wire sent torn)
  | ws_other c c' t t' d h ss wire sent torn :
      sendable c' -> (c_netClosed c = true -> c_netClosed c' = true) -> t <= t' ->
      wstep (mkWsys c t d h ss wire sent torn) (mkWsys c' t' d h ss wire sent torn)
  | ws_lock c t d ss wire sent torn i s :
      ss !! i = Some s -> sn_pc s = SnLock ->
      wstep (mkWsys c t d None ss wire sent torn)
        (mkWsys c t d (Some i) (<[i := at_pc s SnState]> ss) wire sent torn)
  | ws_exec c t d ss wire sent torn i s pc :
      ss !! i = Some s -> sendStep c s = Ok pc -> pc <> sn_pc s ->
      wstep (mkWsys c t d (Some i) ss wire sent torn)
        (mkWsys c t (newDeadline (sn_pc s) t d) (holder_after i pc) (<[i := at_pc s pc]> ss) wire sent torn)
  | ws_write c t d ss wire sent torn i s pkt written taken rest :
      ss !! i = Some s -> sn_pc s = SnWrite pkt written (taken ++ rest) -> taken <> [] ->
      c_netClosed c = false -> (forall l, d = Some l -> t <= l) ->
      wstep (mkWsys c t d (Some i) ss wire sent torn)
        (mkWsys c t d (Some i) (<[i := at_pc s (SnWrite pkt (written ++ taken) rest)]> ss) (wire ++ taken) sent torn)
  | ws_written c t d ss wire sent torn i s pkt written :
      ss !! i = Some s -> sn_pc s = SnWrite pkt written [] ->
      wstep (mkWsys c t d (Some i) ss wire sent torn)
        (mkWsys c t d None (<[i := at_pc s (SnReturned (inl pkt))]> ss) wire (sent ++ [pkt]) torn)
  | ws_fail c t d ss wire sent torn i s pkt written rest err :
      ss !! i = Some s -> sn_pc s = SnWrite pkt written rest -> rest <> [] ->
      wstep (mkWsys c t d (Some i) ss wire sent torn)
        (mkWsys c t d None (<[i := at_pc s (SnReturned (inr err))]> ss) wire sent
           (torn || bool_decide (written <> []))).

(** A connection nobody has written to. *)
Definition wstart (c : Connection) (t : Z) : wsys := mkWsys c t None None [] [] [] false.

Definition wreachable (s : wsys) : Prop :=
  exists c t, sendable c /\ rtc wstep (wstart c t) s.
End writers.

(** ** Lemmas *)

(** The calls that returned [nil], with their packets. *)
Definition delivered (ss : list sender) : list Packet :=
  omap (fun s => match sn_pc s with SnReturned (inl pkt) => Some pkt | _ => None end) ss.

(** What has been written of the frame the holder of the lock is writing. *)
Definition half_written (h : option nat) (ss : list sender) : bytes :=
  match h ≫= (fun i => ss !! i) with
  | Some s => match sn_pc s with SnWrite _ written _ => written | _ => [] end
  | None => []
  end.

#[local] Arguments delivered : simpl never.
#[local] Arguments half_written : simpl never.

(** A packet [Send] makes of its arguments: the data, or the data encrypted. *)
Definition packet_of (s : sender) (pkt : Packet) : Prop :=
  packet_wf pkt /\ p_Command pkt = sn_command s /\ p_Response pkt = RespSuccess /\
  ((p_EncryptType pkt = EncNone /\ p_Data pkt = sn_data s) \/
   (p_EncryptType pkt = EncAES128 /\ exists key, is_block key /\ EncryptAES128 (sn_data s) key = Ok (p_Data pkt))).

Definition body_of (s : sender) (body : bytes) (e : byte) : Prop :=
  (e = EncNone /\ body = sn_data s) \/
  (e = EncAES128 /\ exists key, is_block key /\ EncryptAES128 (sn_data s) key = Ok body).

Definition sender_ok (s : sender) : Prop :=
  call_ok (sn_command s) (sn_data s) /\
  match sn_pc s with
  | SnEncode body e => body_of s body e
  | SnWrite pkt written rest => packet_of s pkt /\ written ++ rest = packet_frame pkt
  | SnReturned (inl pkt) => packet_of s pkt
  | _ => True
  end.

(** Only the holder of the lock is between taking and releasing it. *)
Definition inside (pc : sendPc) : Prop :=
  match pc with SnLock | SnReturned _ => False | _ => True end.

Record winv (s : wsys) : Prop := {
  wi_conn : sendable (ws_conn s);
  wi_senders : Forall sender_ok (ws_senders s);
  wi_lock : forall i x, ws_senders s !! i = Some x -> (ws_holder s = Some i <-> inside (sn_pc x));
  wi_holder : forall i, ws_holder s = Some i -> is_Some (ws_senders s !! i);
  wi_wire : ws_torn s = false ->
    ws_wire s = concat (packet_frame <$> ws_sent s) ++ half_written (ws_holder s) (ws_senders s);
  wi_sent : ws_sent s ≡ₚ delivered (ws_senders s);
  wi_wf : Forall packet_wf (ws_sent s)
}.

Lemma body_of_wf s body e : call_ok (sn_command s) (sn_data s) -> body_of s body e ->
  all_bytes body /\ len body < 65536 /\ is_byte e /\ e <> 0.
Proof.
  intros (_ & Hb & Hl) [[-> ->]|[-> (key & [Hkl Hkb] & He)]].
  - split_and!; [done|lia|by split|done].
  - destruct (encrypt_decrypt (sn_data s) key Hb Hkb ltac:(unfold len; lia)) as (x & Hx & Hlx & Hbx & _).
    assert (x = body) as -> by congruence. split_and!; [done| |by split|done]. rewrite Hlx.
    pose proof (len_nonneg (sn_data s)). assert (16 * (len (sn_data s) / 16) <= len (sn_data s)) by (apply Z.mul_div_le; lia).
    lia.
Qed.

Lemma response_packet s c body e : sendable c -> call_ok (sn_command s) (sn_data s) -> body_of s body e ->
  len (c_vin c) = VINLength ->
  packet_of s (response (sn_command s) (c_vin c) e body) /\
  packet_frame (response (sn_command s) (c_vin c) e body) =
    frame (sn_command s) RespSuccess (c_vin c) (if e =? 0 then EncNone else e) body.
Proof.
  intros [_ Hv] Hcall Hbody Hl. destruct (body_of_wf s body e Hcall Hbody) as (Hb & Hbl & He & Hne).
  split; [|done]. pose proof (len_nonneg body). unfold response. rewrite (proj2 (Z.eqb_neq e 0)) by done.
  split; [|split; [done|split; [done|exact Hbody]]].
  unfold packet_wf. cbn. split_and!; try done; try apply Hcall; unfold is_uint16, RespSuccess, is_byte; lia.
Qed.

(** A statement keeps a call well-formed, and stays inside unless it returns. *)
Lemma sendStep_ok c s pc : sendable c -> sender_ok s -> inside (sn_pc s) -> sendStep c s = Ok pc -> pc <> sn_pc s ->
  sender_ok (at_pc s pc) /\ (inside pc \/ exists err, pc = SnReturned (inr err)) /\
  (forall pkt written rest, sn_pc s <> SnWrite pkt written rest) /\
  (forall pkt written rest, pc = SnWrite pkt written rest -> written = []).
Proof.
  intros Hc [Hcall Hpc] Hin Hs Hne. unfold sendStep in Hs. destruct (sn_pc s) as [| | | | |body e|pkt wr rest|r] eqn:E; try done.
  - injection Hs as <-. destruct (decide _); split_and!; try done; [right; by eexists|by left].
  - injection Hs as <-. split_and!; try done. by left.
  - injection Hs as <-. destruct (c_encryptKey c); [destruct (0 <? _)|];
      (split_and!; [split; [done|]; first [exact I|by left]|by left|done|done]).
  - destruct (EncryptAES128 _ _) as [body|err| |] eqn:Ee; try done; injection Hs as <-.
    + split_and!; [|by left|done|done]. split; [done|]. right. split; [done|].
      destruct (c_encryptKey c) as [k|] eqn:Ek; [|done]. exists k. split; [|done]. destruct Hc as [(_ & Hk & _) _]. by apply Hk.
    + split_and!; [by split|right; by eexists|done|done].
  - rewrite EncodeResponse_frame in Hs. destruct (Z.eqb_spec (len (c_vin c)) VINLength) as [Hl|Hl]; injection Hs as <-.
    + destruct (response_packet s c body e Hc Hcall Hpc Hl) as [Hp Hf].
      split_and!; [|by left|done|by intros ??? [= _ <- _]]. split; [done|]. split; [exact Hp|]. by rewrite Hf.
    + split_and!; [by split|right; by eexists|done|done].
  - by injection Hs as <-.
Qed.

Lemma delivered_insert ss i s x : ss !! i = Some s ->
  match sn_pc s with SnReturned _ => False | _ => True end ->
  delivered (<[i := x]> ss) ≡ₚ
    match sn_pc x with SnReturned (inl pkt) => [pkt] | _ => [] end ++ delivered ss.
Proof.
  intros Hi Hs. unfold delivered. rewrite (insert_take_drop ss i x) by (by eapply lookup_lt_Some).
  rewrite <- (take_drop_middle ss i s Hi) at 3. rewrite !omap_app. cbn.
  assert ((match sn_pc s with SnReturned (inl pkt) => Some pkt | _ => None end) = @None Packet) as -> by (by destruct (sn_pc s)).
  destruct (sn_pc x) as [| | | | | | |[pkt|]]; cbn; try done. symmetry. apply Permutation_middle.
Qed.

Lemma half_written_holder ss i s : ss !! i = Some s ->
  half_written (Some i) ss = match sn_pc s with SnWrite _ written _ => written | _ => [] end.
Proof. intros Hi. unfold half_written. cbn. by rewrite Hi. Qed.

(** The holder of the lock executes: the others are where they were. *)
Lemma lock_insert (ss : list sender) i s pc : ss !! i = Some s ->
  (forall j x, ss !! j = Some x -> (Some i = Some j <-> inside (sn_pc x))) ->
  (inside pc \/ exists r, pc = SnReturned r) ->
  forall j x, <[i := at_pc s pc]> ss !! j = Some x -> (holder_after i pc = Some j <-> inside (sn_pc x)).
Proof.
  intros Hi Hlock Hpc j x Hj. apply list_lookup_insert_Some in Hj as [(-> & <- & _)|[Hne Hj]]; cbn.
  - destruct Hpc as [Hpc|[r ->]]; [|done]. by destruct pc.
  - rewrite <- (Hlock j x Hj). split; [|by intros [= ->]].
    intros E. exfalso. destruct pc; cbn in E; congruence.
Qed.

Lemma holder_insert (ss : list sender) i (x : sender) (h : option nat) :
  (forall j, h = Some j -> is_Some (ss !! j)) -> forall j, h = Some j -> is_Some (<[i := x]> ss !! j).
Proof. intros H j Hj. rewrite lookup_lt_is_Some, length_insert, <- lookup_lt_is_Some. by apply H. Qed.

(** A new call waits for the lock; the others are where they were. *)
Lemma call_inv c t d h (ss : list sender) wire sent torn command data :
  call_ok command data -> winv (mkWsys c t d h ss wire sent torn) ->
  winv (mkWsys c t d h (ss ++ [mkSender command data SnLock]) wire sent torn).
Proof.
  intros Hcall [H1 H2 H3 H4 H5 H6 H7]. cbn in *. split; cbn; [done| | | | | |done].
  - apply Forall_app_2; [done|]. apply Forall_singleton. by split.
  - intros i x. rewrite lookup_snoc_Some. intros [[? Hx]|[-> <-]]; [by apply H3|]. cbn. split; [|done].
    intros [y Hy]%H4. apply lookup_lt_Some in Hy. lia.
  - intros i Hi. destruct (H4 i Hi) as [y Hy]. exists y. by apply lookup_app_l_Some.
  - intros Ht. rewrite H5 by done. unfold half_written. destruct h as [i|]; [|done].
    destruct (H4 i eq_refl) as [y Hy]. cbn. by rewrite (lookup_app_l_Some _ _ _ _ Hy), Hy.
  - rewrite H6. unfold delivered. rewrite omap_app. cbn. by rewrite app_nil_r.
Qed.

Lemma lock_inv c t d (ss : list sender) wire sent torn i s :
  ss !! i = Some s -> sn_pc s = SnLock -> winv (mkWsys c t d None ss wire sent torn) ->
  winv (mkWsys c t d (Some i) (<[i := at_pc s SnState]> ss) wire sent torn).
Proof.
  intros Hi Hpc [H1 H2 H3 H4 H5 H6 H7]. cbn in *. pose proof (proj1 (Forall_lookup _ _) H2 i s Hi) as [Hcall _].
  split; cbn; [done| | | | | |done].
  - apply Forall_insert; [done|]. by split.
  - intros j x Hj. apply list_lookup_insert_Some in Hj as [(-> & <- & _)|[Hn Hj]]; cbn; [done|].
    split; [congruence|]. intros Hin. by apply (H3 j x Hj) in Hin.
  - intros j [= <-]. rewrite lookup_lt_is_Some, length_insert. by eapply lookup_lt_Some.
  - intros Ht. rewrite H5, (half_written_holder _ i (at_pc s SnState)) by (done || by apply list_lookup_insert_eq; eapply lookup_lt_Some). done.
  - rewrite H6, (delivered_insert ss i s (at_pc s SnState) Hi); [done|by rewrite Hpc].
Qed.

Lemma exec_inv wt c t d (ss : list sender) wire sent torn i s pc :
  ss !! i = Some s -> sendStep c s = Ok pc -> pc <> sn_pc s -> winv (mkWsys c t d (Some i) ss wire sent torn) ->
  winv (mkWsys c t (newDeadline wt (sn_pc s) t d) (holder_after i pc) (<[i := at_pc s pc]> ss) wire sent torn).
Proof.
  intros Hi Hst Hne [H1 H2 H3 H4 H5 H6 H7]. cbn in *.
  pose proof (proj1 (Forall_lookup _ _) H2 i s Hi) as Hok. pose proof (proj1 (H3 i s Hi) eq_refl) as Hin.
  destruct (sendStep_ok c s pc H1 Hok Hin Hst Hne) as (Hok' & Hpc & Hold & Hnew).
  assert (<[i := at_pc s pc]> ss !! i = Some (at_pc s pc)) as Hi' by (apply list_lookup_insert_eq; by eapply lookup_lt_Some).
  split; cbn; [done|by apply Forall_insert| | | | |done].
  - apply (lock_insert ss i s pc Hi H3). destruct Hpc as [?|[err ->]]; [by left|right; by eexists].
  - apply holder_insert. intros j Hj. apply H4. destruct pc; cbn in Hj; congruence.
  - intros Ht. rewrite H5, (half_written_holder _ _ _ Hi) by done. f_equal. destruct (sn_pc s) eqn:E; try (by destruct (Hold _ _ _ eq_refl));
      (destruct pc; cbn [holder_after]; [rewrite (half_written_holder _ _ _ Hi'); cbn..|done]; try done;
       symmetry; by eapply Hnew).
  - rewrite H6, (delivered_insert ss i s (at_pc s pc) Hi); [|by destruct (sn_pc s)]. cbn.
    destruct Hpc as [Hpc|[err ->]]; [|done]. by destruct pc.
Qed.

Lemma write_inv c t d (ss : list sender) wire sent torn i s pkt wr taken rest :
  ss !! i = Some s -> sn_pc s = SnWrite pkt wr (taken ++ rest) -> winv (mkWsys c t d (Some i) ss wire sent torn) ->
  winv (mkWsys c t d (Some i) (<[i := at_pc s (SnWrite pkt (wr ++ taken) rest)]> ss) (wire ++ taken) sent torn).
Proof.
  intros Hi Hpc [H1 H2 H3 H4 H5 H6 H7]. cbn in *.
  pose proof (proj1 (Forall_lookup _ _) H2 i s Hi) as [Hcall Hok]. rewrite Hpc in Hok. destruct Hok as [Hp Hw].
  set (pc := SnWrite pkt (wr ++ taken) rest).
  assert (<[i := at_pc s pc]> ss !! i = Some (at_pc s pc)) as Hi' by (apply list_lookup_insert_eq; by eapply lookup_lt_Some).
  split; cbn; [done| | | | | |done].
  - apply Forall_insert; [done|]. split; [done|]. cbn. split; [done|]. by rewrite <- app_assoc.
  - apply (lock_insert ss i s pc Hi H3). by left.
  - by apply holder_insert.
  - intros Ht. rewrite H5, (half_written_holder _ _ _ Hi), (half_written_holder _ _ _ Hi'), Hpc by done. cbn. by rewrite app_assoc.
  - rewrite H6, (delivered_insert ss i s _ Hi); [done|by rewrite Hpc].
Qed.

Lemma wstep_inv wt s s' : winv s -> wstep wt s s' -> winv s'.
Proof.
  intros Hw Hs.
  destruct Hs as [c t d h ss wire sent torn command data Hcall|c c' t t' d h ss wire sent torn Hc' _ _
    |c t d ss wire sent torn i s Hi Hpc|c t d ss wire sent torn i s pc Hi Hst Hne
    |c t d ss wire sent torn i s pkt wr taken rest Hi Hpc Htk _ _
    |c t d ss wire sent torn i s pkt wr Hi Hpc|c t d ss wire sent torn i s pkt wr rest err Hi Hpc Hrest];
    [by apply call_inv| |by apply lock_inv|by apply exec_inv|by apply write_inv| |];
    destruct Hw as [H1 H2 H3 H4 H5 H6 H7]; cbn in *; [by split| |];
    pose proof (proj1 (Forall_lookup _ _) H2 i s Hi) as [Hcall Hok]; rewrite Hpc in Hok; destruct Hok as [Hp Hw].
  - rewrite app_nil_r in Hw. split; cbn; [done| | | | | |].
    + apply Forall_insert; [done|]. by split.
    + apply (lock_insert ss i s (SnReturned (inl pkt)) Hi H3). right. by eexists.
    + done.
    + intros Ht. rewrite H5, (half_written_holder _ _ _ Hi), Hpc, fmap_app, concat_app by done. cbn. by rewrite !app_nil_r, Hw.
    + rewrite (delivered_insert ss i s _ Hi) by (by rewrite Hpc). cbn. rewrite H6. symmetry. apply Permutation_cons_append.
    + apply Forall_app_2; [done|]. constructor; [|done]. apply Hp.
  - split; cbn; [done| | | | | |done].
    + apply Forall_insert; [done|]. by split.
    + apply (lock_insert ss i s (SnReturned (inr err)) Hi H3). right. by eexists.
    + done.
    + intros [Ht Hwr]%orb_false_iff. rewrite H5, (half_written_holder _ _ _ Hi), Hpc by done.
      apply bool_decide_eq_false in Hwr. by apply dec_stable in Hwr as ->.
    + rewrite H6, (delivered_insert ss i s _ Hi); [done|by rewrite Hpc].
Qed.

Lemma wreachable_inv wt s : wreachable wt s -> winv s.
Proof.
  intros (c & t & Hc & Hr). assert (winv (wstart c t)) as H0.
  { split; cbn; [done|constructor|intros i x Hx; by rewrite lookup_nil in Hx|done|done|done|constructor]. }
  revert H0. induction Hr as [|s s1 s2 Hs _ IH]; [done|]. intros. by eapply IH, wstep_inv.
Qed.

(** *** The lock is given back *)

Definition rank (pc : sendPc) : nat :=
  match pc with
  | SnState => 5 | SnDeadline => 4 | SnSeal => 3 | SnEncrypt => 2 | SnEncode _ _ => 1 | _ => 0
  end.

#[local] Arguments rank !pc /.

Lemma sendStep_goes c s : conn_ok c -> (0 < rank (sn_pc s))%nat ->
  exists pc, sendStep c s = Ok pc /\ (rank pc < rank (sn_pc s))%nat.
Proof.
  intros (_ & Hk & _) Hr. unfold sendStep. destruct (sn_pc s) as [| | | | |body e| |] eqn:E; cbn in Hr; try lia.
  - eexists. split; [done|]. destruct (decide _); cbn; lia.
  - eexists. split; [done|]. cbn; lia.
  - eexists. split; [done|]. destruct (c_encryptKey c); [destruct (0 <? _)|]; cbn; lia.
  - destruct (c_encryptKey c) as [k|].
    + change (default [] (Some k)) with k. destruct (Hk k eq_refl) as [Hl _]. rewrite EncryptAES128_eq by (unfold len; lia). eexists. split; [done|]. cbn; lia.
    + change (default [] (@None bytes)) with (@nil Z). change (EncryptAES128 (sn_data s) []) with (@Err bytes ErrKeyTooShort). eexists. split; [done|]. cbn; lia.
  - rewrite EncodeResponse_frame. destruct (_ =? _); (eexists; split; [done|]; cbn; lia).
Qed.

(** What the call that holds the lock has before it: statements, and then the bytes of
    its frame the network has not taken. *)
Definition work (pc : sendPc) : Z :=
  Z.of_nat (rank pc) * 65600 + match pc with SnWrite _ _ rest => 1 + len rest | _ => 0 end.

Definition work_left (s : wsys) (i : nat) : Z :=
  match ws_senders s !! i with Some x => work (sn_pc x) | None => 0 end.

Lemma work_left_nonneg s i : 0 <= work_left s i.
Proof.
  unfold work_left, work. destruct (ws_senders s !! i) as [x|]; [|done]. destruct (sn_pc x); try (cbn; lia).
  pose proof (len_nonneg rest). cbn; lia.
Qed.

Lemma work_exec c x pc : sendable c -> sender_ok x -> inside (sn_pc x) ->
  sendStep c x = Ok pc -> pc <> sn_pc x -> work pc < work (sn_pc x).
Proof.
  intros Hc Hok Hin Hst Hne. destruct (decide (0 < rank (sn_pc x))%nat) as [Hpos|Hz].
  - destruct (sendStep_goes c x (proj1 Hc) Hpos) as (pc' & Hst' & Hlt).
    assert (pc' = pc) as -> by congruence.
    destruct (sendStep_ok c x pc Hc Hok Hin Hst Hne) as ([_ Hpc] & _ & _ & Hnew). unfold work.
    assert (match pc with SnWrite _ _ rest => 1 + len rest | _ => 0 end < 65600) as Hw.
    2: { assert (0 <= match sn_pc x with SnWrite _ _ rest => 1 + len rest | _ => 0 end)
           by (destruct (sn_pc x); try lia; pose proof (len_nonneg rest); lia). lia. }
    destruct pc as [| | | | | |pkt wr rest|]; try lia. specialize (Hnew _ _ _ eq_refl) as ->. cbn [at_pc sn_pc] in Hpc.
    destruct Hpc as [[Hwf _] Hf]. cbn [app] in Hf. subst rest. pose proof (len_packet_frame pkt Hwf) as Hl.
    assert (len (p_Data pkt) < 65536) by (unfold packet_wf in Hwf; destruct_and! Hwf; width_lia).
    lia.
  - exfalso. unfold sendStep in Hst. destruct (sn_pc x); cbn in Hz, Hin; try lia; try done; congruence.
Qed.

(** While a call holds the lock no step takes it away, and those of the others leave the
    call where it is; each of its own brings it nearer to the end. *)
Lemma turn_step wt s s' i : winv s -> ws_holder s = Some i -> wstep wt s s' ->
  ws_holder s' = None \/
  ws_holder s' = Some i /\
    (ws_senders s' !! i = ws_senders s !! i \/ work_left s' i < work_left s i).
Proof.
  intros Hw Hh Hs. destruct (wi_holder _ Hw i Hh) as [y Hy].
  destruct Hs as [c t d h ss wire sent torn command data Hcall|c c' t t' d h ss wire sent torn Hc' _ _
    |c t d ss wire sent torn j s Hi Hpc|c t d ss wire sent torn j s pc Hi Hst Hne
    |c t d ss wire sent torn j s pkt wr taken rest Hi Hpc Htk _ _
    |c t d ss wire sent torn j s pkt wr Hi Hpc|c t d ss wire sent torn j s pkt wr rest err Hi Hpc Hrest];
    cbn [ws_holder ws_senders] in *; try done; try (by left).
  - right. split; [done|]. left. rewrite Hy. by apply lookup_app_l_Some.
  - right. split; [done|]. by left.
  - injection Hh as ->. destruct (holder_after i pc) as [k|] eqn:Hk; [right|by left].
    assert (k = i) as -> by (destruct pc; cbn in Hk; congruence). split; [done|]. right.
    unfold work_left. cbn [ws_senders]. rewrite Hi, list_lookup_insert_eq by (by eapply lookup_lt_Some). cbn [at_pc sn_pc].
    apply (work_exec c); [apply Hw|by eapply (Forall_lookup_1 _ _ _ _ (wi_senders _ Hw))| |done|done].
    by apply (wi_lock _ Hw i s Hi).
  - injection Hh as ->. right. split; [done|]. right. unfold work_left. cbn [ws_senders].
    rewrite Hi, list_lookup_insert_eq by (by eapply lookup_lt_Some). cbn [at_pc sn_pc]. rewrite Hpc. unfold work. cbn [rank].
    rewrite len_app. destruct taken as [|b taken]; [done|]. rewrite len_cons. pose proof (len_nonneg taken). lia.
Qed.

(** And one of its own is always possible. *)
Lemma turn_goes wt s i : winv s -> ws_holder s = Some i ->
  exists s', wstep wt s s' /\ (ws_holder s' = None \/ work_left s' i < work_left s i).
Proof.
  intros Hw Hh. destruct (wi_holder _ Hw i Hh) as [x Hx]. destruct s as [c t d h ss wire sent torn]. cbn in Hh, Hx. subst h.
  pose proof (proj1 (wi_lock _ Hw i x Hx) eq_refl) as Hin. destruct (decide (0 < rank (sn_pc x))%nat) as [Hpos|Hz].
  - destruct (sendStep_goes c x (proj1 (wi_conn _ Hw)) Hpos) as (pc & Hst & Hlt).
    assert (pc <> sn_pc x) as Hne by (intros ->; by apply Nat.lt_irrefl in Hlt).
    pose proof (ws_exec wt c t d ss wire sent torn i x pc Hx Hst Hne) as Hs. eexists. split; [exact Hs|].
    destruct (turn_step wt _ _ i Hw eq_refl Hs) as [Hn|[_ [He|Hl]]]; [by left| |by right].
    exfalso. cbn [ws_senders] in He. rewrite Hx, list_lookup_insert_eq in He by (by eapply lookup_lt_Some).
    injection He as He. apply Hne. by rewrite <- He.
  - destruct (sn_pc x) as [| | | | |? ?|pkt wr rest|r] eqn:E; cbn in Hz, Hin; try lia; try done.
    destruct rest as [|b rest].
    + eexists. split; [by eapply (ws_written wt)|by left].
    + eexists. split; [eapply (ws_fail wt _ _ _ _ _ _ _ _ _ _ _ _ ErrClosed); [exact Hx|exact E|done]|by left].
Qed.

(** *** One call alone *)

Lemma packet_frame_nonempty pkt : packet_frame pkt <> [].
Proof. done. Qed.

(** A statement of the call [i], which has the lock. *)
Lemma exec_at wt c t d i x (ss : list sender) wire sent torn pc :
  (i < length ss)%nat -> sendStep c x = Ok pc -> pc <> sn_pc x ->
  wstep wt (mkWsys c t d (Some i) (<[i := x]> ss) wire sent torn)
    (mkWsys c t (newDeadline wt (sn_pc x) t d) (holder_after i pc) (<[i := at_pc x pc]> ss) wire sent torn).
Proof.
  intros Hi Hs Hne. rewrite <- (list_insert_insert_eq ss i (at_pc x pc) x).
  apply (ws_exec wt c t d (<[i := x]> ss) wire sent torn i x pc); [by apply list_lookup_insert_eq|done|done].
Qed.

(** From the lock to [EncodeResponse], without anyone in between. *)
Lemma to_encode wt c t d i (ss : list sender) wire sent torn command data body e :
  ss !! i = Some (mkSender command data SnLock) ->
  sealed c data = Ok (body, e) -> c_state c <> ConnClosed ->
  rtc (wstep wt) (mkWsys c t d None ss wire sent torn)
    (mkWsys c t (newDeadline wt SnDeadline t d) (Some i)
       (<[i := mkSender command data (SnEncode body e)]> ss) wire sent torn).
Proof.
  intros Hi Hs Hc. pose proof (lookup_lt_Some _ _ _ Hi) as Hl.
  set (x := fun pc => mkSender command data pc).
  eapply rtc_l; [exact (ws_lock wt c t d ss wire sent torn i _ Hi eq_refl)|].
  eapply rtc_l; [apply (exec_at wt c t d i (x SnState) ss wire sent torn SnDeadline Hl); [|done]|].
  { unfold sendStep. cbn. by rewrite decide_False. }
  eapply rtc_l; [by apply (exec_at wt c t d i (x SnDeadline) ss wire sent torn SnSeal Hl)|].
  unfold sealed in Hs. destruct (c_encryptKey c) as [k|] eqn:Ek; [destruct (0 <? len data) eqn:El|].
  - destruct (EncryptAES128 data k) as [y| | |] eqn:Ee; cbn in Hs; try done. injection Hs as -> <-.
    eapply rtc_l; [apply (exec_at wt c t _ i (x SnSeal) ss wire sent torn SnEncrypt Hl); [|done]|].
    { unfold sendStep. cbn. by rewrite Ek, El. }
    apply rtc_once. apply (exec_at wt c t _ i (x SnEncrypt) ss wire sent torn (SnEncode body EncAES128) Hl); [|done].
    unfold sendStep. cbn [sn_pc sn_data x]. rewrite Ek. change (default [] (Some k)) with k. by rewrite Ee.
  - injection Hs as <- <-. apply rtc_once.
    apply (exec_at wt c t _ i (x SnSeal) ss wire sent torn (SnEncode data EncNone) Hl); [|done].
    unfold sendStep. cbn. by rewrite Ek, El.
  - injection Hs as <- <-. apply rtc_once.
    apply (exec_at wt c t _ i (x SnSeal) ss wire sent torn (SnEncode data EncNone) Hl); [|done].
    unfold sendStep. cbn. by rewrite Ek.
Qed.

(** On a closed connection a call takes the lock, returns and gives it back. *)
Lemma closed_alone wt c t command data : c_state c = ConnClosed ->
  rtc (wstep wt) (mkWsys c t None None [mkSender command data SnLock] [] [] false)
    (mkWsys c t None None [mkSender command data (SnReturned (inr ErrClosed))] [] [] false).
Proof.
  intros Hcl. eapply rtc_l; [by apply (ws_lock wt c t None [mkSender command data SnLock] [] [] false 0)|].
  apply rtc_once. apply (exec_at wt c t None 0 (mkSender command data SnState) [mkSender command data SnState] [] [] false
    (SnReturned (inr ErrClosed))); [cbn; lia| |done].
  unfold sendStep. cbn. by rewrite decide_True.
Qed.

(** ** Properties *)

(** The operation [Connection.Send] is what the statements do without anyone in
    between: every result it can have, with what it writes, is that of a run. *)
Theorem send_alone wt p w c t command data err w'
    (Hc : w_heap w !! p = Some c) (Hok : sendable c) (Hcall : call_ok command data)
    (Hs : Send p command data w = Ok (err, w')) :
  exists r s, rtc (wstep wt) (wstart c t) s /\ ws_senders s = [mkSender command data (SnReturned r)] /\
    match err with
    | None => exists pkt, r = inl pkt /\ ws_wire s = packet_frame pkt /\
        w_trace w' = EvWrite p (packet_frame pkt) :: w_trace w
    | Some e => r = inr e /\ ws_wire s = [] /\ w_trace w' = w_trace w
    end.
Proof.
  destruct (sealed_ok c data (proj1 Hok)) as (body & e & Hse & He).
  rewrite (Send_eq p w c Hc command data body e (proj1 Hok) Hse He) in Hs.
  assert (wstep wt (wstart c t) (mkWsys c t None None [mkSender command data SnLock] [] [] false)) as H0
    by (by apply (ws_call wt c t None None [] [] [] false command data)).
  destruct (decide (c_state c = ConnClosed)) as [Hcl|Hcl].
  { injection Hs as <- <-. exists (inr ErrClosed). eexists. by split; [eapply rtc_l; [exact H0|by apply closed_alone]|]. }
  set (d := newDeadline wt SnDeadline t None).
  assert (forall l, d = Some l -> t <= l) as Hd
    by (unfold d; cbn; intros l; destruct (Z.ltb_spec 0 wt); [intros [= <-]; lia|done]).
  pose proof (rtc_l _ _ _ _ H0 (to_encode wt c t None 0 [mkSender command data SnLock] [] [] false command data body e
    eq_refl Hse Hcl)) as Hrun. fold d in Hrun. cbn in Hrun.
  assert (sendStep c (mkSender command data (SnEncode body e)) =
    Ok (if len (c_vin c) =? VINLength
        then SnWrite (response command (c_vin c) e body) [] (packet_frame (response command (c_vin c) e body))
        else SnReturned (inr ErrInvalidVIN))) as Hst.
  { unfold sendStep. cbn. rewrite EncodeResponse_frame. by destruct (_ =? _). }
  assert (forall pc, sendStep c (mkSender command data (SnEncode body e)) = Ok pc -> pc <> SnEncode body e ->
    rtc (wstep wt) (wstart c t) (mkWsys c t d (holder_after 0 pc) [mkSender command data pc] [] [] false)) as Hlast.
  { intros pc Hpc Hne. eapply rtc_r; [exact Hrun|].
    exact (exec_at wt c t d 0 (mkSender command data (SnEncode body e)) [mkSender command data SnLock] [] [] false pc
      ltac:(cbn; lia) Hpc Hne). }
  destruct (len (c_vin c) =? VINLength).
  2:{ injection Hs as <- <-.
    exists (inr ErrInvalidVIN), (mkWsys c t d None [mkSender command data (SnReturned (inr ErrInvalidVIN))] [] [] false).
    split; [|done]. by apply (Hlast _ Hst). }
  set (pkt := response command (c_vin c) e body) in *.
  pose proof (Hlast _ Hst ltac:(done)) as Hw. cbn in Hw.
  assert (forall x, exists s, rtc (wstep wt) (wstart c t) s /\
    ws_senders s = [mkSender command data (SnReturned (inr x))] /\ ws_wire s = []) as Hfail.
  { intros x. eexists. split; [eapply rtc_r; [exact Hw|]|].
    - by eapply (ws_fail wt c t d _ [] [] false 0 _ pkt [] (packet_frame pkt) x).
    - done. }
  assert (frame command RespSuccess (c_vin c) e body = packet_frame pkt) as Hf.
  { unfold packet_frame, pkt, response. cbn. by rewrite (proj2 (Z.eqb_neq e 0)). }
  rewrite (netWrite_eq p w c Hc), Hf in Hs.
  assert (c_netClosed c = false -> exists s, rtc (wstep wt) (wstart c t) s /\
    ws_senders s = [mkSender command data (SnReturned (inl pkt))] /\ ws_wire s = packet_frame pkt) as Hgood.
  { intros Hn. eexists. split; [eapply rtc_r; [eapply rtc_r; [exact Hw|]|]|].
    - eapply (ws_write wt c t d _ [] [] false 0 _ pkt [] (packet_frame pkt) []); [done|by rewrite app_nil_r|done|done|done].
    - by eapply (ws_written wt c t d _ _ [] false 0 _ pkt (packet_frame pkt)).
    - done. }
  destruct (c_netClosed c); [|destruct (w_net w) as [|[x|] rest]]; injection Hs as <- <-.
  - destruct (Hfail ErrClosed) as (s & ? & ? & ?). by exists (inr ErrClosed), s.
  - destruct (Hgood eq_refl) as (s & ? & ? & ?). exists (inl pkt), s. split_and!; [done|done|by exists pkt].
  - destruct (Hfail x) as (s & ? & ? & ?). by exists (inr x), s.
  - destruct (Hgood eq_refl) as (s & ? & ? & ?). exists (inl pkt), s. split_and!; [done|done|by exists pkt].
Qed.

(** C6: Senders take turns, as long as no write on the connection has failed half-way
    (then see [torn_frame]): in every interleaving of any number of calls of [Send] with
    one another and with logins, logouts and [Close], what the vehicle has got is a
    sequence of whole frames and the part written so far of the frame of the call that
    holds the lock; a decoder that gets it while the lock is free reads exactly the packets
    sent.  Whatever has failed, these are the packets of the calls that returned [nil],
    each once, with the data in the clear or encrypted under a key of the connection.
    And a call that has the lock keeps it until it returns, no step of the others setting it
    back; a step of its own (its next statement, the network taking a part of its frame or
    failing the write) is possible in every state and lowers what it has before it
    ([work_left]), so it gives the lock back after boundedly many of its own steps. *)
Theorem senders_take_turns wt s (Hr : wreachable wt s) :
  (ws_torn s = false ->
     ws_wire s = concat (packet_frame <$> ws_sent s) ++ half_written (ws_holder s) (ws_senders s) /\
     (ws_holder s = None -> forall d, decoder_wf d -> unread d = [] ->
        exists d', receive d [ws_wire s] = Ok (ws_sent s, d') /\ unread d' = [])) /\
  ws_sent s ≡ₚ delivered (ws_senders s) /\
  (forall i x pkt, ws_senders s !! i = Some x -> sn_pc x = SnReturned (inl pkt) -> packet_of x pkt) /\
  (forall i, ws_holder s = Some i ->
     (forall s', wstep wt s s' ->
        ws_holder s' = None \/
        ws_holder s' = Some i /\
          (ws_senders s' !! i = ws_senders s !! i \/ work_left s' i < work_left s i)) /\
     0 <= work_left s i /\
     exists s', wstep wt s s' /\ (ws_holder s' = None \/ work_left s' i < work_left s i)).
Proof.
  pose proof (wreachable_inv wt s Hr) as Hw. split_and!; [|apply Hw| |].
  - intros Ht. pose proof (wi_wire _ Hw Ht) as Hwire. split; [done|]. intros Hh d Hd Hu. rewrite Hh, app_nil_r in Hwire.
    apply (stream_reads [ws_wire s] (ws_sent s) d Hd Hu). rewrite <- (app_nil_r (ws_sent s)).
    apply (reads_step [] _ (ws_sent s) [] []); [by rewrite Hwire, app_nil_r|by left|apply Hw| |constructor].
    rewrite Hwire. clear Hwire. pose proof (wi_wf _ Hw) as Hwf. induction Hwf as [|q qs Hq _ IH]; [constructor|].
    apply Forall_app_2; [by apply packet_frame_bytes|exact IH].
  - intros i x pkt Hi Hpc. pose proof (proj1 (Forall_lookup _ _) (wi_senders _ Hw) i x Hi) as [_ H]. by rewrite Hpc in H.
  - intros i Hi. split; [intros s'; by apply turn_step|split; [apply work_left_nonneg|by apply turn_goes]].
Qed.

(** The key is tested and then used: a logout in between makes an encrypting [Send]
    return an error that has nothing to do with its data. *)
Lemma key_race c k command data : c_encryptKey c = Some k -> 0 < len data ->
  sendStep c (mkSender command data SnSeal) = Ok SnEncrypt /\
  sendStep (with_key None c) (mkSender command data SnEncrypt) = Ok (SnReturned (inr ErrKeyTooShort)).
Proof.
  intros Hk Hl. split; [|done]. unfold sendStep. cbn. rewrite Hk. by rewrite (proj2 (Z.ltb_lt _ _)).
Qed.

(** *** A write that fails half-way *)

Lemma sample_sendable : sendable sample_conn.
Proof. split; [apply sample_conn_ok|check_bytes]. Qed.

(** The packet of a heartbeat on the sample connection. *)
Definition sample_body (data : bytes) : bytes :=
  match sealed sample_conn data with Ok (body, _) => body | _ => [] end.
Definition sample_sent (data : bytes) : Packet :=
  response CmdHeartbeat (c_vin sample_conn) EncAES128 (sample_body data).

(** One call up to its write. *)
Lemma sample_to_write wt t d i (ss : list sender) wire sent torn data :
  ss !! i = Some (mkSender CmdHeartbeat data SnLock) -> sealed sample_conn data = Ok (sample_body data, EncAES128) ->
  rtc (wstep wt) (mkWsys sample_conn t d None ss wire sent torn)
    (mkWsys sample_conn t (newDeadline wt SnDeadline t d) (Some i)
       (<[i := mkSender CmdHeartbeat data (SnWrite (sample_sent data) [] (packet_frame (sample_sent data)))]> ss)
       wire sent torn).
Proof.
  intros Hi Hs. eapply rtc_r; [apply (to_encode wt _ t d i ss wire sent torn _ data _ _ Hi Hs); by vm_compute|].
  apply (exec_at wt sample_conn t _ i (mkSender CmdHeartbeat data (SnEncode (sample_body data) EncAES128)) ss wire sent torn
    (SnWrite (sample_sent data) [] (packet_frame (sample_sent data))) (lookup_lt_Some _ _ _ Hi)); [|done].
  unfold sendStep. cbn [sn_pc sn_command]. by rewrite EncodeResponse_frame.
Qed.

(** What a decoder makes of ten bytes of one frame and then the other. *)
Lemma torn_read : exists d,
  let wire := take 10 (packet_frame (sample_sent [1])) ++ packet_frame (sample_sent [2]) in
  receive NewDecoder [wire] = Ok ([], d) /\ unread d = wire.
Proof.
  cbv zeta. set (wire := take 10 _ ++ _).
  assert (match receive NewDecoder [wire] with Ok ([], d) => bool_decide (unread d = wire) | _ => false end = true) as H
    by (by vm_compute).
  destruct (receive NewDecoder [wire]) as [[[|p ps] d]| | |]; try done. apply bool_decide_eq_true in H. by exists d.
Qed.

(** A write that its deadline cuts short is only reported to its caller: the
    connection stays open, and the next [Send], which succeeds, writes its frame behind
    the piece.  The vehicle takes the beginning of that frame for the rest of the first
    one's header, and a decoder waits for a body that never comes: neither packet is
    read. *)
Theorem torn_frame : exists s pkt1 pkt2 d,
  wreachable (10 * 1000000000) s /\ ws_torn s = true /\
  c_state (ws_conn s) = ConnLoggedIn /\ c_netClosed (ws_conn s) = false /\
  ws_senders s = [mkSender CmdHeartbeat [1] (SnReturned (inr (Errorf "i/o timeout" [])));
                  mkSender CmdHeartbeat [2] (SnReturned (inl pkt2))] /\
  packet_wf pkt1 /\ packet_wf pkt2 /\
  ws_wire s = take 10 (packet_frame pkt1) ++ packet_frame pkt2 /\
  receive NewDecoder [ws_wire s] = Ok ([], d) /\ unread d = ws_wire s.
Proof.
  set (wt := 10 * 1000000000). set (pkt1 := sample_sent [1]). set (pkt2 := sample_sent [2]).
  set (f1 := packet_frame pkt1). set (f2 := packet_frame pkt2). set (late := wt + 1).
  set (c := sample_conn). set (timeout := Errorf "i/o timeout" []).
  set (s1 := fun pc => mkSender CmdHeartbeat [1] pc). set (s2 := fun pc => mkSender CmdHeartbeat [2] pc).
  set (last := mkWsys c late (Some (late + wt)) None [s1 (SnReturned (inr timeout)); s2 (SnReturned (inl pkt2))]
    (take 10 f1 ++ f2) [pkt2] true).
  assert (rtc (wstep wt) (wstart c 0) (mkWsys c 0 (Some wt) (Some 0%nat)
    [s1 (SnWrite pkt1 ([] ++ take 10 f1) (drop 10 f1)); s2 SnLock] ([] ++ take 10 f1) [] false)) as H1.
  { eapply rtc_l; [apply (ws_call wt c 0 None None [] [] [] false CmdHeartbeat [1]); split; [by split|split; [check_bytes|done]]|].
    eapply rtc_l; [apply (ws_call wt c 0 None None [s1 SnLock] [] [] false CmdHeartbeat [2]); split; [by split|split; [check_bytes|done]]|].
    eapply rtc_r; [apply (sample_to_write wt 0 None 0 [s1 SnLock; s2 SnLock] [] [] false [1]); [done|by vm_compute]|].
    refine (ws_write wt c 0 (Some wt) [s1 (SnWrite pkt1 [] f1); s2 SnLock] [] [] false 0 (s1 (SnWrite pkt1 [] f1))
      pkt1 [] (take 10 f1) (drop 10 f1) eq_refl _ _ eq_refl _); [by rewrite take_drop|done|].
    intros l [= <-]. unfold wt; lia. }
  assert (rtc (wstep wt) (wstart c 0) last) as H2.
  { etrans; [exact H1|].
    eapply rtc_l; [apply (ws_other wt c c 0 late); [apply sample_sendable|done|unfold late, wt; lia]|].
    eapply rtc_l; [exact (ws_fail wt c late (Some wt) [s1 (SnWrite pkt1 (take 10 f1) (drop 10 f1)); s2 SnLock] (take 10 f1)
      [] false 0 (s1 (SnWrite pkt1 (take 10 f1) (drop 10 f1))) pkt1 (take 10 f1) (drop 10 f1) timeout eq_refl eq_refl ltac:(done))|].
    etrans; [apply (sample_to_write wt late (Some wt) 1 [s1 (SnReturned (inr timeout)); s2 SnLock] (take 10 f1) [] true [2]);
      [done|by vm_compute]|].
    set (ss := [s1 (SnReturned (inr timeout)); s2 (SnWrite pkt2 [] f2)]).
    eapply rtc_l; [refine (ws_write wt c late (Some (late + wt)) ss (take 10 f1) [] true 1 (s2 (SnWrite pkt2 [] f2))
      pkt2 [] f2 [] eq_refl _ _ eq_refl _); [by rewrite app_nil_r|done|intros l [= <-]; unfold wt; lia]|].
    apply rtc_once. exact (ws_written wt c late (Some (late + wt)) [s1 (SnReturned (inr timeout)); s2 (SnWrite pkt2 f2 [])]
      (take 10 f1 ++ f2) [] true 1 (s2 (SnWrite pkt2 f2 [])) pkt2 f2 eq_refl eq_refl). }
  destruct torn_read as (d & Hd & Hu).
  exists last, pkt1, pkt2, d. split_and!; [|reflexivity|by vm_compute|reflexivity|reflexivity| | |reflexivity|exact Hd|exact Hu].
  - exists c, 0. split; [apply sample_sendable|exact H2].
  - pose proof (wreachable_inv wt _ (ex_intro _ c (ex_intro _ 0 (conj sample_sendable H1)))) as Hw.
    destruct (Forall_inv (wi_senders _ Hw)) as [_ [Hp _]]. apply Hp.
  - pose proof (wreachable_inv wt last (ex_intro _ c (ex_intro _ 0 (conj sample_sendable H2)))) as Hw.
    exact (Forall_inv (wi_wf _ Hw)).
Qed.

(** Two calls, the second waiting for the lock while the first writes in two pieces. *)
Lemma senders_take_turns_witness :
  exists s d, wreachable 0 s /\ ws_sent s = [sample_sent [1]] /\
    length (ws_senders s) = 2%nat /\ receive NewDecoder [ws_wire s] = Ok ([sample_sent [1]], d).
Proof.
  set (pkt := sample_sent [1]). set (f := packet_frame pkt).
  set (s1 := fun pc => mkSender CmdHeartbeat [1] pc). set (s2 := mkSender CmdHeartbeat [2] SnLock).
  set (s := mkWsys sample_conn 0 None None [s1 (SnReturned (inl pkt)); s2] (take 10 f ++ drop 10 f) [pkt] false).
  assert (wreachable 0 s) as Hr.
  { exists sample_conn, 0. split; [apply sample_sendable|].
    eapply rtc_l; [apply (ws_call 0 sample_conn 0 None None [] [] [] false CmdHeartbeat [1]); split; [by split|split; [check_bytes|done]]|].
    eapply rtc_l; [apply (ws_call 0 sample_conn 0 None None [s1 SnLock] [] [] false CmdHeartbeat [2]); split; [by split|split; [check_bytes|done]]|].
    etrans; [apply (sample_to_write 0 0 None 0 [s1 SnLock; s2] [] [] false [1]); [done|by vm_compute]|].
    eapply rtc_l; [refine (ws_write 0 sample_conn 0 None [s1 (SnWrite pkt [] f); s2] [] [] false 0 (s1 (SnWrite pkt [] f))
      pkt [] (take 10 f) (drop 10 f) eq_refl _ _ eq_refl _); [by rewrite take_drop|done|done]|].
    eapply rtc_l; [refine (ws_write 0 sample_conn 0 None [s1 (SnWrite pkt (take 10 f) (drop 10 f)); s2] (take 10 f) [] false 0
      (s1 (SnWrite pkt (take 10 f) (drop 10 f))) pkt (take 10 f) (drop 10 f) [] eq_refl _ _ eq_refl _);
      [by rewrite app_nil_r|done|done]|].
    apply rtc_once. exact (ws_written 0 sample_conn 0 None [s1 (SnWrite pkt (take 10 f ++ drop 10 f) []); s2] (take 10 f ++ drop 10 f)
      [] false 0 (s1 (SnWrite pkt (take 10 f ++ drop 10 f) [])) pkt _ eq_refl eq_refl). }
  destruct (senders_take_turns 0 s Hr) as (H & _). destruct (H eq_refl) as [_ H'].
  destruct (H' eq_refl NewDecoder NewDecoder_wf eq_refl) as (d & Hd & _).
  exists s, d. split; [exact Hr|]. split; [reflexivity|]. split; [reflexivity|exact Hd].
Defined.
