(* ===== verification/Mqtt.v ===== *)
(** * Delivery over MQTT ([forward/mqtt_forwarder.go])

    Each forwarded message has a goroutine of its own in [MQTTForwarder.Forward]: here
    their calls of the client library are interleaved with one another, with the
    library's own goroutines, with the server and with the disconnect of [Stop].  The
    messages are published at quality of service 1: the broker has what a call that
    returns [nil] published, and may still get, late or twice, what a call gave up
    waiting for ([mqtt_delivers]).  Without anyone in between the statements are the
    operation of Forward.v ([mqtt_alone]). *)
From stdpp Require Import gmap.
From S2P Require Import Prelude.
From S2P Require Import GoTime.
From S2P Require Import Constant.
From S2P Require Import Packet.
From S2P Require Import Json.
From S2P Require Import Messages.
From S2P Require Import World.
From S2P Require Import Options.
From S2P Require Import Connection.
From S2P Require Import Server.
From S2P Require Import Sessions.
From S2P Require Import Forward.

(** ** The library's contract *)

(** A state of the client after another: tokens keep what they were issued for, and
    stay completed; the broker does not take back an acknowledgement. *)
Record later {K Token} (issued : K -> Token -> option (gostring * int * bytes))
    (completed : K -> Token -> Prop) (confirmed : K -> list Token) (k k' : K) : Prop := {
  lt_issued : forall token m, issued k token = Some m -> issued k' token = Some m;
  lt_completed : forall token, completed k token -> completed k' token;
  lt_confirmed : forall token, token ∈ confirmed k -> token ∈ confirmed k'
}.

(** What [paho.mqtt.golang] documents: [Publish] returns a token of its own for the
    message; [WaitTimeout] is true when the token has completed; at quality 1 a token
    completes without an error only if the broker has acknowledged the message, which
    it has then received at least once.  [background] is what the goroutines of the
    client do meanwhile: they send, resend, reconnect and complete tokens. *)
Class PahoLaws (K : Type) `{Paho K} := {
  background : K -> K -> Prop;
  published : K -> gostring -> list bytes;
  received : K -> gostring -> list bytes;
  issued : K -> Token -> option (gostring * int * bytes);
  completed : K -> Token -> Prop;
  confirmed : K -> list Token;
  received_published : forall k t body, body ∈ received k t -> body ∈ published k t;
  confirmed_nodup : forall k, NoDup (confirmed k);
  confirmed_received : forall k t,
    omap (fun token => m ← issued k token; if decide (m.1.1 = t) then Some m.2 else None) (confirmed k)
      ⊆+ received k t;
  publish_law : forall c t qos retained body k,
    let '(token, k') := Publish c t qos retained body k in
    issued k token = None /\ issued k' token = Some (t, qos, body) /\
    later issued completed confirmed k k' /\
    forall t', published k' t' = published k t' ++ (if decide (t' = t) then [body] else []);
  wait_law : forall token d k,
    let '(ok, k') := WaitTimeout token d k in
    (ok = true -> completed k' token) /\ later issued completed confirmed k k' /\
    forall t, published k' t = published k t;
  disconnect_law : forall c quiesce k,
    later issued completed confirmed k (Disconnect c quiesce k) /\
    forall t, published (Disconnect c quiesce k) t = published k t;
  background_law : forall k k', background k k' ->
    later issued completed confirmed k k' /\ forall t, published k' t = published k t;
  acknowledged : forall k token t body,
    issued k token = Some (t, 1, body) -> completed k token -> Token_Error token k = None ->
    token ∈ confirmed k
}.

(** ** The calls *)

(** In front of [json.Marshal], of [WaitTimeout] and of [Error], or returned; the token
    of a call that returned is kept for the specification. *)
Inductive mqttPc (Token : Type) :=
  | MqMarshal
  | MqWait (token : Token)
  | MqError (token : Token)
  | MqReturned (token : option Token) (err : option goerr).
Arguments MqMarshal {Token}.
Arguments MqWait {Token} token.
Arguments MqError {Token} token.
Arguments MqReturned {Token} token err.

Section calls.
Context {K : Type} `{Paho K} (f : MQTTForwarder K).

Record mqttCall := mkMqttCall { mq_msg : ForwardMsg; mq_pc : mqttPc Token }.

(** From one call of the library to the next. *)
Definition mqttStep (call : mqttCall) (k : K) : mqttPc Token * K :=
  match mq_pc call with
  | MqMarshal =>
      match Marshal (mq_msg call) with
      | inr err => (MqReturned None (Some err), k)
      | inl body =>
          let '(token, k) := Publish (mf_client f) (mf_topic f) 1 false body k in
          (MqWait token, k)
      end
  | MqWait token =>
      let '(ok, k) := WaitTimeout token (5 * time_Second) k in
      (if negb ok then MqReturned (Some token) (Some (Errorf "mqtt: publish timeout" [])) else MqError token, k)
  | MqError token => (MqReturned (Some token) (Token_Error token k), k)
  | pc => (pc, k)
  end.

(** The server, the client, the calls, and whether [Stop] has closed the forwarder. *)
Record msys := mkMsys {
  ms_world : World;
  ms_lib : K;
  ms_calls : list mqttCall;
  ms_closed : bool
}.
End calls.
Arguments mqttCall K {_}.
Arguments msys K {_}.

Section system.
Context {K : Type} `{PahoLaws K} (cfg : Config) (n : nat) (f : MQTTForwarder K).

Definition at_call (call : mqttCall K) (pc : mqttPc Token) : mqttCall K := mkMqttCall (mq_msg call) pc.

Inductive mqstep : msys K -> msys K -> Prop :=
  | mq_server w w' k calls closed new :
      step cfg w w' -> w_trace w' = new ++ w_trace w ->
      mqstep (mkMsys w k calls closed)
        (mkMsys w' k (calls ++ ((fun msg => mkMqttCall msg MqMarshal) <$> handed n new)) closed)
  | mq_exec w k k' calls closed i call pc :
      calls !! i = Some call -> mqttStep f call k = (pc, k') -> pc <> mq_pc call ->
      mqstep (mkMsys w k calls closed) (mkMsys w k' (<[i := at_call call pc]> calls) closed)
  | mq_background w k k' calls closed :
      background k k' -> mqstep (mkMsys w k calls closed) (mkMsys w k' calls closed)
  | mq_stop w k calls :
      w_stopped w = true ->
      mqstep (mkMsys w k calls false) (mkMsys w (MQTTForwarder_Close f k).2 calls true).

Definition mqreachable (k0 : K) (s : msys K) : Prop :=
  exists t, rtc mqstep (mkMsys (initial t) k0 [] false) s.

(** The messages of the calls that returned [nil]. *)
Definition delivered_calls (calls : list (mqttCall K)) : list ForwardMsg :=
  omap (fun call => match mq_pc call with MqReturned _ None => Some (mq_msg call) | _ => None end) calls.

Definition returned (call : mqttCall K) : Prop :=
  match mq_pc call with MqReturned _ _ => True | _ => False end.

(** ** Lemmas *)

Definition token_of (call : mqttCall K) : option Token :=
  match mq_pc call with
  | MqMarshal => None
  | MqWait token | MqError token => Some token
  | MqReturned token _ => token
  end.

(** What a call has of the client: a token for its text. *)
Definition call_ok (k : K) (call : mqttCall K) : Prop :=
  (forall token, token_of call = Some token -> exists body,
     Marshal (mq_msg call) = inl body /\ issued k token = Some (mf_topic f, 1, body)) /\
  match mq_pc call with
  | MqError token => completed k token
  | MqReturned token None => exists tk, token = Some tk /\ tk ∈ confirmed k
  | _ => True
  end.

Record mqinv (k0 : K) (s : msys K) : Prop := {
  mqi_world : reachable cfg (ms_world s);
  mqi_calls : Forall (call_ok (ms_lib s)) (ms_calls s);
  mqi_tokens : NoDup (omap token_of (ms_calls s));
  mqi_handed : mq_msg <$> ms_calls s ≡ₚ handed n (w_trace (ms_world s));
  mqi_topic : forall body, body ∈ published (ms_lib s) (mf_topic f) ->
    body ∈ published k0 (mf_topic f) \/ exists call, call ∈ ms_calls s /\ Marshal (mq_msg call) = inl body;
  mqi_others : forall t, t <> mf_topic f -> published (ms_lib s) t = published k0 t
}.

Lemma call_later k k' call : later issued completed confirmed k k' -> call_ok k call -> call_ok k' call.
Proof.
  intros [H1 H2 H3] [Ht Hpc]. split.
  - intros token Hk. destruct (Ht token Hk) as (body & ? & ?). exists body. auto.
  - destruct (mq_pc call) as [| | |tk [e|]]; auto. destruct Hpc as (x & ? & ?). exists x. auto.
Qed.

(** One statement of a call: the client is later, the call is well-formed, its token is
    the one it had or a new one, and what is published is its text. *)
Lemma mqttStep_ok call k pc k' : call_ok k call -> mqttStep f call k = (pc, k') -> pc <> mq_pc call ->
  later issued completed confirmed k k' /\ call_ok k' (at_call call pc) /\
  (token_of (at_call call pc) = token_of call \/
   token_of call = None /\ exists token, token_of (at_call call pc) = Some token /\ issued k token = None) /\
  (forall t, t <> mf_topic f -> published k' t = published k t) /\
  (forall body, body ∈ published k' (mf_topic f) ->
     body ∈ published k (mf_topic f) \/ Marshal (mq_msg call) = inl body).
Proof.
  intros [Ht Hpc] Hs Hne. destruct call as [msg pc0]. unfold mqttStep in Hs. cbn in *.
  assert (later issued completed confirmed k k) as Hrefl by (split; auto).
  destruct pc0 as [|token|token|token err]; cbn in *.
  - destruct (Marshal msg) as [body|err] eqn:Em.
    + pose proof (publish_law (mf_client f) (mf_topic f) 1 false body k) as Hp.
      destruct (Publish _ _ _ _ _ k) as [token k1]. destruct Hp as (Hf & Hi & Hl & Hp). injection Hs as <- <-.
      split_and!; [done| |by right; split; [|exists token]| |].
      * split; [|done]. cbn. intros tk [= <-]. by exists body.
      * intros t Hn. by rewrite Hp, decide_False, app_nil_r.
      * intros x. rewrite Hp, decide_True by done. rewrite elem_of_app, list_elem_of_singleton. intros [?| ->]; auto.
    + injection Hs as <- <-. split_and!; [done|by split|by left|done|by left].
  - pose proof (wait_law token (5 * time_Second) k) as Hw. destruct (WaitTimeout _ _ k) as [ok k1].
    destruct Hw as (Hc & Hl & Hp). injection Hs as <- <-.
    assert (call_ok k1 (mkMqttCall msg (MqWait token))) as [Hi _] by (by apply (call_later k); [|split]).
    split_and!; [done| |by left; destruct ok|by intros t _|by intros body; rewrite Hp; left].
    destruct ok; split; cbn; [exact Hi|by apply Hc|exact Hi|done].
  - injection Hs as <- <-. split_and!; [done| |by left|done|by left]. split; [exact Ht|]. cbn.
    destruct (Token_Error token k) as [e|] eqn:Ee; [done|]. exists token. split; [done|].
    destruct (Ht token eq_refl) as (body & _ & Hi). by eapply acknowledged.
  - by injection Hs as <-.
Qed.

Lemma tokens_insert (calls : list (mqttCall K)) i call call' k :
  calls !! i = Some call -> Forall (call_ok k) calls -> NoDup (omap token_of calls) ->
  (token_of call' = token_of call \/
   token_of call = None /\ exists token, token_of call' = Some token /\ issued k token = None) ->
  NoDup (omap token_of (<[i := call']> calls)).
Proof.
  intros Hi Hok Hnd Ht. rewrite (insert_take_drop calls i call') by (by eapply lookup_lt_Some).
  rewrite <- (take_drop_middle calls i call Hi) in Hnd. rewrite omap_app in *. cbn in *.
  destruct Ht as [->|[Hn (token & -> & Hfresh)]]; [done|]. rewrite Hn in Hnd.
  rewrite <- Permutation_middle. apply NoDup_cons. split; [|done]. rewrite <- omap_app.
  intros (c & Hc & Htk)%list_elem_of_omap.
  assert (c ∈ calls) as Hin.
  { rewrite <- (take_drop_middle calls i call Hi). apply elem_of_app in Hc as [?|?]; apply elem_of_app; [by left|right].
    by apply elem_of_cons; right. }
  destruct (proj1 (proj1 (Forall_forall _ _) Hok c Hin) token Htk) as (body & _ & Hiss). congruence.
Qed.

Lemma mqstep_inv k0 s s' : mqinv k0 s -> mqstep s s' -> mqinv k0 s'.
Proof.
  intros [H1 H2 H3 H4 H5 H6] Hs. destruct Hs as [w w' k calls closed new Hst Hnew
    |w k k' calls closed i call pc Hi Hst Hne|w k k' calls closed Hb|w k calls Hst]; cbn in *.
  - split; cbn; [by eapply reach_step| | | | |done].
    + apply Forall_app_2; [done|]. apply Forall_fmap, Forall_true. by intros msg.
    + rewrite omap_app. assert (omap token_of ((fun msg => mkMqttCall msg MqMarshal) <$> handed n new) = []) as ->
        by (induction (handed n new); done). by rewrite app_nil_r.
    + rewrite Hnew, handed_app, fmap_app, <- list_fmap_compose, H4.
      replace ((mq_msg ∘ (fun msg => mkMqttCall msg MqMarshal)) <$> handed n new) with (handed n new)
        by (symmetry; apply list_fmap_id). apply Permutation_app_comm.
    + intros body [?|(c & Hc & ?)]%H5; [by left|right]. exists c. split; [|done]. apply elem_of_app. by left.
  - pose proof (proj1 (Forall_lookup _ _) H2 i call Hi) as Hok.
    destruct (mqttStep_ok call k pc k' Hok Hst Hne) as (Hl & Hok' & Ht & Ho & Hp).
    assert (mq_msg <$> <[i := at_call call pc]> calls = mq_msg <$> calls) as Hm.
    { rewrite list_fmap_insert. apply list_insert_id. by rewrite list_lookup_fmap, Hi. }
    split; cbn; [done| |by eapply (tokens_insert _ _ _ _ k)|by rewrite Hm| |].
    + apply Forall_insert; [|done]. eapply Forall_impl; [exact H2|]. intros c. by apply call_later.
    + assert (forall body, (exists c, c ∈ calls /\ Marshal (mq_msg c) = inl body) ->
        exists c, c ∈ <[i := at_call call pc]> calls /\ Marshal (mq_msg c) = inl body) as Hsome.
      { intros body (c & Hc & Hb). apply (list_elem_of_fmap_2 mq_msg) in Hc. rewrite <- Hm in Hc.
        apply list_elem_of_fmap in Hc as (c' & Hc' & ?). exists c'. split; [done|congruence]. }
      intros body [[?|?]%H5|?]%Hp; [by left|right; by apply Hsome|right; apply Hsome].
      exists call. split; [by eapply list_elem_of_lookup_2|done].
    + intros t Hn. by rewrite Ho, H6.
  - destruct (background_law k k' Hb) as [Hl Hp]. split; cbn; [done| |done|done|by setoid_rewrite Hp|by setoid_rewrite Hp].
    eapply Forall_impl; [exact H2|]. intros c. by apply call_later.
  - destruct (disconnect_law (mf_client f) 500 k) as [Hl Hp].
    split; cbn; [done| |done|done|by setoid_rewrite Hp|by setoid_rewrite Hp].
    eapply Forall_impl; [exact H2|]. intros c. by apply call_later.
Qed.

Lemma mqreachable_inv k0 s : mqreachable k0 s -> mqinv k0 s.
Proof.
  intros (t & Hr). assert (mqinv k0 (mkMsys (initial t) k0 [] false)) as Hk0.
  { split; cbn; [apply reach_start|constructor|constructor|done|by left|done]. }
  revert Hk0. induction Hr as [|s s1 s2 Hs _ IH]; [done|]. intros. by eapply IH, mqstep_inv.
Qed.

(** *** What was acknowledged *)

Lemma omap_submseteq {A B} (g : A -> option B) l1 l2 : l1 ⊆+ l2 -> omap g l1 ⊆+ omap g l2.
Proof. intros [l ->]%submseteq_Permutation. rewrite omap_app. by apply submseteq_inserts_r. Qed.

(** The token of a call that returned [nil]. *)
Definition nil_token (call : mqttCall K) : option Token :=
  match mq_pc call with MqReturned token None => token | _ => None end.

Definition token_text (k : K) (t : gostring) (token : Token) : option bytes :=
  m ← issued k token; if decide (m.1.1 = t) then Some m.2 else None.

Lemma delivered_tokens k calls : Forall (call_ok k) calls ->
  texts (delivered_calls calls) = omap (token_text k (mf_topic f)) (omap nil_token calls).
Proof.
  induction 1 as [|call calls [Ht Hpc] _ IH]; [done|]. unfold delivered_calls, texts in *. cbn.
  destruct call as [msg pc]. unfold nil_token, token_of in *. cbn in *.
  destruct pc as [| | |token [e|]]; cbn; try done. destruct Hpc as (tk & -> & _).
  destruct (Ht tk eq_refl) as (body & Hm & Hi). cbn. rewrite Hm. unfold token_text at 1. rewrite Hi. cbn.
  rewrite decide_True by done. by rewrite IH.
Qed.

Lemma nil_tokens_sublist calls : sublist (omap nil_token calls) (omap token_of calls).
Proof.
  induction calls as [|[msg pc] calls IH]; [done|]. unfold nil_token, token_of in *.
  destruct pc as [| | |[token|] [e|]]; cbn; first [exact IH|by apply sublist_skip|by apply sublist_cons].
Qed.

Lemma delivered_received k calls : Forall (call_ok k) calls -> NoDup (omap token_of calls) ->
  texts (delivered_calls calls) ⊆+ received k (mf_topic f).
Proof.
  intros Hok Hnd. rewrite (delivered_tokens k) by done.
  etrans; [apply omap_submseteq|exact (confirmed_received k (mf_topic f))].
  apply NoDup_submseteq; [by eapply sublist_NoDup; [|apply nil_tokens_sublist]|].
  intros token (call & Hin & Ht)%list_elem_of_omap.
  pose proof (proj1 (Forall_forall _ _) Hok call Hin) as [_ Hpc]. unfold nil_token in Ht.
  destruct (mq_pc call) as [| | |tk [e|]]; try done. destruct Hpc as (x & -> & ?). by injection Ht as <-.
Qed.

(** *** Every call returns *)

Definition mq_rank (pc : mqttPc Token) : nat :=
  match pc with MqMarshal => 3 | MqWait _ => 2 | MqError _ => 1 | MqReturned _ _ => 0 end.

Lemma mqttStep_rank call k : (mq_rank (mqttStep f call k).1 <= mq_rank (mq_pc call) - 1)%nat.
Proof.
  unfold mqttStep. destruct (mq_pc call); cbn.
  - destruct (Marshal _); cbn; [|lia]. destruct (Publish _ _ _ _ _ k); cbn; lia.
  - destruct (WaitTimeout _ _ k) as [[] k']; cbn; lia.
  - lia.
  - lia.
Qed.

Lemma call_returns m : forall w k calls closed i call, calls !! i = Some call -> (mq_rank (mq_pc call) <= m)%nat ->
  exists k' call', rtc mqstep (mkMsys w k calls closed) (mkMsys w k' (<[i := call']> calls) closed) /\ returned call'.
Proof.
  induction m as [|m IH]; intros w k calls closed i call Hi Hm.
  - exists k, call. rewrite list_insert_id by done. split; [apply rtc_refl|].
    unfold returned. destruct (mq_pc call); cbn in Hm; (done || lia).
  - destruct (decide (mq_rank (mq_pc call) = 0)%nat) as [Hz|Hz]; [apply (IH w k calls closed i call Hi); lia|].
    pose proof (mqttStep_rank call k) as Hr. destruct (mqttStep f call k) as [pc k1] eqn:Hs. cbn in Hr.
    destruct (IH w k1 (<[i := at_call call pc]> calls) closed i (at_call call pc)) as (k' & call' & Hrtc & Hret).
    { apply list_lookup_insert_eq. by eapply lookup_lt_Some. }
    { cbn. lia. }
    rewrite list_insert_insert_eq in Hrtc. exists k', call'. split; [|done].
    eapply rtc_l; [|exact Hrtc]. apply (mq_exec _ _ _ _ _ _ call); [done|done|]. intros ->. lia.
Qed.

Lemma calls_return m : forall w k calls closed, (m <= length calls)%nat -> Forall returned (take m calls) ->
  exists k' calls', rtc mqstep (mkMsys w k calls closed) (mkMsys w k' calls' closed) /\ Forall returned calls'.
Proof.
  intros w k calls closed Hm Hret. remember (length calls - m)%nat as r eqn:Er. revert m k calls Er Hm Hret.
  induction r as [|r IH]; intros m k calls Er Hm Hret.
  - exists k, calls. rewrite take_ge in Hret by lia. split; [apply rtc_refl|done].
  - destruct (lookup_lt_is_Some_2 calls m) as [call Hi]; [lia|].
    destruct (call_returns (mq_rank (mq_pc call)) w k calls closed m call Hi) as (k1 & call' & Hrtc & Hc); [done|].
    destruct (IH (S m) k1 (<[m := call']> calls)) as (k' & calls' & Hrtc' & Hall); rewrite ?length_insert; [lia|lia| |].
    { rewrite (take_S_r _ _ call') by (apply list_lookup_insert_eq; lia). apply Forall_app_2; [|by apply Forall_singleton].
      by rewrite take_insert_ge by lia. }
    exists k', calls'. split; [by etrans|done].
Qed.

(** *** A call alone *)

(** Without anyone in between the statements are [MQTTForwarder_Forward]. *)
Lemma mqtt_alone w k calls closed i msg : calls !! i = Some (mkMqttCall msg MqMarshal) ->
  exists token, rtc mqstep (mkMsys w k calls closed)
    (mkMsys w (MQTTForwarder_Forward f msg k).2
       (<[i := mkMqttCall msg (MqReturned token (MQTTForwarder_Forward f msg k).1)]> calls) closed).
Proof.
  intros Hi. pose proof (lookup_lt_Some _ _ _ Hi) as Hlt. unfold MQTTForwarder_Forward.
  assert (forall k k' pc pc', mqttStep f (mkMqttCall msg pc) k = (pc', k') -> pc' <> pc ->
    mqstep (mkMsys w k (<[i := mkMqttCall msg pc]> calls) closed)
      (mkMsys w k' (<[i := mkMqttCall msg pc']> calls) closed)) as Hgo.
  { intros k1 k2 pc pc' Hs Hne. rewrite <- (list_insert_insert_eq calls i (mkMqttCall msg pc') (mkMqttCall msg pc)).
    by apply (mq_exec _ _ _ _ _ _ (mkMqttCall msg pc)); [apply list_lookup_insert_eq| |]. }
  pose proof (fun k' => Hgo k k' MqMarshal) as Hfirst. rewrite (list_insert_id calls i _ Hi) in Hfirst.
  destruct (Marshal msg) as [body|err] eqn:Em.
  2:{ exists None. apply rtc_once, Hfirst; [|done]. unfold mqttStep. cbn. by rewrite Em. }
  destruct (Publish _ _ 1 false body k) as [token k1] eqn:Ep. exists (Some token).
  destruct (WaitTimeout token _ k1) as [ok k2] eqn:Ew.
  eapply rtc_l; [apply (Hfirst k1 (MqWait token)); [|done]; unfold mqttStep; cbn; by rewrite Em, Ep|].
  destruct ok; cbn [negb fst snd].
  - eapply rtc_l; [apply (Hgo k1 k2 (MqWait token) (MqError token)); [|done]; unfold mqttStep; cbn; by rewrite Ew|].
    apply rtc_once, Hgo; [done|done].
  - apply rtc_once, Hgo; [|done]. unfold mqttStep. cbn. by rewrite Ew.
Qed.
End system.

(** ** Properties *)

(** C21: From the vehicle to the broker.  In every interleaving of the calls of
    [MQTTForwarder.Forward] with one another, the client's own goroutines, the server and
    [Stop], over any client that keeps the library's contract: there is one call for
    each message the server forwarded; the broker has received, at least once each, the
    texts of the messages whose calls returned [nil], which read back as them; it
    receives nothing that is not the text of a forwarded message, and nothing on other
    topics; and all calls can go on to return. *)
Theorem mqtt_delivers {K} `{PahoLaws K} cfg n (f : MQTTForwarder K) k0 s
    (Hu : user_ok cfg) (Hs : mqreachable cfg n f k0 s) :
  mq_msg <$> ms_calls s ≡ₚ handed n (w_trace (ms_world s)) /\
  texts (delivered_calls (ms_calls s)) ⊆+ received (ms_lib s) (mf_topic f) /\
  Forall (fun msg => exists body, Marshal msg = inl body /\ readJson body = Some (msg_value (clean msg)))
    (delivered_calls (ms_calls s)) /\
  (forall body, body ∈ received (ms_lib s) (mf_topic f) ->
     body ∈ published k0 (mf_topic f) \/
     exists msg, msg ∈ handed n (w_trace (ms_world s)) /\ Marshal msg = inl body) /\
  (forall t, t <> mf_topic f -> published (ms_lib s) t = published k0 t) /\
  exists k calls, rtc (mqstep cfg n f) s (mkMsys (ms_world s) k calls (ms_closed s)) /\ Forall returned calls.
Proof.
  destruct (mqreachable_inv cfg n f k0 s Hs) as [H1 H2 H3 H4 H5 H6]. split_and!; [done|by eapply delivered_received| | |done|].
  - apply Forall_forall. intros msg (call & Hin & Hm)%list_elem_of_omap.
    apply (forwarded_readable cfg (ms_world s)); [done|done|].
    assert (msg = mq_msg call) as -> by (destruct (mq_pc call) as [| | |tk [e|]]; congruence).
    apply (list_elem_of_fmap_2 mq_msg) in Hin. rewrite H4 in Hin. unfold handed, calls_of in Hin.
    apply list_elem_of_fmap in Hin as (c & -> & Hc). apply list_elem_of_filter in Hc as [_ Hc].
    by apply list_elem_of_fmap_2.
  - intros body [?|(call & Hc & Hm)]%received_published%H5; [by left|right]. exists (mq_msg call).
    split; [|done]. rewrite <- H4. by apply list_elem_of_fmap_2.
  - destruct s as [w k calls closed]. apply (calls_return cfg n f 0); [lia|constructor].
Qed.

(** ** A broker in memory *)

(** The messages published, a token for each, and whether the broker has acknowledged
    it, which then has it twice; and whether the client is connected. *)
Record broker := mkBroker { bk_msgs : list (gostring * int * bytes * bool); bk_up : bool }.

Definition acked (k : broker) (token : nat) : bool :=
  match bk_msgs k !! token with Some m => m.2 | None => false end.

#[export] Instance broker_paho : Paho broker := {|
  Client := unit;
  Token := nat;
  NewClient := fun _ k => (tt, k);
  Connect := fun _ k => (length (bk_msgs k), k);
  Publish := fun _ t qos _ body k =>
    (length (bk_msgs k), mkBroker (bk_msgs k ++ [(t, qos, body, false)]) (bk_up k));
  Disconnect := fun _ _ k => mkBroker (bk_msgs k) false;
  WaitTimeout := fun token _ k => (acked k token, k);
  Token_Error := fun _ _ => None
|}.

Definition broker_issued (k : broker) (token : nat) : option (gostring * int * bytes) :=
  fst <$> bk_msgs k !! token.

Definition broker_confirmed (k : broker) : list nat :=
  filter (fun token => acked k token = true) (seq 0 (length (bk_msgs k))).

Definition broker_received (k : broker) (t : gostring) : list bytes :=
  let got := omap (fun token => m ← broker_issued k token; if decide (m.1.1 = t) then Some m.2 else None)
    (broker_confirmed k) in
  got ++ got.

Definition broker_published (k : broker) (t : gostring) : list bytes :=
  (fun m => m.1.2) <$> filter (fun m : gostring * int * bytes * bool => m.1.1.1 = t) (bk_msgs k).

(** A message gets through. *)
Inductive broker_acks : broker -> broker -> Prop :=
  | broker_ack ms token m :
      ms !! token = Some (m, false) ->
      broker_acks (mkBroker ms true) (mkBroker (<[token := (m, true)]> ms) true).

Lemma broker_confirmed_spec k token : token ∈ broker_confirmed k <-> acked k token = true.
Proof.
  unfold broker_confirmed. rewrite list_elem_of_filter, elem_of_seq. split; [by intros []|].
  intros Ha. split; [done|]. unfold acked in Ha. destruct (bk_msgs k !! token) eqn:E; [|done].
  apply lookup_lt_Some in E. lia.
Qed.

(** More messages, or more acknowledged. *)
Lemma broker_later k k' :
  (forall token m, bk_msgs k !! token = Some m -> exists b, bk_msgs k' !! token = Some (m.1, m.2 || b)) ->
  later broker_issued (fun k token => acked k token = true) broker_confirmed k k'.
Proof.
  intros Hk. assert (forall token, acked k token = true -> acked k' token = true) as Ha.
  { intros token. unfold acked. destruct (bk_msgs k !! token) as [m|] eqn:E; [|done]. intros Hm.
    destruct (Hk token m E) as [b ->]. cbn. by rewrite Hm. }
  split; [|done|by intros token; rewrite !broker_confirmed_spec; apply Ha].
  intros token m. unfold broker_issued. intros (x & E & ->)%fmap_Some. destruct (Hk token x E) as [b ->]. done.
Qed.

Lemma broker_same k up : later broker_issued (fun k token => acked k token = true) broker_confirmed k (mkBroker (bk_msgs k) up).
Proof. apply broker_later. intros token [m b] E. exists false. cbn. by rewrite orb_false_r. Qed.

#[export] Instance broker_laws : PahoLaws broker.
Proof.
  refine {| background := broker_acks; published := broker_published; received := broker_received;
            issued := broker_issued; completed := fun k token => acked k token = true; confirmed := broker_confirmed |}.
  - intros k t body Hb. assert (body ∈ omap (fun token => m ← broker_issued k token; if decide (m.1.1 = t) then Some m.2 else None)
      (broker_confirmed k)) as (token & _ & Hm)%list_elem_of_omap by (by apply elem_of_app in Hb as []).
    unfold broker_issued in Hm. destruct (bk_msgs k !! token) as [[[[t' q] b] a]|] eqn:E; [|done]. cbn in Hm.
    destruct (decide (t' = t)) as [->|]; [|done]. injection Hm as ->. apply list_elem_of_fmap.
    exists (t, q, body, a). split; [done|]. apply list_elem_of_filter. split; [done|]. by eapply list_elem_of_lookup_2.
  - intros k. apply NoDup_filter, NoDup_seq.
  - intros k t. by apply submseteq_inserts_r.
  - intros c t qos r body [ms up]. cbn. split_and!.
    + unfold broker_issued. cbn. by rewrite lookup_ge_None_2.
    + unfold broker_issued. cbn. by rewrite list_lookup_middle.
    + apply broker_later. cbn. intros token [m b] E. exists false. rewrite orb_false_r. by apply lookup_app_l_Some.
    + intros t'. unfold broker_published. cbn. rewrite filter_app, fmap_app. f_equal. rewrite filter_cons. cbn.
      destruct (decide (t' = t)) as [->|Ht]; [by rewrite decide_True|by rewrite decide_False].
  - intros token d k. cbn. split_and!; [done| |done]. destruct k as [ms up]. apply (broker_same (mkBroker ms up)).
  - intros c q k. split; [apply broker_same|done].
  - intros k k' Hb. destruct Hb as [ms token m Hm]. split.
    + apply broker_later. cbn. intros i [x b] E. destruct (decide (token = i)) as [<-|Hi].
      * exists true. rewrite list_lookup_insert_eq by (by eapply lookup_lt_Some). rewrite orb_true_r. by simplify_eq.
      * exists false. rewrite list_lookup_insert_ne by done. by rewrite orb_false_r.
    + intros t. unfold broker_published. cbn. rewrite (insert_take_drop ms token) by (by eapply lookup_lt_Some).
      rewrite <- (take_drop_middle ms token _ Hm) at 3. rewrite !filter_app, !fmap_app, !filter_cons. cbn.
      by destruct (decide _).
  - intros k token t body _ Hc _. by apply broker_confirmed_spec.
Defined.

Definition sample_mqtt : MQTTForwarder broker := mkMQTTForwarder tt [103; 98].
Definition no_messages : broker := mkBroker [] true.

(** The two logouts, both published; one message gets through and the other call gives
    up. *)
Definition logout_entry (m : Z) : gostring * int * bytes := ([103; 98], 1, logout_body m).

Definition sample_calls (pc2 pc1 : mqttPc nat) : list (mqttCall broker) :=
  [mkMqttCall (logout_call 2).2 pc2; mkMqttCall (logout_call 1).2 pc1].

Definition sample_system (k : broker) (pc2 pc1 : mqttPc nat) : msys broker :=
  mkMsys after_logouts k (sample_calls pc2 pc1) false.

Definition gave_up : mqttPc nat := MqReturned (Some 1%nat) (Some (Errorf "mqtt: publish timeout" [])).

Lemma logout_marshals m : m = 1 \/ m = 2 -> Marshal (logout_call m).2 = inl (logout_body m).
Proof. intros [-> | ->]; vm_compute; reflexivity. Qed.

Lemma sample_call k k' i pc pc2 pc1 m :
  sample_calls pc2 pc1 !! i = Some (mkMqttCall (logout_call m).2 pc) ->
  forall pc', mqttStep sample_mqtt (mkMqttCall (logout_call m).2 pc) k = (pc', k') -> pc' <> pc ->
  mqstep sample_config 0 sample_mqtt (sample_system k pc2 pc1)
    (mkMsys after_logouts k' (<[i := mkMqttCall (logout_call m).2 pc']> (sample_calls pc2 pc1)) false).
Proof. intros Hi pc' Hs Hne. exact (mq_exec _ _ _ after_logouts k k' _ false i _ pc' Hi Hs Hne). Qed.

Lemma sample_publishes k m : m = 1 \/ m = 2 ->
  mqttStep sample_mqtt (mkMqttCall (logout_call m).2 MqMarshal) k =
    (MqWait (length (bk_msgs k)), mkBroker (bk_msgs k ++ [(logout_entry m, false)]) (bk_up k)).
Proof. intros Hm. unfold mqttStep. cbn [mq_pc mq_msg]. by rewrite (logout_marshals m Hm). Qed.

Lemma sample_mqreachable :
  mqreachable sample_config 0 sample_mqtt no_messages
    (sample_system (mkBroker [(logout_entry 2, true); (logout_entry 1, false)] true) (MqReturned (Some 0%nat) None) gave_up).
Proof.
  exists (Date 2024 1 1 0 0 0 0).
  eapply rtc_l; [apply (mq_server _ _ _ sample_start sample_world _ _ _ []); [exact sample_accepts|vm_compute; reflexivity]|].
  eapply rtc_l.
  { apply (mq_server _ _ _ sample_world after_logouts _ _ _ (w_trace after_logouts)); [exact sample_logouts|].
    vm_compute. reflexivity. }
  assert (handed 0 (w_trace after_logouts) = [(logout_call 2).2; (logout_call 1).2]) as -> by (vm_compute; reflexivity).
  eapply rtc_l; [apply (sample_call no_messages _ 0 MqMarshal MqMarshal MqMarshal 2 eq_refl _
    (sample_publishes no_messages 2 (or_intror eq_refl))); done|].
  eapply rtc_l; [apply (sample_call _ _ 1 MqMarshal (MqWait 0%nat) MqMarshal 1 eq_refl _
    (sample_publishes (mkBroker [(logout_entry 2, false)] true) 1 (or_introl eq_refl))); done|].
  eapply rtc_l; [exact (mq_background _ _ _ after_logouts _ _ _ false
    (broker_ack [(logout_entry 2, false); (logout_entry 1, false)] 0 (logout_entry 2) eq_refl))|].
  set (k := mkBroker [(logout_entry 2, true); (logout_entry 1, false)] true).
  eapply rtc_l; [exact (sample_call k k 0 (MqWait 0%nat) (MqWait 0%nat) (MqWait 1%nat) 2 eq_refl
    (MqError 0%nat) eq_refl ltac:(done))|].
  eapply rtc_l; [exact (sample_call k k 1 (MqWait 1%nat) (MqError 0%nat) (MqWait 1%nat) 1 eq_refl
    gave_up eq_refl ltac:(done))|].
  apply rtc_once. exact (sample_call k k 0 (MqError 0%nat) (MqError 0%nat) gave_up 2 eq_refl
    (MqReturned (Some 0%nat) None) eq_refl ltac:(done)).
Qed.

Lemma mqtt_delivers_witness :
  handed 0 (w_trace after_logouts) ≡ₚ [(logout_call 2).2; (logout_call 1).2] /\
  texts [(logout_call 2).2] ⊆+ [logout_body 2; logout_body 2] /\
  readJson (logout_body 2) = Some (msg_value (clean (logout_call 2).2)) /\
  (forall body, body ∈ [logout_body 2; logout_body 2] ->
     exists msg, msg ∈ handed 0 (w_trace after_logouts) /\ Marshal msg = inl body).
Proof.
  destruct (mqtt_delivers sample_config 0 sample_mqtt no_messages _ sample_user_ok sample_mqreachable)
    as (H1 & H2 & H3 & H4 & _).
  split; [symmetry; exact H1|]. split; [exact H2|]. split.
  - apply Forall_inv in H3 as (body & Hm & Hr). pose proof (logout_marshals 2 (or_intror eq_refl)) as Hm'.
    assert (inl body = inl (logout_body 2) :> bytes + goerr) as Hb by exact (eq_trans (eq_sym Hm) Hm').
    rewrite <- (inl_inj _ _ Hb). exact Hr.
  - intros body Hb. destruct (H4 body Hb) as [Hn|Hs]; [|exact Hs]. by apply not_elem_of_nil in Hn.
Defined.
