(* ===== verification/Traffic.v ===== *)
(** * Traffic: what a connection does with each packet

    The packets a connection reports to its user, the ones it answers with the
    server's clock and the ones it drops; the idle check and the end of the
    server. *)
From stdpp Require Import gmap.
From S2P Require Import Prelude.
From S2P Require Import GoTime.
From S2P Require Import Constant.
From S2P Require Import Packet.
From S2P Require Import Framing.
From S2P Require Import FramingSpec.
From S2P Require Import Payload.
From S2P Require Import Realtime.
From S2P Require Import Crypto.
From S2P Require Import Registry.
From S2P Require Import World.
From S2P Require Import Connection.
From S2P Require Import Server.
From S2P Require Import Sessions.

(** ** Specification *)

(** The body a packet carries: its data, decrypted under the session key when
    it is marked as encrypted and there is a key. *)
Definition opened (c : Connection) (pkt : Packet) : outcome bytes :=
  match (if p_EncryptType pkt =? EncAES128 then c_encryptKey c else None) with
  | Some key => DecryptAES128 (p_Data pkt) key
  | None => Ok (p_Data pkt)
  end.

(** The commands that are reports, and the call and the message each becomes. *)
Definition report_of (cmd : byte) (vin : gostring) (data : bytes)
  : option (outcome (callback * ForwardMsg)) :=
  if cmd =? CmdRealtime then
    Some (let! m := DecodeRealtimeData data in
          Ok (OnRealtimeData m, newForwardMsg "realtime" vin (FwdRealtime m)))
  else if cmd =? CmdReissue then
    Some (let! m := DecodeReissueData data in
          Ok (OnReissueData m, newForwardMsg "reissue" vin (FwdReissue m)))
  else if cmd =? CmdLogout then
    Some (let! m := DecodeLogoutData data in
          Ok (OnVehicleLogout m, newForwardMsg "logout" vin (FwdLogout m)))
  else None.

Definition is_err {A} (m : outcome A) : bool := match m with Err _ => true | _ => false end.

(** The packets nothing is done with: commands without an interface to call,
    bodies their decoder refuses, commands the server does not know. *)
Definition refused (cfg : Config) (cmd : byte) (data : bytes) : bool :=
  if cmd =? CmdLogin then negb (cfg_auth cfg) && is_err (DecodeLoginData data)
  else if cmd =? CmdLogout then is_err (DecodeLogoutData data)
  else if cmd =? CmdRealtime then is_err (DecodeRealtimeData data)
  else if cmd =? CmdReissue then is_err (DecodeReissueData data)
  else if cmd =? CmdHeartbeat then false
  else if cmd =? CmdTimeCalibr then false
  else if cmd =? CmdPlatLogin then
    negb (cfg_platformHandler cfg) || is_err (DecodePlatLoginResponse data)
  else if cmd =? CmdPlatLogout then
    negb (cfg_platformHandler cfg) || is_err (DecodePlatLogoutResponse data)
  else if cmd =? CmdParamQuery then
    negb (cfg_paramHandler cfg) || is_err (DecodeParamQueryData data)
  else if cmd =? CmdParamQueryResp then
    negb (cfg_paramHandler cfg) || is_err (DecodeParamQueryData data)
  else if cmd =? CmdParamSetting then
    negb (cfg_paramHandler cfg) || is_err (DecodeParamSettingData data)
  else true.

(** The requests that are answered with a time: whom the connection asks first,
    and the time it sends. *)
Inductive clock_case (cfg : Config) (t : Time) : byte -> list callback -> Time -> Prop :=
  | clock_heartbeat a :
      (cfg_handler cfg = true -> answers cfg OnHeartbeat a) ->
      clock_case cfg t CmdHeartbeat (if cfg_handler cfg then [OnHeartbeat] else []) (UTC t)
  | clock_own : cfg_timeProvider cfg = false -> clock_case cfg t CmdTimeCalibr [] (UTC t)
  | clock_provided tp :
      cfg_timeProvider cfg = true -> answers cfg OnTimeCalibration (inl tp) ->
      clock_case cfg t CmdTimeCalibr [OnTimeCalibration] tp
  | clock_fallback err :
      cfg_timeProvider cfg = true -> answers cfg OnTimeCalibration (inr err) ->
      clock_case cfg t CmdTimeCalibr [OnTimeCalibration] (UTC t).

(** What the other end of a connection reads in a body, with the session key if
    there is one. *)
Definition unsealed (c : Connection) (body : bytes) : outcome bytes :=
  match c_encryptKey c with
  | Some key => DecryptAES128 body key
  | None => Ok body
  end.

(** ** Lemmas *)

Lemma handlePacket_opened cfg p pkt w c :
  w_heap w !! p = Some c ->
  handlePacket cfg p pkt w =
    match opened c pkt with
    | Ok data => dispatch cfg p (with_data pkt data) w
    | Err _ => Ok (tt, w)
    | Panic => Panic
    | OutOfFuel => OutOfFuel
    end.
Proof.
  intros Hc. unfold handlePacket, opened.
  rewrite (bindM_ok _ _ _ c w) by (unfold conn; by rewrite Hc).
  destruct (if _ =? _ then _ else _) as [k|]; [|by destruct pkt].
  unfold bindM, try. by destruct (DecryptAES128 _ _).
Qed.

(** A handler that is called for its effects, if there is one. *)
Definition told (cfg : Config) (p : ptr) (cb : callback) : list event :=
  if cfg_handler cfg then [EvCallback p cb] else [].

Lemma told_eq cfg p cb a w :
  is_Some (w_heap w !! p) ->
  (cfg_handler cfg = true -> answers cfg cb a) ->
  (if cfg_handler cfg then ask cfg p cb;; ret tt else ret tt) w =
    Ok (tt, set_trace w (told cfg p cb ++ w_trace w)).
Proof.
  intros Hp Ha. unfold told. destruct (cfg_handler cfg); [|by destruct w].
  by rewrite (bindM_ok _ _ _ _ _ (ask_answers _ _ _ _ _ (Ha eq_refl) Hp)).
Qed.

Lemma try_err {A} (m : outcome A) (k : A -> M unit) w :
  is_err m = true ->
  (let* r := try m in match r with inl a => k a | inr _ => ret tt end) w = Ok (tt, w).
Proof. by destruct m. Qed.

Lemma try_ok {A B} (m : outcome A) (k : A -> M B) (b : M B) w a :
  m = Ok a -> (let* r := try m in match r with inl a => k a | inr _ => b end) w = k a w.
Proof. by intros ->. Qed.

(** The handlers of the reports: the body is decoded, the handler is told, and
    [k] does the rest. *)
Lemma report_case {X} cfg p (m : outcome X) (f : X -> callback) (g : X -> ForwardMsg) k cb msg a w :
  is_Some (w_heap w !! p) ->
  (let! x := m in Ok (f x, g x)) = Ok (cb, msg) -> (cfg_handler cfg = true -> answers cfg cb a) ->
  exists x, msg = g x /\
    (let* r := try m in
     match r with
     | inr _ => ret tt
     | inl x => (if cfg_handler cfg then ask cfg p (f x);; ret tt else ret tt);; k x
     end) w = k x (set_trace w (told cfg p cb ++ w_trace w)).
Proof.
  intros Hp Hr Ha. destruct m as [x|?| |]; try done. injection Hr as <- <-. exists x. split; [done|].
  erewrite try_ok by done. by rewrite (bindM_ok _ _ _ _ _ (told_eq _ _ _ _ _ Hp Ha)).
Qed.

Lemma report_decoded cfg p pkt w c data cb msg a :
  w_heap w !! p = Some c -> report_of (p_Command pkt) (p_VIN pkt) data = Some (Ok (cb, msg)) ->
  (cfg_handler cfg = true -> answers cfg cb a) ->
  dispatch cfg p (with_data pkt data) w =
    let w1 := if p_Command pkt =? CmdLogout
              then set_heap w (<[p := with_key None c]> (w_heap w)) else w in
    Ok (tt, set_trace w1 (forward_events cfg msg ++ told cfg p cb ++ w_trace w)).
Proof.
  intros Hc Hr Ha. unfold report_of in Hr. unfold dispatch. cbn [p_Command with_data].
  destruct (Z.eqb_spec (p_Command pkt) CmdRealtime) as [->|];
    [|destruct (Z.eqb_spec (p_Command pkt) CmdReissue) as [->|];
      [|destruct (Z.eqb_spec (p_Command pkt) CmdLogout) as [->|]; [|done]]];
    injection Hr as Hr; cbn [Z.eqb].
  - destruct (report_case cfg p _ _ _
      (fun m => forward cfg (newForwardMsg "realtime" (p_VIN pkt) (FwdRealtime m))) _ _ _ w (mk_is_Some _ _ Hc) Hr Ha)
      as (m & -> & Hm). exact Hm.
  - destruct (report_case cfg p _ _ _
      (fun m => forward cfg (newForwardMsg "reissue" (p_VIN pkt) (FwdReissue m))) _ _ _ w (mk_is_Some _ _ Hc) Hr Ha)
      as (m & -> & Hm). exact Hm.
  - destruct (report_case cfg p _ _ _
      (fun m => on_conn p (with_key None);;
                forward cfg (newForwardMsg "logout" (p_VIN pkt) (FwdLogout m))) _ _ _ w (mk_is_Some _ _ Hc) Hr Ha)
      as (m & -> & Hm).
    erewrite (bindM_ok (on_conn p _)) in Hm by (apply on_conn_eq; exact Hc). exact Hm.
Qed.

(** A packet of [refused] leaves the world alone. *)
Lemma refused_dispatch cfg p pkt w :
  refused cfg (p_Command pkt) (p_Data pkt) = true -> dispatch cfg p pkt w = Ok (tt, w).
Proof.
  unfold refused, dispatch.
  repeat match goal with |- (if ?b then _ else _) = true -> _ => destruct b end; try done.
  - intros [Ha He]%andb_prop. apply negb_true_iff in Ha. unfold handleLogin. rewrite Ha.
    rewrite (bindM_ok _ _ _ true w) by done. by apply try_err.
  - by apply try_err.
  - by apply try_err.
  - by apply try_err.
  - unfold handlePlatLogin. destruct (cfg_platformHandler cfg); [|done]. by apply try_err.
  - unfold handlePlatLogout. destruct (cfg_platformHandler cfg); [|done]. by apply try_err.
  - unfold handleParamQuery. destruct (cfg_paramHandler cfg); [|done]. by apply try_err.
  - unfold handleParamQueryResp. destruct (cfg_paramHandler cfg); [|done]. by apply try_err.
  - unfold handleParamSetting. destruct (cfg_paramHandler cfg); [|done]. by apply try_err.
Qed.

Lemma sealed_unsealed c data :
  conn_ok c -> all_bytes data -> 0 < len data ->
  exists body e, sealed c data = Ok (body, e) /\ e <> 0 /\ unsealed c body = Ok data.
Proof.
  intros (_ & Hk & _) Hd Hl. unfold sealed, unsealed.
  destruct (c_encryptKey c) as [k|]; [|by exists data, EncNone].
  destruct (Hk k eq_refl) as [Hkl Hkb]. destruct (Z.ltb_spec 0 (len data)); [|lia].
  destruct (encrypt_decrypt data k) as (body & -> & _ & _ & Hdec); [done|done|unfold len; lia|].
  by exists body, EncAES128.
Qed.

(** The two handlers ask, then send the time. *)
Lemma heartbeat_sends cfg p w a :
  is_Some (w_heap w !! p) ->
  (cfg_handler cfg = true -> answers cfg OnHeartbeat a) ->
  handleHeartbeat cfg p w = (Send p CmdHeartbeat (encodeBCDTime (UTC (w_now w)));; ret tt)
    (set_trace w ((EvCallback p <$> (if cfg_handler cfg then [OnHeartbeat] else [])) ++ w_trace w)).
Proof.
  intros Hp Ha. unfold handleHeartbeat. rewrite (bindM_ok _ _ _ _ _ (told_eq _ _ _ _ _ Hp Ha)).
  unfold told. by destruct (cfg_handler cfg).
Qed.

Lemma calibration_sends cfg p w r :
  is_Some (w_heap w !! p) ->
  cfg_timeProvider cfg = true -> answers cfg OnTimeCalibration r ->
  handleTimeCalibr cfg p w =
    (Send p CmdTimeCalibr
       (encodeBCDTime (match r with inl tp => tp | inr _ => UTC (w_now w) end));; ret tt)
      (set_trace w (EvCallback p OnTimeCalibration :: w_trace w)).
Proof.
  intros Hp Htp Ha. unfold handleTimeCalibr. rewrite Htp.
  destruct r; erewrite (bindM_ok (bindM (ask _ _ _) _));
    [reflexivity | by rewrite (bindM_ok _ _ _ _ _ (ask_answers _ _ _ _ _ Ha Hp))
    |reflexivity | by rewrite (bindM_ok _ _ _ _ _ (ask_answers _ _ _ _ _ Ha Hp))].
Qed.

Lemma clock_dispatch cfg p pkt w asks t :
  is_Some (w_heap w !! p) ->
  clock_case cfg (w_now w) (p_Command pkt) asks t ->
  dispatch cfg p pkt w =
    (Send p (p_Command pkt) (encodeBCDTime t);; ret tt)
      (set_trace w ((EvCallback p <$> asks) ++ w_trace w)).
Proof.
  intros Hp Hcase. unfold dispatch. inversion Hcase as [a Ha Hcmd|Htp Hcmd|tp Htp Ha Hcmd|err Htp Ha Hcmd].
  - by apply (heartbeat_sends _ _ _ a).
  - etrans; [|reflexivity]. change (handleTimeCalibr cfg p w = (Send p CmdTimeCalibr
      (encodeBCDTime (UTC (w_now w)));; ret tt) (set_trace w (w_trace w))).
    unfold handleTimeCalibr. rewrite Htp. by destruct w.
  - subst tp. by apply (calibration_sends _ _ _ (inl t)).
  - by apply (calibration_sends _ _ _ (inr err)).
Qed.

(** *** Stopping *)

(** Distinct identifiers lead to distinct connections. *)
Lemma indexed_NoDup w : inv w -> NoDup (map_to_list (w_connections w)).*2.
Proof.
  intros (_ & _ & H & _). apply NoDup_fmap_2_strong; [|apply NoDup_map_to_list].
  intros [id p] [id' p'] Hx Hy Heq. cbn in Heq. subst p'.
  apply elem_of_map_to_list, H in Hx as (c & Hc & <- & _).
  apply elem_of_map_to_list, H in Hy as (d & Hd & <- & _). congruence.
Qed.

Lemma elem_of_indexed w p :
  inv w -> p ∈ (map_to_list (w_connections w)).*2 <->
    exists c, w_heap w !! p = Some c /\ c_netClosed c = false.
Proof.
  intros (_ & _ & H & _). rewrite list_elem_of_fmap. split.
  - intros ([id q] & -> & Hq). apply elem_of_map_to_list, H in Hq as (c & ? & _ & ?). by exists c.
  - intros (c & Hc & Hn). exists (c_id c, p). split; [done|].
    apply elem_of_map_to_list, H. by exists c.
Qed.

(** Closing a list of open connections. *)
Lemma closeAll_open ps : forall w,
  inv w -> NoDup ps ->
  (forall p, p ∈ ps -> exists c, w_heap w !! p = Some c /\ c_netClosed c = false) ->
  exists w', closeAll ps w = Ok (tt, w') /\ inv w' /\ w_stopped w' = w_stopped w /\
    w_connCount w' = w_connCount w - Z.of_nat (length ps) /\
    forall q, w_heap w' !! q =
      if decide (q ∈ ps) then closed_conn <$> (w_heap w !! q) else w_heap w !! q.
Proof.
  induction ps as [|p ps IH]; intros w Hw Hnd Hopen.
  { exists w. split_and!; try done. cbn. lia. }
  apply NoDup_cons in Hnd as [Hp Hnd].
  destruct (Hopen p) as (c & Hc & Hn); [by left|]. pose proof (proj1 Hw p c Hc) as Hok.
  assert (c_state c <> ConnClosed) as Hs
    by (intros Hs; destruct Hok as (_ & _ & _ & H & _); rewrite H in Hn; done).
  destruct (IH (closed_world p c w)) as (w' & Hr & Hw' & Hst & Hcnt & Hh);
    [by apply closed_world_inv | done | |].
  { intros q Hq. destruct (Hopen q) as (d & Hd & ?); [by right|]. exists d.
    cbn. rewrite lookup_insert_ne; [done|]. by intros ->. }
  exists w'. split_and!; [|done..| |].
  - cbn [closeAll]. rewrite (bindM_ok _ _ _ _ _ (Connection_Close_eq p w c Hc Hok)).
    by rewrite decide_False.
  - cbn [length] in *. rewrite Hcnt. cbn. lia.
  - intros q. rewrite Hh. cbn. destruct (decide (q = p)) as [->|Hqp].
    + rewrite decide_False by done. rewrite decide_True by by left. by rewrite lookup_insert_eq, Hc.
    + rewrite lookup_insert_ne by done. apply decide_ext. rewrite elem_of_cons.
      split; [by right | by intros [?|?]].
Qed.

(** Sending touches no connection. *)
Lemma Send_heap p w c command data :
  w_heap w !! p = Some c -> conn_ok c -> c_state c <> ConnClosed ->
  exists err w', Send p command data w = Ok (err, w') /\ w_heap w' = w_heap w /\
    (c_vin c = [] -> err = Some ErrInvalidVIN).
Proof.
  intros Hc Hok Hs. destruct (sealed_ok c data Hok) as (body & e & Hse & He).
  rewrite (Send_eq p w c Hc command data body e) by done. rewrite decide_False by done.
  destruct (len (c_vin c) =? VINLength) eqn:E.
  - rewrite (netWrite_eq p w c Hc). destruct (c_netClosed c); [|destruct (w_net w) as [|[err|] rest]];
      eexists _, _; (split_and!; [done|done|]); intros Hv; by rewrite Hv in E.
  - by eexists _, _.
Qed.

(** The commands with a name are the ones [handlePacket] has a case for. *)
Lemma unnamed_ignored cfg p pkt :
  p_Command pkt ∉ CommandNames.*1 -> dispatch cfg p pkt = ret tt.
Proof.
  intros Hn. unfold dispatch.
  repeat match goal with |- (if ?c =? ?k then _ else _) = _ =>
    destruct (Z.eqb_spec c k) as [E|_]; [destruct Hn; rewrite E; apply list_elem_of_In; cbn; tauto|] end.
  done.
Qed.

(** Neither decoder option reaches the handling of a packet: the bodies are
    decoded by the package's functions, which have their own decoder. *)
Lemma codec_options_ignored cfg tc incl p pkt :
  handlePacket (mkConfig (cfg_handler cfg) (cfg_auth cfg) (cfg_timeProvider cfg) (cfg_platformHandler cfg)
    (cfg_paramHandler cfg) (cfg_forwarders cfg) tc incl (cfg_maxConns cfg) (cfg_idleTimeout cfg)
    (cfg_user cfg)) p pkt = handlePacket cfg p pkt.
Proof. reflexivity. Qed.

(** ** Properties *)

(** C18: What a report does: a realtime, reissue or logout packet whose body (decrypted
    when it is marked so) decodes is given to the handler, once, and then to every
    forwarder, with the packet's VIN; a logout ends the session key.  Nothing is
    written and nothing else changes.  None of it depends on the state of the
    connection: one that has not logged in is served like any other. *)
Theorem reports_handled cfg p pkt w c data cb msg a
    (Hc : w_heap w !! p = Some c) (Ho : opened c pkt = Ok data)
    (Hr : report_of (p_Command pkt) (p_VIN pkt) data = Some (Ok (cb, msg)))
    (Ha : cfg_handler cfg = true -> answers cfg cb a) :
  handlePacket cfg p pkt w =
    let w1 := if p_Command pkt =? CmdLogout
              then set_heap w (<[p := with_key None c]> (w_heap w)) else w in
    Ok (tt, set_trace w1 (forward_events cfg msg ++ told cfg p cb ++ w_trace w)).
Proof. rewrite (handlePacket_opened _ _ _ _ c), Ho by done. by eapply report_decoded. Qed.

Definition realtime_packet : Packet :=
  mkPacket CmdRealtime ReqRequest vinA EncNone (enc_message sample_time sample_fields)
    (len (enc_message sample_time sample_fields)).

Lemma reports_handled_witness :
  exists msg, DecodeRealtimeData (p_Data realtime_packet) = Ok msg /\
    handlePacket sample_config 1%positive realtime_packet sample_world =
      Ok (tt, set_trace sample_world
        (EvForward 0 (newForwardMsg "realtime" vinA (FwdRealtime msg)) ::
         EvCallback 1%positive (OnRealtimeData msg) :: w_trace sample_world)).
Proof.
  destruct (DecodeRealtimeData (p_Data realtime_packet)) as [msg| | |] eqn:E;
    [|vm_compute in E; discriminate..].
  exists msg. split; [reflexivity|].
  refine (reports_handled sample_config 1%positive realtime_packet sample_world
    (newConnection sample_config [105; 100] (Date 2024 1 1 0 0 0 0)) (p_Data realtime_packet)
    (OnRealtimeData msg) (newForwardMsg "realtime" vinA (FwdRealtime msg)) (inl tt) eq_refl eq_refl _ _).
  - unfold report_of. cbn [p_Command realtime_packet]. change (CmdRealtime =? CmdRealtime) with true.
    cbv iota. rewrite E. reflexivity.
  - intros _ hist p w _. reflexivity.
Defined.

(** C36: Bad packets are dropped: one marked as encrypted that does not decrypt under the
    session key, a login that does not decode on a server without an authenticator, any
    other packet whose body its decoder refuses, one for an interface the server was not
    given and one with an unknown command leave the whole state as it was, and the
    connection open.  Where there is an authenticator it is asked before a login is
    decoded; if it accepts, a login that does not decode leaves the state as it was but for
    that call (if it does not accept, the login is one of [login_refused]). *)
Theorem bad_packets_dropped cfg p pkt w c (Hc : w_heap w !! p = Some c) :
  (match opened c pkt with
   | Ok data => refused cfg (p_Command pkt) data = true
   | Err _ => True
   | Panic | OutOfFuel => False
   end -> handlePacket cfg p pkt w = Ok (tt, w)) /\
  (forall data, opened c pkt = Ok data -> p_Command pkt = CmdLogin -> is_err (DecodeLoginData data) = true ->
     cfg_auth cfg = true -> answers cfg (OnAuthenticate (p_VIN pkt)) (inl true) ->
     handlePacket cfg p pkt w = Ok (tt, set_trace w (EvCallback p (OnAuthenticate (p_VIN pkt)) :: w_trace w))).
Proof.
  rewrite (handlePacket_opened _ _ _ _ c) by done. split.
  - destruct (opened c pkt) as [data| | |]; try done. exact (refused_dispatch cfg p (with_data pkt data) w).
  - intros data -> Hcmd He Ha Hans. rewrite dispatch_login by done. unfold handleLogin. rewrite Ha.
    rewrite (bindM_ok _ _ _ true (set_trace w (EvCallback p (OnAuthenticate (p_VIN pkt)) :: w_trace w))).
    + by apply try_err.
    + by rewrite (bindM_ok _ _ _ _ _ (ask_answers _ _ _ _ _ Hans (mk_is_Some _ _ Hc))).
Qed.

Lemma bad_packets_dropped_witness :
  handlePacket sample_config 1%positive
    (mkPacket CmdLogin ReqRequest vinA EncAES128 [1; 2; 3] 3) sample_session = Ok (tt, sample_session) /\
  handlePacket sample_config 1%positive
    (mkPacket CmdRealtime ReqRequest vinA EncNone [36; 5; 17] 3) sample_world = Ok (tt, sample_world) /\
  handlePacket sample_config 1%positive
    (mkPacket 9 ReqRequest vinA EncNone [] 0) sample_world = Ok (tt, sample_world) /\
  handlePacket sample_config 1%positive
    (mkPacket CmdLogin ReqRequest vinA EncNone [36; 5; 17] 3) sample_world =
      Ok (tt, set_trace sample_world (EvCallback 1%positive (OnAuthenticate vinA) :: w_trace sample_world)).
Proof.
  pose (c := newConnection sample_config [105; 100] (Date 2024 1 1 0 0 0 0)).
  split_and!.
  - apply (bad_packets_dropped _ _ _ _ sample_conn); [exact sample_conn_eq | vm_compute; exact I].
  - apply (bad_packets_dropped _ _ _ _ c); reflexivity.
  - apply (bad_packets_dropped _ _ _ _ c); reflexivity.
  - apply (proj2 (bad_packets_dropped sample_config 1%positive
      (mkPacket CmdLogin ReqRequest vinA EncNone [36; 5; 17] 3) sample_world c eq_refl) [36; 5; 17]);
      try reflexivity.
    intros hist p w _. reflexivity.
Defined.

(** C25: A heartbeat and a time calibration are answered with the clock: the
    handler, or the time provider if there is one, is asked first; then exactly
    one frame of the same command goes out, and its body, decrypted under the
    session key if there is one, is six BCD bytes that read back as the time:
    the provider's, or else the server's own in UTC, to the second. *)
Theorem clock_answered cfg p pkt w c data asks t
    (Hc : w_heap w !! p = Some c) (Hok : conn_ok c) (Hs : c_state c <> ConnClosed)
    (Hopen : c_netClosed c = false) (Hnet : w_net w = []) (Hv : len (c_vin c) = VINLength)
    (Ho : opened c pkt = Ok data) (Ht : clock_case cfg (w_now w) (p_Command pkt) asks t)
    (Hy : 2000 <= Year t < 2160) :
  exists body e plain,
    handlePacket cfg p pkt w =
      Ok (tt, set_trace w (EvWrite p (frame (p_Command pkt) RespSuccess (c_vin c) e body) ::
                           (EvCallback p <$> asks) ++ w_trace w)) /\
    unsealed c body = Ok plain /\ parseBCDTime6 plain = Ok (wall_utc t).
Proof.
  destruct (sealed_unsealed c (encodeBCDTime t) Hok (encodeBCDTime_bytes t)) as (body & e & Hse & He & Hu);
    [done|].
  exists body, e, (encodeBCDTime t). split; [|split; [done | by apply encodeBCDTime_parse]].
  rewrite (handlePacket_opened _ _ _ _ c), Ho by done.
  rewrite (clock_dispatch _ _ (with_data pkt data) _ asks t (mk_is_Some _ _ Hc) Ht). cbn [p_Command with_data].
  set (w1 := set_trace w _). assert (w_heap w1 !! p = Some c) as Hc1 by done.
  assert (Send p (p_Command pkt) (encodeBCDTime t) w1 =
    Ok (None, set_trace w1 (EvWrite p (frame (p_Command pkt) RespSuccess (c_vin c) e body) :: w_trace w1))) as Hsend.
  { rewrite (Send_eq p w1 c Hc1 _ _ body e) by done. destruct (decide _); [done|].
    rewrite Hv. cbn [Z.eqb]. rewrite (netWrite_eq p w1 c Hc1), Hopen. unfold w1. cbn. by rewrite Hnet. }
  by rewrite (bindM_ok _ _ _ _ _ Hsend).
Qed.

Lemma clock_answered_witness :
  exists body e plain,
    handlePacket sample_config 1%positive (mkPacket CmdHeartbeat ReqRequest vinA EncNone [] 0) sample_session =
      Ok (tt, set_trace sample_session (EvWrite 1%positive (frame CmdHeartbeat RespSuccess vinA e body) ::
        EvCallback 1%positive OnHeartbeat :: w_trace sample_session)) /\
    DecryptAES128 body (DeriveAESKey [5; 5]) = Ok plain /\
    parseBCDTime6 plain = Ok (Date 2024 1 1 0 0 0 0).
Proof.
  apply (clock_answered sample_config 1%positive (mkPacket CmdHeartbeat ReqRequest vinA EncNone [] 0)
    sample_session sample_conn [] [OnHeartbeat] (Date 2024 1 1 0 0 0 0)).
  - exact sample_conn_eq.
  - exact sample_conn_ok.
  - vm_compute. discriminate.
  - vm_compute. reflexivity.
  - vm_compute. reflexivity.
  - vm_compute. reflexivity.
  - vm_compute. reflexivity.
  - change (Date 2024 1 1 0 0 0 0) with (UTC (w_now sample_session)).
    refine (clock_heartbeat sample_config (w_now sample_session) (inl tt) _). intros _ hist p w _. reflexivity.
  - vm_compute. split; [discriminate|reflexivity].
Defined.

(** [Stop] ends every connection: whatever state the server is in, it closes
    exactly the connections that are open, each as a whole, and leaves the index
    empty; the count goes down by the number of connections it closed. *)
Theorem stop_closes_all w (Hw : inv w) :
  exists w', Stop w = Ok (tt, w') /\ inv w' /\ w_stopped w' = true /\ w_connections w' = ∅ /\
    w_connCount w' = w_connCount w - Z.of_nat (size (w_connections w)) /\
    forall p, w_heap w' !! p =
      (fun c => if c_netClosed c then c else closed_conn c) <$> (w_heap w !! p).
Proof.
  destruct (closeAll_open (map_to_list (w_connections w)).*2 (set_stopped w))
    as (w' & Hr & Hw' & Hst & Hcnt & Hh); [done | by apply indexed_NoDup | intros p; by apply (elem_of_indexed w)|].
  assert (forall p, w_heap w' !! p =
    (fun c => if c_netClosed c then c else closed_conn c) <$> (w_heap w !! p)) as Hheap.
  { intros p. rewrite Hh. pose proof (elem_of_indexed w p Hw) as He. cbn [w_heap set_stopped].
    destruct (decide _) as [Hp|Hp].
    - apply He in Hp as (c & -> & Hn). cbn. by rewrite Hn.
    - destruct (w_heap w !! p) as [c|] eqn:Hc; [|done]. cbn. destruct (c_netClosed c) eqn:Hn; [done|].
      destruct Hp. apply He. by exists c. }
  exists w'. split_and!; try done.
  - apply map_empty. intros id. destruct (w_connections w' !! id) as [p|] eqn:Hp; [|done].
    apply Hw' in Hp as (c & Hc & _ & Hn). rewrite Hheap in Hc.
    destruct (w_heap w !! p) as [d|]; [|done]. injection Hc as <-. by destruct (c_netClosed d) eqn:E; [rewrite E in Hn|].
  - rewrite Hcnt. cbn. rewrite length_fmap, length_map_to_list. done.
Qed.

Lemma stop_closes_all_witness :
  exists w, Stop sample_session = Ok (tt, w) /\ w_connections w = ∅ /\
    (closed_conn <$> w_heap sample_session !! 1%positive) = w_heap w !! 1%positive.
Proof.
  destruct (stop_closes_all sample_session sample_session_inv) as (w & H1 & _ & _ & H2 & _ & H3).
  exists w. split; [exact H1|]. split; [exact H2|]. rewrite H3. vm_compute. reflexivity.
Defined.

(** The idle check closes what is idle.  A connection seen within the idle
    timeout is left alone.  Any other is sent a heartbeat; it is closed at once
    when that cannot be sent, which is always so before a login, for want of a
    VIN, and otherwise three seconds or more later if nothing was read
    meanwhile; it is spared if it was seen again by then. *)
Theorem idle_check cfg p w c
    (Hw : inv w) (Hc : w_heap w !! p = Some c) (Hs : c_state c <> ConnClosed) :
  (sinceLastSeen c (w_now w) <= cfg_idleTimeout cfg -> idleProbe cfg p w = Ok (false, w)) /\
  (cfg_idleTimeout cfg < sinceLastSeen c (w_now w) ->
   exists err w1,
     Send p CmdHeartbeat (encodeBCDTime (UTC (w_now w))) w = Ok (err, w1) /\ w_heap w1 = w_heap w /\
     (c_vin c = [] -> err = Some ErrInvalidVIN) /\
     match err with
     | Some _ => idleProbe cfg p w = Ok (false, closed_world p c w1)
     | None =>
         idleProbe cfg p w = Ok (true, w1) /\
         forall t, sinceLastSeen c (w_now w) + 3000000000 <= sinceLastSeen c t ->
           idleRecheck cfg p (set_now w1 t) = Ok (tt, closed_world p c (set_now w1 t))
     end) /\
  (forall w2 c2, w_heap w2 !! p = Some c2 ->
     sinceLastSeen c2 (w_now w2) <= cfg_idleTimeout cfg + 3000000000 ->
     idleRecheck cfg p w2 = Ok (tt, w2)).
Proof.
  pose proof (proj1 Hw p c Hc) as Hok.
  assert (idleProbe cfg p w = (if sinceLastSeen c (w_now w) <=? cfg_idleTimeout cfg then ret false else
    let* err := Send p CmdHeartbeat (encodeBCDTime (UTC (w_now w))) in
    match err with Some _ => Connection_Close p;; ret false | None => ret true end) w) as Hprobe.
  { unfold idleProbe. rewrite (bindM_ok _ _ _ c w) by (unfold conn; by rewrite Hc).
    by rewrite decide_False. }
  rewrite Hprobe. split_and!.
  - intros H. by destruct (Z.leb_spec (sinceLastSeen c (w_now w)) (cfg_idleTimeout cfg)); [|lia].
  - intros Hi. destruct (Z.leb_spec (sinceLastSeen c (w_now w)) (cfg_idleTimeout cfg)); [lia|].
    destruct (Send_heap p w c CmdHeartbeat (encodeBCDTime (UTC (w_now w))) Hc Hok Hs)
      as (err & w1 & Hsend & Hh & Hv). exists err, w1. split_and!; try done.
    assert (w_heap w1 !! p = Some c) as Hc1 by (by rewrite Hh).
    rewrite (bindM_ok _ _ _ _ _ Hsend). destruct err as [e|].
    + rewrite (bindM_ok _ _ _ _ _ (Connection_Close_eq p w1 c Hc1 Hok)). by rewrite decide_False.
    + split; [done|]. intros t Ht. unfold idleRecheck.
      rewrite (bindM_ok _ _ _ c (set_now w1 t)) by (unfold conn; cbn; by rewrite Hc1).
      erewrite (bindM_ok now) by reflexivity. rewrite decide_True by done. cbn [w_now set_now].
      destruct (Z.ltb_spec (cfg_idleTimeout cfg + 3000000000) (sinceLastSeen c t)); [|lia].
      rewrite (Connection_Close_eq p (set_now w1 t) c) by done. by rewrite decide_False.
  - intros w2 c2 Hc2 H. unfold idleRecheck.
    rewrite (bindM_ok _ _ _ c2 w2) by (unfold conn; by rewrite Hc2).
    erewrite (bindM_ok now) by reflexivity.
    destruct (Z.ltb_spec (cfg_idleTimeout cfg + 3000000000) (sinceLastSeen c2 (w_now w2))); [lia|].
    by destruct (decide _).
Qed.

(** The sample connection, eleven minutes later: it is closed by the probe. *)
Lemma idle_check_witness :
  exists w1, idleProbe sample_config 1%positive (set_now sample_world (Date 2024 1 1 0 11 0 0)) =
    Ok (false, w1) /\ w_connCount w1 = 0.
Proof.
  pose proof (reachable_inv _ _ sample_user_ok sample_reachable) as Hw.
  pose (c := newConnection sample_config [105; 100] (Date 2024 1 1 0 0 0 0)).
  destruct (idle_check sample_config 1%positive (set_now sample_world (Date 2024 1 1 0 11 0 0)) c)
    as (_ & H & _); [exact Hw | reflexivity | discriminate|].
  destruct H as (err & w1 & Hsend & _ & Hv & H); [vm_compute; reflexivity|].
  rewrite (Hv eq_refl) in H, Hsend. eexists. split; [exact H|].
  assert (w1 = set_now sample_world (Date 2024 1 1 0 11 0 0)) as -> by (vm_compute in Hsend |- *; congruence).
  vm_compute. reflexivity.
Defined.
