(* ===== verification/Idle.v ===== *)
(** * The idle check as a loop ([idleCheckLoop] of [server.go])

    The goroutine that walks over the connections every thirty seconds: it probes
    an idle connection, sleeps three seconds on it, looks again and goes on.  Its
    program counter beside the [World] of the server, whose other goroutines take
    any steps meanwhile.  Every state of the two is a state of [Server]
    ([idle_is_server]).  A walk during which nothing arrives closes every connection that
    was idle when it began, and comes to its end in a time that depends on how long a
    heartbeat takes to be sent ([sweep_closes_idle]): a probe is one step here, but on a
    clock that goes on before it, as [Send] waits for [writeMu] and for the network (the
    statements of [Send] are in Writers.v). *)
From stdpp Require Import gmap.
From S2P Require Import Prelude.
From S2P Require Import GoTime.
From S2P Require Import Constant.
From S2P Require Import Packet.
From S2P Require Import Framing.
From S2P Require Import Registry.
From S2P Require Import World.
From S2P Require Import Options.
From S2P Require Import Connection.
From S2P Require Import Server.
From S2P Require Import Sessions.
From S2P Require Import Traffic.

(** ** The loop *)

(** In the [select], in [Range] with the connections still to visit, in
    [time.Sleep] on a connection since some time, or returned. *)
Inductive idlePc :=
  | Waiting
  | Sweeping (ps : list ptr)
  | Sleeping (p : ptr) (since : Time) (ps : list ptr)
  | Ended.

(** Nanoseconds since 1970. *)
Definition nanos (t : Time) : Z := t_unix t * 1000000000 + t_nsec t.

(** [Range] visits every connection that is in the index all the while once, in
    some order, and others stored or deleted meanwhile at most once. *)
Definition visits (w : World) (ps : list ptr) : Prop :=
  NoDup ps /\ (forall id p, w_connections w !! id = Some p -> p ∈ ps) /\
  Forall (fun p => is_Some (w_heap w !! p)) ps.

Section idle.
Context (cfg : Config).

Inductive idleStep : World * idlePc -> World * idlePc -> Prop :=
  | id_tick w ps : visits w ps -> idleStep (w, Waiting) (w, Sweeping ps)
  | id_done w : w_stopped w = true -> idleStep (w, Waiting) (w, Ended)
  | id_probe w p ps sleeps w' :
      idleProbe cfg p w = Ok (sleeps, w') ->
      idleStep (w, Sweeping (p :: ps))
        (w', if sleeps : bool then Sleeping p (w_now w') ps else Sweeping ps)
  | id_wake w p t ps w' :
      nanos t + 3000000000 <= nanos (w_now w) -> idleRecheck cfg p w = Ok (tt, w') ->
      idleStep (w, Sleeping p t ps) (w', Sweeping ps)
  | id_next w : idleStep (w, Sweeping []) (w, Waiting).

(** The loop beside the rest of the process, whose steps are [env]. *)
Inductive idleSys (env : World -> World -> Prop) : World * idlePc -> World * idlePc -> Prop :=
  | is_loop s s' : idleStep s s' -> idleSys env s s'
  | is_env w w' pc : env w w' -> idleSys env (w, pc) (w', pc).

(** Nothing happens but that time passes. *)
Definition quiet (w w' : World) : Prop := exists t, nanos (w_now w) <= nanos t /\ w' = set_now w t.

(** ** Lemmas *)

Lemma idleSys_server s s' : 0 < cfg_idleTimeout cfg ->
  rtc (idleSys (step cfg)) s s' -> reachable cfg s.1 -> reachable cfg s'.1.
Proof.
  intros Hc. induction 1 as [s|s s1 s2 Hs _ IH]; [done|]. intros Hr. apply IH.
  destruct Hs as [s s' Hs|w w' pc Hs]; [|by eapply reach_step].
  destruct Hs as [w ps _|w _|w p ps sleeps w' Hp|w p t ps w' _ Hp|w]; cbn in *; try done.
  - eapply reach_step; [done|]. by eapply step_probe.
  - eapply reach_step; [done|]. by eapply step_recheck.
Qed.

Lemma quiet_step w w' : quiet w w' -> step cfg w w'.
Proof. intros (t & _ & ->). apply step_clock. Qed.

Lemma since_nanos c t : sinceLastSeen c t = nanos t - c_lastSeen c * 1000000000.
Proof. unfold sinceLastSeen, nanos. lia. Qed.

(** A connection the check takes for idle at [t]. *)
Definition idle_at (t : Time) (c : Connection) : Prop :=
  c_state c <> ConnClosed /\ cfg_idleTimeout cfg < sinceLastSeen c t.

Lemma probe_closed p w c : w_heap w !! p = Some c -> c_state c = ConnClosed -> idleProbe cfg p w = Ok (false, w).
Proof.
  intros Hc Hs. unfold idleProbe. rewrite (bindM_ok _ _ _ c w) by (unfold conn; by rewrite Hc).
  by rewrite decide_True.
Qed.

(** What a probe does to the connections: it closes [p], or it leaves them, and
    then it sleeps if [p] is idle. *)
Lemma probe_heap p w c sleeps w' : inv w -> w_heap w !! p = Some c -> idleProbe cfg p w = Ok (sleeps, w') ->
  w_now w' = w_now w /\
  ((w_heap w' = <[p := closed_conn c]> (w_heap w) /\ idle_at (w_now w) c /\ sleeps = false) \/
   (w_heap w' = w_heap w /\ (sleeps = true <-> idle_at (w_now w) c))).
Proof.
  intros Hw Hc Hp. destruct (decide (c_state c = ConnClosed)) as [Hs|Hs].
  { rewrite (probe_closed p w c) in Hp by done. injection Hp as <- <-. split; [done|]. right.
    split; [done|]. split; [done|]. by intros [? _]. }
  destruct (idle_check cfg p w c Hw Hc Hs) as (H1 & H2 & _).
  destruct (Z.le_gt_cases (sinceLastSeen c (w_now w)) (cfg_idleTimeout cfg)) as [Hle|Hgt].
  - rewrite (H1 Hle) in Hp. injection Hp as <- <-. split; [done|]. right. split; [done|].
    split; [done|]. intros [_ ?]. lia.
  - destruct (H2 ltac:(lia)) as (err & w1 & Hsend & Hh & _ & Hr).
    assert (w_now w1 = w_now w) as Hn.
    { pose proof (calm_Send False p CmdHeartbeat (encodeBCDTime (UTC (w_now w))) w Hw
        (or_intror (mk_is_Some _ _ Hc))) as Hcalm. rewrite Hsend in Hcalm. by destruct Hcalm as (_ & _ & [? _]). }
    assert (idle_at (w_now w) c) as Hi by (split; [done|lia]).
    destruct err as [e|].
    + rewrite Hr in Hp. injection Hp as <- <-. split; [done|]. left. cbn. by rewrite Hh.
    + destruct Hr as [Hr _]. rewrite Hr in Hp. injection Hp as <- <-. split; [done|]. by right.
Qed.

Lemma recheck_heap p w c w' : inv w -> w_heap w !! p = Some c -> idleRecheck cfg p w = Ok (tt, w') ->
  c_state c <> ConnClosed ->
  w_now w' = w_now w /\
  w_heap w' = (if cfg_idleTimeout cfg + 3000000000 <? sinceLastSeen c (w_now w)
               then <[p := closed_conn c]> (w_heap w) else w_heap w).
Proof.
  intros Hw Hc Hr Hs. unfold idleRecheck in Hr.
  rewrite (bindM_ok _ _ _ c w) in Hr by (unfold conn; by rewrite Hc).
  erewrite (bindM_ok now) in Hr by reflexivity. rewrite decide_True in Hr by done.
  destruct (_ <? _).
  - rewrite (Connection_Close_eq p w c Hc (proj1 Hw p c Hc)), decide_False in Hr by done. by injection Hr as <-.
  - by injection Hr as <-.
Qed.

Lemma probe_ok p w c : inv w -> w_heap w !! p = Some c -> exists sleeps w', idleProbe cfg p w = Ok (sleeps, w').
Proof.
  intros Hw Hc. destruct (decide (c_state c = ConnClosed)) as [Hs|Hs].
  { exists false, w. by eapply probe_closed. }
  destruct (idle_check cfg p w c Hw Hc Hs) as (H1 & H2 & _).
  destruct (Z.le_gt_cases (sinceLastSeen c (w_now w)) (cfg_idleTimeout cfg)) as [Hle|Hgt]; [by exists false, w; apply H1|].
  destruct (H2 ltac:(lia)) as ([e|] & w1 & _ & _ & _ & H); [by eexists _, _|]. destruct H as [H _]. by eexists _, _.
Qed.

Lemma recheck_ok p w c : inv w -> w_heap w !! p = Some c -> exists w', idleRecheck cfg p w = Ok (tt, w').
Proof.
  intros Hw Hc. unfold idleRecheck. rewrite (bindM_ok _ _ _ c w) by (unfold conn; by rewrite Hc).
  erewrite (bindM_ok now) by reflexivity. destruct (decide _); [|by eexists].
  destruct (_ <? _); [|by eexists]. rewrite (Connection_Close_eq p w c Hc (proj1 Hw p c Hc)). by eexists.
Qed.

(** *** A quiet walk *)

(** A step of a walk: it has not come back to the [select]. *)
Definition walk (s s' : World * idlePc) : Prop := idleSys quiet s s' /\ s'.2 <> Waiting.

(** Where a walk over [ps0] that began in [w0] has come: the connections it has
    visited are closed if they were idle then, those to come are as they were, and
    none is closed that is not idle now. *)
Record walked (w0 : World) (ps0 : list ptr) (s : World * idlePc) : Prop := {
  wk_inv : inv s.1;
  wk_clock : nanos (w_now w0) <= nanos (w_now s.1);
  wk_pc : exists visited,
    match s.2 with
    | Sweeping ps => ps0 = visited ++ ps
    | Sleeping p t ps => ps0 = visited ++ p :: ps /\ nanos (w_now w0) <= nanos t <= nanos (w_now s.1) /\
        (forall c, w_heap s.1 !! p = Some c -> idle_at t c)
    | Waiting | Ended => False
    end /\
    (forall q c, q ∈ visited -> w_heap w0 !! q = Some c -> idle_at (w_now w0) c ->
       w_heap s.1 !! q = Some (closed_conn c)) /\
    (forall q c, q ∉ visited -> w_heap w0 !! q = Some c -> w_heap s.1 !! q = Some c);
  wk_heap : forall q c, w_heap w0 !! q = Some c ->
    w_heap s.1 !! q = Some c \/ (w_heap s.1 !! q = Some (closed_conn c) /\ idle_at (w_now s.1) c)
}.

Lemma idle_later c t t' : nanos t <= nanos t' -> idle_at t c -> idle_at t' c.
Proof. intros Ht [? Hi]. rewrite since_nanos in *. split; [done|]. rewrite since_nanos. lia. Qed.

Lemma closed_not_idle c t : ~ idle_at t (closed_conn c).
Proof. by intros [? _]. Qed.

Section walk.
Context (w0 : World) (ps0 : list ptr) (Hnd : NoDup ps0).
Context (Hall : Forall (fun p => is_Some (w_heap w0 !! p)) ps0).

Lemma walk_in visited p ps : ps0 = visited ++ (p :: ps) -> (p ∉ visited) /\ (exists c, w_heap w0 !! p = Some c).
Proof.
  intros E. rewrite E in Hnd, Hall. apply NoDup_app in Hnd as (_ & Hd & _). apply Forall_app in Hall as [_ Ha].
  apply Forall_cons in Ha as [[c Hc] _]. split; [|by exists c].
  intros Hin. apply (Hd p Hin). left.
Qed.

(** Visiting [p]: it is closed, or it is left alone and was not idle at the start. *)
Lemma walk_visit w w' pc pc' visited p ps c :
  walked w0 ps0 (w, pc) -> inv w' -> w_now w' = w_now w -> ps0 = visited ++ p :: ps ->
  (forall q c, q ∈ visited -> w_heap w0 !! q = Some c -> idle_at (w_now w0) c ->
     w_heap w !! q = Some (closed_conn c)) ->
  (forall q c, q ∉ visited -> w_heap w0 !! q = Some c -> w_heap w !! q = Some c) ->
  w_heap w !! p = Some c ->
  (w_heap w' = <[p := closed_conn c]> (w_heap w) /\ idle_at (w_now w) c) \/
  (w_heap w' = w_heap w /\ ~ idle_at (w_now w0) c) ->
  pc' = Sweeping ps -> walked w0 ps0 (w', pc').
Proof.
  intros [_ Hclock _ Hheap] Hw' Hn Hps Hdone Hrest Hc Hvisit ->. cbn in *.
  destruct (walk_in _ _ _ Hps) as [Hp (c0 & Hc0)].
  assert (c0 = c) as -> by (specialize (Hrest p c0 Hp Hc0); congruence).
  assert (forall q, q <> p -> w_heap w' !! q = w_heap w !! q) as Hother.
  { intros q Hq. destruct Hvisit as [[-> _]|[-> _]]; [by rewrite lookup_insert_ne|done]. }
  split; cbn; [done|by rewrite Hn| |].
  - exists (visited ++ [p]). split; [by rewrite <- app_assoc|]. split.
    + intros q d Hq Hd Hi. apply elem_of_app in Hq as [Hq|Hq%list_elem_of_singleton].
      * rewrite Hother by (intros ->; done). by apply Hdone.
      * subst q. assert (d = c) as -> by congruence. destruct Hvisit as [[-> _]|[_ Hno]]; [|done].
        apply lookup_insert_eq.
    + intros q d Hq Hd. apply not_elem_of_app in Hq as [Hq Hqp]. rewrite Hother by (intros ->; apply Hqp; by left).
      by apply Hrest.
  - intros q d Hd. rewrite Hn. destruct (decide (q = p)) as [->|Hq]; [|rewrite Hother by done; by apply Hheap].
    assert (d = c) as -> by congruence. destruct Hvisit as [[-> Hi]|[-> _]]; [|by left].
    right. by rewrite lookup_insert_eq.
Qed.

Lemma walked_step s s' : walked w0 ps0 s -> walk s s' -> walked w0 ps0 s'.
Proof.
  intros Hwk [Hs Hne]. destruct Hs as [s s' Hs|w w' pc (t & Ht & ->)].
  - destruct Hs as [w ps _|w _|w p ps sleeps w' Hp|w p t ps w' Ht Hp|w]; [| | | |done];
      pose proof Hwk as [Hw Hclock (visited & Hpc & Hdone & Hrest) Hheap]; cbn in *; try done.
    + destruct (walk_in _ _ _ Hpc) as [Hpv (c & Hc)]. pose proof (Hrest p c Hpv Hc) as Hcw.
      destruct (probe_heap p w c sleeps w' Hw Hcw Hp) as [Hn Hcase].
      assert (inv w') as Hw' by (eapply (calm_inv p); [apply (calm_idleProbe cfg p)|exact Hw|exact Hp]).
      destruct Hcase as [(Hh & Hi & ->)|(Hh & Hsl)].
      * eapply (walk_visit w w'); [exact Hwk|done..| |done]. by left.
      * destruct sleeps.
        -- split; cbn; [done|by rewrite Hn| |rewrite Hn, Hh; exact Hheap]. exists visited. rewrite Hn, Hh.
           split; [|done]. split_and!; [done|done|done|]. intros d Hd. assert (d = c) as -> by congruence. by apply Hsl.
        -- eapply (walk_visit w w'); [exact Hwk|done..| |done]. right. split; [done|]. intros Hi.
           apply (idle_later c _ (w_now w)) in Hi; [|done]. by apply Hsl in Hi.
    + destruct Hpc as (Hps & Hsince & Hidle). destruct (walk_in _ _ _ Hps) as [Hpv (c & Hc)].
      pose proof (Hrest p c Hpv Hc) as Hcw. pose proof (Hidle c Hcw) as Hi.
      destruct (recheck_heap p w c w' Hw Hcw Hp (proj1 Hi)) as [Hn Hh].
      assert (inv w') as Hw' by (eapply (calm_inv p); [apply (calm_idleRecheck cfg p)|exact Hw|exact Hp]).
      assert (idle_at (w_now w) c) as Hi' by (apply (idle_later c t); [lia|done]).
      assert ((cfg_idleTimeout cfg + 3000000000 <? sinceLastSeen c (w_now w)) = true) as Hlt.
      { apply Z.ltb_lt. destruct Hi as [_ Hi]. rewrite since_nanos in *. lia. }
      rewrite Hlt in Hh. eapply (walk_visit w w'); [exact Hwk|done..| |done]. by left.
  - destruct Hwk as [Hw Hclock (visited & Hpc & Hdone & Hrest) Hheap]. cbn in *. split; cbn.
    + done.
    + lia.
    + exists visited. split; [|done]. destruct pc; try done. destruct Hpc as (? & ? & ?). split_and!; [done|lia|lia|done].
    + intros q c Hc. destruct (Hheap q c Hc) as [?|[? ?]]; [by left|right]. split; [done|]. by eapply idle_later.
Qed.

Lemma walked_rtc s s' : walked w0 ps0 s -> rtc walk s s' -> walked w0 ps0 s'.
Proof. intros Hw Hr. revert Hw. induction Hr as [s|s s1 s2 Hs _ IH]; [done|]. intros Hw. by eapply IH, walked_step. Qed.

(** *** A walk on the clock *)

(** How long the loop may stay where it is: [delay] is the longest it takes from one step
    to the next apart from its sleep, which is the time [Send] waits for [writeMu] and
    for the network, and what the scheduler takes. *)
Context (delay : Z) (Hdelay : 0 <= delay).

Definition allowance (pc : idlePc) : Z :=
  match pc with Sleeping _ _ _ => 3000000000 + delay | _ => delay end.

(** A walk, with the time of the loop's last step: the clock does not run past what the
    loop is allowed. *)
Inductive timed : (World * idlePc) * Z -> (World * idlePc) * Z -> Prop :=
  | tm_loop s s' since :
      idleStep s s' -> s'.2 <> Waiting -> timed (s, since) (s', nanos (w_now s'.1))
  | tm_clock w pc since t :
      nanos (w_now w) <= nanos t <= since + allowance pc ->
      timed ((w, pc), since) ((set_now w t, pc), since).

(** What a walk has before it, in steps of the loop. *)
Definition steps_left (pc : idlePc) : Z :=
  match pc with
  | Sweeping ps => 2 * len ps
  | Sleeping _ _ ps => 2 * len ps + 1
  | Waiting | Ended => 0
  end.

Lemma steps_left_lower s s' : idleStep s s' -> s.2 <> Waiting -> s'.2 <> Waiting ->
  0 <= steps_left s'.2 < steps_left s.2.
Proof.
  intros Hs Hn Hne. destruct Hs as [w ps _|w _|w p ps sleeps w' Hp|w p t ps w' Ht Hp|w]; cbn in *; try done.
  - pose proof (len_nonneg ps). rewrite len_cons. destruct sleeps; cbn; lia.
  - pose proof (len_nonneg ps). lia.
Qed.

(** When the loop took its last step, at the latest. *)
Record on_time (x : (World * idlePc) * Z) : Prop := {
  ot_walked : walked w0 ps0 x.1;
  ot_now : x.2 <= nanos (w_now x.1.1) <= x.2 + allowance x.1.2;
  ot_since : match x.1.2 with
    | Sweeping ps => x.2 <= nanos (w_now w0) + (3000000000 + 2 * delay) * (len ps0 - len ps)
    | Sleeping p t ps => nanos t = x.2 /\
        x.2 <= nanos (w_now w0) + (3000000000 + 2 * delay) * (len ps0 - len ps - 1) + delay
    | Waiting | Ended => True
    end
}.

Lemma timed_walk x x' : timed x x' -> x.1.2 <> Waiting -> walk x.1 x'.1.
Proof.
  intros Hs Hn. destruct Hs as [s s' since Hs Hne|w pc since t Ht]; cbn in *.
  - split; [by apply is_loop|done].
  - split; [|done]. apply is_env. exists t. split; [lia|done].
Qed.

Lemma on_time_step x x' : on_time x -> timed x x' -> on_time x'.
Proof.
  intros [Hwk Hnow Hsince] Hs.
  assert (x.1.2 <> Waiting) as Hn by (intros E; destruct (wk_pc _ _ _ Hwk) as (v & Hp & _); by rewrite E in Hp).
  pose proof (walked_step _ _ Hwk (timed_walk _ _ Hs Hn)) as Hwk'. split; [done|..].
  - destruct Hs as [s s' since Hs Hne|w pc since t Ht]; cbn in *; [|lia].
    unfold allowance. destruct s'.2; lia.
  - destruct Hs as [s s' since Hs Hne|w pc since t Ht]; cbn in *; [|done].
    pose proof (wk_inv _ _ _ Hwk) as Hw. destruct (wk_pc _ _ _ Hwk) as (visited & Hpc & _ & Hrest).
    destruct Hs as [w ps _|w _|w p ps sleeps w' Hp|w p t ps w' Ht Hp|w]; cbn in *; try done.
    + destruct (walk_in _ _ _ Hpc) as [Hpv (c & Hc)].
      destruct (probe_heap p w c sleeps w' Hw (Hrest p c Hpv Hc) Hp) as [Hn' _]. rewrite Hn'.
      rewrite len_cons in Hsince. destruct sleeps; cbn; [split; [done|]|]; lia.
    + destruct Hpc as (Hps & _ & Hidle). destruct (walk_in _ _ _ Hps) as [Hpv (c & Hc)].
      pose proof (Hrest p c Hpv Hc) as Hcw.
      destruct (recheck_heap p w c w' Hw Hcw Hp (proj1 (Hidle c Hcw))) as [Hn' _]. rewrite Hn'. lia.
Qed.

Lemma on_time_rtc x x' : on_time x -> rtc timed x x' -> on_time x'.
Proof. intros Hx Hr. revert Hx. induction Hr as [x|x x1 x2 Hs _ IH]; [done|]. intros Hx. by eapply IH, on_time_step. Qed.

(** The whole walk keeps to its time. *)
Lemma on_time_bound x : on_time x ->
  nanos (w_now x.1.1) <= nanos (w_now w0) + (3000000000 + 2 * delay) * len ps0 + delay.
Proof.
  intros [Hwk Hnow Hsince]. destruct (wk_pc _ _ _ Hwk) as (visited & Hpc & _). destruct x as [[w pc] since]. cbn in *.
  destruct pc as [|ps|p t ps|]; try done; cbn in Hnow.
  - assert (0 <= len ps <= len ps0) by (rewrite Hpc, len_app; pose proof (len_nonneg visited); pose proof (len_nonneg ps); lia).
    nia.
  - destruct Hpc as [Hpc _]. assert (0 <= len ps /\ len ps + 1 <= len ps0).
    { rewrite Hpc, len_app, len_cons. pose proof (len_nonneg visited). pose proof (len_nonneg ps). lia. }
    nia.
Qed.

(** A sleep ends once three seconds have passed. *)
Lemma timed_wake w p t ps since : on_time ((w, Sleeping p t ps), since) ->
  exists w', rtc timed ((w, Sleeping p t ps), since) ((w', Sweeping ps), nanos (w_now w')).
Proof.
  intros Hot. pose proof Hot as [Hwk Hnow [Hts _]]. cbn in Hnow, Hts.
  assert (exists w1, rtc timed ((w, Sleeping p t ps), since) ((w1, Sleeping p t ps), since) /\
    nanos t + 3000000000 <= nanos (w_now w1)) as (w1 & Hr1 & Ht1).
  { destruct (Z.le_gt_cases (nanos t + 3000000000) (nanos (w_now w))) as [Hle|Hgt]; [by exists w; split; [apply rtc_refl|]|].
    set (t' := mkTime (t_unix t + 3) (t_nsec t) 0).
    assert (nanos t' = nanos t + 3000000000) as Ht' by (unfold nanos, t'; cbn; lia).
    exists (set_now w t'). split; [|cbn; lia]. apply rtc_once, tm_clock. cbn. lia. }
  pose proof (on_time_rtc _ _ Hot Hr1) as [Hwk1 _ _]. destruct (wk_pc _ _ _ Hwk1) as (visited & (Hps & _) & _ & Hrest).
  destruct (walk_in _ _ _ Hps) as [Hpv (c & Hc)].
  destruct (recheck_ok p w1 c (wk_inv _ _ _ Hwk1) (Hrest p c Hpv Hc)) as (w2 & Hr).
  exists w2. eapply rtc_r; [exact Hr1|]. by apply (tm_loop (w1, _) (w2, Sweeping ps)); [apply id_wake|].
Qed.

(** A walk can always go on to its end. *)
Lemma timed_ends ps : forall w since, on_time ((w, Sweeping ps), since) ->
  exists w' since', rtc timed ((w, Sweeping ps), since) ((w', Sweeping []), since').
Proof.
  induction ps as [|p ps IH]; intros w since Hot; [exists w, since; apply rtc_refl|].
  pose proof Hot as [Hwk _ _]. destruct (wk_pc _ _ _ Hwk) as (visited & Hps & _ & Hrest). cbn in Hps, Hrest.
  destruct (walk_in _ _ _ Hps) as [Hpv (c & Hc)].
  destruct (probe_ok p w c (wk_inv _ _ _ Hwk) (Hrest p c Hpv Hc)) as (sleeps & w1 & Hp).
  assert (timed ((w, Sweeping (p :: ps)), since)
    ((w1, if sleeps then Sleeping p (w_now w1) ps else Sweeping ps), nanos (w_now w1))) as Hs1
    by (apply (tm_loop (w, _) (w1, _)); [by apply id_probe|by destruct sleeps]).
  pose proof (on_time_step _ _ Hot Hs1) as Hot1.
  assert (exists w2 since2, rtc timed ((w, Sweeping (p :: ps)), since) ((w2, Sweeping ps), since2)) as (w2 & since2 & Hr2).
  { destruct sleeps; [|by exists w1, (nanos (w_now w1)); apply rtc_once].
    destruct (timed_wake _ _ _ _ _ Hot1) as (w2 & Hr). exists w2, (nanos (w_now w2)). by eapply rtc_l. }
  destruct (IH w2 since2 (on_time_rtc _ _ Hot Hr2)) as (w' & since' & Hr). exists w', since'. by etrans.
Qed.
End walk.
End idle.

(** ** Properties *)

(** Whatever the rest of the process does meanwhile, the loop takes the server
    through states of [Server]: its invariant holds in all of them. *)
Theorem idle_is_server cfg w pc s (Hi : 0 < cfg_idleTimeout cfg) (Hr : reachable cfg w)
    (Hs : rtc (idleSys cfg (step cfg)) (w, pc) s) : reachable cfg s.1.
Proof. by apply (idleSys_server cfg (w, pc) s). Qed.

(** C26: One walk of the idle check during which nothing arrives, from any reachable state,
    on the clock.  [delay] is the longest the loop takes from one step to the next apart
    from its sleep: what a [Send] can take, waiting for the connection's other senders and
    for a write, which a write timeout bounds (with none there is no bound), and the
    scheduler.  Then, however the walk goes, it has not lasted longer than three seconds
    and twice the delay for each connection it visits, and one delay; it is never stuck, and
    each step of the loop brings it nearer to its end; and at the end every connection that
    was idle when the walk began is closed as a whole, and every connection that is not
    idle even then is as it was. *)
Theorem sweep_closes_idle cfg delay w0 ps s since
    (Hu : user_ok cfg) (Hr : reachable cfg w0) (Hv : visits w0 ps) (Hd : 0 <= delay)
    (Hs : rtc (timed cfg delay) ((w0, Sweeping ps), nanos (w_now w0)) (s, since)) :
  nanos (w_now s.1) <= nanos (w_now w0) + (3000000000 + 2 * delay) * len ps + delay /\
  (exists w since', rtc (timed cfg delay) (s, since) ((w, Sweeping []), since')) /\
  (forall s', idleStep cfg s s' -> s'.2 <> Waiting -> 0 <= steps_left s'.2 < steps_left s.2) /\
  (s.2 = Sweeping [] -> forall p c, w_heap w0 !! p = Some c ->
     (c_netClosed c = false -> idle_at cfg (w_now w0) c -> w_heap s.1 !! p = Some (closed_conn c)) /\
     (~ idle_at cfg (w_now s.1) c -> w_heap s.1 !! p = Some c)).
Proof.
  destruct Hv as (Hnd & Hin & Hall). pose proof (reachable_inv _ _ Hu Hr) as Hw0.
  assert (on_time cfg w0 ps delay ((w0, Sweeping ps), nanos (w_now w0))) as H0.
  { split; cbn; [|lia|lia]. split; cbn; [done|lia| |by left]. exists []. split; [done|]. split; [|done].
    intros q c Hq. by apply not_elem_of_nil in Hq. }
  pose proof (on_time_rtc cfg w0 ps Hnd Hall delay Hd _ _ H0 Hs) as Hot. pose proof (ot_walked _ _ _ _ _ Hot) as Hwk.
  cbn in Hwk. split_and!.
  - exact (on_time_bound cfg w0 ps delay Hd _ Hot).
  - destruct s as [w pc]. destruct (wk_pc _ _ _ _ Hwk) as (visited & Hpc & _). cbn in Hpc.
    destruct pc as [|rest|p t rest|]; try done.
    + exact (timed_ends cfg w0 ps Hnd Hall delay Hd rest w since Hot).
    + destruct (timed_wake cfg w0 ps Hnd Hall delay Hd w p t rest since Hot) as (w1 & Hr1).
      destruct (timed_ends cfg w0 ps Hnd Hall delay Hd rest w1 _
        (on_time_rtc cfg w0 ps Hnd Hall delay Hd _ _ Hot Hr1)) as (w' & since' & Hw').
      exists w', since'. by etrans.
  - intros s' Hst Hne. apply (steps_left_lower cfg); [done| |done]. intros E.
    destruct (wk_pc _ _ _ _ Hwk) as (visited & Hpc & _). by rewrite E in Hpc.
  - intros Hpc p c Hc. destruct (wk_pc _ _ _ _ Hwk) as (visited & Hvis & Hdone & _). rewrite Hpc, app_nil_r in Hvis.
    subst visited. split.
    + intros Hopen Hi. apply Hdone; [|done|done]. apply (Hin (c_id c)).
      apply (proj1 (proj2 (proj2 Hw0))). by exists c.
    + intros Hno. destruct (wk_heap _ _ _ _ Hwk p c Hc) as [?|[_ ?]]; done.
Qed.

(** The sample connection, which never logged in, eleven minutes later. *)
Lemma sweep_closes_idle_witness :
  exists w1 since, rtc (timed sample_config 10000000000)
      ((set_now sample_world (Date 2024 1 1 0 11 0 0), Sweeping [1%positive]), nanos (Date 2024 1 1 0 11 0 0))
      ((w1, Sweeping []), since) /\
    nanos (w_now w1) <= nanos (Date 2024 1 1 0 11 0 0) + 33000000000 /\
    w_heap w1 !! 1%positive =
      Some (closed_conn (newConnection sample_config [105; 100] (Date 2024 1 1 0 0 0 0))).
Proof.
  set (w0 := set_now sample_world (Date 2024 1 1 0 11 0 0)).
  assert (reachable sample_config w0) as Hr by (eapply reach_step; [exact sample_reachable|apply step_clock]).
  assert (visits w0 [1%positive]) as Hv.
  { split; [apply NoDup_singleton|]. split.
    - intros id p. change (w_connections w0) with ({[ [105; 100] := 1%positive ]} : gmap gostring ptr).
      intros [_ <-]%lookup_singleton_Some. by left.
    - repeat constructor. by eexists. }
  destruct (idleProbe sample_config 1%positive w0) as [[sleeps w1]| | |] eqn:Hp; [|vm_compute in Hp; discriminate..].
  assert (sleeps = false) as -> by (vm_compute in Hp; congruence).
  assert (rtc (timed sample_config 10000000000) ((w0, Sweeping [1%positive]), nanos (w_now w0))
    ((w1, Sweeping []), nanos (w_now w1))) as Hs.
  { apply rtc_once. apply (tm_loop _ _ (w0, _) (w1, Sweeping [])); [by apply (id_probe _ w0 _ _ false)|done]. }
  exists w1, (nanos (w_now w1)). split; [exact Hs|].
  destruct (sweep_closes_idle sample_config 10000000000 w0 [1%positive] _ _ sample_user_ok Hr Hv ltac:(lia) Hs)
    as (H1 & _ & _ & H4).
  split; [exact H1|].
  apply (H4 eq_refl 1%positive (newConnection sample_config [105; 100] (Date 2024 1 1 0 0 0 0)) eq_refl); [reflexivity|].
  split; [discriminate|]. vm_compute. reflexivity.
Defined.
