(* ===== verification/Shutdown.v ===== *)
(** * Shutting down ([Start] and [Stop] of [server.go])

    The goroutines of a server: the accept loop, the idle check, one read loop
    per connection, the wait group that counts them, and [Stop], statement by
    statement.  Between two steps of one any of the others takes steps.  When the
    accept loop holds no connection as [Stop] starts to close them, [Stop] closes
    all, waits for every goroutine and returns ([stop_completes]). *)
From stdpp Require Import gmap.
From S2P Require Import Prelude.
From S2P Require Import GoTime.
From S2P Require Import Constant.
From S2P Require Import Packet.
From S2P Require Import Framing.
From S2P Require Import Registry.
From S2P Require Import World.
From S2P Require Import Options.
From S2P Require Import Connection.
From S2P Require Import Server.
From S2P Require Import Effects.
From S2P Require Import Sessions.
From S2P Require Import Traffic.
From S2P Require Import Idle.

(** ** The process *)

(** The accept loop: in [Accept], behind it with a connection that is not yet
    stored, or returned. *)
Inductive mainPc := MainAccepts | MainHolds | MainReturned.

(** [Stop]: not called; behind [cancel]; behind [listener.Close]; in [Range] with
    the connections still to close; in [wg.Wait]; at the forwarders; returned. *)
Inductive stopPc :=
  | StNotCalled | StCancelled | StListenerClosed | StClosing (ps : list ptr)
  | StWaiting | StForwarders | StReturned.

(** Beside the program counters: the state, whether the listener is open, the
    connections whose read loop runs, and the counter of the wait group. *)
Record proc := mkProc {
  pr_world : World;
  pr_listener : bool;
  pr_main : mainPc;
  pr_idle : idlePc;
  pr_readers : gset ptr;
  pr_wg : int;
  pr_stop : stopPc
}.

Section proc.
Context (cfg : Config).

(** [Start] behind [net.Listen]: without an idle timeout there is no idle check. *)
Definition start_proc (t : Time) : proc :=
  if decide (0 < cfg_idleTimeout cfg)
  then mkProc (initial t) true MainAccepts Waiting ∅ 1 StNotCalled
  else mkProc (initial t) true MainAccepts Ended ∅ 0 StNotCalled.

(** A read loop that returns has closed its connection; [wg.Done] follows. *)
Inductive pstep : proc -> proc -> Prop :=
  | ps_accept w i rs n st :
      pstep (mkProc w true MainAccepts i rs n st) (mkProc w true MainHolds i rs n st)
  | ps_error w l i rs n st :
      pstep (mkProc w l MainAccepts i rs n st)
        (mkProc w l (if w_stopped w then MainReturned else MainAccepts) i rs n st)
  | ps_store w l i rs n st id p ok w' :
      w_heap w !! p = None -> (forall q c, w_heap w !! q = Some c -> c_id c <> id) ->
      accept cfg id p w = Ok (ok, w') ->
      pstep (mkProc w l MainHolds i rs n st)
        (mkProc w' l MainAccepts i (if ok : bool then {[p]} ∪ rs else rs) (if ok then n + 1 else n) st)
  | ps_read w l m i rs n st p r go w' :
      p ∈ rs -> deliverable w p r -> runOnce cfg p r w = Ok (go, w') ->
      pstep (mkProc w l m i rs n st)
        (mkProc w' l m i (if go : bool then rs else rs ∖ {[p]}) (if go then n else n - 1) st)
  | ps_idle w l m i rs n st w' i' :
      idleStep cfg (w, i) (w', i') ->
      pstep (mkProc w l m i rs n st)
        (mkProc w' l m i' rs (match i' with Ended => n - 1 | _ => n end) st)
  | ps_cancel w l m i rs n :
      pstep (mkProc w l m i rs n StNotCalled) (mkProc (set_stopped w) l m i rs n StCancelled)
  | ps_listener w l m i rs n :
      pstep (mkProc w l m i rs n StCancelled) (mkProc w false m i rs n StListenerClosed)
  | ps_range w l m i rs n ps :
      visits w ps -> pstep (mkProc w l m i rs n StListenerClosed) (mkProc w l m i rs n (StClosing ps))
  | ps_late w l m i rs n ps id p :
      w_connections w !! id = Some p ->
      pstep (mkProc w l m i rs n (StClosing ps)) (mkProc w l m i rs n (StClosing (ps ++ [p])))
  | ps_close w l m i rs n p ps w' :
      Connection_Close p w = Ok (tt, w') ->
      pstep (mkProc w l m i rs n (StClosing (p :: ps))) (mkProc w' l m i rs n (StClosing ps))
  | ps_closed w l m i rs n :
      pstep (mkProc w l m i rs n (StClosing [])) (mkProc w l m i rs n StWaiting)
  | ps_wait w l m i rs :
      pstep (mkProc w l m i rs 0 StWaiting) (mkProc w l m i rs 0 StForwarders)
  | ps_forwarders w l m i rs n :
      pstep (mkProc w l m i rs n StForwarders) (mkProc w l m i rs n StReturned)
  | ps_user {A} w l m i rs n st (a : api A) b w' :
      run_api a w = Ok (b, w') -> pstep (mkProc w l m i rs n st) (mkProc w' l m i rs n st)
  | ps_clock w l m i rs n st t :
      pstep (mkProc w l m i rs n st) (mkProc (set_now w t) l m i rs n st)
  | ps_network w l m i rs n st net :
      pstep (mkProc w l m i rs n st) (mkProc (set_net w net) l m i rs n st).

Definition preachable (s : proc) : Prop := exists t, rtc pstep (start_proc t) s.
End proc.

(** ** Lemmas *)

(** *** What is closed stays closed *)

Definition present (w : World) (p : ptr) : Prop := is_Some (w_heap w !! p).
Definition closed (w : World) (p : ptr) : Prop :=
  exists c, w_heap w !! p = Some c /\ c_netClosed c = true.

Lemma closed_present w p : closed w p -> present w p.
Proof. intros (c & ? & _). by exists c. Qed.

(** No connection comes or goes, none is opened again, and the server is stopped
    or not as before. *)
Definition settles (w w' : World) : Prop :=
  (forall p, present w' p <-> present w p) /\ (forall p, closed w p -> closed w' p) /\
  w_stopped w' = w_stopped w.

#[export] Instance settles_preorder : PreOrder settles.
Proof.
  split; [done|]. intros w1 w2 w3 (A1 & B1 & C1) (A2 & B2 & C2). split_and!; [|auto|congruence].
  intros p. by rewrite A2, A1.
Qed.

#[export] Instance settles_effect cfg : Effect cfg settles.
Proof.
  refine {| effect_seen := fun _ => True; effect_allows := event_ok cfg |}; try apply _; try done. intros w p c c' Hc (_ & _ & _ & Hk) _. unfold settles, present, closed.
  cbn. split_and!; [| |done].
  - intros q. destruct (decide (p = q)) as [<-|Hq].
    + rewrite lookup_insert_eq, Hc. split; by eexists.
    + by rewrite lookup_insert_ne.
  - intros q (d & Hd & Hn). destruct (decide (p = q)) as [<-|Hq].
    + assert (d = c) as -> by congruence. exists c'. rewrite lookup_insert_eq. auto.
    + exists d. by rewrite lookup_insert_ne.
Defined.

Lemma idleStep_settles cfg s s' : idleStep cfg s s' -> settles s.1 s'.1.
Proof.
  intros Hs. destruct Hs; cbn; try reflexivity; (eapply has_effect_ok; [|eassumption]);
    [exact (effect_idleProbe cfg _ _)|exact (effect_idleRecheck cfg _ _)].
Qed.

Lemma Close_closes p w w' :
  inv w -> present w p -> Connection_Close p w = Ok (tt, w') -> closed w' p.
Proof.
  intros Hw [c Hc] E. pose proof (proj1 Hw p c Hc) as Hok.
  rewrite (Connection_Close_eq p w c Hc Hok) in E. injection E as <-.
  destruct (decide (c_state c = ConnClosed)) as [Hs|Hs].
  - exists c. split; [done|]. by apply Hok.
  - exists (closed_conn c). cbn. by rewrite lookup_insert_eq.
Qed.

Lemma Close_returns p w : inv w -> present w p -> exists w', Connection_Close p w = Ok (tt, w').
Proof. intros Hw [c Hc]. rewrite (Connection_Close_eq p w c Hc (proj1 Hw p c Hc)). by eexists. Qed.

(** Code that ends in [return true]. *)
Definition ends_true (m : M bool) : Prop := forall w b w', m w = Ok (b, w') -> b = true.

Lemma ends_true_bind {A} (m : M A) (k : A -> M bool) :
  (forall a, ends_true (k a)) -> ends_true (bindM m k).
Proof.
  intros Hk w b w' E. unfold bindM in E. destruct (m w) as [[a w1]| | |]; try done. by eapply Hk.
Qed.

(** A read loop returns at an error, and has closed its connection whenever it
    returned. *)
Lemma runOnce_error cfg p w : inv w -> present w p ->
  exists w', runOnce cfg p ReadError w = Ok (false, w').
Proof.
  intros Hw [c Hc]. destruct (Close_returns p w Hw (mk_is_Some _ _ Hc)) as (w' & E). exists w'.
  unfold runOnce. rewrite (bindM_ok _ _ _ c w) by (unfold conn; by rewrite Hc).
  destruct (c_ctxDone c); by rewrite (bindM_ok _ _ _ _ _ E).
Qed.

Lemma runOnce_returned cfg p r w w' : inv w -> present w p ->
  runOnce cfg p r w = Ok (false, w') -> closed w' p.
Proof.
  intros Hw Hp. pose proof Hp as [c Hc]. unfold runOnce.
  rewrite (bindM_ok _ _ _ c w) by (unfold conn; by rewrite Hc).
  assert ((Connection_Close p;; ret false) w = Ok (false, w') -> closed w' p) as Hclose.
  { destruct (Close_returns p w Hw Hp) as (w1 & E). rewrite (bindM_ok _ _ _ _ _ E).
    intros [= <-]. by eapply Close_closes. }
  destruct (c_ctxDone c); [done|]. destruct r as [b|]; [|done]. destruct (0 <? len b); [|done].
  match goal with |- ?m _ = _ -> _ => assert (ends_true m) as Hm end.
  { repeat (apply ends_true_bind; intros ?). by intros ? ? ? [= <- _]. }
  intros E. by apply Hm in E.
Qed.

(** *** What holds in every state of the process *)

(** The connections the idle check has still to look at. *)
Definition idle_ptrs (i : idlePc) : list ptr :=
  match i with
  | Waiting | Ended => []
  | Sweeping ps => ps
  | Sleeping p _ ps => p :: ps
  end.

Definition idle_over (i : idlePc) : bool := match i with Ended => true | _ => false end.

Definition to_close (st : stopPc) : list ptr := match st with StClosing ps => ps | _ => [] end.

Definition listener_closed (st : stopPc) : bool :=
  match st with StNotCalled | StCancelled => false | _ => true end.

Record pinv (s : proc) : Prop := {
  pv_inv : inv (pr_world s);
  pv_wg : pr_wg s = Z.of_nat (size (pr_readers s)) + (if idle_over (pr_idle s) then 0 else 1);
  pv_readers : forall p, p ∈ pr_readers s -> present (pr_world s) p;
  pv_open : forall p, present (pr_world s) p -> p ∈ pr_readers s \/ closed (pr_world s) p;
  pv_idle : Forall (present (pr_world s)) (idle_ptrs (pr_idle s));
  pv_closing : Forall (present (pr_world s)) (to_close (pr_stop s));
  pv_stopped : pr_stop s <> StNotCalled -> w_stopped (pr_world s) = true;
  pv_listener : listener_closed (pr_stop s) = true -> pr_listener s = false
}.

(** Steps that touch the state and nothing else. *)
Lemma pinv_world w w' l m i rs n st :
  pinv (mkProc w l m i rs n st) -> inv w' -> settles w w' -> pinv (mkProc w' l m i rs n st).
Proof.
  intros [H1 H2 H3 H4 H5 H6 H7 H8] Hw (Hp & Hc & Hs). split; cbn in *; try done.
  - intros p Hin. by apply Hp, H3.
  - intros p Hin. apply Hp, H4 in Hin as [?|?]; auto.
  - eapply Forall_impl; [exact H5|]. intros p. apply Hp.
  - eapply Forall_impl; [exact H6|]. intros p. apply Hp.
  - by rewrite Hs.
Qed.

Lemma idleStep_inv cfg s s' : inv s.1 -> idleStep cfg s s' -> inv s'.1.
Proof.
  intros Hw Hs. destruct Hs as [| |w p ps sl w' Hp|w p t ps w' _ Hp|]; cbn in *; try done.
  - eapply (calm_inv p); [apply (calm_idleProbe cfg p)|exact Hw|exact Hp].
  - eapply (calm_inv p); [apply (calm_idleRecheck cfg p)|exact Hw|exact Hp].
Qed.

Lemma idleStep_ptrs cfg s s' : idleStep cfg s s' ->
  Forall (present s.1) (idle_ptrs s.2) -> Forall (present s'.1) (idle_ptrs s'.2).
Proof.
  intros Hs. pose proof (idleStep_settles _ _ _ Hs) as (Hp & _).
  assert (forall ps, Forall (present s.1) ps -> Forall (present s'.1) ps) as Hkeep
    by (intros ps H; eapply Forall_impl; [exact H|intros p; apply Hp]).
  destruct Hs as [w ps (_ & _ & Hall)|w|w p ps [] w'|w p t ps w'|w]; cbn [fst snd idle_ptrs] in *; try done.
  - apply Hkeep.
  - intros [_ ?]%Forall_cons. by apply Hkeep.
  - intros [_ ?]%Forall_cons. by apply Hkeep.
Qed.

Lemma pinv_start cfg t : pinv (start_proc cfg t).
Proof.
  unfold start_proc. destruct (decide _); (split; cbn; [apply inv_initial|done|done| |done|done|done|done]);
    intros p [c Hc]; cbn in Hc; by rewrite lookup_empty in Hc.
Qed.

Lemma accept_present cfg id p w w' : accept cfg id p w = Ok (true, w') ->
  (forall q, present w' q <-> q = p \/ present w q) /\
  (forall q, q <> p -> closed w q -> closed w' q) /\ w_stopped w' = w_stopped w.
Proof.
  unfold accept. destruct (_ <=? _); [done|]. intros [= <-]. unfold present, closed. cbn. split_and!; [| |done].
  - intros q. destruct (decide (q = p)) as [->|Hq]; [rewrite lookup_insert_eq; split; [by left|by eexists]|].
    rewrite lookup_insert_ne by done. split; [by right|]. by intros [?|?].
  - intros q Hq (c & Hc & Hn). exists c. by rewrite lookup_insert_ne.
Qed.

Lemma pinv_step cfg s s' : user_ok cfg -> pinv s -> pstep cfg s s' -> pinv s'.
Proof.
  intros Hu Hs Hst. destruct Hst as [w i rs n st|w l i rs n st|w l i rs n st id p ok w' Hp Hid Ha
    |w l m i rs n st p r go w' Hp Hd Hr|w l m i rs n st w' i' Hi|w l m i rs n|w l m i rs n|w l m i rs n ps Hv
    |w l m i rs n ps id p Hp|w l m i rs n p ps w' Hc|w l m i rs n|w l m i rs|w l m i rs n
    |A w l m i rs n st a b w' Ha|w l m i rs n st t|w l m i rs n st net];
    try solve [destruct Hs; split; cbn in *; auto].
  - destruct Hs as [H1 H2 H3 H4 H5 H6 H7 H8]; cbn in *.
    pose proof (accept_inv cfg id p ok w w' H1 Hp Hid Ha) as Hw'. destruct ok.
    + destruct (accept_present _ _ _ _ _ Ha) as (Hpr & Hcl & Hst).
      assert (forall q, present w q -> present w' q) as Hmono by (intros q ?; apply Hpr; by right).
      assert (p ∉ rs) as Hnew by (intros [c Hc]%H3; congruence).
      split; cbn; [done| | | |by eapply Forall_impl|by eapply Forall_impl|by rewrite Hst|done].
      * rewrite size_union, size_singleton by set_solver. lia.
      * intros q [->%elem_of_singleton|Hq]%elem_of_union; [apply Hpr; by left|by apply Hmono, H3].
      * intros q [->|Hq]%Hpr; [left; set_solver|]. destruct (decide (q = p)) as [->|Hne]; [left; set_solver|].
        apply H4 in Hq as [?|?]; [left; set_solver|right; by apply Hcl].
    + assert (w' = w) as -> by (unfold accept in Ha; destruct (_ <=? _); congruence). by split.
  - pose proof (has_effect_ok settles _ _ _ _ (effect_one_read cfg settles (fun _ H => H) p r I) Hr) as Hset.
    assert (inv w' /\ (go = false -> closed w' p)) as [Hw' Hgo].
    { destruct Hs as [H1 H2 H3 H4 H5 H6 H7 H8]; cbn in *. pose proof (runOnce_ok cfg Hu p r w H1 Hd) as H.
      rewrite Hr in H. split; [apply H|]. intros ->. eapply runOnce_returned; [exact H1|by apply H3|done]. }
    pose proof (pinv_world _ w' _ _ _ _ _ _ Hs Hw' Hset) as Hs'. destruct go; [done|].
    destruct Hs' as [H1 H2 H3 H4 H5 H6 H7 H8]; cbn in *. split; cbn; try done.
    + rewrite H2, size_difference, size_singleton by set_solver.
      assert (size rs <> 0%nat); [|lia]. intros E%size_empty_iff. set_solver.
    + intros q. set_solver.
    + intros q Hq. destruct (decide (q = p)) as [->|Hne]; [right; auto|].
      destruct (H4 q Hq); [left; set_solver|by right].
  - pose proof (idleStep_settles _ _ _ Hi) as Hset. pose proof (idleStep_inv cfg (w, i) (w', i') (pv_inv _ Hs) Hi) as Hw'.
    pose proof (idleStep_ptrs cfg (w, i) (w', i') Hi (pv_idle _ Hs)) as Hptrs. pose proof (pv_wg _ Hs) as Hwg.
    destruct (pinv_world _ w' _ _ _ _ _ _ Hs Hw' Hset) as [H1 H2 H3 H4 H5 H6 H7 H8]; cbn in *.
    split; cbn; try done. rewrite Hwg. inversion Hi; subst; cbn; try lia. destruct sleeps; cbn; lia.
  - destruct Hs as [H1 H2 H3 H4 H5 H6 H7 H8]; cbn in *. split; cbn; try done; [apply Hv|auto].
  - destruct Hs as [H1 H2 H3 H4 H5 H6 H7 H8]; cbn in *. split; cbn; try done; [|auto]. apply Forall_app. split; [done|].
    apply Forall_singleton. apply H1 in Hp as (c & Hc & _). by exists c.
  - assert (present w p) as Hpres by (pose proof (pv_closing _ Hs) as H; by apply Forall_cons in H as [? _]).
    assert (inv w') as Hw' by (eapply (calm_inv p); [apply (calm_Close True p)|apply Hs|exact Hc]).
    pose proof (has_effect_ok settles _ _ _ _ (effect_Close cfg _ p) Hc) as Hset.
    destruct (pinv_world _ w' _ _ _ _ _ _ Hs Hw' Hset) as [H1 H2 H3 H4 H5 H6 H7 H8]; cbn in *.
    split; cbn; try done; [|auto]. by apply Forall_cons in H6 as [_ ?].
  - assert (inv w') as Hw' by (eapply (calm_inv 1%positive); [apply calm_run_api|apply Hs|exact Ha]).
    eapply pinv_world; [exact Hs|done|]. exact (has_effect_ok settles _ _ _ _ (effect_run_api cfg _ a) Ha).
Qed.

Lemma preachable_pinv cfg s : user_ok cfg -> preachable cfg s -> pinv s.
Proof.
  intros Hu (t & Hr). pose proof (pinv_start cfg t) as H0. revert H0. induction Hr; [done|].
  intros. eapply IHHr, pinv_step; done.
Qed.

(** *** Stop behind the listener *)

(** From the moment the listener is closed while the accept loop holds no
    connection: none can come, and the ones there are get closed. *)
Record stopping (s : proc) : Prop := {
  sp_inv : pinv s;
  sp_main : pr_main s <> MainHolds;
  sp_stop : match pr_stop s with
    | StNotCalled | StCancelled => False
    | StListenerClosed => True
    | StClosing ps => forall p, present (pr_world s) p -> closed (pr_world s) p \/ p ∈ ps
    | StWaiting => forall p, present (pr_world s) p -> closed (pr_world s) p
    | StForwarders | StReturned =>
        (forall p, present (pr_world s) p -> closed (pr_world s) p) /\ pr_readers s = ∅ /\ pr_idle s = Ended
    end
}.

Lemma stopping_world w w' l m i rs n st :
  stopping (mkProc w l m i rs n st) -> pinv (mkProc w' l m i rs n st) -> settles w w' ->
  stopping (mkProc w' l m i rs n st).
Proof.
  intros [_ H2 H3] Hp (Hpr & Hcl & _). split; [done|done|]. cbn in *.
  assert ((forall p, present w p -> closed w p) -> forall p, present w' p -> closed w' p) as Hall
    by (intros H p Hq; apply Hcl, H, Hpr, Hq).
  destruct st as [| | |ps| | |]; cbn in *; try done; [|auto|destruct H3; auto..].
  intros p Hq. apply Hpr, H3 in Hq as [?|?]; auto.
Qed.

Lemma stopping_step cfg s s' : user_ok cfg -> stopping s -> pstep cfg s s' -> stopping s'.
Proof.
  intros Hu Hs Hst. pose proof (pinv_step cfg s s' Hu (sp_inv _ Hs) Hst) as Hp'.
  pose proof (pv_listener _ (sp_inv _ Hs)) as Hl. pose proof (pv_wg _ (sp_inv _ Hs)) as Hwg.
  destruct Hst as [w i rs n st|w l i rs n st|w l i rs n st id p ok w' Hp Hid Ha
    |w l m i rs n st p r go w' Hp Hd Hr|w l m i rs n st w' i' Hi|w l m i rs n|w l m i rs n|w l m i rs n ps Hv
    |w l m i rs n ps id p Hp|w l m i rs n p ps w' Hc|w l m i rs n|w l m i rs|w l m i rs n
    |A w l m i rs n st a b w' Ha|w l m i rs n st t|w l m i rs n st net];
    try solve [destruct Hs as [H1 H2 H3]; cbn in *; split; cbn; auto; done].
  - destruct Hs as [_ _ H3]; cbn in *. destruct st; cbn in *; try done; by specialize (Hl eq_refl).
  - destruct Hs as [_ _ H3]; cbn in *. split; cbn; [done|by destruct (w_stopped w)|done].
  - pose proof (has_effect_ok settles _ _ _ _ (effect_one_read cfg settles (fun _ H => H) p r I) Hr) as Hset.
    destruct Hs as [_ H2 H3]. destruct Hset as (Hpr & Hcl & _). split; [done|done|]. cbn in *.
    destruct st as [| | |ps| | |]; cbn in *; try done.
    + intros q Hq. apply Hpr, H3 in Hq as [?|?]; auto.
    + intros q Hq. by apply Hcl, H3, Hpr.
    + destruct H3 as (_ & -> & _). set_solver.
    + destruct H3 as (_ & -> & _). set_solver.
  - pose proof (idleStep_settles _ _ _ Hi) as (Hpr & Hcl & _). destruct Hs as [_ H2 H3].
    split; [done|done|]. cbn in *. destruct st as [| | |ps| | |]; cbn in *; try done.
    + intros q Hq. apply Hpr, H3 in Hq as [?|?]; auto.
    + intros q Hq. by apply Hcl, H3, Hpr.
    + destruct H3 as (_ & _ & ->). inversion Hi.
    + destruct H3 as (_ & _ & ->). inversion Hi.
  - destruct Hs as [H1 H2 H3]. split; [done|done|]. cbn. intros p [c Hc].
    destruct (c_netClosed c) eqn:Hn; [left; by exists c|right]. destruct Hv as (_ & Hin & _). apply (Hin (c_id c)).
    apply (proj1 (proj2 (proj2 (pv_inv _ H1)))). by exists c.
  - destruct Hs as [H1 H2 H3]. split; [done|done|]. cbn in *. intros q Hq. destruct (H3 q Hq); [by left|right].
    apply elem_of_app. by left.
  - pose proof (has_effect_ok settles _ _ _ _ (effect_Close cfg _ p) Hc) as (Hpr & Hcl & _).
    assert (closed w' p) as Hclosed.
    { apply (Close_closes p w); [apply (pv_inv _ (sp_inv _ Hs))| |done].
      pose proof (pv_closing _ (sp_inv _ Hs)) as H. by apply Forall_cons in H as [? _]. }
    destruct Hs as [H1 H2 H3]. split; [done|done|]. cbn in *. intros q Hq.
    apply Hpr, H3 in Hq as [?|[->|?]%elem_of_cons]; auto.
  - destruct Hs as [H1 H2 H3]. split; [done|done|]. cbn in *. intros q Hq.
    destruct (H3 q Hq) as [?|H]; [done|]. by apply elem_of_nil in H.
  - destruct Hs as [H1 H2 H3]. split; [done|done|]. cbn in *. split; [done|].
    destruct i; cbn in *; try lia. split; [|done]. apply leibniz_equiv, size_empty_inv. lia.
  - eapply stopping_world; [exact Hs|done|]. exact (has_effect_ok settles _ _ _ _ (effect_run_api cfg _ a) Ha).
Qed.

Lemma stopping_rtc cfg s s' : user_ok cfg -> stopping s -> rtc (pstep cfg) s s' -> stopping s'.
Proof. intros Hu Hs Hr. revert Hs. induction Hr; [done|]. intros. by eapply IHHr, stopping_step. Qed.

(** *** Stop comes to its end *)

Section progress.
Context (cfg : Config) (Hu : user_ok cfg).

Lemma pinv_rtc s s' : pinv s -> rtc (pstep cfg) s s' -> pinv s'.
Proof. intros Hs Hr. revert Hs. induction Hr; [done|]. intros. by eapply IHHr, pinv_step. Qed.

Lemma can_close ps : forall w l m i rs n, pinv (mkProc w l m i rs n (StClosing ps)) ->
  exists w', rtc (pstep cfg) (mkProc w l m i rs n (StClosing ps)) (mkProc w' l m i rs n StWaiting).
Proof.
  induction ps as [|p ps IH]; intros w l m i rs n Hs; [exists w; apply rtc_once; constructor|].
  pose proof (pv_closing _ Hs) as Hp. apply Forall_cons in Hp as [Hp _].
  destruct (Close_returns p w (pv_inv _ Hs) Hp) as (w1 & Hc).
  assert (pstep cfg (mkProc w l m i rs n (StClosing (p :: ps))) (mkProc w1 l m i rs n (StClosing ps))) as H1
    by (by constructor).
  destruct (IH _ _ _ _ _ _ (pinv_step _ _ _ Hu Hs H1)) as (w' & Hr). exists w'. by eapply rtc_l.
Qed.

Lemma can_read_out k : forall w l m i rs n st, size rs = k -> pinv (mkProc w l m i rs n st) ->
  exists w' n', rtc (pstep cfg) (mkProc w l m i rs n st) (mkProc w' l m i ∅ n' st).
Proof.
  induction k as [|k IH]; intros w l m i rs n st Hk Hs.
  { apply size_empty_inv, leibniz_equiv in Hk as ->. exists w, n. apply rtc_refl. }
  destruct (set_choose_L rs) as [p Hp]; [intros ->; by rewrite size_empty in Hk|].
  pose proof (pv_readers _ Hs p Hp) as Hpr. destruct (runOnce_error cfg p w (pv_inv _ Hs) Hpr) as (w1 & Hr).
  assert (pstep cfg (mkProc w l m i rs n st) (mkProc w1 l m i (rs ∖ {[p]}) (n - 1) st)) as H1.
  { destruct Hpr as [c Hc]. apply (ps_read cfg w l m i rs n st p ReadError false w1); [done| |done]. by exists c. }
  destruct (IH w1 l m i (rs ∖ {[p]}) (n - 1) st) as (w' & n' & Hr').
  - rewrite size_difference, size_singleton by set_solver. lia.
  - by eapply pinv_step.
  - exists w', n'. by eapply rtc_l.
Qed.

Lemma can_sweep ps : forall w l m rs n st, pinv (mkProc w l m (Sweeping ps) rs n st) ->
  exists w', rtc (pstep cfg) (mkProc w l m (Sweeping ps) rs n st) (mkProc w' l m Waiting rs n st).
Proof.
  induction ps as [|p ps IH]; intros w l m rs n st Hs.
  { exists w. apply rtc_once. apply (ps_idle cfg w l m (Sweeping []) rs n st w Waiting). constructor. }
  pose proof (pv_idle _ Hs) as Hp. cbn in Hp. apply Forall_cons in Hp as [[c Hc] _].
  destruct (probe_ok cfg p w c (pv_inv _ Hs) Hc) as (sleeps & w1 & Hpr).
  assert (exists w2, rtc (pstep cfg) (mkProc w l m (Sweeping (p :: ps)) rs n st)
    (mkProc w2 l m (Sweeping ps) rs n st)) as (w2 & Hr2).
  { pose proof (ps_idle cfg w l m _ rs n st w1 _ (id_probe cfg w p ps sleeps w1 Hpr)) as H1.
    destruct sleeps; [|exists w1; by apply rtc_once].
    set (t := mkTime (t_unix (w_now w1) + 3) (t_nsec (w_now w1)) 0).
    pose proof (ps_clock cfg w1 l m (Sleeping p (w_now w1) ps) rs n st t) as H2.
    pose proof (pinv_step _ _ _ Hu (pinv_step _ _ _ Hu Hs H1) H2) as Hs2.
    pose proof (pv_idle _ Hs2) as Hp. apply Forall_cons in Hp as [[d Hd] _].
    destruct (recheck_ok cfg p (set_now w1 t) d (pv_inv _ Hs2) Hd) as (w2 & Hre). exists w2.
    eapply rtc_l; [exact H1|]. eapply rtc_l; [exact H2|]. apply rtc_once.
    apply (ps_idle cfg (set_now w1 t) l m (Sleeping p (w_now w1) ps) rs n st w2 (Sweeping ps)).
    apply id_wake; [unfold nanos; cbn; lia|done]. }
  destruct (IH w2 l m rs n st (pinv_rtc _ _ Hs Hr2)) as (w' & Hr). exists w'. by etrans.
Qed.

Lemma can_end_idle w l m i rs n st : st <> StNotCalled -> pinv (mkProc w l m i rs n st) ->
  exists w' n', rtc (pstep cfg) (mkProc w l m i rs n st) (mkProc w' l m Ended rs n' st).
Proof.
  intros Hst. assert (forall w, pinv (mkProc w l m Waiting rs n st) ->
    pstep cfg (mkProc w l m Waiting rs n st) (mkProc w l m Ended rs (n - 1) st)) as Hend.
  { intros v Hv. apply (ps_idle cfg v l m Waiting rs n st v Ended). apply id_done. by apply (pv_stopped _ Hv). }
  assert (forall ps w, pinv (mkProc w l m (Sweeping ps) rs n st) -> exists w' n',
    rtc (pstep cfg) (mkProc w l m (Sweeping ps) rs n st) (mkProc w' l m Ended rs n' st)) as Hsweep.
  { intros ps v Hv. destruct (can_sweep ps v l m rs n st Hv) as (w1 & Hr). exists w1, (n - 1).
    etrans; [exact Hr|]. apply rtc_once, Hend. by eapply pinv_rtc. }
  intros Hs. destruct i as [|ps|p t ps|].
  - exists w, (n - 1). by apply rtc_once, Hend.
  - by apply (Hsweep ps w).
  - set (t' := mkTime (t_unix t + 3) (t_nsec t) 0).
    pose proof (ps_clock cfg w l m (Sleeping p t ps) rs n st t') as H1.
    pose proof (pinv_step _ _ _ Hu Hs H1) as Hs1. pose proof (pv_idle _ Hs1) as Hp. apply Forall_cons in Hp as [[d Hd] _].
    destruct (recheck_ok cfg p (set_now w t') d (pv_inv _ Hs1) Hd) as (w2 & Hre).
    assert (pstep cfg (mkProc (set_now w t') l m (Sleeping p t ps) rs n st) (mkProc w2 l m (Sweeping ps) rs n st)) as H2.
    { apply (ps_idle cfg (set_now w t') l m (Sleeping p t ps) rs n st w2 (Sweeping ps)).
      apply id_wake; [unfold nanos; cbn; lia|done]. }
    destruct (Hsweep ps w2) as (w' & n' & Hr); [by eapply pinv_step|]. exists w', n'.
    eapply rtc_l; [exact H1|]. by eapply rtc_l.
  - exists w, n. apply rtc_refl.
Qed.

(** From the walk over the connections on, [Stop] can return. *)
Lemma can_wait w l m i rs n : pinv (mkProc w l m i rs n StWaiting) ->
  exists w', rtc (pstep cfg) (mkProc w l m i rs n StWaiting) (mkProc w' l m Ended ∅ 0 StReturned).
Proof.
  intros Hs. destruct (can_read_out (size rs) _ _ _ _ _ _ _ eq_refl Hs) as (w1 & n1 & H1).
  destruct (can_end_idle w1 l m i ∅ n1 StWaiting ltac:(done) (pinv_rtc _ _ Hs H1)) as (w2 & n2 & H2).
  pose proof (pinv_rtc _ _ Hs (transitivity H1 H2)) as Hs2. assert (n2 = 0) as ->.
  { pose proof (pv_wg _ Hs2) as Hn. cbn in Hn. by rewrite size_empty in Hn. }
  exists w2. etrans; [exact H1|]. etrans; [exact H2|].
  eapply rtc_l; [apply ps_wait|]. apply rtc_once, ps_forwarders.
Qed.

Lemma can_return s : stopping s -> exists s1, rtc (pstep cfg) s s1 /\ pr_stop s1 = StReturned.
Proof.
  intros Hs. destruct s as [w l m i rs n st].
  assert (forall ps w, pinv (mkProc w l m i rs n (StClosing ps)) -> exists s1,
    rtc (pstep cfg) (mkProc w l m i rs n (StClosing ps)) s1 /\ pr_stop s1 = StReturned) as Hclosing.
  { intros ps v Hv. destruct (can_close ps _ _ _ _ _ _ Hv) as (w1 & H1).
    destruct (can_wait w1 l m i rs n (pinv_rtc _ _ Hv H1)) as (w2 & H2). eexists. split; [by etrans|done]. }
  pose proof (sp_inv _ Hs) as Hp. pose proof (sp_stop _ Hs) as Hst. destruct st as [| | |ps| | |]; cbn in Hst; try done.
  - assert (visits w (map_to_list (w_connections w)).*2) as Hv.
    { split; [apply indexed_NoDup, Hp|]. split.
      - intros id p Hin. apply list_elem_of_fmap. exists (id, p). split; [done|]. by apply elem_of_map_to_list.
      - apply Forall_forall. intros p Hin. apply (elem_of_indexed w p (pv_inv _ Hp)) in Hin as (c & Hc & _). by exists c. }
    pose proof (ps_range cfg w l m i rs n _ Hv) as H1.
    destruct (Hclosing _ w (pinv_step _ _ _ Hu Hp H1)) as (s1 & H2 & ?). exists s1. split; [by eapply rtc_l|done].
  - by apply Hclosing.
  - destruct (can_wait w l m i rs n Hp) as (w2 & H2). by eexists.
  - eexists. split; [apply rtc_once, ps_forwarders|done].
  - eexists. split; [apply rtc_refl|done].
Qed.
End progress.

(** ** Properties *)

(** Behind [Range]. *)
Definition walked_over (st : stopPc) : bool :=
  match st with StWaiting | StForwarders | StReturned => true | _ => false end.

(** C28: [Stop] does what it is for, when it is not raced by the accept loop.  Take
    any moment at which it has just closed the listener while the accept loop holds
    no connection, and whatever the goroutines, the vehicles and the user do then.
    Once [Stop] has walked over the connections all are closed and the index is
    empty; once it is past [wg.Wait] no read loop runs and the idle check is over; and
    at every point [Stop] can go on to return, and the accept loop with it. *)
Theorem stop_completes cfg s0 s
    (Hu : user_ok cfg) (Hr : preachable cfg s0)
    (Hs0 : pr_stop s0 = StListenerClosed) (Hm : pr_main s0 <> MainHolds)
    (Hs : rtc (pstep cfg) s0 s) :
  (walked_over (pr_stop s) = true ->
     (forall p c, w_heap (pr_world s) !! p = Some c -> c_netClosed c = true) /\
     w_connections (pr_world s) = ∅) /\
  (pr_stop s = StForwarders \/ pr_stop s = StReturned ->
     pr_readers s = ∅ /\ pr_idle s = Ended /\ pr_wg s = 0) /\
  exists s1, rtc (pstep cfg) s s1 /\ pr_stop s1 = StReturned /\ pr_main s1 = MainReturned.
Proof.
  assert (stopping s0) as H0.
  { split; [by eapply preachable_pinv|done|by rewrite Hs0]. }
  pose proof (stopping_rtc cfg s0 s Hu H0 Hs) as Hst. clear H0. split_and!.
  - intros Hc. assert (forall p, present (pr_world s) p -> closed (pr_world s) p) as Hall.
    { pose proof (sp_stop _ Hst) as H. destruct (pr_stop s); cbn in *; try done; apply H. }
    assert (forall p c, w_heap (pr_world s) !! p = Some c -> c_netClosed c = true) as Hcl.
    { intros p c Hp. destruct (Hall p ltac:(by exists c)) as (d & ? & ?). congruence. }
    split; [done|]. apply map_empty. intros id. destruct (w_connections (pr_world s) !! id) as [p|] eqn:Hp; [|done].
    apply (pv_inv _ (sp_inv _ Hst)) in Hp as (c & Hc' & _ & Hn'). by rewrite (Hcl p c Hc') in Hn'.
  - intros Hcase. pose proof (sp_stop _ Hst) as H. pose proof (pv_wg _ (sp_inv _ Hst)) as Hwg.
    destruct Hcase as [E|E]; rewrite E in H; destruct H as (_ & Hrs & Hi); rewrite Hrs, Hi in Hwg;
      cbn in Hwg; rewrite size_empty in Hwg; by split_and!.
  - destruct (can_return cfg Hu s Hst) as (s1 & H1 & H2). pose proof (stopping_rtc cfg s s1 Hu Hst H1) as Hst1.
    pose proof (pv_stopped _ (sp_inv _ Hst1) ltac:(by rewrite H2)) as Hw. pose proof (sp_main _ Hst1) as Hm1.
    destruct s1 as [w l m i rs n st]; cbn in *. destruct m; [|done|by eexists].
    exists (mkProc w l MainReturned i rs n st). split_and!; [|done|done]. etrans; [exact H1|]. apply rtc_once.
    pose proof (ps_error cfg w l i rs n st) as He. by rewrite Hw in He.
Qed.

(** The sample server with one connection, which the accept loop has stored. *)
Definition sample_stopping : proc :=
  mkProc (set_stopped sample_world) false MainAccepts Waiting {[ 1%positive ]} 2 StListenerClosed.

Lemma sample_preachable : preachable sample_config sample_stopping.
Proof.
  exists (w_now sample_world). change (start_proc sample_config (w_now sample_world)) with
    (mkProc (initial (w_now sample_world)) true MainAccepts Waiting ∅ 1 StNotCalled).
  eapply rtc_l; [apply ps_accept|]. eapply rtc_l.
  { apply (ps_store sample_config _ true Waiting ∅ 1 StNotCalled [105; 100] 1%positive true sample_world).
    - reflexivity.
    - intros q c. cbn. by rewrite lookup_empty.
    - vm_compute. reflexivity. }
  cbn [app]. rewrite (right_id_L ∅ (∪)).
  eapply rtc_l; [apply ps_cancel|]. apply rtc_once, ps_listener.
Qed.

Lemma stop_completes_witness : exists s,
  rtc (pstep sample_config) sample_stopping s /\ pr_stop s = StReturned /\ pr_main s = MainReturned /\
  w_connections (pr_world s) = ∅.
Proof.
  destruct (stop_completes sample_config sample_stopping sample_stopping sample_user_ok sample_preachable
    eq_refl ltac:(done) (rtc_refl _ _)) as (_ & _ & s & H1 & H2 & H3).
  exists s. destruct (stop_completes sample_config sample_stopping s sample_user_ok sample_preachable
    eq_refl ltac:(done) H1) as [H4 _].
  rewrite H2 in H4. destruct (H4 eq_refl) as [_ H5]. exact (conj H1 (conj H2 (conj H3 H5))).
Defined.
