(* ===== verification/Deadlines.v ===== *)
(** * Read deadlines ([run] of [conn.go])

    The read loop of one connection with the deadline it sets in front of each
    read, on a clock that advances while the rest of the process takes its steps.
    A network connection fails a read once its deadline has passed; how late the
    runtime is with that, or with a goroutine that could run, is a parameter.  A
    connection that stays silent is closed in time ([silence_closed]); where the
    read timeout is well below the idle timeout, as it is by default, the idle check
    never gets to probe one ([idle_check_shadowed]). *)
From stdpp Require Import gmap.
From S2P Require Import Prelude.
From S2P Require Import GoTime.
From S2P Require Import Constant.
From S2P Require Import Packet.
From S2P Require Import Framing.
From S2P Require Import FramingSpec.
From S2P Require Import Registry.
From S2P Require Import World.
From S2P Require Import Options.
From S2P Require Import Connection.
From S2P Require Import Server.
From S2P Require Import Effects.
From S2P Require Import Sessions.
From S2P Require Import Idle.
From S2P Require Import Shutdown.

(** ** The loop *)

(** Between two reads since some time, in [conn.Read] until a deadline if there is
    one, or returned; in nanoseconds since 1970. *)
Inductive readPc :=
  | RdLoops (since : Z)
  | RdReads (deadline : option Z)
  | RdReturned.

(** The nanoseconds of a [time.Time] are less than a second. *)
Definition sane (t : Time) : Prop := 0 <= t_nsec t < 1000000000.

Section deadlines.
Context (srv : Options.Server) (slack : Z) (p : ptr).
Abbreviation cfg := (config_of srv).

(** [c.conn.SetReadDeadline(time.Now().Add(c.server.readTimeout))], for a positive
    timeout. *)
Definition readDeadline (t : Time) : option Z :=
  if 0 <? s_readTimeout srv then Some (nanos t + s_readTimeout srv) else None.

(** A read returns at least one byte or an error; behind its deadline it returns an
    error. *)
Inductive readStep : World * readPc -> World * readPc -> Prop :=
  | rd_done w s c w' :
      w_heap w !! p = Some c -> c_ctxDone c = true ->
      runOnce cfg p ReadError w = Ok (false, w') -> readStep (w, RdLoops s) (w', RdReturned)
  | rd_arm w s c :
      w_heap w !! p = Some c -> c_ctxDone c = false ->
      readStep (w, RdLoops s) (w, RdReads (readDeadline (w_now w)))
  | rd_bytes w d b go w' :
      b <> [] -> deliverable w p (ReadBytes b) -> (forall t, d = Some t -> nanos (w_now w) <= t) ->
      runOnce cfg p (ReadBytes b) w = Ok (go, w') ->
      readStep (w, RdReads d) (w', if go : bool then RdLoops (nanos (w_now w')) else RdReturned)
  | rd_error w d w' :
      runOnce cfg p ReadError w = Ok (false, w') -> readStep (w, RdReads d) (w', RdReturned).

(** What the rest of the process does. *)
Inductive otherStep : World -> World -> Prop :=
  | ot_accept id q ok w w' :
      w_heap w !! q = None -> (forall r c, w_heap w !! r = Some c -> c_id c <> id) ->
      accept cfg id q w = Ok (ok, w') -> otherStep w w'
  | ot_read q r go w w' :
      q <> p -> deliverable w q r -> runOnce cfg q r w = Ok (go, w') -> otherStep w w'
  | ot_probe q sleeps w w' : idleProbe cfg q w = Ok (sleeps, w') -> otherStep w w'
  | ot_recheck q w w' : idleRecheck cfg q w = Ok (tt, w') -> otherStep w w'
  | ot_stop w w' : Stop w = Ok (tt, w') -> otherStep w w'
  | ot_user {A} (a : api A) b w w' : run_api a w = Ok (b, w') -> otherStep w w'
  | ot_network n w : otherStep w (set_net w n).

(** The runtime is at most [slack] late with the loop and with a deadline. *)
Definition prompt (pc : readPc) (t : Z) : Prop :=
  match pc with
  | RdLoops s => t <= s + slack
  | RdReads (Some d) => t <= d + slack
  | RdReads None | RdReturned => True
  end.

Inductive timedStep : World * readPc -> World * readPc -> Prop :=
  | td_read s s' : readStep s s' -> timedStep s s'
  | td_other w w' pc : otherStep w w' -> timedStep (w, pc) (w', pc)
  | td_clock w pc t :
      sane t -> nanos (w_now w) <= nanos t -> prompt pc (nanos t) ->
      timedStep (w, pc) (set_now w t, pc).

(** From the moment the accept loop has started the read loop. *)
Inductive timed : World * readPc -> Prop :=
  | td_start id w w' :
      reachable cfg w -> sane (w_now w) -> w_heap w !! p = None ->
      (forall q c, w_heap w !! q = Some c -> c_id c <> id) ->
      accept cfg id p w = Ok (true, w') -> timed (w', RdLoops (nanos (w_now w')))
  | td_step s s' : timed s -> timedStep s s' -> timed s'.
End deadlines.

(** ** Lemmas *)

(** *** Who has been seen *)

(** No connection outside of [S] was seen meanwhile; none was opened again; the
    clock stands. *)
Definition unseen (S : ptr -> Prop) (w w' : World) : Prop :=
  w_now w' = w_now w /\
  forall q c, w_heap w !! q = Some c -> exists c', w_heap w' !! q = Some c' /\
    (S q \/ c_lastSeen c' = c_lastSeen c) /\ (c_netClosed c = true -> c_netClosed c' = true).

#[export] Instance unseen_preorder S : PreOrder (unseen S).
Proof.
  split; [intros w; split; [done|]; intros q c Hc; exists c; auto|].
  intros w1 w2 w3 [T1 H1] [T2 H2]. split; [congruence|]. intros q c Hc.
  destruct (H1 q c Hc) as (c2 & Hc2 & L1 & N1), (H2 q c2 Hc2) as (c3 & Hc3 & L2 & N2).
  exists c3. split_and!; [done| |auto]. destruct L1 as [?|L1]; [by left|]. destruct L2 as [?|L2]; [by left|right; congruence].
Qed.

#[export] Instance unseen_effect cfg S : Effect cfg (unseen S).
Proof.
  refine {| effect_seen := S; effect_allows := event_ok cfg |}; try apply _; try (by intros); try solve [split; [done|]; intros q c Hc; exists c; auto].
  intros w p c c' Hc (_ & _ & _ & Hk) Hs. split; [done|]. intros q d Hd. cbn.
  destruct (decide (p = q)) as [<-|Hq].
  - assert (d = c) as -> by congruence. exists c'. by rewrite lookup_insert_eq.
  - exists d. rewrite lookup_insert_ne by done. auto.
Defined.

Lemma otherStep_inv srv p w w' : user_ok (config_of srv) -> inv w -> otherStep srv p w w' -> inv w'.
Proof.
  intros Hu Hw Hs. destruct Hs as [id q ok w w' Hq Hid Ha|q r go w w' _ Hd Hr|q s w w' Hp|q w w' Hp|w w' Hp|A a b w w' Ha|n w].
  - by eapply accept_inv.
  - pose proof (runOnce_ok _ Hu q r w Hw Hd) as H. rewrite Hr in H. apply H.
  - eapply (calm_inv q); [apply (calm_idleProbe (config_of srv) q)|exact Hw|exact Hp].
  - eapply (calm_inv q); [apply (calm_idleRecheck (config_of srv) q)|exact Hw|exact Hp].
  - eapply step_inv; [exact Hu|exact Hw|by apply step_stop].
  - eapply (calm_inv 1%positive); [apply calm_run_api|exact Hw|exact Ha].
  - done.
Qed.

Lemma otherStep_unseen srv p w w' : otherStep srv p w w' -> unseen (fun q => q <> p) w w'.
Proof.
  intros Hs. destruct Hs as [id q ok w w' Hq Hid Ha|q r go w w' Hne Hd Hr|q s w w' Hp|q w w' Hp|w w' Hp|A a b w w' Ha|n w];
    [|eapply has_effect_ok; [|eassumption]..|].
  - unfold accept in Ha. destruct (_ <=? _); injection Ha as _ <-; [reflexivity|]. split; [done|]. intros r c Hc.
    exists c. cbn. rewrite lookup_insert_ne by (intros ->; congruence). auto.
  - exact (effect_one_read (config_of srv) (unseen (fun q => q <> p)) (fun _ H => H) q r Hne).
  - exact (effect_idleProbe (config_of srv) _ q).
  - exact (effect_idleRecheck (config_of srv) _ q).
  - intros v. unfold Stop. exact (effect_closeAll (config_of srv) (unseen (fun q => q <> p)) _ (set_stopped v)).
  - exact (effect_run_api (config_of srv) _ a).
  - split; [done|]. intros q c Hc. exists c. auto.
Qed.

(** A read of at least one byte: the connection was seen now. *)
Lemma runOnce_heard cfg p b go w w' c : w_heap w !! p = Some c -> c_ctxDone c = false -> b <> [] ->
  runOnce cfg p (ReadBytes b) w = Ok (go, w') ->
  go = true /\ w_now w' = w_now w /\
  exists c', w_heap w' !! p = Some c' /\ c_lastSeen c' = t_unix (w_now w).
Proof.
  intros Hc Hctx Hb. unfold runOnce. rewrite (bindM_ok _ _ _ c w) by (unfold conn; by rewrite Hc).
  rewrite Hctx. assert ((0 <? len b) = true) as -> by (apply Z.ltb_lt; destruct b; [done|rewrite len_cons; pose proof (len_nonneg b); lia]).
  erewrite (bindM_ok now) by reflexivity. rewrite (bindM_ok _ _ _ _ _ (on_conn_eq p _ w c Hc)).
  set (w1 := set_heap w _). intros E. split.
  { match type of E with ?m _ = _ => assert (ends_true m) as Hm end.
    { repeat (apply ends_true_bind; intros ?). by intros ? ? ? [= <- _]. }
    by eapply Hm. }
  eapply (has_effect_ok (unseen (fun _ => False))) in E.
  - destruct E as [Hn Hs]. split; [done|].
    destruct (Hs p (with_lastSeen (t_unix (w_now w)) c)) as (c' & Hc' & [[]|Hl] & _); [apply lookup_insert_eq|].
    by exists c'.
  - pose (Eff := unseen_effect cfg (fun _ => False)).
    apply (effect_bind cfg _); [apply (effect_conn_read cfg _)|intros d].
    apply (effect_bind cfg _); [apply (effect_lift cfg _)|intros e].
    apply (effect_bind cfg _); [by apply (effect_on_conn cfg _)|intros _].
    apply (effect_bind cfg _); [|intros _; apply (effect_ret cfg _)].
    apply (effect_bind cfg _); [apply (effect_conn_read cfg _)|intros f].
    exact (effect_read_loop cfg (unseen (fun _ => False)) (fun _ H => H) _ _).
Qed.

Lemma runOnce_clock cfg p r go w w' : runOnce cfg p r w = Ok (go, w') -> w_now w' = w_now w.
Proof.
  intros Hr. apply (has_effect_ok (unseen (fun _ => True)) _ _ _ _) in Hr; [apply Hr|].
  exact (effect_one_read cfg (unseen (fun _ => True)) (fun _ H => H) p r I).
Qed.

(** *** The timed loop *)

Section timed.
Context (srv : Options.Server) (slack : Z) (p : ptr) (Hu : user_ok (config_of srv)) (Hsl : 0 <= slack).
Abbreviation cfg := (config_of srv).

(** When the connection has at last been seen. *)
Definition seen_by (c : Connection) (t : Z) : Prop := t < (c_lastSeen c + 1) * 1000000000.

Definition pc_ok (c : Connection) (t : Z) (pc : readPc) : Prop :=
  match pc with
  | RdLoops s => seen_by c s /\ s <= t <= s + slack
  | RdReads (Some d) =>
      0 < s_readTimeout srv /\ seen_by c (d - slack - s_readTimeout srv) /\ t <= d + slack
  | RdReads None => s_readTimeout srv <= 0
  | RdReturned => c_netClosed c = true
  end.

Record tinv (s : World * readPc) : Prop := {
  ti_inv : inv s.1;
  ti_sane : sane (w_now s.1);
  ti_pc : exists c, w_heap s.1 !! p = Some c /\ pc_ok c (nanos (w_now s.1)) s.2
}.

Lemma seen_now (c : Connection) t : sane t -> c_lastSeen c = t_unix t -> seen_by c (nanos t).
Proof. unfold sane, seen_by, nanos. intros ? ->. lia. Qed.

Lemma readStep_tinv s s' : tinv s -> readStep srv p s s' -> tinv s'.
Proof.
  intros [Hw Hn (c & Hc & Hpc)] Hs.
  assert (forall w w', s.1 = w -> runOnce cfg p ReadError w = Ok (false, w') ->
    inv w' /\ sane (w_now w') /\ closed w' p) as Hreturn.
  { intros w w' <- Hr. pose proof (runOnce_ok cfg Hu p ReadError s.1 Hw ltac:(by exists c)) as H. rewrite Hr in H.
    rewrite (runOnce_clock _ _ _ _ _ _ Hr). split_and!; [apply H|done|]. eapply runOnce_returned; [exact Hw|by exists c|exact Hr]. }
  destruct Hs as [w s d w' Hd Hctx Hr|w s d Hd Hctx|w d b go w' Hb Hdel Hdl Hr|w d w' Hr]; cbn in *.
  - destruct (Hreturn w w' eq_refl Hr) as (? & ? & e & ? & ?). split; [done|done|]. by exists e.
  - assert (d = c) as -> by congruence. split; [done|done|]. exists c. split; [done|]. cbn. unfold readDeadline.
    destruct (Z.ltb_spec 0 (s_readTimeout srv)); [|done]. destruct Hpc as [Hs ?]. unfold seen_by in *. split_and!; lia.
  - pose proof Hdel as (e & He & Hbytes & Hopen). assert (e = c) as -> by congruence.
    pose proof (proj1 Hw p c Hc) as (_ & _ & Hctx & _).
    pose proof (runOnce_ok cfg Hu p _ w Hw Hdel) as Hok. rewrite Hr in Hok.
    destruct (runOnce_heard cfg p b go w w' c Hc ltac:(congruence) Hb Hr) as (-> & Ht & c' & Hc' & Hl).
    split; cbn; [apply Hok|by rewrite Ht|]. exists c'. split; [done|]. split; [|lia].
    apply seen_now; by rewrite Ht.
  - destruct (Hreturn w w' eq_refl Hr) as (? & ? & e & ? & ?). split; [done|done|]. by exists e.
Qed.

Lemma timedStep_tinv s s' : tinv s -> timedStep srv slack p s s' -> tinv s'.
Proof.
  intros Hi Hs. destruct Hs as [s s' Hs|w w' pc Hs|w pc t Ht Hle Hpr]; [by eapply readStep_tinv| |];
    destruct Hi as [Hw Hn (c & Hc & Hpc)]; cbn in *.
  - destruct (otherStep_unseen _ _ _ _ Hs) as [Ht Hun]. destruct (Hun p c Hc) as (c' & Hc' & [?|Hl] & Hcl); [done|].
    split; cbn; [by eapply otherStep_inv|by rewrite Ht|]. exists c'. split; [done|]. rewrite Ht.
    destruct pc as [s|[d|]|]; cbn in *; unfold seen_by in *; rewrite ?Hl; auto.
  - split; [done|done|]. exists c. split; [done|]. destruct pc as [s|[d|]|]; cbn in *; unfold seen_by in *; [lia|lia|done|done].
Qed.

Lemma timed_tinv s : timed srv slack p s -> tinv s.
Proof.
  induction 1 as [id w w' Hr Hn Hp Hid Ha|s s' _ IH Hs]; [|by eapply timedStep_tinv].
  pose proof (accept_inv cfg id p true w w' (reachable_inv _ _ Hu Hr) Hp Hid Ha) as Hw'.
  unfold accept in Ha. destruct (_ <=? _); [done|]. injection Ha as <-. split; cbn; [done|done|].
  eexists. rewrite lookup_insert_eq. split; [done|]. cbn. split; [by apply seen_now|lia].
Qed.

(** Time passes: the loop never stands in the way of the clock. *)
Lemma can_return_read w pc : tinv (w, pc) ->
  exists w', rtc (timedStep srv slack p) (w, pc) (w', RdReturned) /\ w_now w' = w_now w.
Proof.
  intros Hi. pose proof Hi as [Hw _ (c & Hc & Hpc)]. cbn in *.
  destruct (runOnce_error cfg p w Hw ltac:(by exists c)) as (w' & Hr).
  pose proof (runOnce_clock _ _ _ _ _ _ Hr) as Ht.
  destruct pc as [s|d|].
  - exists w'. split; [|done]. destruct (c_ctxDone c) eqn:Hctx.
    + apply rtc_once, td_read. by eapply rd_done.
    + eapply rtc_l; [apply td_read; by eapply rd_arm|]. apply rtc_once, td_read. by apply rd_error.
  - exists w'. split; [|done]. apply rtc_once, td_read. by apply rd_error.
  - exists w. split; [apply rtc_refl|done].
Qed.
End timed.

(** ** Properties *)

(** C27: A connection that is open has been heard of lately.  With a read timeout, at
    any time of any run, whatever the vehicle, the user and the other goroutines do, it
    was last seen less than the read timeout ago, give or take the second [lastSeen] is
    rounded by and twice what the runtime may be late; a vehicle that stays silent for
    longer finds its connection closed.  The clock is never held up. *)
Theorem silence_closed srv slack p s
    (Hu : user_ok (config_of srv)) (Hsl : 0 <= slack) (Hrt : 0 < s_readTimeout srv)
    (Hs : timed srv slack p s) :
  (exists c, w_heap s.1 !! p = Some c /\
     (c_netClosed c = true \/
      sinceLastSeen c (w_now s.1) < s_readTimeout srv + 2 * slack + 1000000000)) /\
  (forall t, sane t -> nanos (w_now s.1) <= nanos t ->
     exists w pc, rtc (timedStep srv slack p) s (w, pc) /\ w_now w = t).
Proof.
  pose proof (timed_tinv srv slack p Hu Hsl s Hs) as Hi. pose proof Hi as [Hw Hn (c & Hc & Hpc)]. split.
  - exists c. split; [done|]. rewrite since_nanos. unfold pc_ok, seen_by in Hpc.
    destruct s.2 as [r|[d|]|]; [right; lia|right; lia|lia|by left].
  - intros t Ht Hle. destruct s as [w pc]. destruct (can_return_read srv slack p w pc Hi) as (w' & Hr & Hnow).
    exists (set_now w' t), RdReturned. split; [|done]. eapply rtc_r; [exact Hr|]. apply td_clock; [done|by rewrite Hnow|done].
Qed.

(** C29: Where the read timeout is the shorter one, the idle timeout has no effect.  If
    it leaves a second and twice what the runtime may be late, the idle check finds every
    connection of the index seen lately enough: it sends no heartbeat and closes
    nothing.  By default the timeouts are five and ten minutes. *)
Theorem idle_check_shadowed srv slack p s id
    (Hu : user_ok (config_of srv)) (Hsl : 0 <= slack) (Hrt : 0 < s_readTimeout srv)
    (Hidle : s_readTimeout srv + 2 * slack + 1000000000 <= s_idleTimeout srv)
    (Hs : timed srv slack p s) (Hin : w_connections s.1 !! id = Some p) :
  idleProbe (config_of srv) p s.1 = Ok (false, s.1).
Proof.
  pose proof (timed_tinv srv slack p Hu Hsl s Hs) as [Hw _ (c & Hc & Hpc)].
  apply (proj1 (proj2 (proj2 Hw))) in Hin as (d & Hd & _ & Hn). assert (d = c) as -> by congruence.
  unfold idleProbe. rewrite (bindM_ok _ _ _ c s.1) by (unfold conn; by rewrite Hc).
  destruct (decide _); [done|]. erewrite (bindM_ok now) by reflexivity.
  change (cfg_idleTimeout (config_of srv)) with (s_idleTimeout srv). rewrite since_nanos.
  assert ((nanos (w_now s.1) - c_lastSeen c * 1000000000 <=? s_idleTimeout srv) = true) as ->; [|done].
  apply Z.leb_le. unfold pc_ok, seen_by in Hpc. destruct s.2 as [r|[e|]|]; [lia|lia|lia|congruence].
Qed.

(** The default server, one minute of lateness, and a connection that has been silent
    for four minutes. *)
Definition default_server : Options.Server := NewServer [].

Lemma default_user_ok : user_ok (config_of default_server).
Proof. split; [by intros hist p []|]. intros hist p cb w _ _. by destruct cb. Qed.

Definition silent_world : World :=
  set_now (match accept (config_of default_server) [105; 100] 1%positive (initial (Date 2024 1 1 0 0 0 0)) with
           | Ok (_, w) => w
           | _ => initial zeroTime
           end) (Date 2024 1 1 0 4 0 0).

Lemma silent_timed : timed default_server (60 * time_Second) 1
  (silent_world, RdReads (readDeadline default_server (Date 2024 1 1 0 0 0 0))).
Proof.
  eapply td_step; [eapply td_step; [apply (td_start _ _ _ [105; 100] (initial (Date 2024 1 1 0 0 0 0)))|]|].
  - apply reach_start.
  - split; [discriminate|reflexivity].
  - reflexivity.
  - intros q c. change (w_heap (initial (Date 2024 1 1 0 0 0 0))) with (∅ : gmap ptr Connection).
    by rewrite lookup_empty.
  - reflexivity.
  - eapply td_read, rd_arm; [apply lookup_insert_eq|reflexivity].
  - apply td_clock; [split; [discriminate|reflexivity]|discriminate|discriminate].
Qed.

Lemma silence_closed_witness : exists c,
  w_heap silent_world !! 1%positive = Some c /\ c_netClosed c = false /\
  sinceLastSeen c (w_now silent_world) < 421 * time_Second.
Proof.
  destruct (silence_closed default_server (60 * time_Second) 1 _ default_user_ok ltac:(discriminate)
    ltac:(reflexivity) silent_timed) as [(c & Hc & H) _].
  exists c. split; [exact Hc|]. injection Hc as <-. split; [reflexivity|].
  destruct H as [H|H]; [discriminate|exact H].
Defined.

Lemma idle_check_shadowed_witness :
  idleProbe (config_of default_server) 1 silent_world = Ok (false, silent_world).
Proof.
  exact (idle_check_shadowed default_server (60 * time_Second) 1 _ [105; 100] default_user_ok ltac:(discriminate)
    ltac:(reflexivity) ltac:(discriminate) silent_timed eq_refl).
Defined.
