(* ===== verification/Refine.v ===== *)
(** * A connection sees packets, not reads

    The read loop of a connection, on any bytes, refines the abstract one that handles
    the packets the reference decoder finds, read by read, until the connection is found
    closed or a read ends where [Decode] panics ([handleReads]); while the connection is
    open that is all packets of the stream one after another ([handleAll]), however the
    network cut it.  The two agree up to the decoders, which no handler and no user can
    see: [erase] forgets them, [blind] says an operation commutes with forgetting. *)
From stdpp Require Import gmap.
From S2P Require Import Prelude.
From S2P Require Import GoTime.
From S2P Require Import Constant.
From S2P Require Import Packet.
From S2P Require Import Framing.
From S2P Require Import FramingSpec.
From S2P Require Import Stream.
From S2P Require Import Payload.
From S2P Require Import Realtime.
From S2P Require Import Crypto.
From S2P Require Import Registry.
From S2P Require Import World.
From S2P Require Import Connection.
From S2P Require Import Server.
From S2P Require Import Sessions.

(** ** Worlds up to decoders *)

Definition erase_conn (c : Connection) : Connection := with_decoder NewDecoder c.
Definition erase (w : World) : World := set_heap w (erase_conn <$> w_heap w).

Definition same (w1 w2 : World) : Prop := erase w1 = erase w2.

#[export] Instance same_equivalence : Equivalence same.
Proof. split; unfold same; [done | by intros ?? | by intros ??? -> ->]. Qed.

(** The specification: the packets of a connection, in order. *)
Fixpoint handleAll (cfg : Config) (p : ptr) (ps : list Packet) : M unit :=
  match ps with
  | [] => ret tt
  | pkt :: ps => handlePacket cfg p pkt;; handleAll cfg p ps
  end.

(** ** What a stream holds

    The specification of reading, on any bytes: the packets the reference
    decoder finds in a buffer one after another, and how it ends: bytes kept for
    the next read, or the frame without its BCC that makes [Decode] panic. *)
Inductive ending := More (rest : bytes) | Crash.

Inductive parses : bytes -> list Packet -> ending -> Prop :=
  | parses_more l s : scan l = Ok (None, s) -> parses l [] (More s)
  | parses_crash l : scan l = Panic -> parses l [] Crash
  | parses_packet l pkt r ps e :
      scan l = Ok (Some pkt, r) -> parses r ps e -> parses l (pkt :: ps) e.

Fixpoint packets_loop (fuel : nat) (l : bytes) : list Packet * ending :=
  match fuel with
  | O => ([], Crash)
  | S fuel =>
      match scan l with
      | Ok (Some pkt, r) => let '(ps, e) := packets_loop fuel r in (pkt :: ps, e)
      | Ok (None, s) => ([], More s)
      | _ => ([], Crash)
      end
  end.

Definition packets_in (l : bytes) : list Packet * ending := packets_loop (S (length l)) l.

(** The packets of the reads a connection gets, [s] unread before them. *)
Fixpoint stream_of (s : bytes) (reads : list bytes) : list Packet * ending :=
  match reads with
  | [] => ([], More s)
  | r :: reads =>
      match packets_in (s ++ r) with
      | (ps, More s') => let '(qs, e) := stream_of s' reads in (ps ++ qs, e)
      | (ps, Crash) => (ps, Crash)
      end
  end.

(** The specification of the read loop, [s] unread before the reads.  A read on a
    connection that is closed by then, because its login was refused or user code closed
    it, only closes it again and ends the loop, and later reads are not taken; on an open
    one it is noted when the vehicle was seen, the packets are handled, and the read loop
    goes on with what is left, or the process ends. *)
Fixpoint handleReads (cfg : Config) (p : ptr) (s : bytes) (reads : list bytes) : M unit :=
  match reads with
  | [] => ret tt
  | r :: reads =>
      let* c := conn p in
      if c_netClosed c then Connection_Close p else
      let* t := now in
      on_conn p (with_lastSeen (t_unix t));;
      handleAll cfg p (packets_in (s ++ r)).1;;
      match (packets_in (s ++ r)).2 with
      | More s' => handleReads cfg p s' reads
      | Crash => fun _ => Panic
      end
  end.

(** [scan] ends on the bytes it was given, and a packet takes some of them. *)
Lemma scan_shape k : forall l, (length l < k)%nat -> all_bytes l ->
  match scan l with
  | Ok (Some pkt, r) => (length r < length l)%nat /\ all_bytes r
  | Ok (None, s) => all_bytes s
  | Panic => True
  | _ => False
  end.
Proof.
  induction k as [|k IH]; intros l Hk Hb; [lia|]. destruct l as [|a [|b t]]; [constructor..|].
  rewrite !Forall_cons in Hb. destruct Hb as (Ha & Hb & Ht). cbn [length] in Hk.
  destruct (is_marker a b) eqn:Em.
  - unfold is_marker in Em. apply andb_true_iff in Em as [->%Z.eqb_eq ->%Z.eqb_eq].
    rewrite scan_marker. destruct (parse_frame _) as [| | |pkt r] eqn:Ep; [|done|..].
    + by rewrite !Forall_cons.
    + specialize (IH t ltac:(lia) Ht). destruct (scan t) as [[[pkt|] r]| | |]; try done.
      destruct IH. split; [cbn; lia|done].
    + apply parse_frame_sound in Ep as [He Hwf]; [|by rewrite !Forall_cons].
      pose proof (len_packet_frame pkt Hwf). pose proof (len_nonneg (p_Data pkt)).
      assert (all_bytes (packet_frame pkt ++ r)) as Hbr by (rewrite <- He; by rewrite !Forall_cons).
      apply Forall_app in Hbr as [_ ?]. split; [|done].
      pose proof (f_equal length He) as Hl. rewrite length_app in Hl. unfold len in *. lia.
  - assert (scan (a :: b :: t) = scan (b :: t)) as -> by (cbn [scan]; by rewrite Em).
    specialize (IH (b :: t) ltac:(cbn [length]; lia) ltac:(by rewrite Forall_cons)).
    destruct (scan (b :: t)) as [[[pkt|] r]| | |]; try done. destruct IH. split; [cbn [length] in *; lia|done].
Qed.

Lemma packets_loop_parses fuel : forall l, (length l < fuel)%nat -> all_bytes l ->
  parses l (packets_loop fuel l).1 (packets_loop fuel l).2 /\
  match (packets_loop fuel l).2 with More s => all_bytes s | Crash => True end.
Proof.
  induction fuel as [|fuel IH]; intros l Hl Hb; [lia|]. cbn [packets_loop].
  pose proof (scan_shape _ l Hl Hb) as Hs. destruct (scan l) as [[[pkt|] r]| | |] eqn:E; try done.
  - destruct Hs as [Hr Hbr]. specialize (IH r ltac:(lia) Hbr).
    destruct (packets_loop fuel r) as [ps e]. cbn in *. destruct IH. split; [|done]. by eapply parses_packet.
  - split; [|done]. by constructor.
  - split; [|done]. by constructor.
Qed.

Lemma packets_in_parses l :
  all_bytes l -> parses l (packets_in l).1 (packets_in l).2 /\
  match (packets_in l).2 with More s => all_bytes s | Crash => True end.
Proof. apply packets_loop_parses. lia. Qed.

(** Frames and a safe cut hold the frames' packets. *)
Lemma parses_frames ps s :
  Forall packet_wf ps -> safe_cut s -> parses (concat (packet_frame <$> ps) ++ s) ps (More s).
Proof.
  intros Hps Hs. induction Hps as [|pkt ps Hp _ IH]; [by apply parses_more, safe_cut_scan|].
  rewrite fmap_cons, concat_cons, <- app_assoc. eapply parses_packet; [|exact IH].
  by apply packet_frame_scan.
Qed.

Lemma parses_wf l ps e : parses l ps e -> all_bytes l -> Forall packet_wf ps.
Proof.
  induction 1 as [| |l pkt r ps e Hs _ IH]; [constructor..|]. intros Hb. constructor.
  - by destruct (scan_sound _ _ _ Hb Hs) as (sk & _ & ?).
  - apply IH. pose proof (scan_shape _ l (Nat.lt_succ_diag_r _) Hb) as Hsh. rewrite Hs in Hsh. apply Hsh.
Qed.

Lemma parses_length l ps e : parses l ps e -> all_bytes l -> (length ps <= length l)%nat.
Proof.
  induction 1 as [| |l pkt r ps e Hs _ IH]; [cbn; lia..|]. intros Hb.
  pose proof (scan_shape _ l (Nat.lt_succ_diag_r _) Hb) as Hsh. rewrite Hs in Hsh. destruct Hsh as [? Hr].
  specialize (IH Hr). cbn. lia.
Qed.

Lemma stream_of_wf reads : forall s,
  all_bytes s -> Forall (fun r => r <> [] /\ all_bytes r) reads ->
  Forall packet_wf (stream_of s reads).1.
Proof.
  induction reads as [|r reads IH]; intros s Hs Hr; [constructor|]. cbn [stream_of].
  inversion_clear Hr as [|?? [_ Hb] Hr'].
  assert (all_bytes (s ++ r)) as Hsr by by apply Forall_app.
  destruct (packets_in_parses _ Hsr) as [Hps Hrest]. pose proof (parses_wf _ _ _ Hps Hsr) as Hwf.
  destruct (packets_in (s ++ r)) as [ps [s'|]]; cbn [fst snd] in *; [|done].
  specialize (IH s' Hrest Hr'). destruct (stream_of s' reads). by apply Forall_app.
Qed.

Lemma parses_fun l ps e : parses l ps e -> forall ps' e', parses l ps' e' -> ps' = ps /\ e' = e.
Proof.
  induction 1 as [l s Hs|l Hs|l pkt r ps e Hs _ IH]; intros ps' e' H';
    inversion H' as [? ? Hs'|? Hs'|? ? ? ? ? Hs' Hp']; subst; rewrite Hs in Hs'; try done.
  - by injection Hs' as ->.
  - injection Hs' as -> ->. by destruct (IH _ _ Hp') as [-> ->].
Qed.

(** ** Operations that do not look at decoders *)

Definition erased {A} (f : A -> A) (r : outcome (A * World)) : outcome (A * World) :=
  match r with
  | Ok (a, w) => Ok (f a, erase w)
  | Err e => Err e
  | Panic => Panic
  | OutOfFuel => OutOfFuel
  end.

Definition blind {A} (f : A -> A) (m : M A) : Prop := forall w, m (erase w) = erased f (m w).

Lemma blind_ret {A} (a : A) : blind id (ret a).
Proof. done. Qed.

Lemma blind_bind {A B} f g (m : M A) (k : A -> M B) :
  blind f m -> (forall a w, k (f a) w = k a w) -> (forall a, blind g (k a)) -> blind g (bindM m k).
Proof.
  intros Hm Hf Hk w. unfold bindM. rewrite Hm. destruct (m w) as [[a w']| | |]; cbn; [|done..].
  by rewrite Hf, Hk.
Qed.

(** An operation that hands on what it returns. *)
Lemma blind_then {A B} (m : M A) (k : A -> M B) :
  blind id m -> (forall a, blind id (k a)) -> blind id (bindM m k).
Proof. intros Hm Hk. by eapply blind_bind. Qed.

Lemma blind_conn p : blind erase_conn (conn p).
Proof. intros w. unfold conn, erase. cbn. rewrite lookup_fmap. by destruct (w_heap w !! p). Qed.

(** Reading a connection for anything but its decoder. *)
Lemma blind_with_conn {B} p (k : Connection -> M B) :
  (forall c w, k (erase_conn c) w = k c w) -> (forall c, blind id (k c)) ->
  blind id (let* c := conn p in k c).
Proof. intros. eapply blind_bind; [apply blind_conn|done|done]. Qed.

Lemma blind_on_conn p f :
  (forall c, f (erase_conn c) = erase_conn (f c)) -> blind id (on_conn p f).
Proof.
  intros Hf w. unfold on_conn, bindM, conn, put_conn, erase. cbn. rewrite lookup_fmap.
  destruct (w_heap w !! p) as [c|]; cbn; [|done]. unfold erase, set_heap. cbn.
  by rewrite fmap_insert, Hf.
Qed.

Lemma blind_try {A} (m : outcome A) : blind id (try m).
Proof. intros w. unfold try. by destruct m. Qed.

Lemma blind_lift {A} (m : outcome A) : blind id (lift m).
Proof. intros w. unfold lift. by destruct m. Qed.

Lemma blind_if {A} (b : bool) (m1 m2 : M A) :
  blind id m1 -> blind id m2 -> blind id (if b then m1 else m2).
Proof. by destruct b. Qed.

Lemma blind_decide {A} P `{Decision P} (m1 m2 : M A) :
  blind id m1 -> blind id m2 -> blind id (if decide P then m1 else m2).
Proof. by destruct (decide P). Qed.

(** ** Sending, closing, calling the user *)

Lemma blind_netWrite p pkt : blind id (netWrite p pkt).
Proof.
  apply blind_with_conn; [done|]. intros c. apply blind_if; [apply blind_ret|].
  intros w. cbn. by destruct (w_net w) as [|[]].
Qed.

Lemma blind_Send p command data : blind id (Send p command data).
Proof.
  apply blind_with_conn; [done|]. intros c. apply blind_decide; [apply blind_ret|].
  apply blind_then.
  - destruct (c_encryptKey c); [|apply blind_ret]. apply blind_if; [|apply blind_ret].
    apply blind_then; [apply blind_try|]. intros [d|e]; apply blind_ret.
  - intros [[d e]|err]; [|apply blind_ret]. apply blind_then; [apply blind_try|].
    intros [pkt|err]; [apply blind_netWrite | apply blind_ret].
Qed.

Lemma blind_now : blind id now.
Proof. done. Qed.

Lemma blind_unregister p : blind id (unregister p).
Proof.
  apply blind_with_conn; [done|]. intros c. apply blind_then; [done|]. intros _.
  by apply blind_decide.
Qed.

Lemma blind_Close p : blind id (Connection_Close p).
Proof.
  apply blind_with_conn; [done|]. intros c. apply blind_decide; [apply blind_ret|].
  repeat (apply blind_then; [by apply blind_on_conn | intros _]).
  apply blind_then; [|intros _; apply blind_unregister].
  apply blind_with_conn; [done|]. intros d. apply blind_if; [apply blind_ret|].
  apply blind_then; [by apply blind_on_conn | done].
Qed.

Lemma blind_run_api {A} (a : api A) : blind id (run_api a).
Proof.
  destruct a as [q cmd data|q t u pw|q t|q ids|q ps|q|q|vin|id'|]; cbn [run_api]; try done.
  - apply blind_Send.
  - apply blind_then; [apply blind_lift|]. intros data. apply blind_Send.
  - apply blind_Send.
  - apply blind_then; [apply blind_now|]. intros t. apply blind_Send.
  - apply blind_then; [apply blind_now|]. intros t. apply blind_Send.
  - apply blind_Close.
  - by apply blind_with_conn.
Qed.

Lemma blind_run_prog {A} (pr : prog A) : blind id (run_prog pr).
Proof.
  induction pr as [a|B a k IH]; [apply blind_ret|]. cbn [run_prog].
  apply blind_then; [apply blind_run_api | exact IH].
Qed.

(** ** The handlers *)

Section handlers.
Context (cfg : Config) (p : ptr).

Lemma blind_ask cb : blind id (ask cfg p cb).
Proof. apply blind_then; [done|]. intros _ w. apply blind_run_prog. Qed.

Lemma blind_forward msg : blind id (forward cfg msg).
Proof. done. Qed.

Ltac blind_step :=
  first
    [ apply blind_ret | apply blind_now | apply blind_ask | apply blind_try | apply blind_Send
    | apply blind_Close | apply blind_forward | apply blind_if
    | apply blind_on_conn; done
    | apply blind_then
    | progress cbv zeta
    | match goal with |- forall r : _ + _, _ => intros [?|?] end
    | match goal with |- forall r : option _, _ => intros [?|] end
    | match goal with |- forall r : _, _ => intros ? end
    | match goal with |- blind id (match ?r with _ => _ end) => destruct r end
    | done ].

Lemma blind_dispatch pkt : blind id (dispatch cfg p pkt).
Proof.
  unfold dispatch, handleLogin, handleLogout, handleRealtime, handleReissue, handleHeartbeat,
    handleTimeCalibr, handlePlatLogin, handlePlatLogout, handleParamQuery, handleParamQueryResp,
    handleParamSetting, sendLoginResponse, sendParamQueryResponse.
  repeat blind_step.
Qed.

Lemma blind_handlePacket pkt : blind id (handlePacket cfg p pkt).
Proof.
  apply blind_with_conn; [done|]. intros c. destruct (if _ =? _ then _ else _); [|apply blind_dispatch].
  apply blind_then; [apply blind_try|]. intros [d|e]; [apply blind_dispatch | apply blind_ret].
Qed.

Lemma blind_handleAll ps : blind id (handleAll cfg p ps).
Proof.
  induction ps as [|pkt ps IH]; [apply blind_ret|]. cbn [handleAll].
  by apply blind_then; [apply blind_handlePacket|].
Qed.

Lemma blind_handleReads reads : forall s, blind id (handleReads cfg p s reads).
Proof.
  induction reads as [|r reads IH]; intros s; [apply blind_ret|]. cbn [handleReads].
  apply blind_with_conn; [done|]. intros c. apply blind_if; [apply blind_Close|].
  apply blind_then; [apply blind_now|]. intros t.
  apply blind_then; [by apply blind_on_conn|]. intros _.
  apply blind_then; [apply blind_handleAll|]. intros _. by destruct (packets_in (s ++ r)).2.
Qed.
End handlers.

(** What a blind operation does in one of two worlds alike it does in the other. *)
Lemma blind_same {A} (m : M A) w1 w2 a w1' :
  blind id m -> same w1 w2 -> m w1 = Ok (a, w1') -> exists w2', m w2 = Ok (a, w2') /\ same w1' w2'.
Proof.
  intros Hm Hs H1. pose proof (Hm w1) as E1. pose proof (Hm w2) as E2. rewrite Hs in E1.
  rewrite E1, H1 in E2. cbn [erased] in E2.
  destruct (m w2) as [[b w2']| | |]; try done. cbn [erased] in E2.
  apply Ok_inj in E2. unfold id in E2. apply pair_equal_spec in E2 as [<- He]. by exists w2'.
Qed.

(** And it ends the same way in both. *)
Lemma blind_ends {A} (m : M A) w1 w2 : blind id m -> same w1 w2 -> erased id (m w1) = erased id (m w2).
Proof. intros Hm Hs. rewrite <- !Hm. by rewrite Hs. Qed.

(** ** The read loop *)

Lemma bindM_done {A B} (m : M A) (k : A -> M B) w b w' :
  bindM m k w = Ok (b, w') -> exists a w1, m w = Ok (a, w1) /\ k a w1 = Ok (b, w').
Proof. unfold bindM. destruct (m w) as [[a w1]| | |]; [|done..]. cbn. eauto. Qed.

Lemma handleAll_app cfg p ps qs w w1 :
  handleAll cfg p ps w = Ok (tt, w1) -> handleAll cfg p (ps ++ qs) w = handleAll cfg p qs w1.
Proof.
  revert w. induction ps as [|pkt ps IH]; intros w H.
  - by injection H as ->.
  - apply bindM_done in H as (a & w2 & H1 & H2). cbn [app handleAll].
    rewrite (bindM_ok _ _ _ _ _ H1). by apply IH.
Qed.

(** Handling never fails, and keeps what [extends] says. *)
Lemma handleAll_calm cfg p ps :
  user_ok cfg -> Forall packet_wf ps -> calm False p (handleAll cfg p ps) (fun _ => True).
Proof.
  intros Hu. induction 1 as [|pkt ps Hp Hps IH]; [by apply calm_ret|]. cbn [handleAll].
  destruct Hp as (Hv & _ & _ & _ & _ & Hvb & _ & Hd).
  eapply calm_bind; [by apply calm_handlePacket|]. by intros _ _.
Qed.

Lemma calm_done {A} p (m : M A) P w :
  calm False p m P -> inv w -> is_Some (w_heap w !! p) ->
  exists a w', m w = Ok (a, w') /\ P a /\ inv w' /\ extends w w'.
Proof.
  intros Hm Hw Hp. specialize (Hm w Hw (or_intror Hp)).
  destruct (m w) as [[a w']| | |]; try done. exists a, w'. by destruct Hm as (? & ? & ?).
Qed.

(** A decoder is forgotten. *)
Lemma same_decoder w p c d :
  w_heap w !! p = Some c -> same (set_heap w (<[p := with_decoder d c]> (w_heap w))) w.
Proof.
  intros Hc. unfold same, erase. cbn. f_equal. rewrite fmap_insert.
  change (erase_conn (with_decoder d c)) with (erase_conn c). rewrite <- fmap_insert.
  by rewrite insert_id.
Qed.

(** Worlds alike have the same clock and the same connections, decoders apart. *)
Lemma same_conn w1 w2 p c2 :
  same w1 w2 -> w_heap w2 !! p = Some c2 ->
  exists c1, w_heap w1 !! p = Some c1 /\ erase_conn c1 = erase_conn c2.
Proof.
  intros Hs Hc. assert (w_heap (erase w1) !! p = Some (erase_conn c2)) as H.
  { rewrite Hs. cbn. by rewrite lookup_fmap, Hc. }
  cbn in H. rewrite lookup_fmap in H. destruct (w_heap w1 !! p) as [c1|]; [|done].
  exists c1. split; [done|]. by apply (inj Some).
Qed.

Lemma same_now w1 w2 : same w1 w2 -> w_now w1 = w_now w2.
Proof. intros Hs. exact (f_equal w_now Hs). Qed.

Definition open_in (w : World) (p : ptr) : Prop :=
  exists c, w_heap w !! p = Some c /\ c_netClosed c = false.

Lemma same_open w1 w2 p : same w1 w2 -> open_in w2 p -> open_in w1 p.
Proof.
  intros Hs (c2 & Hc & Hn). destruct (same_conn w1 w2 p c2 Hs Hc) as (c1 & Hc1 & He).
  exists c1. split; [done|]. by rewrite <- Hn, (f_equal c_netClosed He : c_netClosed c1 = c_netClosed c2).
Qed.

(** What is open at the end was open before. *)
Lemma extends_open w w' p : extends w w' -> is_Some (w_heap w !! p) -> open_in w' p -> open_in w p.
Proof.
  intros [_ He] [c Hc] (c' & Hc' & Hn). exists c. split; [done|].
  destruct (He p c Hc) as (d & Hd & _ & _ & _ & Hm). destruct (c_netClosed c); [|done].
  assert (d = c') as -> by congruence. by rewrite Hm in Hn.
Qed.

Section loop.
Context (cfg : Config) (Huser : user_ok cfg) (p : ptr).

(** The connection [p] of a good world, with the bytes its decoder has not
    read. *)
Definition holds (w : World) (s : bytes) : Prop :=
  inv w /\ exists c, w_heap w !! p = Some c /\ unread (c_decoder c) = s.

Lemma holds_decoder w c d :
  inv w -> w_heap w !! p = Some c -> decoder_wf d ->
  holds (set_heap w (<[p := with_decoder d c]> (w_heap w))) (unread d).
Proof.
  intros Hw Hc Hd. split; [by apply with_decoder_inv|]. exists (with_decoder d c).
  split; [apply lookup_insert_eq | done].
Qed.

Lemma unread_bytes w c : inv w -> w_heap w !! p = Some c -> all_bytes (unread (c_decoder c)).
Proof. intros Hw Hc. apply Forall_drop, (proj1 (proj1 Hw p c Hc)). Qed.

(** The packet loop handles the packets of the buffer, in order, and stops at
    what is left or panics. *)
Lemma processPackets_handles ps : forall fuel w l e,
  holds w l -> parses l ps e -> (length ps < fuel)%nat ->
  exists w', handleAll cfg p ps w = Ok (tt, w') /\
    match e with
    | More s => exists w1, processPackets_loop cfg fuel p w = Ok (tt, w1) /\ same w1 w' /\ holds w1 s
    | Crash => processPackets_loop cfg fuel p w = Panic
    end.
Proof.
  induction ps as [|pkt ps IH]; intros fuel w l e [Hw (c & Hc & Hu)] Hl Hf;
    (destruct fuel as [|fuel]; [lia|]); cbn [processPackets_loop];
    rewrite !(bindM_ok (conn p) _ _ c w) by (unfold conn; by rewrite Hc);
    pose proof (proj1 Hw p c Hc) as (Hwf & _).
  - exists w. split; [done|]. inversion Hl as [? s Hs|? Hs|]; subst.
    + destruct (Decode_scan _ None s Hwf Hs) as (d & HD & Hd & Hdwf & _).
      rewrite (bindM_ok _ _ _ (None, d) w) by (unfold lift; by rewrite HD).
      rewrite (bindM_ok _ _ _ _ _ (on_conn_eq _ _ _ _ Hc)).
      eexists. split; [done|]. split; [by apply same_decoder|]. rewrite <- Hd. by apply holds_decoder.
    + unfold bindM, lift. by rewrite (Decode_panic _ Hwf Hs).
  - inversion Hl as [| |? ? r ? ? Hs Hr]; subst.
    destruct (Decode_scan _ (Some pkt) r Hwf Hs) as (d & HD & Hd & Hdwf & _).
    rewrite !(bindM_ok (lift _) _ _ (Some pkt, d) w) by (unfold lift; by rewrite HD).
    rewrite !(bindM_ok _ _ _ _ _ (on_conn_eq _ _ _ _ Hc)).
    destruct (holds_decoder w c d Hw Hc Hdwf) as [Hwa (ca & Hca & Hua)].
    set (wa := set_heap w _) in *.
    assert (all_bytes (unread (c_decoder c))) as Hub by apply Forall_drop, Hwf.
    destruct (scan_sound _ _ _ Hub Hs) as (sk & _ & Hv & _ & _ & _ & _ & Hvb & _ & Hdata).
    destruct (calm_done p (handlePacket cfg p pkt) _ wa (calm_handlePacket cfg p pkt Huser Hdata Hv Hvb) Hwa)
      as ([] & wb & Hh & _ & Hwb & [_ Hext]); [by exists ca|].
    destruct (Hext p ca Hca) as (cb & Hcb & _ & Hdb & _).
    destruct (IH fuel wb r e) as (w'' & Hall & Hloop); [|done|cbn in Hf; lia|].
    { split; [done|]. exists cb. rewrite Hdb, Hua. by rewrite Hd. }
    destruct (blind_same _ _ _ _ _ (blind_handlePacket cfg p pkt) (same_decoder w p c d Hc) Hh)
      as (wb' & Hh' & Hsb).
    destruct (blind_same _ _ _ _ _ (blind_handleAll cfg p ps) Hsb Hall) as (w' & Hall' & Hs').
    exists w'. split; [cbn [handleAll]; by rewrite (bindM_ok _ _ _ _ _ Hh')|].
    rewrite (bindM_ok _ _ _ _ _ Hh). destruct e as [s|]; [|done].
    destruct Hloop as (w1 & ? & ? & ?). exists w1. split_and!; [done|by etrans|done].
Qed.

(** The connection [p] has just been seen. *)
Definition seen (c : Connection) (w : World) : World :=
  set_heap w (<[p := with_lastSeen (t_unix (w_now w)) c]> (w_heap w)).

Lemma seen_inv w c : inv w -> w_heap w !! p = Some c -> inv (seen c w).
Proof.
  intros Hw Hc. apply (on_conn_inv p w c); [done..| | |]; try done.
  destruct (proj1 Hw p c Hc) as (? & ? & ? & ? & ? & ?). unfold conn_ok. by cbn.
Qed.

Lemma seen_id w c :
  w_heap w !! p = Some c -> c_lastSeen c = t_unix (w_now w) -> seen c w = w.
Proof.
  intros Hc Hl. unfold seen. rewrite <- Hl.
  assert (with_lastSeen (c_lastSeen c) c = c) as -> by (by destruct c).
  rewrite insert_id by done. by destruct w.
Qed.

(** One read of whatever bytes. *)
Lemma runOnce_handles w c r ps e :
  inv w -> w_heap w !! p = Some c -> c_netClosed c = false ->
  all_bytes r -> r <> [] -> parses (unread (c_decoder c) ++ r) ps e ->
  exists w', handleAll cfg p ps (seen c w) = Ok (tt, w') /\
    match e with
    | More s => exists w1, runOnce cfg p (ReadBytes r) w = Ok (true, w1) /\ same w1 w' /\ holds w1 s
    | Crash => runOnce cfg p (ReadBytes r) w = Panic
    end.
Proof.
  intros Hw Hc Hopen Hr Hne Hps. pose proof (proj1 Hw p c Hc) as (Hwf & _ & Hctx & _).
  unfold runOnce. rewrite !(bindM_ok (conn p) _ _ c w) by (unfold conn; by rewrite Hc).
  rewrite Hctx, Hopen. destruct (Z.ltb_spec 0 (len r)); [|destruct r; [done|unfold len in *; cbn in *; lia]].
  rewrite !(bindM_ok now _ _ (w_now w) w) by done. rewrite !(bindM_ok _ _ _ _ _ (on_conn_eq _ _ _ _ Hc)).
  fold (seen c w). set (c1 := with_lastSeen (t_unix (w_now w)) c).
  assert (w_heap (seen c w) !! p = Some c1) as Hc1 by apply lookup_insert_eq.
  rewrite !(bindM_ok (conn p) _ _ c1 (seen c w)) by (unfold conn; by rewrite Hc1).
  destruct (Feed_refines (c_decoder c) r Hwf Hr) as (d & HF & Hd & _ & Hud).
  rewrite !(bindM_ok (lift _) _ _ d (seen c w)) by (unfold lift; cbn; by rewrite HF).
  rewrite !(bindM_ok _ _ _ _ _ (on_conn_eq _ _ _ _ Hc1)).
  pose proof (holds_decoder _ _ d (seen_inv w c Hw Hc) Hc1 Hd) as Hh. rewrite Hud in Hh.
  set (wd := set_heap (seen c w) _) in *. destruct Hh as [Hwd (cd & Hcd & Hcu)].
  set (fuel := S (Z.to_nat (d_limit (c_decoder cd) - d_pos (c_decoder cd)))).
  assert (decoder_wf (c_decoder cd)) as Hcdwf by (by apply (proj1 Hwd p cd)).
  destruct (processPackets_handles ps fuel wd (unread (c_decoder c) ++ r) e) as (wa & Hall & Hloop);
    [by split; [|exists cd] | exact Hps | |].
  { assert (all_bytes (unread (c_decoder c) ++ r)) as Hb by (rewrite <- Hcu; apply Forall_drop, Hcdwf).
    pose proof (parses_length _ _ _ Hps Hb). unfold fuel. rewrite <- len_unread, Hcu by done. unfold len. lia. }
  destruct (blind_same _ _ _ _ _ (blind_handleAll cfg p ps) (same_decoder _ p c1 d Hc1) Hall)
    as (w' & Hall' & Hs').
  exists w'. split; [done|].
  assert (processPackets cfg p wd = processPackets_loop cfg fuel p wd) as Hpp
    by (unfold processPackets; by rewrite (bindM_ok _ _ _ cd wd) by (unfold conn; by rewrite Hcd)).
  destruct e as [s|]; unfold bindM at 1; rewrite Hpp; [|by rewrite Hloop].
  destruct Hloop as (w1 & -> & ? & ?). exists w1. split_and!; [done|by etrans|done].
Qed.

(** All reads. *)
Lemma run_handles reads : Forall (fun r => r <> [] /\ all_bytes r) reads ->
  forall w c w', inv w -> w_heap w !! p = Some c -> c_lastSeen c = t_unix (w_now w) ->
  handleAll cfg p (stream_of (unread (c_decoder c)) reads).1 w = Ok (tt, w') -> open_in w' p ->
  match (stream_of (unread (c_decoder c)) reads).2 with
  | More _ => exists w1, run cfg p (ReadBytes <$> reads) w = Ok (tt, w1) /\ same w1 w'
  | Crash => run cfg p (ReadBytes <$> reads) w = Panic
  end.
Proof.
  induction 1 as [|r reads [Hne Hr] Hreads IH]; intros w c w' Hw Hc Hl.
  { intros [= <-] _. by exists w. }
  cbn [stream_of]. pose proof (unread_bytes w c Hw Hc) as Hub.
  assert (all_bytes (unread (c_decoder c) ++ r)) as Hb by by apply Forall_app.
  destruct (packets_in_parses _ Hb) as [Hps Hrest].
  destruct (packets_in (unread (c_decoder c) ++ r)) as [ps e]. cbn [fst snd] in *.
  destruct (calm_done p _ _ w (handleAll_calm cfg p ps Huser (parses_wf _ _ _ Hps Hb)) Hw (mk_is_Some _ _ Hc))
    as ([] & wm & Hm & _ & Hwm & Hext). destruct (proj2 Hext p c Hc) as (cm & Hcm & _ & _ & Hlm & _).
  assert (open_in wm p -> exists w', handleAll cfg p ps w = Ok (tt, w') /\
    match e with
    | More s => exists w1, runOnce cfg p (ReadBytes r) w = Ok (true, w1) /\ same w1 w' /\ holds w1 s
    | Crash => runOnce cfg p (ReadBytes r) w = Panic
    end) as Honce.
  { intros Hom. destruct (extends_open _ _ _ Hext (mk_is_Some _ _ Hc) Hom) as (c0 & Hc0 & Hn).
    assert (c0 = c) as -> by congruence.
    pose proof (runOnce_handles w c r ps e Hw Hc Hn Hr Hne Hps) as Hx. by rewrite seen_id in Hx. }
  destruct e as [s'|]; cbn [fst snd].
  2: { intros Hall Hopen. assert (wm = w') as -> by congruence. destruct (Honce Hopen) as (w2 & _ & Hp).
    cbn [fmap list_fmap run]. unfold bindM. by rewrite Hp. }
  pose proof (stream_of_wf reads s' Hrest Hreads) as Hqs.
  specialize (fun w c w' => IH w c w'). destruct (stream_of s' reads) as [qs e] eqn:Es. cbn [fst snd] in *.
  rewrite (handleAll_app _ _ _ _ _ _ Hm). intros Hall Hopen.
  assert (open_in wm p) as Hom.
  { destruct (calm_done p _ _ wm (handleAll_calm cfg p qs Huser Hqs) Hwm (mk_is_Some _ _ Hcm))
      as ([] & w'' & Hq & _ & _ & Hext').
    assert (w'' = w') as -> by congruence. by eapply extends_open; [exact Hext'| |]. }
  destruct (Honce Hom) as (wm' & Hm' & w1 & Hrun & Hsame & Hw1 & c1 & Hc1 & Hu1).
  assert (wm' = wm) as -> by congruence.
  destruct (same_conn w1 wm p cm Hsame Hcm) as (c1' & Hc1' & He).
  assert (c1' = c1) as -> by congruence.
  assert (same wm w1) as Hsym by (by symmetry).
  destruct (blind_same _ _ _ _ _ (blind_handleAll cfg p qs) Hsym Hall) as (w1' & Hall' & Hs').
  pose proof (IH w1 c1 w1' Hw1 Hc1) as IH'. rewrite Hu1, Es in IH'. cbn [fst snd] in IH'.
  rewrite (f_equal c_lastSeen He : c_lastSeen c1 = c_lastSeen cm), (same_now _ _ Hsame) in IH'.
  specialize (IH' ltac:(by rewrite Hlm, (proj1 Hext)) Hall' ltac:(by eapply same_open; [symmetry|])).
  cbn [fmap list_fmap run]. unfold bindM. rewrite Hrun. cbn [bind]. destruct e as [s2|]; [|done].
  destruct IH' as (w2 & ? & ?). exists w2. split; [done|by etrans].
Qed.

(** All reads, on whatever connection. *)
Lemma run_refines reads : Forall (fun r => r <> [] /\ all_bytes r) reads ->
  forall w c, inv w -> w_heap w !! p = Some c ->
  match handleReads cfg p (unread (c_decoder c)) reads w with
  | Ok (_, w') => exists w1, run cfg p (ReadBytes <$> reads) w = Ok (tt, w1) /\ same w1 w'
  | Panic => run cfg p (ReadBytes <$> reads) w = Panic
  | _ => False
  end.
Proof.
  induction 1 as [|r reads [Hne Hr] _ IH]; intros w c Hw Hc; [by exists w|]. cbn [handleReads fmap list_fmap run].
  rewrite (bindM_ok (conn p) _ _ c w) by (unfold conn; by rewrite Hc).
  pose proof (proj1 Hw p c Hc) as Hok. pose proof Hok as (_ & _ & Hctx & _).
  destruct (c_netClosed c) eqn:Hn.
  { pose proof (Connection_Close_eq p w c Hc Hok) as Hcl. rewrite Hcl.
    set (w' := if decide _ then _ else _) in *.
    assert (runOnce cfg p (ReadBytes r) w = Ok (false, w')) as Hone.
    { unfold runOnce. rewrite (bindM_ok (conn p) _ _ c w) by (unfold conn; by rewrite Hc).
      rewrite Hctx. by rewrite (bindM_ok _ _ _ _ _ Hcl). }
    rewrite (bindM_ok _ _ _ _ _ Hone). by exists w'. }
  rewrite (bindM_ok now _ _ (w_now w) w) by done. rewrite (bindM_ok _ _ _ _ _ (on_conn_eq _ _ _ _ Hc)). fold (seen c w).
  assert (all_bytes (unread (c_decoder c) ++ r)) as Hb by (apply Forall_app; split; [by eapply unread_bytes|done]).
  destruct (runOnce_handles w c r _ _ Hw Hc Hn Hr Hne (proj1 (packets_in_parses _ Hb))) as (w' & Hall & Hone).
  rewrite (bindM_ok _ _ _ _ _ Hall). destruct (packets_in (unread (c_decoder c) ++ r)).2 as [s|].
  - destruct Hone as (w1 & Hone & Hs & Hw1 & c1 & Hc1 & Hu). rewrite (bindM_ok _ _ _ _ _ Hone).
    specialize (IH w1 c1 Hw1 Hc1). rewrite Hu in IH.
    pose proof (blind_ends _ _ _ (blind_handleReads cfg p reads s) Hs) as He.
    destruct (handleReads cfg p s reads w1) as [[[] wa]| | |], (handleReads cfg p s reads w') as [[[] wb]| | |];
      cbn [erased] in He; try done; try exact IH.
    destruct IH as (w2 & Hrun & Hs2). exists w2. split; [done|]. etrans; [exact Hs2|].
    apply Ok_inj in He. by apply pair_equal_spec in He as [_ He].
  - unfold bindM. by rewrite Hone.
Qed.
End loop.

(** Being seen twice at one time is being seen once. *)
Lemma runOnce_seen cfg p w c r :
  w_heap w !! p = Some c -> c_ctxDone c = false -> 0 < len r ->
  runOnce cfg p (ReadBytes r) (seen p c w) = runOnce cfg p (ReadBytes r) w.
Proof.
  intros Hc Hctx Hr. unfold runOnce. set (c1 := with_lastSeen (t_unix (w_now w)) c).
  assert (w_heap (seen p c w) !! p = Some c1) as Hc1 by apply lookup_insert_eq.
  rewrite (bindM_ok _ _ _ c1 (seen p c w)) by (unfold conn; by rewrite Hc1).
  rewrite (bindM_ok _ _ _ c w) by (unfold conn; by rewrite Hc).
  cbn [c_ctxDone c1 with_lastSeen]. rewrite Hctx. destruct (Z.ltb_spec 0 (len r)); [|lia].
  rewrite (bindM_ok now _ _ (w_now w) (seen p c w)) by done. rewrite (bindM_ok now _ _ (w_now w) w) by done.
  rewrite (bindM_ok _ _ _ _ _ (on_conn_eq _ _ _ _ Hc)), (bindM_ok _ _ _ _ _ (on_conn_eq _ _ _ _ Hc1)).
  unfold seen. cbn [w_heap set_heap]. by rewrite insert_insert_eq.
Qed.

Lemma reads_of_bytes s ps reads : reads_of s ps reads -> Forall all_bytes reads.
Proof. induction 1; by constructor. Qed.

(** The reads of [reads_of] are a stream of their packets with nothing left. *)
Lemma stream_of_reads s ps reads :
  reads_of s ps reads -> all_bytes s -> stream_of s reads = (ps, More []).
Proof.
  induction 1 as [|s r ps s' qs reads Heq Hs Hps Hr Hreads IH]; intros Hb; [done|]. cbn [stream_of].
  assert (all_bytes (s ++ r)) as Hsr by by apply Forall_app.
  destruct (packets_in_parses _ Hsr) as [Hp Hrest]. pose proof (parses_frames ps s' Hps Hs) as Hp'.
  rewrite <- Heq in Hp'. destruct (parses_fun _ _ _ Hp _ _ Hp') as [E1 E2].
  destruct (packets_in (s ++ r)) as [ps1 e1]. cbn [fst snd] in *. subst. by rewrite IH.
Qed.

(** A stream of reads, against its packets handled in order. *)
Lemma run_stream cfg p reads w c :
  user_ok cfg -> inv w -> w_heap w !! p = Some c ->
  Forall (fun r => r <> [] /\ all_bytes r) reads -> reads <> [] ->
  exists w', handleAll cfg p (stream_of (unread (c_decoder c)) reads).1 (seen p c w) = Ok (tt, w') /\
    (open_in w' p ->
     match (stream_of (unread (c_decoder c)) reads).2 with
     | More _ => exists w1, run cfg p (ReadBytes <$> reads) w = Ok (tt, w1) /\ same w1 w'
     | Crash => run cfg p (ReadBytes <$> reads) w = Panic
     end).
Proof.
  intros Hu Hw Hc Hr Hne. set (c1 := with_lastSeen (t_unix (w_now w)) c).
  assert (w_heap (seen p c w) !! p = Some c1) as Hc1 by apply lookup_insert_eq.
  pose proof (seen_inv p w c Hw Hc) as Hw1. pose proof (unread_bytes p w c Hw Hc) as Hub.
  destruct (calm_done p _ _ _ (handleAll_calm cfg p _ Hu (stream_of_wf reads _ Hub Hr)) Hw1
    (mk_is_Some _ _ Hc1)) as ([] & w' & Hall & _ & _ & Hext).
  exists w'. split; [done|]. intros Hopen.
  pose proof (run_handles cfg Hu p reads Hr (seen p c w) c1 w' Hw1 Hc1 eq_refl Hall Hopen) as Hrun.
  change (c_decoder c1) with (c_decoder c) in Hrun.
  assert (run cfg p (ReadBytes <$> reads) (seen p c w) = run cfg p (ReadBytes <$> reads) w) as He;
    [|by rewrite He in Hrun].
  destruct reads as [|r reads]; [done|]. inversion_clear Hr as [|?? [Hr0 _] _].
  cbn [fmap list_fmap run]. unfold bindM at 1 2. rewrite runOnce_seen; [done|done| |].
  - destruct (extends_open _ _ _ Hext (mk_is_Some _ _ Hc1) Hopen) as (d & Hdh & Hn).
    assert (d = c1) as -> by congruence.
    destruct (proj1 Hw p c Hc) as (_ & _ & Hctx & _). by rewrite Hctx.
  - destruct r; [done|]. unfold len. cbn. lia.
Qed.

(** ** Properties *)

(** C2: The read loop refines its specification on {e any} bytes, cut wherever, on any
    connection: it ends as [handleReads] ends, in the same world up to decoders (the same
    writes, calls, forwarded messages, registry, index and connections), and panics, which
    ends the process, exactly when [handleReads] does: when a read taken while the
    connection is open ends behind a complete body, in front of its BCC ([Crash]); it never
    fails otherwise.  If handling all packets of the stream, which never fails, leaves the
    connection open, then these packets, in order, are what [handleReads] and the read loop
    handle, whatever the cuts. *)
Theorem reads_refine_stream cfg p reads w c
    (Hu : user_ok cfg) (Hw : inv w) (Hc : w_heap w !! p = Some c)
    (Hr : Forall (fun r => r <> [] /\ all_bytes r) reads) :
  match handleReads cfg p (unread (c_decoder c)) reads w with
  | Ok (_, w') => exists w1, run cfg p (ReadBytes <$> reads) w = Ok (tt, w1) /\ same w1 w'
  | Panic => run cfg p (ReadBytes <$> reads) w = Panic
  | _ => False
  end /\
  (reads <> [] ->
   exists w', handleAll cfg p (stream_of (unread (c_decoder c)) reads).1 (seen p c w) = Ok (tt, w') /\
    (open_in w' p ->
     match (stream_of (unread (c_decoder c)) reads).2 with
     | More _ => exists w1, run cfg p (ReadBytes <$> reads) w = Ok (tt, w1) /\ same w1 w'
     | Crash => run cfg p (ReadBytes <$> reads) w = Panic
     end)).
Proof.
  split; [exact (run_refines cfg Hu p reads Hr w c Hw Hc)|]. intros Hne.
  exact (run_stream cfg p reads w c Hu Hw Hc Hr Hne).
Qed.

(** A login, and a heartbeat but for its BCC behind some noise. *)
Lemma reads_refine_stream_witness :
  run sample_config 1%positive (ReadBytes <$> [packet_frame (login_packet vinA); 7 :: take 25 (packet_frame sample_packet)])
    sample_world = Panic.
Proof.
  set (reads := [packet_frame (login_packet vinA); 7 :: take 25 (packet_frame sample_packet)]).
  pose (c := newConnection sample_config [105; 100] (Date 2024 1 1 0 0 0 0)).
  destruct (reads_refine_stream sample_config 1%positive reads sample_world c sample_user_ok
    (reachable_inv _ _ sample_user_ok sample_reachable) eq_refl) as [Hruns _].
  - repeat constructor; try (vm_compute; discriminate); check_bytes.
  - assert (handleReads sample_config 1%positive (unread (c_decoder c)) reads sample_world = Panic) as He
      by (vm_compute; reflexivity).
    rewrite He in Hruns. exact Hruns.
Defined.

(** The connection refines the specification that handles the packets of its
    stream one by one: whatever the reads, as long as they end at frame ends or
    safe places, and whatever the user does, if handling the packets in order
    leaves the connection open then reading leaves the same world: the same
    frames written, calls made, messages forwarded, registry, index and
    connections, decoders apart.  Handling the packets never fails. *)
Theorem reads_refine_packets cfg p reads ps w c
    (Hu : user_ok cfg) (Hw : inv w) (Hc : w_heap w !! p = Some c) (Hd : unread (c_decoder c) = [])
    (Hr : reads_of [] ps reads) (Hne : Forall (fun r => r <> []) reads) (Hps : ps <> []) :
  exists w', handleAll cfg p ps (seen p c w) = Ok (tt, w') /\
    (open_in w' p ->
     exists w1, run cfg p (ReadBytes <$> reads) w = Ok (tt, w1) /\ same w1 w').
Proof.
  pose proof (stream_of_reads _ _ _ Hr (Forall_nil_2 _)) as Hs. rewrite <- Hd in Hs.
  destruct (run_stream cfg p reads w c Hu Hw Hc) as (w' & Hrun); [|by intros ->; inversion Hr; subst|].
  - apply Forall_and. split; [done|]. by eapply reads_of_bytes.
  - rewrite Hs in Hrun. by exists w'.
Qed.

(** A login and a heartbeat in three reads, the heartbeat cut in two. *)
Lemma reads_refine_packets_witness :
  let f := packet_frame sample_packet in
  let login := login_packet vinA in
  exists w' w1,
    handleAll sample_config 1%positive [login; sample_packet] (seen 1%positive
      (newConnection sample_config [105; 100] (Date 2024 1 1 0 0 0 0)) sample_world) = Ok (tt, w') /\
    run sample_config 1%positive (ReadBytes <$> [packet_frame login; take 10 f; drop 10 f]) sample_world =
      Ok (tt, w1) /\ same w1 w' /\ length (w_trace w1) = 6%nat.
Proof.
  cbv zeta. set (f := packet_frame sample_packet). set (login := login_packet vinA).
  pose proof (reachable_inv _ _ sample_user_ok sample_reachable) as Hw.
  assert (packet_wf login) as Hlogin
    by (unfold packet_wf; split_and!; try done; try check_bytes; unfold is_uint16, is_byte; cbn; lia).
  destruct (reads_refine_packets sample_config 1%positive [packet_frame login; take 10 f; drop 10 f]
    [login; sample_packet] sample_world
    (newConnection sample_config [105; 100] (Date 2024 1 1 0 0 0 0))
    sample_user_ok Hw eq_refl eq_refl) as (w' & Hall & Hrun); [|repeat constructor; vm_compute; discriminate|done|].
  - apply (reads_step [] _ [login] [] [sample_packet]).
    + vm_compute. reflexivity.
    + by left.
    + by constructor.
    + check_bytes.
    + apply (reads_step _ _ [] (take 10 f) [sample_packet]).
      * vm_compute. reflexivity.
      * right. exists sample_packet, (drop 10 f). split; [apply sample_packet_wf|].
        vm_compute. split; [reflexivity|split; discriminate].
      * constructor.
      * check_bytes.
      * apply (reads_step _ _ [sample_packet] [] []).
        -- vm_compute. reflexivity.
        -- by left.
        -- constructor; [apply sample_packet_wf | constructor].
        -- check_bytes.
        -- constructor.
  - assert (w' = match handleAll sample_config 1%positive [login; sample_packet] (seen 1%positive
      (newConnection sample_config [105; 100] (Date 2024 1 1 0 0 0 0)) sample_world) with
      | Ok (_, w) => w | _ => sample_world end) as He by (by rewrite Hall).
    destruct Hrun as (w1 & H1 & H2); [rewrite He; eexists; split; vm_compute; reflexivity|].
    exists w', w1. split; [exact Hall|]. split; [exact H1|]. split; [exact H2|].
    rewrite (f_equal w_trace H2 : w_trace w1 = w_trace w'), He. vm_compute. reflexivity.
Defined.
