(* ===== verification/Telemetry.v ===== *)
(** * From the vehicle to the user

    The whole way of a vehicle's trip through the server: login, the session key taken
    from the token of the answer, reports in the protocol's layout, encrypted or not,
    and the logout, as frames in a byte stream the network cuts as it likes.  The
    handler is called with messages that carry what the vehicle laid out, alarms apart, in
    order, and so is every forwarder ([trip_delivered]).  Framing, encryption, the
    bodies, the read loop and the handlers come together here. *)
From stdpp Require Import gmap.
From S2P Require Import Prelude.
From S2P Require Import GoTime.
From S2P Require Import Constant.
From S2P Require Import Packet.
From S2P Require Import Codec.
From S2P Require Import CodecWire.
From S2P Require Import Framing.
From S2P Require Import FramingSpec.
From S2P Require Import Stream.
From S2P Require Import Payload.
From S2P Require Import Realtime.
From S2P Require Import Aes.
From S2P Require Import Crypto.
From S2P Require Import Registry.
From S2P Require Import World.
From S2P Require Import Connection.
From S2P Require Import Server.
From S2P Require Import Sessions.
From S2P Require Import Traffic.
From S2P Require Import Refine.

(** ** The vehicle *)

(** What a vehicle reports: a time and its fields, or such reports of earlier. *)
Inductive report :=
  | Realtime (t : Time) (vs : list FieldValue)
  | Reissue (t : Time) (its : list item).

Definition report_body (r : report) : bytes :=
  match r with
  | Realtime t vs => enc_message t vs
  | Reissue t its => encodeTime6 t ++ put16 (len its) ++ concat (enc_item <$> its)
  end.

Definition report_command (r : report) : byte :=
  match r with Realtime _ _ => CmdRealtime | Reissue _ _ => CmdReissue end.

Definition report_ok (r : report) : Prop :=
  len (report_body r) + 16 < 65536 /\
  match r with
  | Realtime t vs => 2000 <= Year t < 2160 /\ Forall plain_field vs
  | Reissue t its => 2000 <= Year t < 2160 /\ Forall item_ok its
  end.

(** A packet of the vehicle, under its session key if it has one. *)
Definition vehicle_packet (key : option bytes) (vin : gostring) (command : byte) (body : bytes) : Packet :=
  match key with
  | Some k =>
      let data := match EncryptAES128 body k with Ok data => data | _ => [] end in
      mkPacket command ReqRequest vin EncAES128 data (len data)
  | None => mkPacket command ReqRequest vin EncNone body (len body)
  end.

Record trip := mkTrip {
  tr_vin : gostring;
  tr_login : bytes;
  tr_reports : list report;
  tr_logout : Time * uint16
}.

Definition logout_body (tp : trip) : bytes := encodeTime6 (tr_logout tp).1 ++ put16 (tr_logout tp).2.

(** The packets of a trip: the login is never encrypted. *)
Definition trip_packets (tp : trip) (key : option bytes) : list Packet :=
  vehicle_packet None (tr_vin tp) CmdLogin (tr_login tp) ::
  ((fun r => vehicle_packet key (tr_vin tp) (report_command r) (report_body r)) <$> tr_reports tp) ++
  [vehicle_packet key (tr_vin tp) CmdLogout (logout_body tp)].

Record trip_ok (tp : trip) : Prop := {
  tp_vin : len (tr_vin tp) = VINLength;
  tp_vin_bytes : all_bytes (tr_vin tp);
  tp_login : all_bytes (tr_login tp) /\ len (tr_login tp) < 65536;
  tp_reports : Forall report_ok (tr_reports tp);
  tp_logout : 2000 <= Year (tr_logout tp).1 < 2160 /\ is_uint16 (tr_logout tp).2
}.

(** ** What the user gets *)

(** A message the handler is given for a report. *)
Inductive telemetry := TRealtime (m : RealtimeMessage) | TReissue (m : ReissueMessage).

(** It has the time and the fields of the report ([carries], [reissued]). *)
Definition describes (r : report) (m : telemetry) : Prop :=
  match r, m with
  | Realtime t vs, TRealtime m => carries t vs m
  | Reissue t its, TReissue m => reissued t its m
  | _, _ => False
  end.

Definition report_call (m : telemetry) : callback :=
  match m with TRealtime m => OnRealtimeData m | TReissue m => OnReissueData m end.

Definition report_forward (vin : gostring) (m : telemetry) : ForwardMsg :=
  match m with
  | TRealtime m => newForwardMsg "realtime" vin (FwdRealtime m)
  | TReissue m => newForwardMsg "reissue" vin (FwdReissue m)
  end.

Definition logout_data (tp : trip) : VehicleLogoutData :=
  mkVehicleLogoutData (wall_utc (tr_logout tp).1) (tr_logout tp).2.

(** A call of the handler, then one of each forwarder, first to last. *)
Definition delivered_to (cfg : Config) (p : ptr) (cb : callback) (msg : ForwardMsg) : list event :=
  EvCallback p cb :: ((fun k => EvForward k msg) <$> seq 0 (cfg_forwarders cfg)).

(** The events of a trip in the order they happen: the authentication, the login with its
    answer, the reports with the messages [ms], the logout. *)
Definition trip_events (cfg : Config) (p : ptr) (tp : trip) (ms : list telemetry) (d : VehicleLoginData)
    (resp : LoginResponse) : list event :=
  (if cfg_auth cfg then [EvCallback p (OnAuthenticate (tr_vin tp))] else []) ++
  [EvCallback p (OnVehicleLogin d);
   EvWrite p (frame CmdLogin RespSuccess (tr_vin tp) EncNone (EncodeLoginResponse (stamped d resp)))] ++
  ((fun k => EvForward k (newForwardMsg "login" (tr_vin tp) (FwdLogin d))) <$> seq 0 (cfg_forwarders cfg)) ++
  concat ((fun m => delivered_to cfg p (report_call m) (report_forward (tr_vin tp) m)) <$> ms) ++
  delivered_to cfg p (OnVehicleLogout (logout_data tp)) (newForwardMsg "logout" (tr_vin tp) (FwdLogout (logout_data tp))).

Definition key_of (resp : LoginResponse) : option bytes :=
  if 0 <? len (lr_Token resp) then Some (DeriveAESKey (lr_Token resp)) else None.

(** ** Lemmas *)

Lemma report_body_bytes r : report_ok r -> all_bytes (report_body r).
Proof.
  intros [_ H]. destruct r as [t vs|t its]; destruct H as [Ht Hv]; cbn [report_body]; [by apply enc_message_bytes|].
  apply Forall_app_2; [apply encodeBCDTime_bytes|]. apply Forall_app_2; [apply put16_bytes|].
  eapply concat_bytes; [|exact Hv]. intros i [_ Hi]. exact (enc_message_bytes i.1 i.2 Hi).
Qed.

Lemma report_decodes r : report_ok r -> exists m, describes r m /\
  forall vin, report_of (report_command r) vin (report_body r) = Some (Ok (report_call m, report_forward vin m)).
Proof.
  intros [Hl H]. destruct r as [t vs|t its]; destruct H as [Ht Hv].
  - eexists (TRealtime _). split; [by apply carries_fields|]. intros vin. unfold report_of.
    cbn -[DecodeRealtimeData DecodeReissueData enc_message fold_left].
    rewrite <- (app_nil_r (enc_message t vs)). by rewrite DecodeRealtimeData_enc.
  - eexists (TReissue _). split; [by apply reissued_items|]. intros vin. unfold report_of.
    cbn -[DecodeRealtimeData DecodeReissueData enc_message fold_left].
    rewrite <- (app_nil_r (concat (enc_item <$> its))). rewrite DecodeReissueData_enc; try done.
    cbn [report_body] in Hl. rewrite !len_app in Hl. revert Hl. unfold encodeTime6. rewrite len_encodeBCDTime, len_put16.
    intros Hl. assert (6 * len its <= len (concat (enc_item <$> its))) as Hn; [|pose proof (len_nonneg its); lia].
    clear. induction its as [|i its IH]; [done|]. cbn [fmap list_fmap concat]. rewrite len_cons, len_app.
    pose proof (len_enc_message i.1 i.2). unfold enc_item at 1. lia.
Qed.

(** The messages of the reports of a trip. *)
Lemma reports_decode rs : Forall report_ok rs -> exists ms, Forall2 describes rs ms /\
  Forall2 (fun r m => forall vin, report_of (report_command r) vin (report_body r) =
    Some (Ok (report_call m, report_forward vin m))) rs ms.
Proof.
  induction 1 as [|r rs Hr _ (ms & H1 & H2)]; [by exists []|].
  destruct (report_decodes r Hr) as (m & Hm & Hd). exists (m :: ms). by split; constructor.
Qed.

Lemma logout_decodes tp vin : 2000 <= Year (tr_logout tp).1 < 2160 -> is_uint16 (tr_logout tp).2 ->
  report_of CmdLogout vin (logout_body tp) =
    Some (Ok (OnVehicleLogout (logout_data tp), newForwardMsg "logout" vin (FwdLogout (logout_data tp)))).
Proof.
  intros Ht Hs. unfold report_of, logout_body, logout_data. cbn -[DecodeLogoutData].
  rewrite <- (app_nil_r (put16 _)). by rewrite DecodeLogoutData_enc.
Qed.

(** The server opens what the vehicle sealed under the same key. *)
Lemma vehicle_packet_opened c key vin command body :
  c_encryptKey c = key -> (forall k, key = Some k -> is_block k) -> all_bytes body ->
  opened c (vehicle_packet key vin command body) = Ok body.
Proof.
  intros Hc Hk Hb. unfold opened, vehicle_packet. destruct key as [k|]; cbn -[EncryptAES128 DecryptAES128].
  - rewrite Hc. destruct (Hk k eq_refl) as [Hl Hkb].
    destruct (encrypt_decrypt body k Hb Hkb ltac:(unfold len; lia)) as (x & -> & _ & _ & Hd). exact Hd.
  - done.
Qed.

Lemma vehicle_packet_wf key vin command body :
  (forall k, key = Some k -> is_block k) -> len vin = VINLength -> all_bytes vin -> is_byte command ->
  all_bytes body -> len body + (if key is Some _ then 16 else 0) < 65536 ->
  packet_wf (vehicle_packet key vin command body).
Proof.
  intros Hk Hv Hvb Hc Hb Hl. unfold vehicle_packet. pose proof (len_nonneg body). destruct key as [k|].
  - destruct (Hk k eq_refl) as [Hkl Hkb].
    destruct (encrypt_decrypt body k Hb Hkb ltac:(unfold len; lia)) as (x & -> & Hx & Hxb & _).
    assert (16 * (len body / 16) <= len body) by (apply Z.mul_div_le; lia). pose proof (len_nonneg x).
    unfold packet_wf, is_uint16, is_byte in *. cbn. unfold ReqRequest, EncAES128. split_and!; try done; lia.
  - unfold packet_wf, is_uint16, is_byte in *. cbn. unfold ReqRequest, EncNone. split_and!; try done; lia.
Qed.

Section trip.
Context (cfg : Config) (p : ptr) (Hh : cfg_handler cfg = true).

Lemma rev_delivered cb msg : rev (delivered_to cfg p cb msg) = forward_events cfg msg ++ told cfg p cb.
Proof. unfold delivered_to, told. by rewrite Hh. Qed.

(** A packet that is a report. *)
Lemma handle_report w c key vin command body cb msg a :
  w_heap w !! p = Some c -> c_encryptKey c = key -> (forall k, key = Some k -> is_block k) -> all_bytes body ->
  report_of command vin body = Some (Ok (cb, msg)) -> answers cfg cb a ->
  handlePacket cfg p (vehicle_packet key vin command body) w =
    Ok (tt, set_trace (if command =? CmdLogout then set_heap w (<[p := with_key None c]> (w_heap w)) else w)
              (rev (delivered_to cfg p cb msg) ++ w_trace w)).
Proof.
  intros Hc Hk Hb Hbody Hr Ha. rewrite (handlePacket_opened _ _ _ _ c Hc), (vehicle_packet_opened c key vin command body Hk Hb Hbody).
  assert (p_Command (vehicle_packet key vin command body) = command) as Ec by (by destruct key).
  assert (p_VIN (vehicle_packet key vin command body) = vin) as Ev by (by destruct key).
  rewrite (report_decoded cfg p _ w c body cb msg a Hc); [|by rewrite Ec, Ev|done].
  cbv zeta. by rewrite Ec, rev_delivered, <- app_assoc.
Qed.

Definition reports_delivered (vin : gostring) (ms : list telemetry) : list event :=
  concat ((fun m => delivered_to cfg p (report_call m) (report_forward vin m)) <$> ms).

Lemma handle_reports key vin rs ms :
  Forall2 (fun r m => forall vin, report_of (report_command r) vin (report_body r) =
    Some (Ok (report_call m, report_forward vin m))) rs ms ->
  Forall report_ok rs -> Forall (fun m => exists a, answers cfg (report_call m) a) ms ->
  forall w c, w_heap w !! p = Some c -> c_encryptKey c = key -> (forall k, key = Some k -> is_block k) ->
  handleAll cfg p ((fun r => vehicle_packet key vin (report_command r) (report_body r)) <$> rs) w =
    Ok (tt, set_trace w (rev (reports_delivered vin ms) ++ w_trace w)).
Proof.
  induction 1 as [|r m rs ms Hrm _ IH]; intros Hok Ha w c Hc Hk Hb; [by destruct w|].
  inversion_clear Hok as [|? ? Hr Hok']. inversion_clear Ha as [|? ? [a Har] Ha']. cbn [fmap list_fmap handleAll].
  rewrite (bindM_ok _ _ _ _ _ (handle_report w c key vin _ _ _ _ a Hc Hk Hb (report_body_bytes r Hr) (Hrm vin) Har)).
  assert ((report_command r =? CmdLogout) = false) as -> by (by destruct r).
  rewrite (IH Hok' Ha' _ c) by done. unfold reports_delivered.
  cbn [fmap list_fmap concat]. by rewrite rev_app_distr, <- app_assoc.
Qed.

(** A whole trip, packet by packet. *)
Lemma handle_trip w c tp ms d resp :
  w_heap w !! p = Some c -> conn_ok c -> c_netClosed c = false -> c_encryptKey c = None -> w_net w = [] ->
  trip_ok tp -> DecodeLoginData (tr_login tp) = Ok d ->
  (cfg_auth cfg = true -> answers cfg (OnAuthenticate (tr_vin tp)) (inl true)) ->
  answers cfg (OnVehicleLogin d) (inl (Some resp)) -> all_bytes (lr_Token resp) ->
  Forall2 (fun r m => forall vin, report_of (report_command r) vin (report_body r) =
    Some (Ok (report_call m, report_forward vin m))) (tr_reports tp) ms ->
  Forall (fun m => exists a, answers cfg (report_call m) a) ms ->
  (exists a, answers cfg (OnVehicleLogout (logout_data tp)) a) ->
  handleAll cfg p (trip_packets tp (key_of resp)) w =
    Ok (tt, mkWorld (<[p := with_key None (logged_in (vehicle_packet None (tr_vin tp) CmdLogin (tr_login tp)) c d resp)]> (w_heap w))
              (w_connections w) (w_connCount w) (add (w_vinRegistry w) (tr_vin tp) p) (w_stopped w) (w_now w) (w_net w)
              (rev (trip_events cfg p tp ms d resp) ++ w_trace w)).
Proof.
  intros Hc Hok Hopen Hkey Hnet [Hv Hvb [Hl Hll] Hr [Ht Hs]] Hd Hauth Hlogin Htok Hms Ha [a Ho].
  unfold trip_packets. cbn [handleAll]. set (login := vehicle_packet None _ _ _).
  assert (forall k, key_of resp = Some k -> is_block k) as Hk.
  { unfold key_of. destruct (_ <? _); [|done]. intros k [= <-]. by apply DeriveAESKey_block. }
  erewrite (bindM_ok (handlePacket cfg p login)).
  2:{ rewrite (handlePacket_plain _ _ _ _ c), dispatch_login by done.
      exact (handleLogin_accepted cfg p login w c Hc Hok d resp Hopen Hkey Hnet Hv Hauth Hh Hd Hlogin). }
  set (w1 := mkWorld _ _ _ _ _ _ _ _).
  assert (w_heap w1 !! p = Some (logged_in login c d resp)) as Hc1 by apply lookup_insert_eq.
  assert (c_encryptKey (logged_in login c d resp) = key_of resp) as Hk1.
  { unfold logged_in, key_of. cbn. rewrite Hkey. by destruct (_ <? _). }
  rewrite (handleAll_app _ _ _ _ _ _ (handle_reports _ (tr_vin tp) _ _ Hms Hr Ha w1 _ Hc1 Hk1 Hk)).
  cbn [handleAll]. erewrite bindM_ok.
  2:{ eapply (handle_report _ _ (key_of resp) (tr_vin tp) CmdLogout (logout_body tp)); [exact Hc1|done|done| |by apply logout_decodes|exact Ho].
      apply Forall_app_2; [apply encodeBCDTime_bytes|apply put16_bytes]. }
  unfold ret. cbn [Z.eqb CmdLogout]. f_equal. f_equal. cbn [set_trace set_heap w1 w_heap w_connections w_connCount
    w_vinRegistry w_stopped w_now w_net w_trace]. rewrite insert_insert_eq.
  f_equal. unfold trip_events. rewrite !rev_app_distr. fold (reports_delivered (tr_vin tp) ms).
  rewrite <- !app_assoc. do 3 f_equal. cbn. unfold auth_events. by destruct (cfg_auth cfg).
Qed.
End trip.

Lemma trip_packets_wf tp resp : trip_ok tp -> all_bytes (lr_Token resp) ->
  Forall packet_wf (trip_packets tp (key_of resp)).
Proof.
  intros [Hv Hvb [Hl Hll] Hr [Ht Hs]] Htok.
  assert (forall k, key_of resp = Some k -> is_block k) as Hk.
  { unfold key_of. destruct (_ <? _); [|done]. intros k [= <-]. by apply DeriveAESKey_block. }
  assert (forall command body, is_byte command -> all_bytes body -> len body + 16 < 65536 ->
    packet_wf (vehicle_packet (key_of resp) (tr_vin tp) command body)) as Hwf.
  { intros. apply vehicle_packet_wf; try done. destruct (key_of resp); lia. }
  apply Forall_cons_2; [|apply Forall_app_2; [|apply Forall_singleton]].
  - apply vehicle_packet_wf; try done. lia.
  - apply Forall_fmap. eapply Forall_impl; [exact Hr|]. intros r Hok.
    apply Hwf; [by destruct r|by apply report_body_bytes|apply Hok].
  - apply Hwf; [done| |].
    + apply Forall_app_2; [apply encodeBCDTime_bytes|apply put16_bytes].
    + unfold logout_body, encodeTime6. rewrite len_app, len_encodeBCDTime, len_put16. lia.
Qed.

(** A whole trip, read by read. *)
Lemma trip_run cfg p w c tp d resp reads
    (Hu : user_ok cfg) (Hw : inv w) (Hc : w_heap w !! p = Some c) (Hopen : c_netClosed c = false)
    (Hkey : c_encryptKey c = None) (Hdec : unread (c_decoder c) = []) (Hnet : w_net w = [])
    (Hh : cfg_handler cfg = true) (Htp : trip_ok tp) (Hd : DecodeLoginData (tr_login tp) = Ok d)
    (Hauth : cfg_auth cfg = true -> answers cfg (OnAuthenticate (tr_vin tp)) (inl true))
    (Hlogin : answers cfg (OnVehicleLogin d) (inl (Some resp))) (Htok : all_bytes (lr_Token resp))
    (Hreports : forall r m, r ∈ tr_reports tp -> describes r m -> exists a, answers cfg (report_call m) a)
    (Hlogout : exists a, answers cfg (OnVehicleLogout (logout_data tp)) a)
    (Hr : reads_of [] (trip_packets tp (key_of resp)) reads) (Hne : Forall (fun r => r <> []) reads) :
  exists ms w1, Forall2 describes (tr_reports tp) ms /\
    run cfg p (ReadBytes <$> reads) w = Ok (tt, w1) /\
    same w1 (mkWorld (<[p := with_key None (logged_in (vehicle_packet None (tr_vin tp) CmdLogin (tr_login tp))
                                  (with_lastSeen (t_unix (w_now w)) c) d resp)]> (w_heap w))
              (w_connections w) (w_connCount w) (add (w_vinRegistry w) (tr_vin tp) p) (w_stopped w) (w_now w) (w_net w)
              (rev (trip_events cfg p tp ms d resp) ++ w_trace w)).
Proof.
  pose proof (seen_inv p w c Hw Hc) as Hws. set (c0 := with_lastSeen (t_unix (w_now w)) c).
  assert (w_heap (seen p c w) !! p = Some c0) as Hc0 by apply lookup_insert_eq.
  destruct (reports_decode _ (tp_reports tp Htp)) as (ms & Hdesc & Hms).
  assert (Forall (fun m => exists a, answers cfg (report_call m) a) ms) as Ha.
  { apply Forall_forall. intros m Hm. apply list_elem_of_lookup in Hm as [i Hi].
    destruct (Forall2_lookup_r _ _ _ _ _ Hdesc Hi) as (r & Hri & Hrm).
    apply (Hreports r m); [by eapply list_elem_of_lookup_2|done]. }
  pose proof (handle_trip cfg p Hh (seen p c w) c0 tp ms d resp Hc0 (proj1 Hws p c0 Hc0) Hopen Hkey Hnet Htp Hd Hauth
    Hlogin Htok Hms Ha Hlogout) as Hall.
  pose proof (stream_of_reads _ _ _ Hr (Forall_nil_2 _)) as Hs. rewrite <- Hdec in Hs.
  destruct (run_stream cfg p reads w c Hu Hw Hc) as (w' & Hall' & Hrun).
  { apply Forall_and. split; [done|]. by eapply reads_of_bytes. }
  { intros ->. by inversion Hr. }
  rewrite Hs in Hall', Hrun. cbn [fst snd] in Hall', Hrun. rewrite Hall in Hall'. injection Hall' as <-.
  destruct Hrun as (w1 & Hrun & Hsame).
  { eexists. split; [apply lookup_insert_eq|exact Hopen]. }
  exists ms, w1. split; [exact Hdesc|]. split; [exact Hrun|].
  unfold seen in Hsame. cbn [set_heap w_heap w_connections w_connCount w_vinRegistry w_stopped w_now w_net w_trace] in Hsame.
  rewrite insert_insert_eq in Hsame. exact Hsame.
Qed.

(** ** Properties *)

(** C3: From the vehicle to the user.  On a connection that is open and has not logged
    in yet, let the vehicle send a login, any reports in the protocol's layout without
    alarms, and a logout, encrypted under the key of the token in the login's answer if
    there is one, and let the network cut the frames at any safe places and take the
    answer.  Then, with user code that accepts the login and otherwise only looks at
    connections, the read loop reads it all, and what happens is, in
    this order: the authentication, the login with one answer, for each report one call of
    the handler with a message that carries the report's times and fields under their
    names ([describes]: a temperature field, for which a message has no place, is lost) and
    the same message once to each forwarder, and so for the logout.  The session is over,
    the vehicle is registered; the other connections (what their decoders hold apart), the
    index and the count of connections are as they were. *)
Theorem trip_delivered cfg p w c tp d resp reads
    (Hu : user_ok cfg) (Hw : inv w) (Hc : w_heap w !! p = Some c) (Hopen : c_netClosed c = false)
    (Hkey : c_encryptKey c = None) (Hdec : unread (c_decoder c) = []) (Hnet : w_net w = [])
    (Hh : cfg_handler cfg = true) (Htp : trip_ok tp) (Hd : DecodeLoginData (tr_login tp) = Ok d)
    (Hauth : cfg_auth cfg = true -> answers cfg (OnAuthenticate (tr_vin tp)) (inl true))
    (Hlogin : answers cfg (OnVehicleLogin d) (inl (Some resp))) (Htok : all_bytes (lr_Token resp))
    (Hreports : forall r m, r ∈ tr_reports tp -> describes r m -> exists a, answers cfg (report_call m) a)
    (Hlogout : exists a, answers cfg (OnVehicleLogout (logout_data tp)) a)
    (Hr : reads_of [] (trip_packets tp (key_of resp)) reads) (Hne : Forall (fun r => r <> []) reads) :
  exists ms w1, Forall2 describes (tr_reports tp) ms /\
    run cfg p (ReadBytes <$> reads) w = Ok (tt, w1) /\
    rev (w_trace w1) = rev (w_trace w) ++ trip_events cfg p tp ms d resp /\
    (exists c1, w_heap w1 !! p = Some c1 /\ c_state c1 = ConnLoggedIn /\ c_vin c1 = tr_vin tp /\
       c_iccid c1 = vl_ICCID d /\ c_encryptKey c1 = None /\ c_netClosed c1 = false) /\
    (forall q, q <> p -> erase_conn <$> w_heap w1 !! q = erase_conn <$> w_heap w !! q) /\
    w_vinRegistry w1 = add (w_vinRegistry w) (tr_vin tp) p /\
    w_connections w1 = w_connections w /\ w_connCount w1 = w_connCount w.
Proof.
  destruct (trip_run cfg p w c tp d resp reads) as (ms & w1 & Hms & Hrun & Hsame); try assumption.
  exists ms, w1. split; [exact Hms|]. split; [exact Hrun|]. split_and!.
  - rewrite (f_equal w_trace Hsame : w_trace w1 = rev (trip_events cfg p tp ms d resp) ++ w_trace w).
    by rewrite rev_app_distr, rev_involutive.
  - destruct (same_conn _ _ p _ Hsame (lookup_insert_eq _ _ _)) as (c1 & Hc1 & He). exists c1. split; [exact Hc1|].
    pose proof (f_equal c_state He). pose proof (f_equal c_vin He). pose proof (f_equal c_iccid He).
    pose proof (f_equal c_encryptKey He). pose proof (f_equal c_netClosed He). cbn in *. split_and!; congruence.
  - intros q Hq. pose proof (f_equal (fun w => w_heap w !! q) Hsame) as He. cbn in He.
    rewrite !lookup_fmap in He. rewrite He. cbn. by rewrite !lookup_insert_ne.
  - exact (f_equal w_vinRegistry Hsame).
  - exact (f_equal w_connections Hsame).
  - exact (f_equal w_connCount Hsame).
Qed.

(** A realtime message and a reissue of one, with a token. *)
Definition sample_trip : trip :=
  mkTrip vinA (enc_login (Date 2024 1 1 0 0 0 0) 1 [49; 50] [])
    [Realtime sample_time sample_fields; Reissue sample_time [(Date 2024 5 17 8 29 0 0, sample_fields)]]
    (Date 2024 5 17 9 0 0 0, 2).

Definition sample_login : VehicleLoginData := mkVehicleLoginData (Date 2024 1 1 0 0 0 0) 1 [49; 50] 0 [].
Definition sample_answer : LoginResponse := mkLoginResponse zeroTime 1 LoginSuccess [5; 5].

Lemma sample_trip_ok : trip_ok sample_trip.
Proof.
  split; [reflexivity|check_bytes|split; [check_bytes|vm_compute; reflexivity]| |split; [vm_compute; by split|by split]].
  pose proof sample_time_year. repeat constructor; cbn -[sample_time sample_fields Year Date] in *;
    try exact sample_fields_ok; try (vm_compute; reflexivity); try (vm_compute; discriminate); lia.
Qed.

Lemma trip_delivered_witness :
  exists m2 w1,
    run sample_config 1%positive
      (ReadBytes <$> (packet_frame <$> trip_packets sample_trip (key_of sample_answer))) sample_world = Ok (tt, w1) /\
    carries (Date 2024 5 17 8 29 0 0) sample_fields m2 /\
    rev (w_trace w1) = rev (w_trace sample_world) ++ trip_events sample_config 1%positive sample_trip
      [TRealtime sample_message; TReissue (mkReissueMessage sample_time [m2])] sample_login sample_answer.
Proof.
  pose proof (trip_packets_wf sample_trip sample_answer sample_trip_ok ltac:(check_bytes)) as Hwf.
  destruct (trip_delivered sample_config 1%positive sample_world (newConnection sample_config [105; 100] (Date 2024 1 1 0 0 0 0))
    sample_trip sample_login sample_answer (packet_frame <$> trip_packets sample_trip (key_of sample_answer)))
    as (ms & w1 & Hms & Hrun & Htrace & _).
  - apply sample_user_ok.
  - apply (reachable_inv _ _ sample_user_ok sample_reachable).
  - reflexivity.
  - reflexivity.
  - reflexivity.
  - reflexivity.
  - reflexivity.
  - reflexivity.
  - apply sample_trip_ok.
  - vm_compute. reflexivity.
  - intros _ hist p w _. reflexivity.
  - intros hist p w _. reflexivity.
  - check_bytes.
  - intros r [m|m] _ _; exists (inl tt); intros hist p w _; reflexivity.
  - exists (inl tt). intros hist p w _. reflexivity.
  - by apply reads_of_frames.
  - apply Forall_fmap, Forall_true. intros pkt. by destruct pkt.
  - inversion Hms as [|? m1 ? ms1 H1 Hms1]; subst. inversion Hms1 as [|? m ? ms2 H2 Hms2]; subst.
    inversion Hms2; subst. destruct m1 as [m1|]; [|destruct H1]. destruct m as [|[t items]]; [destruct H2|].
    destruct H2 as [Ht Hi]. cbn [ri_InfoTime ri_DataItems] in Ht, Hi.
    inversion Hi as [|? m2 ? its Hm2 Hits]; subst. inversion Hits; subst.
    exists m2, w1. split; [exact Hrun|]. split; [exact Hm2|].
    rewrite <- (carries_unique _ _ _ _ H1 sample_carried). exact Htrace.
Defined.
