(* ===== verification/Simclient.v ===== *)
(** * The simulated vehicle ([cmd/simclient/main.go])

    The frames the simulator builds, what the server's decoders read in them, and the
    program that sends them over a network that can fail ([sim_main_writes]). *)
From S2P Require Import Prelude.
From S2P Require Import GoTime.
From S2P Require Import Constant.
From S2P Require Import Packet.
From S2P Require Import Codec.
From S2P Require Import CodecWire.
From S2P Require Import Framing.
From S2P Require Import FramingSpec.
From S2P Require Import Stream.
From S2P Require Import Realtime.

(** ** Building frames *)

Definition to_uint32 (z : int) : uint32 := z mod 4294967296.

(** [for i := i; i < i+n; i++ { bcc ^= pkt[i] }] *)
Fixpoint bccLoop (n : nat) (pkt : bytes) (i : int) (bcc : byte) : outcome byte :=
  match n with
  | O => Ok bcc
  | S n => let! b := index pkt i in bccLoop n pkt (i + 1) (Z.lxor bcc b)
  end.

Definition buildPacket (command : byte) (vin : gostring) (data : bytes) : outcome bytes :=
  let vinPadded := replicate (Z.to_nat VINLength) 0x20 in
  let vinPadded := copy vinPadded vin in
  let totalLen := HeaderSize + len data + 1 in
  let! pkt := make totalLen in
  let pos := 0 in
  let! pkt := store pkt pos StartMarker1 in
  let pos := pos + 1 in
  let! pkt := store pkt pos StartMarker2 in
  let pos := pos + 1 in
  let! pkt := store pkt pos command in
  let pos := pos + 1 in
  let! pkt := store pkt pos 0x01 in
  let pos := pos + 1 in
  let! pkt := copy_into pkt pos (pos + VINLength) vinPadded in
  let pos := pos + VINLength in
  let! pkt := store pkt pos EncNone in
  let pos := pos + 1 in
  let! pkt := copy_into pkt pos (pos + 2) (put16 (to_uint16 (len data))) in
  let pos := pos + 2 in
  let! pkt := copy_into pkt pos (pos + len data) data in
  let pos := pos + len data in
  let! bcc := bccLoop (Z.to_nat (pos - 2)) pkt 2 0 in
  store pkt pos bcc.

Definition buildRealtimeData (seq : int) : outcome bytes :=
  let data := [] ++ [0x26; 0x05; 0x0E; 0x0E; 0x30; to_byte (seq * 10)] in
  let data := data ++ [FieldVehicle] in
  let! v := make 20 in
  let! v := store v 0 0x01 in
  let! v := store v 1 0x01 in
  let! v := store v 2 0x01 in
  let! v := copy_into v 3 5 (put16 (to_uint16 (400 + seq * 50))) in
  let! v := copy_into v 5 9 (put32 (to_uint32 (123450 + seq * 100))) in
  let! v := copy_into v 9 11 (put16 (to_uint16 (380 + seq))) in
  let! v := copy_into v 11 13 (put16 (to_uint16 (200 + seq * 10))) in
  let! v := store v 13 (to_byte (80 + seq)) in
  let! v := store v 14 0x01 in
  let! v := store v 15 0x03 in
  let! v := copy_into v 16 18 (put16 9999) in
  let data := data ++ v in
  let data := data ++ [FieldPosition] in
  let! p := make 8 in
  let! p := copy_into p 0 4 (put32 (to_uint32 (121473708 + to_uint32 (seq * 1000)))) in
  let! p := copy_into p 4 8 (put32 (to_uint32 (31235538 + to_uint32 (seq * 500)))) in
  let data := data ++ p in
  let data := data ++ [FieldExtreme] in
  let! e := make 10 in
  let! e := copy_into e 0 2 (put16 (to_uint16 (4100 + to_uint16 (seq * 10)))) in
  let! e := store e 2 0x05 in
  let! e := copy_into e 3 5 (put16 3700) in
  let! e := store e 5 0x10 in
  let! e := store e 6 (to_byte (40 + seq)) in
  let! e := store e 7 0x03 in
  let! e := store e 8 15 in
  let! e := store e 9 0x1F in
  Ok (data ++ e).

(** ** The session *)

(** [SIMUVIN1234567890] *)
Definition sim_vin : gostring := [83; 73; 77; 85; 86; 73; 78; 49; 50; 51; 52; 53; 54; 55; 56; 57; 48].

Definition loginData : bytes :=
  [0x26; 0x05; 0x0E; 0x0E; 0x30; 0x00;
   0x00; 0x01;
   0x10;
   83; 73; 77; 67; 65; 82; 68; 48; 48; 48; 48; 48; 48; 48; 48; 49;
   0x00].

Definition logoutData : bytes := [0x26; 0x05; 0x0E; 0x0E; 0x35; 0x00; 0x00; 0x03].

(** [for i := i; i < i+n; i++] of the realtime messages. *)
Fixpoint realtimePackets (n : nat) (i : int) : outcome (list bytes) :=
  match n with
  | O => Ok []
  | S n =>
      let! realtimeData := buildRealtimeData i in
      let! pkt := buildPacket CmdRealtime sim_vin realtimeData in
      let! pkts := realtimePackets n (i + 1) in
      Ok (pkt :: pkts)
  end.

(** What [main] writes over a network that works. *)
Definition session : outcome (list bytes) :=
  let! login := buildPacket CmdLogin sim_vin loginData in
  let! realtime := realtimePackets 3 1 in
  let! heartbeat := buildPacket CmdHeartbeat sim_vin [] in
  let! logout := buildPacket CmdLogout sim_vin logoutData in
  Ok ([login] ++ realtime ++ [heartbeat; heartbeat] ++ [logout]).

(** ** The program *)

(** What [main] logs, but for its banners: the label of a packet and its bytes, or that
    it was not sent; the answers by their length, a login's with two bytes of it. *)
Inductive simLog :=
  | ConnectFailed
  | PacketSent (label : string) (seq : int) (n : int)
  | SendFailed (label : string) (seq : int)
  | LoginResp (n : int) (cmd resp : byte)
  | HeartbeatResp (n : int).

(** The network: whether dialling works, whether the [k]-th write does, and the bytes
    the [k]-th read gets (none when it fails). *)
Record tbox := mkTbox { tb_dials : bool; tb_writes : nat -> bool; tb_reads : nat -> bytes }.

Section main.
Context (net : tbox).

(** The frame if it was sent, and the line. *)
Definition sendPacket (k : nat) (command : byte) (vin : gostring) (data : bytes) (label : string) (seq : int)
  : outcome (list bytes * simLog) :=
  let! pkt := buildPacket command vin data in
  if tb_writes net k then Ok ([pkt], PacketSent label seq (len pkt)) else Ok ([], SendFailed label seq).

(** [conn.Read(buf)]: as many bytes as the buffer holds, in front of what it held. *)
Definition readInto (k : nat) (buf : bytes) : int * bytes :=
  (Z.min (len (tb_reads net k)) (len buf), copy buf (tb_reads net k)).

Definition loginLog (n : int) (buf : bytes) : outcome (list simLog) :=
  if 0 <? n then
    let! b2 := index buf 2 in
    let! b3 := index buf 3 in
    Ok [LoginResp n b2 b3]
  else Ok [].

(** [for i := i; i < i+n; i++], the first write the [k]-th. *)
Fixpoint sendRealtimes (n : nat) (k : nat) (i : int) : outcome (list bytes * list simLog) :=
  match n with
  | O => Ok ([], [])
  | S n =>
      let! realtimeData := buildRealtimeData i in
      let! '(pkts, l) := sendPacket k CmdRealtime sim_vin realtimeData "REALTIME" i in
      let! '(pkts', ls) := sendRealtimes n (S k) (i + 1) in
      Ok (pkts ++ pkts', l :: ls)
  end.

(** The heartbeats, with the [r]-th read behind the first of them. *)
Fixpoint sendHeartbeats (n : nat) (k r : nat) (i : int) (buf : bytes) : outcome (list bytes * list simLog) :=
  match n with
  | O => Ok ([], [])
  | S n =>
      let! '(pkts, l) := sendPacket k CmdHeartbeat sim_vin [] "HEARTBEAT" i in
      let '(got, buf) := readInto r buf in
      let! '(pkts', ls) := sendHeartbeats n (S k) (S r) (i + 1) buf in
      Ok (pkts ++ pkts', l :: (if 0 <? got then [HeartbeatResp got] else []) ++ ls)
  end.

(** The frames that were sent and the log. *)
Definition main : outcome (list bytes * list simLog) :=
  if negb (tb_dials net) then Ok ([], [ConnectFailed]) else
  let! '(login, l1) := sendPacket 0 CmdLogin sim_vin loginData "LOGIN" 0 in
  let! buf := make 1024 in
  let '(n, buf) := readInto 0 buf in
  let! l2 := loginLog n buf in
  let! '(realtime, l3) := sendRealtimes 3 1 1 in
  let! '(heartbeat, l4) := sendHeartbeats 2 4 1 1 buf in
  let! '(logout, l5) := sendPacket 6 CmdLogout sim_vin logoutData "LOGOUT" 0 in
  Ok (login ++ realtime ++ heartbeat ++ logout, (l1 :: l2) ++ l3 ++ l4 ++ [l5]).
End main.

(** ** Lemmas *)

(** A VIN in the 17 bytes of a frame, with a pad behind it. *)
Definition padded (pad : byte) (vin : gostring) : gostring :=
  take 17 vin ++ replicate (17 - length vin) pad.

Lemma copy_padded pad vin : copy (replicate (Z.to_nat VINLength) pad) vin = padded pad vin.
Proof.
  unfold copy, padded. rewrite length_replicate. change (Z.to_nat VINLength) with 17%nat.
  f_equal. apply drop_replicate.
Qed.

Lemma len_padded pad vin : len (padded pad vin) = VINLength.
Proof. unfold padded, VINLength. llia. Qed.

Lemma padded_same pad vin : len vin = VINLength -> padded pad vin = vin.
Proof.
  unfold padded, VINLength, len. intros H. rewrite firstn_all2 by lia.
  replace (17 - length vin)%nat with 0%nat by lia. apply app_nil_r.
Qed.

Lemma bccLoop_spec n : forall pkt i bcc s,
  at_pos pkt i s -> (n <= length s)%nat ->
  bccLoop n pkt i bcc = Ok (Z.lxor bcc (calculateBCC (take n s))).
Proof.
  induction n as [|n IH]; intros pkt i bcc s H' Hn.
  { cbn. by rewrite Z.lxor_0_r. }
  destruct s as [|b s]; [cbn in Hn; lia|]. cbn [bccLoop].
  read_byte H'. rewrite (IH _ _ _ s) by (done || cbn in Hn; lia).
  cbn [take]. by rewrite BCC_cons, Z.lxor_assoc.
Qed.

(** The end of a client's frame: the data, then the BCC of all but the markers. *)
Lemma finish_frame cmd vin data :
  len vin = VINLength ->
  (let! pkt := copy_into (frame_start cmd ReqRequest vin EncNone data ++ replicate (length data) 0 ++ [0])
     24 (24 + len data) data in
   let! bcc := bccLoop (Z.to_nat (24 + len data - 2)) pkt 2 0 in
   store pkt (24 + len data) bcc) = Ok (frame cmd ReqRequest vin EncNone data).
Proof.
  intros Hv. rewrite write_data by done. cbn [bind].
  set (body := frame_body cmd ReqRequest vin EncNone data).
  assert (frame_start cmd ReqRequest vin EncNone data ++ data ++ [0] =
          StartMarker1 :: StartMarker2 :: body ++ [0]) as ->.
  { unfold frame_start, body, frame_body. cbn [app]. by rewrite <- !app_assoc. }
  assert (len body = 22 + len data) as Hl.
  { unfold body, frame_body. autorewrite with go_len. rewrite Hv. unfold VINLength. lia. }
  rewrite (bccLoop_spec _ _ _ _ (body ++ [0])); [| |unfold len in *; rewrite length_app; lia].
  2:{ by exists [StartMarker1; StartMarker2]. }
  rewrite Z.lxor_0_l. cbn [bind].
  replace (Z.to_nat (24 + len data - 2)) with (length body) by (unfold len in *; lia).
  rewrite take_app_length. rewrite (store_cut _ (StartMarker1 :: StartMarker2 :: body) 0 []); [done|done|].
  rewrite !len_cons, Hl. lia.
Qed.

Lemma buildPacket_frame cmd vin data :
  buildPacket cmd vin data = Ok (frame cmd ReqRequest (padded 0x20 vin) EncNone data).
Proof.
  unfold buildPacket. rewrite copy_padded. cbv zeta. unfold HeaderSize.
  etrans; [apply write_header, len_padded|]. apply finish_frame, len_padded.
Qed.

(** The packet a client's frame is. *)
Definition request (cmd : byte) (vin : gostring) (data : bytes) : Packet :=
  mkPacket cmd ReqRequest vin EncNone data (len data).

Lemma request_wf cmd vin data :
  len vin = VINLength -> is_byte cmd -> all_bytes vin -> all_bytes data -> len data < 65536 ->
  packet_wf (request cmd vin data).
Proof.
  intros. pose proof (len_nonneg data).
  unfold packet_wf, request, ReqRequest, EncNone, is_byte, is_uint16 in *. cbn. split_and!; done || lia.
Qed.

Lemma padded_bytes pad vin : is_byte pad -> all_bytes vin -> all_bytes (padded pad vin).
Proof.
  intros Hp Hv. apply Forall_app_2; [by apply Forall_take | by apply Forall_replicate].
Qed.

(** What the realtime bodies hold: three fields. *)
Definition sim_vehicle (seq : int) : Codec.VehicleBaseInfo :=
  Codec.mkVehicleBaseInfo 1 1 1 (to_uint16 (400 + seq * 50)) (to_uint32 (123450 + seq * 100))
    (to_uint16 (380 + seq)) (to_uint16 (200 + seq * 10)) (to_byte (80 + seq)) 1 3 9999 0.

Definition sim_position (seq : int) : Codec.PositionInfo :=
  Codec.mkPositionInfo (to_uint32 (121473708 + to_uint32 (seq * 1000)))
    (to_uint32 (31235538 + to_uint32 (seq * 500))).

Definition sim_extreme (seq : int) : Codec.ExtremeInfo :=
  Codec.mkExtremeInfo (to_uint16 (4100 + to_uint16 (seq * 10))) 5 3700 16 (to_byte (40 + seq)) 3 15 31.

Definition sim_fields (seq : int) : list FieldValue :=
  [VVehicle (sim_vehicle seq); VPosition (sim_position seq); VExtreme (sim_extreme seq)].

Lemma is_uint16_to_uint16 z : is_uint16 (to_uint16 z).
Proof. apply Z.mod_pos_bound. lia. Qed.
Lemma is_uint32_to_uint32 z : is_uint32 (to_uint32 z).
Proof. apply Z.mod_pos_bound. lia. Qed.

Lemma sim_fields_ok seq : Forall plain_field (sim_fields seq).
Proof.
  repeat (apply Forall_cons_2; [split; [|reflexivity]|]); [| | |apply Forall_nil_2].
  all: split_and!;
    first [apply is_uint16_to_uint16 | apply is_uint32_to_uint32 | apply is_byte_to_byte | done].
Qed.

Definition sim_time (seq : int) : bytes := [0x26; 0x05; 0x0E; 0x0E; 0x30; to_byte (seq * 10)].

Lemma buildRealtimeData_eq seq :
  buildRealtimeData seq = Ok (sim_time seq ++ concat (enc_field <$> sim_fields seq)).
Proof. reflexivity. Qed.

(** ** Properties *)

(** The simulator's frames are the server's: whatever the command, VIN and
    data, [buildPacket] succeeds and its frame, fed to a decoder with nothing
    unread, decodes to a request of that command with that data, not encrypted,
    and with the VIN filled with spaces or cut to 17 bytes. *)
Theorem sim_frame_read d cmd vin data
    (Hwf : decoder_wf d) (Hd : unread d = []) (Hcmd : is_byte cmd) (Hvin : all_bytes vin)
    (Hdata : all_bytes data) (Hlen : len data < 65536) :
  exists pkt d1 d2,
    buildPacket cmd vin data = Ok pkt /\ Feed d pkt = Ok d1 /\
    Decode d1 = Ok (Some (mkPacket cmd ReqRequest (padded 0x20 vin) EncNone data (len data)), d2) /\
    unread d2 = [].
Proof.
  rewrite buildPacket_frame.
  destruct (frame_read d (request cmd (padded 0x20 vin) data)) as (d1 & d2 & H1 & H2 & H3); [done|done| |].
  { apply request_wf; [apply len_padded|done| |done|done].
    apply padded_bytes; [unfold is_byte; lia|done]. }
  by exists (packet_frame (request cmd (padded 0x20 vin) data)), d1, d2.
Qed.

Lemma sim_frame_read_witness :
  exists pkt d1 d2, buildPacket CmdHeartbeat [65; 66] [7] = Ok pkt /\ Feed NewDecoder pkt = Ok d1 /\
    Decode d1 = Ok (Some (mkPacket CmdHeartbeat ReqRequest ([65; 66] ++ replicate 15 0x20) EncNone [7] 1), d2).
Proof.
  destruct (sim_frame_read NewDecoder CmdHeartbeat [65; 66] [7] NewDecoder_wf eq_refl)
    as (pkt & d1 & d2 & H1 & H2 & H3 & _);
    [unfold is_byte, CmdHeartbeat; lia | check_bytes | check_bytes | done|].
  exists pkt, d1, d2. exact (conj H1 (conj H2 H3)).
Defined.

(** The server reads the simulator's realtime messages, for every sequence
    number: the vehicle, position and extreme fields come out as they were put
    in.  The time bytes are not all BCD digits (the simulator writes 14 as
    [0x0E]) and still read as 14:30 of the 14th. *)
Theorem sim_realtime_read seq :
  exists data,
    buildRealtimeData seq = Ok data /\
    DecodeRealtimeData data =
      Ok (mkRealtimeMessage (Date 2026 5 14 14 30 (bcd (to_byte (seq * 10))) 0)
            (Some (vehicleOf (sim_vehicle seq))) [] None None (Some (positionOf (sim_position seq)))
            (Some (extremeOf (sim_extreme seq))) None None).
Proof.
  rewrite buildRealtimeData_eq. eexists. split; [reflexivity|].
  set (fs := concat (enc_field <$> sim_fields seq)).
  set (data := sim_time seq ++ fs). unfold DecodeRealtimeData.
  assert (at_pos data 6 (fs ++ [])) as H' by (exists (sim_time seq); by rewrite app_nil_r).
  rewrite Decoder_DecodeRealtimeData_item by done. unfold decodeRealtimeItem.
  change (len data <? 6) with false. cbv iota.
  rewrite (slice_at data 0 6 (sim_time seq) fs) by (by exists [] || done).
  cbn [bind d_timeCodec defaultDecoder decodeTime6]. unfold sim_time at 1.
  rewrite parseBCD_bytes. cbn [bind]. cbv zeta.
  change (S (length data)) with (length (sim_fields seq) + 45)%nat.
  rewrite (itemFields_fields _ _ _ _ []) by (done || apply sim_fields_ok).
  by rewrite (itemFields_stops 44 _ _ []) by (done || by eapply at_pos_step).
Qed.

Lemma sendPacket_eq net k cmd vin data label seq :
  exists l, sendPacket net k cmd vin data label seq =
    Ok (if tb_writes net k then [frame cmd ReqRequest (padded 0x20 vin) EncNone data] else [], l).
Proof. unfold sendPacket. rewrite buildPacket_frame. cbn [bind]. destruct (tb_writes net k); by eexists. Qed.

(** Of the frames [all], the first the [k]-th write, those that the network took. *)
Definition taken (net : tbox) (all : list bytes) : list bytes :=
  concat (imap (fun k pkt => if tb_writes net k then [pkt] else []) all).

(** The simulator never panics and goes on whatever the network does: it writes the
    frames of [session] whose write works, in their order, and over a network that works
    all of them.  It looks at nothing it reads but to log it, an answer of fewer than four
    bytes included. *)
Theorem sim_main_writes net :
  exists frames logs, main net = Ok (frames, logs) /\
    if tb_dials net then exists all, session = Ok all /\ frames = taken net all
    else frames = [] /\ logs = [ConnectFailed].
Proof.
  unfold main. destruct (tb_dials net); [|by eexists _, _]. cbn [negb].
  destruct (sendPacket_eq net 0 CmdLogin sim_vin loginData "LOGIN" 0) as (l1 & ->). cbn [bind].
  change (make 1024) with (Ok (replicate (Z.to_nat 1024) 0)). cbn [bind].
  assert (exists n buf, readInto net 0 (replicate (Z.to_nat 1024) 0) = (n, buf) /\ len buf = 1024) as (n & buf & -> & Hb).
  { eexists _, _. split; [reflexivity|]. unfold copy, len. rewrite length_app, length_take, length_drop, length_replicate. lia. }
  assert (exists ls, loginLog n buf = Ok ls) as [ls ->].
  { unfold loginLog. destruct (0 <? n); [|by eexists]. unfold index. rewrite Hb. cbn. by eexists. }
  cbn [sendRealtimes sendHeartbeats bind]. unfold session. cbn [realtimePackets]. rewrite !buildRealtimeData_eq. cbn [bind].
  repeat match goal with |- context [sendPacket net ?k ?c ?v ?d ?l ?i] =>
    let x := fresh "x" in destruct (sendPacket_eq net k c v d l i) as (x & ->); cbn [bind] end.
  destruct (readInto net 1 buf) as [n1 buf1].
  repeat match goal with |- context [sendPacket net ?k ?c ?v ?d ?l ?i] =>
    let x := fresh "x" in destruct (sendPacket_eq net k c v d l i) as (x & ->); cbn [bind] end.
  destruct (readInto net 2 buf1) as [n2 buf2]. cbn [bind].
  repeat match goal with |- context [sendPacket net ?k ?c ?v ?d ?l ?i] =>
    let x := fresh "x" in destruct (sendPacket_eq net k c v d l i) as (x & ->); cbn [bind] end.
  rewrite !buildPacket_frame. cbn [bind]. eexists _, _. split; [reflexivity|].
  eexists. split; [reflexivity|]. unfold taken. cbn [imap concat app].
  by rewrite ?app_nil_r, <- ?app_assoc.
Qed.
