(* ===== verification/Stresstest.v ===== *)
(** * The load generator ([cmd/stresstest/main.go])

    The frames of its clients, one client per identifier, what a client counts over
    a network that may fail at any call, and what the server reads in the frames: every client's VIN has 15 characters, and the frame fills it
    with zero bytes. *)
From S2P Require Import Prelude.
From S2P Require Import GoTime.
From S2P Require Import Constant.
From S2P Require Import Packet.
From S2P Require Import Codec.
From S2P Require Import Framing.
From S2P Require Import FramingSpec.
From S2P Require Import Stream.
From S2P Require Import Realtime.
From S2P Require Import Simclient.

(** ** Building frames *)

Definition buildPacket (command : byte) (vin : gostring) (data : bytes) : outcome bytes :=
  let! vinBytes := make VINLength in
  let vinBytes := copy vinBytes vin in
  let totalLen := HeaderSize + len data + 1 in
  let! pkt := make totalLen in
  let pos := 0 in
  let! pkt := store pkt pos StartMarker1 in
  let pos := pos + 1 in
  let! pkt := store pkt pos StartMarker2 in
  let pos := pos + 1 in
  let! pkt := store pkt pos command in
  let pos := pos + 1 in
  let! pkt := store pkt pos 0x01 in
  let pos := pos + 1 in
  let! pkt := copy_into pkt pos (pos + VINLength) vinBytes in
  let pos := pos + VINLength in
  let! pkt := store pkt pos EncNone in
  let pos := pos + 1 in
  let! pkt := copy_into pkt pos (pos + 2) (put16 (to_uint16 (len data))) in
  let pos := pos + 2 in
  let! pkt := copy_into pkt pos (pos + len data) data in
  let pos := pos + len data in
  let! bcc := bccLoop (Z.to_nat (pos - 2)) pkt 2 0 in
  store pkt pos bcc.

Definition buildRealtime (id seq : int) : outcome bytes :=
  let data := [] ++ [0x26; 0x05; 0x0E; 0x0E; 0x30; to_byte (seq * 10)] in
  let data := data ++ [FieldVehicle] in
  let! v := make 20 in
  let! v := store v 0 0x01 in
  let! v := store v 1 0x01 in
  let! v := store v 2 0x01 in
  let! v := copy_into v 3 5 (put16 (to_uint16 (400 + seq * 50))) in
  let! v := copy_into v 5 9 (put32 (to_uint32 (123450 + seq * 100))) in
  let! v := copy_into v 9 11 (put16 380) in
  let! v := copy_into v 11 13 (put16 200) in
  let! v := store v 13 85 in
  let data := data ++ v in
  let data := data ++ [FieldPosition] in
  let! p := make 8 in
  let! p := copy_into p 0 4 (put32 (to_uint32 121473708)) in
  let! p := copy_into p 4 8 (put32 (to_uint32 31235538)) in
  Ok (data ++ p).

(** The last [n] decimal digits of a number, in ASCII. *)
Fixpoint decimal (n : nat) (z : Z) : gostring :=
  match n with
  | O => []
  | S n => decimal n (z / 10) ++ [48 + z mod 10]
  end.

(** [fmt.Sprintf("HC%013d", id)], for an [id] of 13 digits at most. *)
Definition client_vin (id : int) : gostring := [72; 67] ++ decimal 13 id.

Definition client_login (id : int) : bytes :=
  [0x26; 0x05; 0x0E; 0x0E; 0x30; 0x00;
   to_byte (Z.shiftr id 8); to_byte id;
   0x10;
   83; 73; 77; 48; 48; 48; 48; 48; 48; 48; 48; 48; 48; 48; 48; 49;
   0x00].

Definition client_logout : bytes := [0x26; 0x05; 0x0E; 0x0E; 0x35; 0x00; 0x00; 0x03].

(** ** Counters *)

(** [stats], field by field; every field is an [atomic.Int64]. *)
Record stats := mkStats {
  conned : int;
  failed : int;
  authed : int;
  realdata : int;
  heartbeats : int;
  bytesSent : int;
  bytesRecv : int;
  totalLatency : int;
  latencyCount : int
}.

Inductive counter :=
  | Conned | Failed | Authed | Realdata | Heartbeats | BytesSent | BytesRecv | TotalLatency | LatencyCount.

(** [s.<counter>.Add(n)] *)
Definition Add (s : stats) (c : counter) (n : int) : stats :=
  let '(mkStats co f a r h bs br t l) := s in
  match c with
  | Conned => mkStats (co + n) f a r h bs br t l
  | Failed => mkStats co (f + n) a r h bs br t l
  | Authed => mkStats co f (a + n) r h bs br t l
  | Realdata => mkStats co f a (r + n) h bs br t l
  | Heartbeats => mkStats co f a r (h + n) bs br t l
  | BytesSent => mkStats co f a r h (bs + n) br t l
  | BytesRecv => mkStats co f a r h bs (br + n) t l
  | TotalLatency => mkStats co f a r h bs br (t + n) l
  | LatencyCount => mkStats co f a r h bs br t (l + n)
  end.

Definition zero_stats : stats := mkStats 0 0 0 0 0 0 0 0 0.

(** ** Clients *)

(** The network of one client: whether dialling works, whether the [k]-th write
    does, what the read of the login's answer returns (bytes, and whether with an
    error) and how long it took, in nanoseconds. *)
Record network := mkNetwork {
  dials : bool;
  writes_ok : nat -> bool;
  reply : int * bool;
  latency : int
}.

(** What a call wrote goes with its result; a write without error wrote it all. *)
Definition sendOnly (net : network) (k : nat) (cmd : byte) (vin : gostring) (data : bytes) (s : stats)
  : outcome (bool * list bytes * stats) :=
  let! pkt := buildPacket cmd vin data in
  if negb (writes_ok net k) then Ok (false, [], s)
  else Ok (true, [pkt], Add s BytesSent (len pkt)).

Definition sendAndRecv (net : network) (cmd : byte) (vin : gostring) (data : bytes) (s : stats)
  : outcome (bool * list bytes * stats) :=
  let! pkt := buildPacket cmd vin data in
  if negb (writes_ok net 0) then Ok (false, [], s) else
  let s := Add s BytesSent (len pkt) in
  let '(n, err) := reply net in
  if err : bool then Ok (0 <? n, [pkt], s)
  else Ok (true, [pkt], Add s BytesRecv n).

(** The realtime loop, [n] messages from [i] on, the first of them the [k]-th
    write; [false] when a write failed. *)
Fixpoint sendRealtime (n : nat) (net : network) (k : nat) (id i : int) (s : stats)
  : outcome (bool * list bytes * stats) :=
  match n with
  | O => Ok (true, [], s)
  | S n =>
      let! rt := buildRealtime id i in
      let! '(ok, pkts, s) := sendOnly net k CmdRealtime (client_vin id) rt s in
      if negb ok then Ok (false, pkts, s) else
      let! '(ok, pkts', s) := sendRealtime n net (S k) id (i + 1) (Add s Realdata 1) in
      Ok (ok, pkts ++ pkts', s)
  end.

(** What a client writes, and the counters behind it. *)
Definition runClient (net : network) (id : int) (s : stats) : outcome (list bytes * stats) :=
  let vin := client_vin id in
  if negb (dials net) then Ok ([], Add s Failed 1) else
  let s := Add s Conned 1 in
  let! '(ok, login, s) := sendAndRecv net CmdLogin vin (client_login id) s in
  if negb ok then Ok (login, Add s Failed 1) else
  let s := Add s TotalLatency (latency net) in
  let s := Add s LatencyCount 1 in
  let s := Add s Authed 1 in
  let! '(ok, realtime, s) := sendRealtime 2 net 1 id 0 s in
  if negb ok then Ok (login ++ realtime, s) else
  let! '(ok, heartbeat, s) := sendOnly net 3 CmdHeartbeat vin [] s in
  if negb ok then Ok (login ++ realtime ++ heartbeat, s) else
  let s := Add s Heartbeats 1 in
  let! '(_, logout, s) := sendOnly net 4 CmdLogout vin client_logout s in
  Ok (login ++ realtime ++ heartbeat ++ logout, s).

(** ** Lemmas *)

Lemma buildPacket_zeros cmd vin data :
  buildPacket cmd vin data = Ok (frame cmd ReqRequest (padded 0 vin) EncNone data).
Proof.
  unfold buildPacket. rewrite make_ok by done. cbn [bind]. rewrite copy_padded. cbv zeta.
  unfold HeaderSize. etrans; [apply write_header, len_padded|]. apply finish_frame, len_padded.
Qed.

Lemma length_decimal n : forall z, length (decimal n z) = n.
Proof. induction n as [|n IH]; intros z; [done|]. cbn [decimal]. rewrite length_app, IH. cbn. lia. Qed.

Lemma decimal_bytes n : forall z, all_bytes (decimal n z).
Proof.
  induction n as [|n IH]; intros z; [constructor|]. cbn [decimal]. apply Forall_app_2; [apply IH|].
  repeat constructor; zdm; lia.
Qed.

(** The digits tell the numbers apart. *)
Lemma decimal_inj n : forall z1 z2,
  0 <= z1 < 10 ^ Z.of_nat n -> 0 <= z2 < 10 ^ Z.of_nat n -> decimal n z1 = decimal n z2 -> z1 = z2.
Proof.
  induction n as [|n IH]; intros z1 z2 H1 H2 Heq; [cbn in H1, H2; lia|].
  rewrite Nat2Z.inj_succ, Z.pow_succ_r in H1, H2 by lia. cbn [decimal] in Heq.
  apply app_inj_2 in Heq as [Hd Hl]; [|done]. injection Hl as Hl.
  assert (z1 / 10 = z2 / 10) as Hq by (apply IH; [zdm; lia | zdm; lia | done]).
  zdm. lia.
Qed.

Lemma client_vin_padded id : padded 0 (client_vin id) = client_vin id ++ [0; 0].
Proof.
  unfold padded, client_vin. rewrite length_app, length_decimal. cbn [length Nat.add Nat.sub].
  rewrite firstn_all2; [done|]. rewrite length_app, length_decimal. cbn. lia.
Qed.

Lemma client_vin_bytes id : all_bytes (client_vin id).
Proof. apply Forall_app_2; [check_bytes | apply decimal_bytes]. Qed.

(** The packets of a client. *)
Definition stress_time (seq : int) : bytes := [0x26; 0x05; 0x0E; 0x0E; 0x30; to_byte (seq * 10)].

Definition stress_fields (seq : int) : list FieldValue :=
  [VVehicle (Codec.mkVehicleBaseInfo 1 1 1 (to_uint16 (400 + seq * 50)) (to_uint32 (123450 + seq * 100))
               380 200 85 0 0 0 0);
   VPosition (Codec.mkPositionInfo 121473708 31235538)].

Definition stress_realtime (seq : int) : bytes :=
  stress_time seq ++ concat (enc_field <$> stress_fields seq).

Lemma buildRealtime_eq id seq : buildRealtime id seq = Ok (stress_realtime seq).
Proof. reflexivity. Qed.

Definition client_packets (id : int) : list Packet :=
  let vin := client_vin id ++ [0; 0] in
  [request CmdLogin vin (client_login id); request CmdRealtime vin (stress_realtime 0);
   request CmdRealtime vin (stress_realtime 1); request CmdHeartbeat vin [];
   request CmdLogout vin client_logout].

(** The login was answered. *)
Definition answered (net : network) : bool :=
  if (reply net).2 then 0 <? (reply net).1 else true.

(** The bytes of frames. *)
Definition total (frames : list bytes) : int := len (concat frames).

(** One way a client's run can end: [n] frames are out. *)
Ltac run_ends n :=
  exists n; eexists; split; [lia|]; split; [reflexivity|];
  cbn [Add conned failed authed realdata heartbeats bytesSent latencyCount];
  split; [cbn; lia|]; split; [cbn; lia|]; split; [cbn; lia|]; split; [cbn; lia|];
  split; [unfold total; cbn [firstn fmap list_fmap concat client_packets]; autorewrite with go_len;
    unfold packet_frame, request; cbn [p_VIN p_Command p_Response p_EncryptType p_Data]; lia|];
  intros Hd Ha Hw;
  first
    [ congruence
    | match goal with E : writes_ok _ ?k = false |- _ => rewrite (Hw k) in E; discriminate end
    | done ].

(** A run in full: the frames are the first of the client's five, as many as the
    network took; every client counts once as authenticated or as failed, and the
    bytes of the frames it wrote as sent. *)
Lemma runClient_eq net id s :
  exists n s', (n <= 5)%nat /\
    runClient net id s = Ok (take n (packet_frame <$> client_packets id), s') /\
    failed s' + authed s' = failed s + authed s + 1 /\
    latencyCount s' - latencyCount s = authed s' - authed s /\
    realdata s' <= realdata s + 2 /\ heartbeats s' <= heartbeats s + 1 /\
    bytesSent s' = bytesSent s + total (take n (packet_frame <$> client_packets id)) /\
    (dials net = true -> answered net = true -> (forall k, writes_ok net k = true) -> n = 5%nat).
Proof.
  unfold runClient, answered, sendAndRecv. cbn [sendRealtime]. unfold sendOnly.
  rewrite !buildRealtime_eq, !buildPacket_zeros, client_vin_padded.
  cbn [bind]. rewrite !buildPacket_zeros, client_vin_padded. cbn [bind]. change (0 + 1) with 1. destruct s.
  destruct (dials net) eqn:Ed; cbn [negb]; [|run_ends 0%nat].
  destruct (writes_ok net 0) eqn:E0; cbn [negb bind]; [|run_ends 0%nat].
  destruct (reply net) as [n []]; cbn [fst snd bind]; [destruct (0 <? n); cbn [negb]; [|run_ends 1%nat]|];
    cbn [negb];
    (destruct (writes_ok net 1) eqn:E1; cbn [bind negb]; [|run_ends 1%nat]);
    (destruct (writes_ok net 2) eqn:E2; cbn [bind negb]; [|run_ends 2%nat]);
    (destruct (writes_ok net 3) eqn:E3; cbn [bind negb]; [|run_ends 3%nat]);
    (destruct (writes_ok net 4) eqn:E4; cbn [bind negb]; [run_ends 5%nat|run_ends 4%nat]).
Qed.

Lemma client_packets_wf id : Forall packet_wf (client_packets id).
Proof.
  assert (len (client_vin id ++ [0; 0]) = VINLength) as Hl.
  { unfold len, client_vin. rewrite !length_app, length_decimal. done. }
  assert (all_bytes (client_vin id ++ [0; 0])) as Hv
    by (apply Forall_app_2; [apply client_vin_bytes | check_bytes]).
  repeat (apply Forall_cons_2; [apply request_wf; [done| |done| |]|]); try apply Forall_nil_2.
  all: try check_bytes; try (vm_compute; done).
  unfold client_login.
  repeat (apply Forall_cons_2; [first [apply is_byte_to_byte | unfold is_byte; lia]|]). apply Forall_nil_2.
Qed.

Lemma verify_client_vin id : VerifyVIN (client_vin id ++ [0; 0]) = false.
Proof.
  unfold VerifyVIN. destruct (len _ =? VINLength); [|done]. cbn [negb].
  rewrite alnumRunes_spec by done. rewrite forallb_app. cbn. apply andb_false_r.
Qed.

(** ** Properties *)

(** The server reads whatever the load generator's clients get through, however
    the frames are cut into reads (at frame ends or safe places): a client that
    nothing stops sends five frames and they come out in order with the data it
    put in; one that is stopped sends the first of them.  Every client counts
    once, as authenticated or as failed, and the bytes it got through as sent.  The packets' VIN is not the client's: it
    has two zero bytes behind it, which [VerifyVIN] refuses. *)
Theorem stress_client_read net id s (Hid : 0 <= id < 10 ^ 13) :
  exists n s' frames, runClient net id s = Ok (frames, s') /\
    failed s' + authed s' = failed s + authed s + 1 /\
    bytesSent s' = bytesSent s + total frames /\
    (dials net = true -> answered net = true -> (forall k, writes_ok net k = true) -> n = 5%nat) /\
    let sent := take n (client_packets id) in
    (forall reads, reads_of [] sent reads -> concat reads = concat frames /\
       exists d, receive NewDecoder reads = Ok (sent, d) /\ unread d = []) /\
    Forall (fun p => p_VIN p = client_vin id ++ [0; 0] /\ VerifyVIN (p_VIN p) = false) sent.
Proof.
  destruct (runClient_eq net id s) as (n & s' & Hn & Hrun & Hcount & _ & _ & _ & Hsent & Hall).
  exists n, s'. eexists. split; [exact Hrun|]. split; [done|]. split; [done|]. split; [done|].
  cbv zeta. split.
  - intros reads Hr. split.
    + rewrite <- fmap_take. exact (reads_of_concat [] _ _ Hr).
    + destruct (receive_reads reads [] _ NewDecoder Hr NewDecoder_wf eq_refl) as (d & Hd & Hu & _).
      by exists d.
  - apply Forall_take.
    repeat (apply Forall_cons_2; [split; [reflexivity | apply verify_client_vin]|]). apply Forall_nil_2.
Qed.

Lemma stress_client_read_witness :
  exists s' frames, runClient (mkNetwork true (fun _ => true) (33, false) 1000) 258 zero_stats = Ok (frames, s') /\
    exists d, receive NewDecoder (packet_frame <$> client_packets 258) = Ok (client_packets 258, d).
Proof.
  destruct (stress_client_read (mkNetwork true (fun _ => true) (33, false) 1000) 258 zero_stats ltac:(lia))
    as (n & s' & frames & H1 & _ & _ & Hn & H2 & _).
  rewrite (Hn eq_refl eq_refl (fun _ => eq_refl)) in H2.
  exists s', frames. split; [exact H1|].
  destruct (H2 _ (reads_of_frames _ (client_packets_wf 258))) as (_ & d & Hd & _). by exists d.
Defined.

(** Clients with different identifiers have different VINs. *)
Lemma client_vin_inj id1 id2 :
  0 <= id1 < 10 ^ 13 -> 0 <= id2 < 10 ^ 13 -> client_vin id1 = client_vin id2 -> id1 = id2.
Proof.
  intros H1 H2 Heq. apply (decimal_inj 13); [done..|]. unfold client_vin in Heq.
  by apply app_inj_1 in Heq as [_ ?].
Qed.
