(* ===== verification/Workers.v ===== *)
(** * The workers of the load generator ([cmd/stresstest/main.go])

    [main] starts one goroutine per connection, as many at a time as its semaphore
    has room for; the clients add to shared atomic counters.  A transition
    system whose steps are the start of a client, one [Add], the end of a client
    and the report behind [wg.Wait]: in every interleaving the report counts what
    the clients one after another would, and it comes. *)
From S2P Require Import Prelude.
From S2P Require Import GoTime.
From S2P Require Import Constant.
From S2P Require Import Packet.
From S2P Require Import Codec.
From S2P Require Import Framing.
From S2P Require Import FramingSpec.
From S2P Require Import Stream.
From S2P Require Import Realtime.
From S2P Require Import Simclient.
From S2P Require Import Stresstest.

(** ** Counters *)

Definition AddTo (s : stats) (a : counter * int) : stats := Add s a.1 a.2.

(** The bytes of a frame with the body [data]. *)
Definition frameLen (data : bytes) : int := HeaderSize + len data + 1.

(** The [Add]s of [runClient], in order. *)
Definition clientAdds (net : network) (id : int) : list (counter * int) :=
  if negb (dials net) then [(Failed, 1)] else
  (Conned, 1) ::
  if negb (writes_ok net 0) then [(Failed, 1)] else
  (BytesSent, frameLen (client_login id)) ::
  (if (reply net).2 then [] else [(BytesRecv, (reply net).1)]) ++
  if negb (answered net) then [(Failed, 1)] else
  (TotalLatency, latency net) :: (LatencyCount, 1) :: (Authed, 1) ::
  if negb (writes_ok net 1) then [] else
  (BytesSent, frameLen (stress_realtime 0)) :: (Realdata, 1) ::
  if negb (writes_ok net 2) then [] else
  (BytesSent, frameLen (stress_realtime 1)) :: (Realdata, 1) ::
  if negb (writes_ok net 3) then [] else
  (BytesSent, frameLen []) :: (Heartbeats, 1) ::
  if negb (writes_ok net 4) then [] else [(BytesSent, frameLen client_logout)].

(** ** The workers *)

(** The flags, and the network each client meets. *)
Section main.
Context (conns workers : int) (nets : int -> network).

(** The loop variable, the goroutines with the [Add]s before them ([None] behind
    [wg.Done]), [done], the counters, and whether the report was printed. *)
Record load := mkLoad {
  l_next : int;
  l_running : list (int * option (list (counter * int)));
  l_done : int;
  l_stats : stats;
  l_reported : bool
}.

(** A client occupies one place of the semaphore from before it starts to the end
    of its deferred function, which calls [wg.Done] first; the report waits for
    that. *)
Inductive lstep : load -> load -> Prop :=
  | ls_start i rs d s :
      i < conns -> len rs < workers ->
      lstep (mkLoad i rs d s false) (mkLoad (i + 1) (rs ++ [(i, Some (clientAdds (nets i) i))]) d s false)
  | ls_add i rs d s k id c cs :
      rs !! k = Some (id, Some (c :: cs)) ->
      lstep (mkLoad i rs d s false) (mkLoad i (<[k := (id, Some cs)]> rs) d (AddTo s c) false)
  | ls_done i rs d s k id :
      rs !! k = Some (id, Some []) ->
      lstep (mkLoad i rs d s false) (mkLoad i (<[k := (id, None)]> rs) d s false)
  | ls_release i rs d s k id :
      rs !! k = Some (id, None) ->
      lstep (mkLoad i rs d s false) (mkLoad i (delete k rs) (d + 1) s false)
  | ls_report i rs d s :
      conns <= i -> Forall (fun r => r.2 = None) rs ->
      lstep (mkLoad i rs d s false) (mkLoad i rs d s true).

Inductive lreach : load -> Prop :=
  | lr_start : lreach (mkLoad 0 [] 0 zero_stats false)
  | lr_step l l' : lreach l -> lstep l l' -> lreach l'.

(** The clients one after another. *)
Fixpoint runClients (n : nat) (id : int) (s : stats) : outcome stats :=
  match n with
  | O => Ok s
  | S n => let! '(_, s) := runClient (nets id) id s in runClients n (id + 1) s
  end.

(** Steps left to take. *)
Definition work (l : load) : nat :=
  sum_list_with (fun i => 3 + length (clientAdds (nets i) i))%nat (seqZ (l_next l) (conns - l_next l)) +
  sum_list_with (fun r => match r.2 with Some cs => 2 + length cs | None => 1 end)%nat (l_running l) + (if l_reported l then 0 else 1).

(** ** Lemmas *)

Lemma AddTo_comm s a1 a2 : AddTo (AddTo s a1) a2 = AddTo (AddTo s a2) a1.
Proof. destruct s, a1 as [[] n1], a2 as [[] n2]; cbn; f_equal; lia. Qed.

Lemma adds_perm cs1 cs2 s : cs1 ≡ₚ cs2 -> fold_left AddTo cs1 s = fold_left AddTo cs2 s.
Proof.
  intros Hp. revert s. induction Hp as [|c cs1 cs2 _ IH|c1 c2 cs|cs1 cs2 cs3 _ IH1 _ IH2]; intros s; cbn.
  - done.
  - apply IH.
  - by rewrite AddTo_comm.
  - by rewrite IH1.
Qed.

Lemma len_frame_eq cmd id data :
  len (frame cmd ReqRequest (client_vin id ++ [0; 0]) EncNone data) = frameLen data.
Proof.
  rewrite len_frame; [unfold frameLen, HeaderSize; lia|].
  unfold len, client_vin. by rewrite !length_app, length_decimal.
Qed.

Lemma runClient_adds net id s :
  exists pkts, runClient net id s = Ok (pkts, fold_left AddTo (clientAdds net id) s).
Proof.
  unfold runClient, clientAdds, answered, sendAndRecv. cbn [sendRealtime]. unfold sendOnly.
  rewrite !buildRealtime_eq, !buildPacket_zeros, client_vin_padded.
  cbn [bind]. rewrite !buildPacket_zeros, client_vin_padded. cbn [bind]. rewrite !len_frame_eq.
  change (0 + 1) with 1.
  destruct (dials net); cbn [negb]; [|by eexists].
  destruct (writes_ok net 0); cbn [negb bind]; [|by eexists].
  destruct (reply net) as [n []]; cbn [fst snd bind]; [destruct (0 <? n); cbn [negb]; [|by eexists]|]; cbn [negb];
    (destruct (writes_ok net 1); cbn [bind negb]; [|by eexists]);
    (destruct (writes_ok net 2); cbn [bind negb]; [|by eexists]);
    (destruct (writes_ok net 3); cbn [bind negb]; [|by eexists]);
    destruct (writes_ok net 4); cbn [bind negb]; by eexists.
Qed.

Definition all_adds (i n : int) : list (counter * int) := concat ((fun id => clientAdds (nets id) id) <$> seqZ i n).

Lemma runClients_adds n : forall id s,
  runClients n id s = Ok (fold_left AddTo (all_adds id (Z.of_nat n)) s).
Proof.
  induction n as [|n IH]; intros id s; [done|]. cbn [runClients].
  destruct (runClient_adds (nets id) id s) as (pkts & ->). cbn [bind]. rewrite IH.
  unfold all_adds. rewrite (seqZ_cons id) by lia. cbn [fmap list_fmap concat].
  rewrite fold_left_app. do 3 f_equal. unfold Z.succ. do 3 f_equal. lia.
Qed.

Lemma all_adds_snoc i : 0 <= i -> all_adds 0 (i + 1) = all_adds 0 i ++ clientAdds (nets i) i.
Proof.
  intros. unfold all_adds. rewrite seqZ_app by lia.
  rewrite (seqZ_cons (0 + i) 1), (seqZ_nil _ (Z.pred 1)), fmap_app, concat_app by lia.
  cbn. by rewrite app_nil_r.
Qed.

(** What is left of the [Add]s of the clients that run. *)
Definition left_adds (rs : list (int * option (list (counter * int)))) : list (counter * int) :=
  concat ((fun r : int * option (list (counter * int)) => default [] r.2) <$> rs).
#[local] Arguments left_adds : simpl never.

Record linv (l : load) : Prop := {
  lv_next : 0 <= l_next l <= Z.max 0 conns;
  lv_room : len (l_running l) <= Z.max 0 workers;
  lv_count : l_done l + len (l_running l) = l_next l;
  lv_adds : exists cs, l_stats l = fold_left AddTo cs zero_stats /\
    cs ++ left_adds (l_running l) ≡ₚ all_adds 0 (l_next l);
  lv_reported : l_reported l = true -> Forall (fun r => r.2 = None) (l_running l) /\ conns <= l_next l
}.

Lemma left_adds_insert rs k id c cs :
  rs !! k = Some (id, Some (c :: cs)) -> left_adds rs ≡ₚ c :: left_adds (<[k := (id, Some cs)]> rs).
Proof.
  intros Hk. pose proof (lookup_lt_Some _ _ _ Hk). unfold left_adds.
  rewrite (insert_take_drop rs k (id, Some cs)) by done.
  rewrite <- (take_drop_middle rs k _ Hk) at 1. rewrite !fmap_app, !concat_app, !fmap_cons, !concat_cons.
  cbn. symmetry. apply Permutation_middle.
Qed.

(** An entry without [Add]s can go. *)
Lemma left_adds_delete rs k id :
  rs !! k = Some (id, None) -> left_adds rs = left_adds (delete k rs).
Proof.
  intros Hk. unfold left_adds. rewrite <- (take_drop_middle rs k _ Hk) at 1.
  rewrite delete_take_drop, !fmap_app, !concat_app, fmap_cons. done.
Qed.

Lemma left_adds_done rs k id :
  rs !! k = Some (id, Some []) -> left_adds rs = left_adds (<[k := (id, None)]> rs).
Proof.
  intros Hk. pose proof (lookup_lt_Some _ _ _ Hk). unfold left_adds.
  rewrite (insert_take_drop rs k (id, None)) by done.
  rewrite <- (take_drop_middle rs k _ Hk) at 1. by rewrite !fmap_app, !concat_app, !fmap_cons.
Qed.

Lemma left_adds_none rs : Forall (fun r => r.2 = None) rs -> left_adds rs = [].
Proof. induction 1 as [|[id o] rs Ho _ IH]; [done|]. cbn in Ho. subst. done. Qed.

Lemma lstep_inv l l' : linv l -> lstep l l' -> linv l'.
Proof.
  intros [H1 H2 H3 (cs & H4 & H5) H6] Hs. destruct Hs as [i rs d s Hi Hr|i rs d s k id c cs' Hk|i rs d s k id Hk
    |i rs d s k id Hk|i rs d s Hi Hf];
    cbn in *.
  - split; cbn; try done; rewrite ?len_app; try (unfold len in *; cbn in *; lia).
    exists cs. split; [done|]. rewrite all_adds_snoc, <- H5 by lia. unfold left_adds.
    rewrite fmap_app, concat_app. cbn. by rewrite app_nil_r, app_assoc.
  - split; cbn; try done; rewrite ?H3; unfold len in *; rewrite ?length_insert; try done.
    exists (cs ++ [c]). rewrite fold_left_app. cbn. rewrite H4. split; [done|].
    rewrite <- H5, (left_adds_insert _ _ _ _ _ Hk), <- app_assoc. done.
  - split; cbn; try done; unfold len in *; rewrite ?length_insert; try done.
    exists cs. split; [done|]. by rewrite <- (left_adds_done _ _ _ Hk).
  - pose proof (length_delete rs k (mk_is_Some _ _ Hk)) as Hlen. pose proof (lookup_lt_Some _ _ _ Hk).
    split; cbn; try done; unfold len in *; rewrite ?Hlen; try lia.
    exists cs. split; [done|]. by rewrite <- (left_adds_delete _ _ _ Hk).
  - by split; cbn; eauto.
Qed.

Lemma lreach_inv l : lreach l -> linv l.
Proof.
  induction 1 as [|l l' _ IH Hs]; [|by eapply lstep_inv].
  split; cbn; try done; try (unfold len; cbn; lia). by exists [].
Qed.

Lemma lstep_work l l' : lstep l l' -> (work l' < work l)%nat.
Proof.
  intros Hs. destruct Hs as [i rs d s Hi Hr|i rs d s k id c cs Hk|i rs d s k id Hk
    |i rs d s k id Hk|i rs d s Hi Hf]; unfold work; cbn.
  - rewrite (seqZ_cons i (conns - i)) by lia. cbn. rewrite sum_list_with_app. cbn.
    replace (Z.pred (conns - i)) with (conns - (i + 1)) by lia. unfold Z.succ. lia.
  - rewrite (insert_take_drop rs k (id, Some cs)) by (by eapply lookup_lt_Some).
    rewrite <- (take_drop_middle rs k _ Hk) at 3. rewrite !sum_list_with_app. cbn. lia.
  - rewrite (insert_take_drop rs k (id, None)) by (by eapply lookup_lt_Some).
    rewrite <- (take_drop_middle rs k _ Hk) at 3. rewrite !sum_list_with_app. cbn. lia.
  - rewrite delete_take_drop. rewrite <- (take_drop_middle rs k _ Hk) at 3.
    rewrite !sum_list_with_app. cbn. lia.
  - lia.
Qed.

(** The report counts the clients one after another. *)
Lemma reported_stats l : lreach l -> l_reported l = true ->
  runClients (Z.to_nat conns) 0 zero_stats = Ok (l_stats l).
Proof.
  intros Hl Hr. pose proof (lreach_inv l Hl) as [H1 H2 H3 (cs & H4 & H5) H6].
  destruct (H6 Hr) as [He Hi]. rewrite (left_adds_none _ He) in H5.
  rewrite runClients_adds, H4. f_equal. apply adds_perm. rewrite app_nil_r in H5. rewrite H5.
  by replace (Z.of_nat (Z.to_nat conns)) with (l_next l) by lia.
Qed.

(** ** Property *)

(** C31: In every interleaving of the clients no more than [workers] run at
    a time, and the report counts exactly what the clients, run one after another on
    the same networks, count.  With one worker or more the report is always
    reached: some step can be taken until then, and every step leaves less to do. *)
Theorem load_runs l (Hl : lreach l) :
  len (l_running l) <= Z.max 0 workers /\
  (l_reported l = true ->
    runClients (Z.to_nat conns) 0 zero_stats = Ok (l_stats l)) /\
  (forall l', lstep l l' -> (work l' < work l)%nat) /\
  (0 < workers -> l_reported l = true \/ exists l', lstep l l').
Proof.
  split_and!; [apply (lreach_inv l Hl)|by apply reported_stats|apply lstep_work|].
  - intros Hw. destruct l as [i rs d s []]; [by left|]. right. cbn in *.
    destruct rs as [|[id [[|c cs']|]] rs].
    + destruct (Z.lt_ge_cases i conns); [|by eexists; apply ls_report].
      eexists. by apply ls_start.
    + eexists. by apply (ls_done _ _ _ _ 0 id).
    + eexists. by apply (ls_add _ _ _ _ 0 id c cs').
    + eexists. by apply (ls_release _ _ _ _ 0 id).
Qed.

(** [-w 0] makes a channel without room: the first client never starts. *)
Lemma no_workers l : workers = 0 -> 0 < conns -> lreach l ->
  l = mkLoad 0 [] 0 zero_stats false /\ ~ exists l', lstep l l'.
Proof.
  intros Hw Hc Hl.
  assert (forall l', ~ lstep (mkLoad 0 [] 0 zero_stats false) l') as Hno.
  { intros l' Hs. inversion Hs; subst; try done; try (unfold len in *; cbn in *; lia). }
  induction Hl as [|l l' _ IH Hs]; [split; [done|intros [l' ?]; by eapply Hno]|].
  destruct IH as [-> _]. by destruct (Hno l').
Qed.
End main.

(** Two clients and one worker, no network: both fail; the report does not wait for
    [done]. *)
Lemma load_runs_witness :
  let nets := fun _ => mkNetwork false (fun _ => true) (0, true) 0 in
  exists l, lreach 2 1 nets l /\ l_done l = 1 /\
    runClients nets 2 0 zero_stats = Ok (l_stats l) /\ failed (l_stats l) = 2.
Proof.
  cbv zeta. set (nets := fun _ : int => mkNetwork false (fun _ => true) (0, true) 0).
  set (l := mkLoad 2 [(1, None)] 1 (mkStats 0 2 0 0 0 0 0 0 0) true).
  assert (lreach 2 1 nets l) as Hl.
  { eapply lr_step; [|by apply ls_report; [|repeat constructor]].
    eapply lr_step; [|by apply (ls_done 2 1 nets 2 [(1, Some [])] 1 _ 0 1)].
    eapply lr_step; [|by apply (ls_add 2 1 nets 2 [(1, Some [(Failed, 1)])] 1 (mkStats 0 1 0 0 0 0 0 0 0) 0 1 (Failed, 1) [])].
    eapply lr_step; [|by apply (ls_start 2 1 nets 1 [])].
    eapply lr_step; [|by apply (ls_release 2 1 nets 1 [(0, None)] 0 _ 0 0)].
    eapply lr_step; [|by apply (ls_done 2 1 nets 1 [(0, Some [])] 0 _ 0 0)].
    eapply lr_step; [|by apply (ls_add 2 1 nets 1 [(0, Some [(Failed, 1)])] 0 zero_stats 0 0 (Failed, 1) [])].
    eapply lr_step; [|by apply (ls_start 2 1 nets 0 [])]. apply lr_start. }
  destruct (load_runs 2 1 nets l Hl) as (_ & H & _).
  exists l. split_and!; [exact Hl|done|exact (H eq_refl)|done].
Defined.
