(* ===== verification/Report.v ===== *)
(** * What the load generator prints ([cmd/stresstest/main.go])

    The monitor that prints a line every second, reading the counters one after
    another while the clients add to them, and the report behind [wg.Wait].  Rates and
    megabytes, which the program divides as floating-point numbers, are left out; the
    integers are all here.  A line never shows more than a later one or the report, and
    the numbers of the report add up ([report_adds_up]). *)
From S2P Require Import Prelude.
From S2P Require Import GoTime.
From S2P Require Import Constant.
From S2P Require Import Packet.
From S2P Require Import Framing.
From S2P Require Import Stresstest.
From S2P Require Import Workers.

(** ** The report *)

Definition Load (s : stats) (c : counter) : int :=
  match c with
  | Conned => conned s
  | Failed => failed s
  | Authed => authed s
  | Realdata => realdata s
  | Heartbeats => heartbeats s
  | BytesSent => bytesSent s
  | BytesRecv => bytesRecv s
  | TotalLatency => totalLatency s
  | LatencyCount => latencyCount s
  end.

Record report := mkReport {
  rp_conns : int;
  rp_workers : int;
  rp_connected : int;
  rp_failed : int;
  rp_authenticated : int;
  rp_realtime : int;
  rp_heartbeats : int;
  rp_sent : int;
  rp_recv : int;
  rp_latency : option int
}.

(** The average is printed when there was a login, in nanoseconds in front of
    [Round]. *)
Definition printReport (conns workers : int) (s : stats) : report :=
  mkReport conns workers (Load s Conned) (Load s Failed) (Load s Authed) (Load s Realdata)
    (Load s Heartbeats) (Load s BytesSent) (Load s BytesRecv)
    (let c := Load s LatencyCount in
     if 0 <? c then Some (Z.quot (Load s TotalLatency) c) else None).

(** ** The monitor *)

Record line := mkLine {
  ln_elapsed : int;
  ln_done : int;
  ln_auth : int;
  ln_data : int;
  ln_hb : int;
  ln_fail : int
}.

(** In its [select], in front of [time.Since], in front of the loads of [authed],
    [realdata], [heartbeats] and [failed], or returned. *)
Inductive monitorPc :=
  | MnSelect
  | MnSince (done : int)
  | MnAuth (elapsed done : int)
  | MnData (elapsed done auth : int)
  | MnHb (elapsed done auth data : int)
  | MnFail (elapsed done auth data hb : int)
  | MnReturned.

(** The program with the nanoseconds since its start and the lines printed. *)
Record monitored := mkMonitored {
  m_load : load;
  m_elapsed : int;
  m_pc : monitorPc;
  m_lines : list line
}.

Section monitor.
Context (conns workers : int) (nets : int -> network).

Inductive mstep : monitored -> monitored -> Prop :=
  | ms_load l l' e pc ls :
      lstep conns workers nets l l' -> mstep (mkMonitored l e pc ls) (mkMonitored l' e pc ls)
  | ms_clock l e e' pc ls : e <= e' -> mstep (mkMonitored l e pc ls) (mkMonitored l e' pc ls)
  | ms_tick l e ls :
      mstep (mkMonitored l e MnSelect ls) (mkMonitored l e (MnSince (l_done l)) ls)
  | ms_since l e d ls :
      mstep (mkMonitored l e (MnSince d) ls)
        (mkMonitored l e (if 30 * 1000000000 <? e then MnReturned else MnAuth e d) ls)
  | ms_auth l e e0 d ls :
      mstep (mkMonitored l e (MnAuth e0 d) ls) (mkMonitored l e (MnData e0 d (Load (l_stats l) Authed)) ls)
  | ms_data l e e0 d a ls :
      mstep (mkMonitored l e (MnData e0 d a) ls) (mkMonitored l e (MnHb e0 d a (Load (l_stats l) Realdata)) ls)
  | ms_hb l e e0 d a r ls :
      mstep (mkMonitored l e (MnHb e0 d a r) ls) (mkMonitored l e (MnFail e0 d a r (Load (l_stats l) Heartbeats)) ls)
  | ms_fail l e e0 d a r h ls :
      mstep (mkMonitored l e (MnFail e0 d a r h) ls)
        (mkMonitored l e MnSelect (ls ++ [mkLine e0 d a r h (Load (l_stats l) Failed)]))
  | ms_stop l e ls :
      l_reported l = true -> mstep (mkMonitored l e MnSelect ls) (mkMonitored l e MnReturned ls).

Inductive mreach : monitored -> Prop :=
  | mr_start : mreach (mkMonitored (mkLoad 0 [] 0 zero_stats false) 0 MnSelect [])
  | mr_step m m' : mreach m -> mstep m m' -> mreach m'.

(** ** Lemmas *)

(** What a list of [Add]s adds to a counter. *)
Definition counter_eq_dec (c1 c2 : counter) : {c1 = c2} + {c1 <> c2}.
Proof. decide equality. Defined.

Definition counted (c : counter) (cs : list (counter * int)) : Z :=
  foldr (fun a n => (if counter_eq_dec a.1 c then a.2 else 0) + n) 0 cs.

Lemma counted_app c cs1 cs2 : counted c (cs1 ++ cs2) = counted c cs1 + counted c cs2.
Proof.
  induction cs1 as [|a cs1 IH]; [done|]. change ((a :: cs1) ++ cs2) with (a :: (cs1 ++ cs2)).
  unfold counted in *. cbn [foldr]. rewrite IH. lia.
Qed.

Lemma Load_AddTo s a c : Load (AddTo s a) c = Load s c + (if counter_eq_dec a.1 c then a.2 else 0).
Proof.
  destruct a as [k n], s. unfold AddTo. cbn [fst snd].
  destruct (counter_eq_dec k c) as [->|Hk]; [by destruct c; cbn|]. rewrite Z.add_0_r. by destruct k, c; cbn.
Qed.

Lemma Load_adds c cs : forall s, Load (fold_left AddTo cs s) c = Load s c + counted c cs.
Proof.
  induction cs as [|a cs IH]; intros s; [cbn; lia|]. cbn [fold_left]. rewrite IH, Load_AddTo.
  change (counted c (a :: cs)) with ((if counter_eq_dec a.1 c then a.2 else 0) + counted c cs). lia.
Qed.

(** One client: it either fails or logs in; what follows is counted at most as often
    as it is sent. *)
Record fair (n : Z) (f : counter -> Z) : Prop := {
  fr_all : f Authed + f Failed = n;
  fr_latency : f LatencyCount = f Authed;
  fr_conned : 0 <= f Authed <= f Conned;
  fr_conns : f Conned <= n;
  fr_data : 0 <= f Realdata <= 2 * f Authed;
  fr_hb : 0 <= 2 * f Heartbeats <= f Realdata
}.

Lemma client_fair net id : fair 1 (fun c => counted c (clientAdds net id)).
Proof.
  unfold clientAdds. destruct (dials net); cbn [negb]; [|split; cbn; lia].
  destruct (writes_ok net 0); cbn [negb]; [|split; cbn; lia].
  destruct ((reply net).2); cbn [app];
    (destruct (answered net); cbn [negb]; [|split; cbn; lia]);
    (destruct (writes_ok net 1); cbn [negb]; [|split; cbn; lia]);
    (destruct (writes_ok net 2); cbn [negb]; [|split; cbn; lia]);
    (destruct (writes_ok net 3); cbn [negb]; [|split; cbn; lia]);
    (destruct (writes_ok net 4); cbn [negb]; split; cbn; lia).
Qed.

Lemma all_fair n : forall i, fair (Z.of_nat n) (fun c => counted c (all_adds nets i (Z.of_nat n))).
Proof.
  induction n as [|n IH]; intros i.
  { assert (all_adds nets i (Z.of_nat 0) = []) as E by done. split; rewrite E; cbn; lia. }
  assert (all_adds nets i (Z.of_nat (S n)) = clientAdds (nets i) i ++ all_adds nets (i + 1) (Z.of_nat n)) as E.
  { unfold all_adds. rewrite (seqZ_cons i) by lia. cbn [fmap list_fmap concat].
    replace (Z.pred (Z.of_nat (S n))) with (Z.of_nat n) by lia. done. }
  destruct (IH (i + 1)) as [A1 A2 A3 A4 A5 A6], (client_fair (nets i) i) as [B1 B2 B3 B4 B5 B6].
  split; rewrite E, !counted_app; lia.
Qed.

Lemma reported_fair l : lreach conns workers nets l -> l_reported l = true ->
  fair (Z.max 0 conns) (Load (l_stats l)).
Proof.
  intros Hl Hr. pose proof (reported_stats conns workers nets l Hl Hr) as H.
  rewrite runClients_adds in H. apply Ok_inj in H. rewrite <- H.
  destruct (all_fair (Z.to_nat conns) 0) as [A1 A2 A3 A4 A5 A6].
  split; rewrite !Load_adds; cbn [Load zero_stats authed failed conned realdata heartbeats latencyCount]; lia.
Qed.

(** *** Counters only grow *)

Definition below (s1 s2 : stats) : Prop :=
  authed s1 <= authed s2 /\ realdata s1 <= realdata s2 /\ heartbeats s1 <= heartbeats s2 /\ failed s1 <= failed s2.

#[local] Instance below_preorder : PreOrder below.
Proof. split; [by intros s|]. intros s1 s2 s3 (? & ? & ? & ?) (? & ? & ? & ?). unfold below. lia. Qed.

(** The [Add]s to these counters are of one. *)
Definition ones (cs : list (counter * int)) : Prop :=
  Forall (fun a => match a.1 with Authed | Realdata | Heartbeats | Failed => a.2 = 1 | _ => True end) cs.

Lemma client_ones net id : ones (clientAdds net id).
Proof.
  unfold clientAdds, ones. repeat match goal with |- context [if ?b then _ else _] => destruct b end;
    cbn; repeat constructor.
Qed.

Definition running_ones (l : load) : Prop :=
  Forall (fun r : int * option (list (counter * int)) => match r.2 with Some cs => ones cs | None => True end) (l_running l).

Lemma lstep_below l l' : running_ones l -> lstep conns workers nets l l' ->
  running_ones l' /\ below (l_stats l) (l_stats l') /\ l_done l <= l_done l'.
Proof.
  unfold running_ones. intros Hl Hs. destruct Hs as [i rs d s Hi Hr|i rs d s k id c cs Hk|i rs d s k id Hk
    |i rs d s k id Hk|i rs d s Hi Hf]; cbn in *.
  - split; [|split; [reflexivity|lia]]. apply Forall_app_2; [done|]. apply Forall_singleton, client_ones.
  - pose proof (proj1 (Forall_lookup _ _) Hl k _ Hk) as H. cbn in H. inversion_clear H as [|? ? Hc Hcs].
    split; [by apply Forall_insert|]. split; [|lia]. destruct s, c as [[] n]; cbn in *; unfold below; cbn; lia.
  - split; [by apply Forall_insert|split; [reflexivity|lia]].
  - split; [|split; [reflexivity|lia]]. by apply Forall_delete.
  - split; [done|split; [reflexivity|lia]].
Qed.

(** *** The monitor *)

(** The numbers of a line, or of a line begun, are at most those of the counters. *)
Definition shown (ln : line) (s : stats) (d : int) : Prop :=
  ln_done ln <= d /\ ln_auth ln <= authed s /\ ln_data ln <= realdata s /\ ln_hb ln <= heartbeats s /\ ln_fail ln <= failed s.

Definition line_le (a b : line) : Prop :=
  ln_elapsed a <= ln_elapsed b /\ ln_done a <= ln_done b /\ ln_auth a <= ln_auth b /\
  ln_data a <= ln_data b /\ ln_hb a <= ln_hb b /\ ln_fail a <= ln_fail b.

(** What the monitor has read of the line it is at, with the counters for the rest:
    the least it can print. *)
Definition pending (pc : monitorPc) (e : int) (s : stats) (d : int) : line :=
  match pc with
  | MnSelect | MnReturned => mkLine e d (authed s) (realdata s) (heartbeats s) (failed s)
  | MnSince d0 => mkLine e d0 (authed s) (realdata s) (heartbeats s) (failed s)
  | MnAuth e0 d0 => mkLine e0 d0 (authed s) (realdata s) (heartbeats s) (failed s)
  | MnData e0 d0 a => mkLine e0 d0 a (realdata s) (heartbeats s) (failed s)
  | MnHb e0 d0 a r => mkLine e0 d0 a r (heartbeats s) (failed s)
  | MnFail e0 d0 a r h => mkLine e0 d0 a r h (failed s)
  end.

Record minv (m : monitored) : Prop := {
  mi_load : lreach conns workers nets (m_load m);
  mi_ones : running_ones (m_load m);
  mi_pending : forall ln, ln ∈ m_lines m ->
    line_le ln (pending (m_pc m) (m_elapsed m) (l_stats (m_load m)) (l_done (m_load m)));
  mi_shown : shown (pending (m_pc m) (m_elapsed m) (l_stats (m_load m)) (l_done (m_load m)))
    (l_stats (m_load m)) (l_done (m_load m));
  mi_elapsed : ln_elapsed (pending (m_pc m) (m_elapsed m) (l_stats (m_load m)) (l_done (m_load m))) <= m_elapsed m;
  mi_sorted : forall i j a b, (i <= j)%nat -> m_lines m !! i = Some a -> m_lines m !! j = Some b -> line_le a b;
  mi_late : forall ln, ln ∈ m_lines m -> ln_elapsed ln <= 30 * 1000000000;
  mi_begun : match m_pc m with MnSelect | MnSince _ | MnReturned => True | _ =>
    ln_elapsed (pending (m_pc m) (m_elapsed m) (l_stats (m_load m)) (l_done (m_load m))) <= 30 * 1000000000 end
}.

#[local] Instance line_le_preorder : PreOrder line_le.
Proof.
  split; [intros a; unfold line_le; lia|].
  intros a b c (? & ? & ? & ? & ? & ?) (? & ? & ? & ? & ? & ?). unfold line_le. lia.
Qed.

Lemma line_le_refl a : line_le a a.
Proof. reflexivity. Qed.

(** A step that leaves the lines alone and does not take back what is pending. *)
Lemma minv_keep m m' : minv m -> m_lines m' = m_lines m ->
  lreach conns workers nets (m_load m') -> running_ones (m_load m') ->
  line_le (pending (m_pc m) (m_elapsed m) (l_stats (m_load m)) (l_done (m_load m)))
    (pending (m_pc m') (m_elapsed m') (l_stats (m_load m')) (l_done (m_load m'))) ->
  shown (pending (m_pc m') (m_elapsed m') (l_stats (m_load m')) (l_done (m_load m')))
    (l_stats (m_load m')) (l_done (m_load m')) ->
  ln_elapsed (pending (m_pc m') (m_elapsed m') (l_stats (m_load m')) (l_done (m_load m'))) <= m_elapsed m' ->
  match m_pc m' with MnSelect | MnSince _ | MnReturned => True | _ =>
    ln_elapsed (pending (m_pc m') (m_elapsed m') (l_stats (m_load m')) (l_done (m_load m'))) <= 30 * 1000000000 end ->
  minv m'.
Proof.
  intros [H1 H2 H3 H4 H5 H6 H7 H8] Hls Hl Ho Hle Hsh He Hb. split; [done|done| |done|done| | |done].
  - intros ln Hin. rewrite Hls in Hin. etrans; [by apply H3|exact Hle].
  - by rewrite Hls.
  - by rewrite Hls.
Qed.

Lemma mstep_inv m m' : minv m -> mstep m m' -> minv m'.
Proof.
  intros Hm Hs. pose proof Hm as [H1 H2 H3 H4 H5 H6 H7 H8].
  destruct Hs as [l l' e pc ls Hl|l e e' pc ls He|l e ls|l e d ls|l e e0 d ls|l e e0 d a ls|l e e0 d a r ls|l e e0 d a r h ls|l e ls Hr];
    cbn in *.
  - destruct (lstep_below l l' H2 Hl) as (Ho & (B1 & B2 & B3 & B4) & Hd).
    apply (minv_keep (mkMonitored l e pc ls)); cbn; [done|done|by eapply lr_step|done| | | |];
      destruct pc; cbn in *; unfold line_le, shown in *; cbn in *; try done; lia.
  - apply (minv_keep (mkMonitored l e pc ls)); cbn; [done|done|done|done| | | |];
      destruct pc; cbn in *; unfold line_le, shown in *; cbn in *; try done; lia.
  - apply (minv_keep (mkMonitored l e MnSelect ls)); cbn; try done; unfold line_le, shown in *; cbn in *; lia.
  - destruct (Z.ltb_spec (30 * 1000000000) e);
      (apply (minv_keep (mkMonitored l e (MnSince d) ls)); cbn; [done|done|done|done| | | |]);
      unfold line_le, shown in *; cbn in *; try done; lia.
  - apply (minv_keep (mkMonitored l e (MnAuth e0 d) ls)); cbn; try done; unfold line_le, shown in *; cbn in *; lia.
  - apply (minv_keep (mkMonitored l e (MnData e0 d a) ls)); cbn; try done; unfold line_le, shown in *; cbn in *; lia.
  - apply (minv_keep (mkMonitored l e (MnHb e0 d a r) ls)); cbn; try done; unfold line_le, shown in *; cbn in *; lia.
  - assert (line_le (mkLine e0 d a r h (failed (l_stats l))) (mkLine e (l_done l) (authed (l_stats l))
      (realdata (l_stats l)) (heartbeats (l_stats l)) (failed (l_stats l)))) as Hnew
      by (unfold line_le, shown in *; cbn in *; lia).
    split; cbn; try done.
    + intros ln [Hin| ->%list_elem_of_singleton]%elem_of_app; [etrans; [by apply H3|exact Hnew]|exact Hnew].
    + intros i j x y Hij Hx Hy. apply lookup_snoc_Some in Hx as [[Hi Hx]|[-> <-]]; apply lookup_snoc_Some in Hy as [[Hj Hy]|[-> <-]].
      * exact (H6 i j x y Hij Hx Hy).
      * apply H3. by eapply list_elem_of_lookup_2.
      * lia.
      * reflexivity.
    + intros ln [Hin| ->%list_elem_of_singleton]%elem_of_app; [by apply H7|done].
  - apply (minv_keep (mkMonitored l e MnSelect ls)); cbn; try done; unfold line_le, shown in *; cbn in *; lia.
Qed.

Lemma mreach_inv m : mreach m -> minv m.
Proof.
  induction 1 as [|m m' _ IH Hs]; [|by eapply mstep_inv].
  split; cbn; try done; try (unfold shown; cbn; lia); try (intros ln Hin; by apply elem_of_nil in Hin).
  - apply lr_start.
  - by constructor.
Qed.
End monitor.

(** ** Properties *)

(** C32: What the load generator prints holds together.  In every interleaving of the
    clients, the workers and the monitor, the lines the monitor prints never go back, stop
    after thirty seconds and never show more than is there; and the report, which comes
    when every client is through, adds up: each client failed or was authenticated, an
    average is printed exactly when one was, and no client sent more than two realtime
    messages or a heartbeat without them. *)
Theorem report_adds_up conns workers nets m (Hm : mreach conns workers nets m) :
  let s := l_stats (m_load m) in
  let r := printReport conns workers s in
  (forall i j a b, (i <= j)%nat -> m_lines m !! i = Some a -> m_lines m !! j = Some b -> line_le a b) /\
  (forall ln, ln ∈ m_lines m -> shown ln s (l_done (m_load m)) /\ ln_elapsed ln <= 30 * 1000000000) /\
  (l_reported (m_load m) = true ->
     rp_authenticated r + rp_failed r = Z.max 0 conns /\
     rp_authenticated r <= rp_connected r <= Z.max 0 conns /\
     rp_realtime r <= 2 * rp_authenticated r /\ 2 * rp_heartbeats r <= rp_realtime r /\
     (is_Some (rp_latency r) <-> 0 < rp_authenticated r)).
Proof.
  pose proof (mreach_inv conns workers nets m Hm) as [H1 H2 H3 H4 H5 H6 H7 H8]. cbv zeta. split_and!; [exact H6| |].
  - intros ln Hin. split; [|by apply H7]. pose proof (H3 ln Hin). unfold shown, line_le in *. lia.
  - intros Hr. destruct (reported_fair conns workers nets _ H1 Hr) as [F1 F2 F3 F4 F5 F6].
    cbn [rp_authenticated rp_failed rp_connected rp_realtime rp_heartbeats rp_latency printReport].
    rewrite F2. split_and!; try lia. destruct (Z.ltb_spec 0 (Load (l_stats (m_load m)) Authed)).
    + split; [done|by eexists].
    + split; [by intros []|lia].
Qed.

(** One client that cannot connect; the monitor begins a line before it has failed and
    ends it behind the report. *)
Lemma report_adds_up_witness :
  let nets := fun _ => mkNetwork false (fun _ => true) (0, true) 0 in
  exists m, mreach 1 1 nets m /\ m_lines m = [mkLine 0 0 0 0 0 1] /\
    rp_authenticated (printReport 1 1 (l_stats (m_load m))) +
    rp_failed (printReport 1 1 (l_stats (m_load m))) = 1.
Proof.
  cbv zeta. set (nets := fun _ : int => mkNetwork false (fun _ => true) (0, true) 0).
  set (l := mkLoad 1 [(0, None)] 0 (mkStats 0 1 0 0 0 0 0 0 0) true).
  set (m := mkMonitored l 0 MnSelect [mkLine 0 0 0 0 0 1]).
  assert (mreach 1 1 nets m) as Hm.
  { eapply mr_step; [|exact (ms_fail 1 1 nets l 0 0 0 0 0 0 [])].
    eapply mr_step; [|by apply ms_load, ls_report; [|repeat constructor]].
    eapply mr_step; [|apply ms_load, (ls_done 1 1 nets 1 [(0, Some [])] 0 _ 0 0); reflexivity].
    eapply mr_step; [|apply ms_load, (ls_add 1 1 nets 1 [(0, Some [(Failed, 1)])] 0 zero_stats 0 0 (Failed, 1) []); reflexivity].
    eapply mr_step; [|apply ms_hb].
    eapply mr_step; [|apply ms_data].
    eapply mr_step; [|apply ms_auth].
    eapply mr_step; [|exact (ms_since 1 1 nets (mkLoad 1 [(0, Some [(Failed, 1)])] 0 zero_stats false) 0 0 [])].
    eapply mr_step; [|apply ms_tick].
    eapply mr_step; [|by apply ms_load, (ls_start 1 1 nets 0 [])]. apply mr_start. }
  destruct (report_adds_up 1 1 nets m Hm) as (_ & _ & H). destruct (H eq_refl) as [H' _].
  exists m. exact (conj Hm (conj eq_refl H')).
Defined.
