(* ===== verification/Example.v ===== *)
(** * The example server ([cmd/example/main.go])

    The handler of the example and its server as [NewServer] builds it: what it does in
    the life of any vehicle's connection ([example_serves]), the session the simulator of
    [cmd/simclient] has with it as a test of the definitions ([example_session]), and how
    the program ends ([example_exits_early]). *)
From stdpp Require Import gmap.
From S2P Require Import Prelude.
From S2P Require Import GoTime.
From S2P Require Import Constant.
From S2P Require Import Packet.
From S2P Require Import Codec.
From S2P Require Import CodecWire.
From S2P Require Import Framing.
From S2P Require Import FramingSpec.
From S2P Require Import Stream.
From S2P Require Import Payload.
From S2P Require Import Realtime.
From S2P Require Import Crypto.
From S2P Require Import Registry.
From S2P Require Import World.
From S2P Require Import Options.
From S2P Require Import Connection.
From S2P Require Import Server.
From S2P Require Import Sessions.
From S2P Require Import Refine.
From S2P Require Import Telemetry.
From S2P Require Import Idle.
From S2P Require Import Shutdown.
From S2P Require Import Simclient.

(** ** The server *)

(** [TOKEN123] *)
Definition token : bytes :=
  copy (replicate 8 0) [84; 79; 75; 69; 78; 49; 50; 51].

(** Logging a connection's VIN reads the connection; the methods of other
    interfaces are never called on the handler. *)
Definition MyHandler : iface := fun hist p cb =>
  match cb return prog (answer cb) with
  | OnVehicleLogin msg =>
      Call (ApiConnInfo p) (fun conn =>
        Ret (inl (Some (mkLoginResponse (vl_LoginTime msg) (vl_Sequence msg) 0x01 token))))
  | OnVehicleLogout msg => Call (ApiConnInfo p) (fun conn => Ret (inl tt))
  | OnRealtimeData msg => Call (ApiConnInfo p) (fun conn => Ret (inl tt))
  | OnReissueData msg => Call (ApiConnInfo p) (fun conn => Ret (inl tt))
  | OnHeartbeat => Call (ApiConnInfo p) (fun conn => Ret (inl tt))
  | _ => Ret (inr ErrClosed)
  end.

Definition AllowAll : iface := fun hist p cb =>
  match cb return prog (answer cb) with
  | OnAuthenticate vin => Ret (AllowAll_Authenticate vin)
  | _ => Ret (inr ErrClosed)
  end.

Definition server : Options.Server :=
  NewServer
    [WithListenAddr ":32960"; WithMaxConnections 50000; WithHandler (Some MyHandler);
     WithAuthenticator (Some AllowAll); WithReadTimeout (5 * time_Minute);
     WithWriteTimeout (10 * time_Second); WithIdleTimeout (10 * time_Minute)].

Definition config : Config := config_of server.

(** [main] returns with [Start]; the goroutine that waits for a signal calls [Stop]
    and then [os.Exit].  Either ends the process.  (The goroutine that logs
    [ConnCount] every thirty seconds takes [ps_user] steps.) *)
Definition exited (s : proc) : Prop := pr_main s = MainReturned \/ pr_stop s = StReturned.

(** ** A session *)

(** The server with one connection, accepted at 14:30. *)
Definition started_at : Time := Date 2026 5 14 14 30 0 0.
Definition started : outcome World :=
  let! '(_, w) := accept config [105; 100] 1%positive (initial started_at) in Ok w.

(** The world behind a call that returns. *)
Definition world_of {A} (m : outcome (A * World)) : World :=
  match m with Ok (_, w) => w | _ => initial started_at end.

Definition started_world : World := match started with Ok w => w | _ => initial started_at end.

Definition bytes_of (m : outcome bytes) : bytes := match m with Ok b => b | _ => [] end.

(** What was asked of the user and what was written, in order. *)
Definition callbacks (w : World) : list callback :=
  omap (fun e => match e with EvCallback _ cb => Some cb | _ => None end) (rev (w_trace w)).
Definition writes (w : World) : list bytes :=
  omap (fun e => match e with EvWrite _ pkt => Some pkt | _ => None end) (rev (w_trace w)).

(** What the handler is told in the session. *)
Definition sim_login : VehicleLoginData :=
  mkVehicleLoginData (Date 2026 5 14 14 30 0 0) 1
    [83; 73; 77; 67; 65; 82; 68; 48; 48; 48; 48; 48; 48; 48; 48; 49] 0 [].

Definition sim_message (seq : int) : RealtimeMessage :=
  mkRealtimeMessage (Date 2026 5 14 14 30 (bcd (to_byte (seq * 10))) 0)
    (Some (vehicleOf (sim_vehicle seq))) [] None None (Some (positionOf (sim_position seq)))
    (Some (extremeOf (sim_extreme seq))) None None.

Definition sim_logout : VehicleLogoutData :=
  mkVehicleLogoutData (Date 2026 5 14 14 35 0 0) 3.


(** The example's user code is user code the invariant of the server is about. *)
Lemma example_user_ok : user_ok config.
Proof.
  split.
  - intros hist p cb. destruct cb; cbn; try done. intros. check_bytes.
  - intros hist p cb w _ [c Hc]. destruct cb; cbn; unfold bindM, conn; by rewrite ?Hc.
Qed.

(** Its answer to a login. *)
Definition example_answer (d : VehicleLoginData) : LoginResponse :=
  mkLoginResponse (vl_LoginTime d) (vl_Sequence d) 0x01 token.

Lemma example_answers :
  (forall vin, answers config (OnAuthenticate vin) (inl true)) /\
  (forall d, answers config (OnVehicleLogin d) (inl (Some (example_answer d)))) /\
  (forall m, exists a, answers config (report_call m) a) /\
  (forall d, exists a, answers config (OnVehicleLogout d) a).
Proof.
  assert (forall cb (a : answer cb), (forall hist p, cfg_user config hist p cb = Call (ApiConnInfo p) (fun _ => Ret a)) ->
    answers config cb a) as Hlooks.
  { intros cb a Ha hist p w [c Hc]. rewrite Ha. cbn. unfold bindM, conn. by rewrite Hc. }
  split_and!.
  - by intros vin hist p w _.
  - intros d. by apply Hlooks.
  - intros [m|m]; exists (inl tt); by apply Hlooks.
  - intros d. exists (inl tt). by apply Hlooks.
Qed.

Lemma example_stamped d : stamped d (example_answer d) = example_answer d.
Proof. unfold stamped. by destruct (IsZero _). Qed.

Lemma example_key d : key_of (example_answer d) = Some (DeriveAESKey token).
Proof. done. Qed.

Lemma without_snoc l p : p ∉ l -> without (l ++ [p]) p = l.
Proof.
  induction l as [|q l IH]; cbn; intros Hn; [by rewrite decide_True|].
  apply not_elem_of_cons in Hn as [Hq Hl]. rewrite decide_False by congruence. by rewrite IH.
Qed.

(** The example has no forwarders. *)
Lemma example_trip_events p tp ms d :
  trip_events config p tp ms d (example_answer d) =
    [EvCallback p (OnAuthenticate (tr_vin tp)); EvCallback p (OnVehicleLogin d);
     EvWrite p (frame CmdLogin RespSuccess (tr_vin tp) EncNone (EncodeLoginResponse (example_answer d)))] ++
    ((fun m => EvCallback p (report_call m)) <$> ms) ++ [EvCallback p (OnVehicleLogout (logout_data tp))].
Proof.
  unfold trip_events. rewrite example_stamped. cbn [cfg_auth cfg_forwarders config seq fmap list_fmap app].
  do 3 f_equal. change (delivered_to config p) with (fun cb (msg : ForwardMsg) => [EvCallback p cb]). cbv beta.
  induction ms as [|m ms IH]; [done|]. cbn. by f_equal.
Qed.

(** ** Properties *)

(** C39: The whole life of a vehicle's connection at the example server.  From any state of
    it with room, let a new connection be accepted, the vehicle make a trip (a login, any
    reports without alarms in the protocol's layout and a logout, encrypted under the key
    of the example's token), the network cut the frames at any safe places and take the
    answer, and the vehicle hang up.  Then the read loop asks [AllowAll] and the handler for the login, answers it
    once, with its own time and sequence number and the token, tells the handler of each
    report, with the times and fields the vehicle laid out, and of the logout, and nothing
    else; meanwhile the connection is counted and registered under the VIN; and when it has
    hung up it is closed, and index, count and registry are what they were before. *)
Theorem example_serves w w0 id p tp d reads
    (Hr : reachable config w) (Hp : w_heap w !! p = None)
    (Hid : forall q c, w_heap w !! q = Some c -> c_id c <> id) (Hreg : p ∉ entry (w_vinRegistry w) (tr_vin tp))
    (Ha : accept config id p w = Ok (true, w0)) (Hnet : w_net w = [])
    (Htp : trip_ok tp) (Hd : DecodeLoginData (tr_login tp) = Ok d)
    (Hreads : reads_of [] (trip_packets tp (Some (DeriveAESKey token))) reads) (Hne : Forall (fun r => r <> []) reads) :
  exists ms w1 w2, Forall2 describes (tr_reports tp) ms /\
    run config p (ReadBytes <$> reads) w0 = Ok (tt, w1) /\
    rev (w_trace w1) = rev (w_trace w) ++
      [EvCallback p (OnAuthenticate (tr_vin tp)); EvCallback p (OnVehicleLogin d);
       EvWrite p (frame CmdLogin RespSuccess (tr_vin tp) EncNone (EncodeLoginResponse (example_answer d)))] ++
      ((fun m => EvCallback p (report_call m)) <$> ms) ++ [EvCallback p (OnVehicleLogout (logout_data tp))] /\
    w_connections w1 !! id = Some p /\ w_connCount w1 = w_connCount w + 1 /\
    entry (w_vinRegistry w1) (tr_vin tp) = entry (w_vinRegistry w) (tr_vin tp) ++ [p] /\
    run config p [ReadError] w1 = Ok (tt, w2) /\ w_trace w2 = EvNetClose p :: w_trace w1 /\
    w_connections w2 = w_connections w /\ w_connCount w2 = w_connCount w /\
    forall vin, entry (w_vinRegistry w2) vin = entry (w_vinRegistry w) vin.
Proof.
  assert (reachable config w0) as Hr0 by (eapply reach_step; [exact Hr|by eapply step_accept]).
  pose proof (reachable_inv _ _ example_user_ok Hr) as Hw. pose proof (reachable_inv _ _ example_user_ok Hr0) as Hw0.
  unfold accept in Ha. destruct (_ <=? _); [done|]. injection Ha as Ha.
  set (c := newConnection config id (w_now w)). assert (w_heap w0 !! p = Some c) as Hc.
  { rewrite <- Ha. apply lookup_insert_eq. }
  destruct example_answers as (A1 & A2 & A3 & A4).
  destruct (trip_run config p w0 c tp d (example_answer d) reads) as (ms & w1 & Hms & Hrun & Hsame);
    try done; [apply example_user_ok|by rewrite <- Ha|check_bytes|].
  set (cW := with_key None _) in Hsame. set (W := mkWorld _ _ _ _ _ _ _ _) in Hsame.
  assert (w_heap W !! p = Some cW) as HcW by apply lookup_insert_eq.
  assert (conn_ok cW) as HokW.
  { destruct (proj1 Hw0 p c Hc) as (Hdec & _). unfold conn_ok. cbn. split_and!; try done. right. exact (tp_vin tp Htp). }
  assert (Connection_Close p W = Ok (tt, closed_world p cW W)) as HclW
    by (rewrite (Connection_Close_eq p W cW HcW HokW); by destruct (decide _)).
  assert (same W w1) as Hsym by (by symmetry).
  destruct (blind_same _ _ _ _ _ (blind_Close p) Hsym HclW) as (w2 & Hcl & Hs2).
  destruct (same_conn w1 W p cW Hsame HcW) as (c1 & Hc1 & He).
  assert (w_trace w1 = rev (trip_events config p tp ms d (example_answer d)) ++ w_trace w) as Htr.
  { rewrite (f_equal w_trace Hsame : w_trace w1 = w_trace W). cbn. by rewrite <- Ha. }
  exists ms, w1, w2. split; [exact Hms|]. split; [exact Hrun|]. split_and!.
  - rewrite Htr, rev_app_distr, rev_involutive. f_equal.
    rewrite example_trip_events. done.
  - rewrite (f_equal w_connections Hsame : w_connections w1 = w_connections W). cbn. rewrite <- Ha. apply lookup_insert_eq.
  - rewrite (f_equal w_connCount Hsame : w_connCount w1 = w_connCount W). cbn. by rewrite <- Ha.
  - rewrite (f_equal w_vinRegistry Hsame : w_vinRegistry w1 = w_vinRegistry W). cbn. rewrite <- Ha.
    unfold add, entry at 1. cbn. by rewrite lookup_insert_eq.
  - cbn [run]. rewrite (bindM_ok (runOnce config p ReadError) _ w1 false w2); [done|]. unfold runOnce.
    rewrite (bindM_ok (conn p) _ w1 c1 w1) by (unfold conn; by rewrite Hc1).
    rewrite (f_equal c_ctxDone He : c_ctxDone c1 = false). by rewrite (bindM_ok _ _ _ _ _ Hcl).
  - rewrite <- (f_equal w_trace Hs2 : w_trace (closed_world p cW W) = w_trace w2), Htr. cbn. by rewrite <- Ha.
  - rewrite <- (f_equal w_connections Hs2 : w_connections (closed_world p cW W) = w_connections w2). cbn.
    rewrite <- Ha. cbn. apply delete_insert_id. destruct (w_connections w !! id) as [q|] eqn:Hq; [|done].
    apply Hw in Hq as (e & Heq & Hie & _). by destruct (Hid q e Heq).
  - rewrite <- (f_equal w_connCount Hs2 : w_connCount (closed_world p cW W) = w_connCount w2). cbn. rewrite <- Ha. cbn. lia.
  - intros vin. rewrite <- (f_equal w_vinRegistry Hs2 : w_vinRegistry (closed_world p cW W) = w_vinRegistry w2). cbn.
    rewrite <- Ha. cbn. rewrite decide_False by (intros E; pose proof (tp_vin tp Htp) as Hv; by rewrite E in Hv).
    rewrite entry_remove, entry_add. destruct (decide (tr_vin tp = vin)) as [<-|]; [|done].
    by apply without_snoc.
Qed.

(** The sample trip at the example server, each frame in a read of its own. *)
Lemma example_serves_witness :
  exists ms w1 w2, Forall2 describes (tr_reports sample_trip) ms /\
    run config 1%positive (ReadBytes <$> (packet_frame <$> trip_packets sample_trip (Some (DeriveAESKey token))))
      started_world = Ok (tt, w1) /\
    length (w_trace w1) = 6%nat /\ w_connCount w1 = 1 /\
    run config 1%positive [ReadError] w1 = Ok (tt, w2) /\ w_connections w2 = ∅ /\ w_connCount w2 = 0.
Proof.
  pose proof (trip_packets_wf sample_trip (example_answer sample_login) sample_trip_ok ltac:(check_bytes)) as Hwf.
  destruct (example_serves (initial started_at) started_world [105; 100] 1%positive sample_trip sample_login
    (packet_frame <$> trip_packets sample_trip (Some (DeriveAESKey token))))
    as (ms & w1 & w2 & H1 & H2 & H3 & _ & H5 & _ & H7 & _ & H9 & H10 & _).
  - apply reach_start.
  - reflexivity.
  - intros q c. cbn. by rewrite lookup_empty.
  - change (entry _ _) with (@nil positive). apply not_elem_of_nil.
  - reflexivity.
  - reflexivity.
  - exact sample_trip_ok.
  - vm_compute. reflexivity.
  - by apply reads_of_frames.
  - apply Forall_fmap, Forall_true. intros pkt. by destruct pkt.
  - exists ms, w1, w2. split; [exact H1|]. split; [exact H2|]. split; [|split; [exact H5|split; [exact H7|split; [exact H9|exact H10]]]].
    rewrite <- length_rev, H3. apply Forall2_length in H1. rewrite !length_app, length_fmap, <- H1. reflexivity.
Defined.

(** A test of the definitions, end to end: a session is one login,
    three realtime messages, two heartbeats and a logout, each told to the
    handler once and in that order; the login is answered in the clear, with
    the token, and both heartbeats with the server's clock, encrypted under the
    key the token gives.  The vehicle is found under its VIN until it hangs up;
    then its connection is closed and nothing of it remains in the index or the
    registry.  A single read holding all the frames has the same effects. *)
Example example_session :
  exists frames w0 w1 w2 w3 body,
    session = Ok frames /\ started = Ok w0 /\
    run config 1%positive (ReadBytes <$> frames) w0 = Ok (tt, w1) /\
    callbacks w1 =
      [OnAuthenticate sim_vin; OnVehicleLogin sim_login; OnRealtimeData (sim_message 1);
       OnRealtimeData (sim_message 2); OnRealtimeData (sim_message 3); OnHeartbeat; OnHeartbeat;
       OnVehicleLogout sim_logout] /\
    writes w1 =
      [frame CmdLogin RespSuccess sim_vin EncNone
         (EncodeLoginResponse (mkLoginResponse (vl_LoginTime sim_login) 1 1 token));
       frame CmdHeartbeat RespSuccess sim_vin EncAES128 body;
       frame CmdHeartbeat RespSuccess sim_vin EncAES128 body] /\
    DecryptAES128 body (DeriveAESKey token) = Ok (encodeBCDTime started_at) /\
    get (w_vinRegistry w1) sim_vin = Some 1%positive /\ w_connCount w1 = 1 /\
    run config 1%positive [ReadError] w1 = Ok (tt, w2) /\
    get (w_vinRegistry w2) sim_vin = None /\ w_connections w2 = ∅ /\ w_connCount w2 = 0 /\
    run config 1%positive [ReadBytes (concat frames)] w0 = Ok (tt, w3) /\ w_trace w3 = w_trace w1.
Proof.
  pose (w0 := match started with Ok w => w | _ => initial started_at end).
  pose (frames := match session with Ok f => f | _ => [] end).
  pose (w1 := world_of (run config 1%positive (ReadBytes <$> frames) w0)).
  exists frames, w0, w1, (world_of (run config 1%positive [ReadError] w1)),
    (world_of (run config 1%positive [ReadBytes (concat frames)] w0)),
    (bytes_of (EncryptAES128 (encodeBCDTime started_at) (DeriveAESKey token))).
  split_and!; vm_compute; reflexivity.
Qed.

(** A signal can end the example with its vehicles connected: as soon as [Stop] has
    closed the listener, [Start] returns and [main] with it, and the process is over
    before [Stop] has closed a connection, waited for a read loop or come to the
    forwarders. *)
Theorem example_exits_early :
  exists s, preachable config s /\ exited s /\ pr_stop s = StListenerClosed /\ 1%positive ∈ pr_readers s /\
    exists c, w_heap (pr_world s) !! 1%positive = Some c /\ c_netClosed c = false.
Proof.
  set (w := match started with Ok w => w | _ => initial started_at end).
  exists (mkProc (set_stopped w) false MainReturned Waiting ({[ 1%positive ]} ∪ ∅) 2 StListenerClosed).
  split; [|split; [by left|split; [done|split; [set_solver|by eexists]]]].
  exists started_at. change (start_proc config started_at) with
    (mkProc (initial started_at) true MainAccepts Waiting ∅ 1 StNotCalled).
  eapply rtc_l; [apply ps_accept|]. eapply rtc_l.
  { apply (ps_store config _ true Waiting ∅ 1 StNotCalled [105; 100] 1%positive true w).
    - reflexivity.
    - intros q c. cbn. by rewrite lookup_empty.
    - vm_compute. reflexivity. }
  eapply rtc_l; [apply ps_cancel|]. eapply rtc_l; [apply ps_listener|].
  apply rtc_once. exact (ps_error config (set_stopped w) false Waiting _ 2 StListenerClosed).
Qed.
